(* ===== verification/_CoqProject ===== *)
-Q . S2P
Prelude.v
PyStr.v
PyExc.v
PyRe.v
PyDict.v
PyFloat.v
PyJson.v
PyTime.v
TimeFacts.v
PyHeap.v
PyIO.v
ArgParse.v
ArgFacts.v
ArgLines.v
B58Prefix.v
JobSelection.v
ClientOutput.v
Daemons.v
Client.v
ClientCommands.v
ClientFacts.v
Sandbox.v
SandboxFacts.v
SandboxStops.v
SandboxSpec.v
SandboxClients.v
DaemonFacts.v
PreCommit.v
CoverageScript.v
DocsScripts.v
Michelson.v
DocsRoles.v
PackageRoles.v
DocsConf.v
OcamlDot.v
Genesis.v
Constants.v
Tls.v
Utils.v
UtilsFacts.v
Availability.v
ScrubFacts.v
Protocol.v
Bls.v
RunScripts.v
Fixtures.v
FixtureFacts.v
SessionOptions.v
Examples.v
JobsReports.v
CommandLines.v
