(* ===== verification/Prelude.v ===== *)
(** * A verification of the Python tooling of T4L3NT

    T4L3NT is a fork of the Tezos node.  The node is written in OCaml; around it
    the repository keeps its own Python program: a framework that runs nodes,
    clients and daemons in a sandbox and reads what they print
    (src/tests_python), a plugin that distributes the tests over CI jobs, and
    scripts for the CI, for commits and for the documentation (src/scripts,
    src/docs).  This library models that program and proves what makes it
    correct, and where it is not, what it does instead.

    ** The program and its parts

    - The launcher framework.  tools/utils.py and the scripts drive a Sandbox
      (launchers/sandbox.py), which registers Node objects (daemons/node.py),
      clients (client/client.py, tools/client_regression.py) and bakers,
      endorsers and accusers (daemons/*.py).  A Node or daemon owns a process; a
      client runs tezos-client once per command and parses its output with the
      classes of client/client_output.py.
    - The plugin pytest_plugins/job_selection.py reads the timings of earlier
      runs, distributes test classes over jobs with a greedy knapsack and
      deselects what does not belong to the current job.
    - conftest.py: the hooks of incremental tests and the fixtures that put a
      sandbox, its clients and the converters of recorded output around the tests
      of a class; the protocol modules of the suites, and three example scripts.
    - Scripts: b58_prefix.py (version bytes of base58check), ci/coverage.py
      (search of a coverage job in GitLab), pre_commit.py (the commit hook),
      run_testnet.py, run_node_baker.py, jobs_fetch_reports.py (the timings
      of earlier pipelines, which the plugin reads), and the Python 2 scripts
      create_genesis_info.py (commitments of the genesis) and ocamldot.py (graph
      of modules).
    - Documentation: the three scripts of docs/scripts (labels of the protocol
      pages) and the Sphinx extensions of docs/_extensions: a lexer of Michelson
      and roles that write links to GitLab, packages and sources.

    ** Files

    Language and libraries (what the sources use of Python):
    - [Prelude]: automation ([talent] hints, [bool_to_prop], [split_match]) and
      positional notation ([digits], [undigits]), shared by base 58, base 256 and
      the printing of numbers.
    - [PyStr]: strings as lists of code points, bytes as lists of integers below
      256, slices, splitting, decimal and hexadecimal texts, lines of a file.  The
      tables of Unicode are the parameter [UCD].
    - [PyExc]: exceptions and the sum [res] of a value and an exception.
    - [PyRe]: regular expressions with captures, as a backtracking search in
      continuation style, proved sound and complete for a relational reading.
    - [PyDict]: insertion-ordered dictionaries, with their map as [gmap].
    - [PyFloat]: binary64 with rounding, parsing and printing of the shortest
      decimal; [PyJson]: values, [dumps], [loads]; [PyTime]: dates, CSV, numbers;
      [TimeFacts]: a printed date is read back.
    - [PyHeap]: lists and dictionaries as objects that can be shared, and
      [deepcopy] with its memo, proved to copy every acyclic object.
    - [PyIO]: the monad [M S A] of state, trace and exceptions, and the operating
      system as the parameter [OS]: every answer of the system is a function of
      the trace of requests, so it may change over time.  The rules [emits],
      [keeps] and [triple] carry the proofs about effectful code.
    - [ArgParse]: argparse as the scripts use it, from the declaration of a parser
      to the values of its attributes, abbreviated options, "--" and the exits
      included; [ArgFacts]: the values have the declared types; [ArgLines]: lines
      of options in any order are read back.

    Components (each definition has the name of the function or method it
    models, prefixed by its class where names clash):
    - [B58Prefix]: scripts/b58_prefix/b58_prefix.py.
    - [JobSelection]: pytest_plugins/job_selection.py.
    - [ClientOutput]: client/client_output.py, every result class.
    - [Daemons]: process/process_utils.py, daemons/node.py (Module [Node], the
      state of a node as a record), baker.py, endorser.py, accuser.py.
    - [Client]: the constructor and run_generic of Client and ClientRegression,
      with the class [Runner] as the interface the commands are written against;
      [ClientCommands]: the command methods of client.py; [ClientFacts]: the
      interface [RunnerSpec] and the instances that discharge it.
    - [Sandbox], [SandboxFacts]: launchers/sandbox.py; node objects live in a heap
      because the registry and the methods share them.  [SandboxSpec]: the abstract
      registry of names that the methods implement; [SandboxClients]: clients and
      the ports of their nodes; [DaemonFacts]: daemons and their nodes.
    - [Constants]: tools/constants.py, tools/paths.py, codec/codec.py.
    - [Utils], [UtilsFacts], [Availability], [ScrubFacts]: tools/utils.py; the counters of the
      retry decorator are part of the state ([Budgets]).
    - [Bls]: tools/bls12_381.py; [Tls]: the TLS texts of tools/constants.py.
    - [Protocol]: protocol.py and contract_paths.py of the three suites, with the
      parameters as shared objects; [RunScripts]: scripts/run_testnet.py and
      scripts/run_node_baker.py; [Fixtures]: conftest.py of tests_python and of the
      suites, with pytest's phases around them; [FixtureFacts]: what the fixture
      [clients] gives its tests; [SessionOptions]: the options of a test session and
      what asks for them; [Examples]: tests_python/examples.
    - [PreCommit], [CoverageScript], [DocsScripts]: scripts/pre_commit, scripts/ci
      and docs/scripts; [JobsReports]: tests_python/scripts/jobs_fetch_reports.py;
      [Genesis]: scripts/create_genesis; [OcamlDot]: scripts/ocamldot.py.
      [CommandLines]: the command lines of the five scripts that use argparse.
    - [Michelson]: docs/_extensions/michelsonlexer.py; [DocsRoles]:
      gitlab_custom_role.py; [PackageRoles]: tezos_custom_roles.py; [DocsConf]:
      docs/conf.py.

    ** What the theorems show

    - Job selection: the knapsack partitions the weights and keeps the bins within
      one largest weight of each other; every test runs in exactly one job; job
      arguments outside the range are rejected.
    - Base 58: the version bytes found make every payload of the given length
      start with the prefix; the cases where the script only checks, rounds or
      rejects a valid prefix.  A signature of 64 bytes is encoded to 99
      characters starting with "edsig" and decoded back.
    - Processes: stopping a daemon, and the life cycle of a node (its process
      handle, its log, its temporary directory) under every sequence of methods.
    - Sandbox: in every reachable state node numbers are in range, registered
      nodes are distinct objects with distinct ports and log files differ; which
      processes cleanup and are_daemons_alive reach, and which they miss; from
      these, what the sandbox fixture reports and stops after the tests of a class.
      Any sequence of calls, failing ones included, is a run of the abstract
      registry: a call returns only where the specification allows it and then has
      exactly the specified effect.  A registered client talks to the port of its
      node, and a daemon that was started works for its node, whatever was called
      before.
    - Command lines: an accepted line gives every attribute its declared type (one
      exception, a list for arguments that end in "--"); options are read in any
      order and spelling; the report fetcher empties its output first.
    - Fixtures: the fixture [clients] yields one client per node, in order; which tests of a session the incremental hooks let run and what
      they report for the others; which converters a regression test runs with and
      leaves behind; get_parameters shares no object with the parameters.
    - Client: what a command runs and returns or raises, for both classes of
      clients; what the output classes read from which texts.
    - Retry and waiting: the loops end, with which result, and how the shared
      counter of retry limits later calls; all_blocks returns the whole chain;
      the availability checks of full and rolling nodes accept exactly the answers
      stated, which for rolling nodes are fewer conditions than the comments promise.
    - Scrubbing: the converted output of a client holds no hash, signature, key,
      address or date, whatever was printed.
    - Reports: every page of a pipeline is collected, and a merged report gives
      the plugin the summed times of every class.
    - Hook, coverage, documentation: the verdict of the pre-commit hook from the
      return codes of its processes; the search of coverage.py refines a
      declarative choice on the list of commits; removing labels undoes adding
      them; which references the cross-reference check misses; the lexer splits
      every Michelson program into its lexemes and every text into adjacent tokens;
      the GitLab role links every documented form of reference to its page, the
      package role reaches the API pages from every directory.
    - Other scripts: the activation codes open the commitments of the genesis; the
      arrows of the module graph are those the files name; header data of the demo
      protocol are read back iff the text is ASCII; the TLS key fits its
      certificate.

    ** Bounds and fuel

    Loops that are not structural take fuel: digit expansions the bit length of
    the number (each step divides by at least 2), regular-expression stars the
    length of the text (each iteration must consume), [finditer] and [sub] twice
    that length, [loads] twice the length of the text, [skip_to_merge] and
    [merge_loop] the number of commits left, [retry_loop] the attempts left; each
    is proved to be enough where a theorem says that a result is returned.
    [all_blocks] is given its fuel by the caller, and its theorem asks for more
    than the level of the head; so is [pages_loop], for at least the number of
    pages.  The reference lexer has the length of the text (every step consumes a
    character, which is proved), and the files read by [Tls] their length.
    [deepcopy] takes the recursion limit of the interpreter as its depth, and
    raises RecursionError below it, as the interpreter does.  The endless loops of
    the two network scripts are cut after a number of rounds.  [parse_loop] has one
    step more than the command line has arguments; every step but the last consumes one.

    ** What is not modelled

    The OCaml node, protocols and tezt tests; shell scripts; the pytest tests
    themselves, those at the end of coverage.py included;
    the wording of the help and error texts of argparse (parameter [Messages]); pytest's
    own reading of its command line (the values it found are an argument of
    [SessionOptions]); the text layout of the two JSON files of
    create_genesis_info.py (the documents are modelled).  The packages base58,
    base58check, hashlib, pyblake2, ed25519, py_ecc, bitcoin, pysodium, numpy,
    gitlab, requests, pygments, docutils and pytest_regtest are parameters, with
    their documented behaviour as named hypotheses where a theorem needs it
    ([base58check_documented], [CryptoSpec], [PyEccSpec], [PackagesSpec],
    [RegtestSpec], [RegexLexerSpec]).  pytest calls the hooks of a test in the order
    setup, call, teardown; the iteration order of Python 2 dictionaries is any
    permutation.

    Planned next: the activation of a protocol through the fixtures. *)

From Stdlib Require Import ZArith Lia Sorting.Permutation.
From stdpp Require Import base tactics list gmap strings numbers.

Local Open Scope Z_scope.

(** ** Automation *)

Create HintDb talent.

(** Destructs the scrutinee of the first [if] or [match] it finds, keeping its
    equation, and cleans up. *)
Ltac split_match :=
  match goal with
  | |- context [match ?x with _ => _ end] => destruct x eqn:?; simplify_eq/=
  | H : context [match ?x with _ => _ end] |- _ => destruct x eqn:?; simplify_eq/=
  end.

(** Boolean comparisons of the source turned into propositions. *)
Ltac bool_to_prop :=
  repeat match goal with
  | H : (_ && _)%bool = true |- _ => apply andb_true_iff in H; destruct H
  | H : (_ <=? _) = true |- _ => apply Z.leb_le in H
  | H : (_ <=? _) = false |- _ => apply Z.leb_gt in H
  | H : (_ <? _) = true |- _ => apply Z.ltb_lt in H
  | H : (_ <? _) = false |- _ => apply Z.ltb_ge in H
  | H : (_ =? _) = true |- _ => apply Z.eqb_eq in H
  | H : (_ =? _) = false |- _ => apply Z.eqb_neq in H
  | H : (_ <=? _)%N = true |- _ => apply N.leb_le in H
  | H : (_ <=? _)%N = false |- _ => apply N.leb_gt in H
  | H : (_ <? _)%N = true |- _ => apply N.ltb_lt in H
  | H : (_ <? _)%N = false |- _ => apply N.ltb_ge in H
  | H : (_ =? _)%N = true |- _ => apply N.eqb_eq in H
  | H : (_ =? _)%N = false |- _ => apply N.eqb_neq in H
  | H : negb _ = true |- _ => apply negb_true_iff in H
  | H : negb _ = false |- _ => apply negb_false_iff in H
  end.

Ltac zsolve := bool_to_prop; lia.

(** ** Positional notation

    The sources convert integers to digit lists in base 10 (str), 16 (hex), 58
    (base58) and 256 (bytes); one reference definition serves all of them. *)

(** Value of a big-endian digit list in base [b]. *)
Definition undigits (b : Z) (l : list Z) : Z :=
  fold_left (fun x d => x * b + d) l 0.

(** Little-endian digits, with fuel. *)
Fixpoint digits_le (fuel : nat) (b n : Z) : list Z :=
  match fuel with
  | O => []
  | S f => if 0 <? n then n mod b :: digits_le f b (n / b) else []
  end.

(** Number of binary digits, an upper bound for the digits in any base. *)
Definition digit_fuel (n : Z) : nat := S (Z.to_nat (Z.log2 n)).

(** Big-endian digits without leading zeros; the empty list for [n <= 0]. *)
Definition digits (b n : Z) : list Z := rev (digits_le (digit_fuel n) b n).

Definition is_digit (b d : Z) : Prop := 0 <= d < b.

(** The list does not start with the digit zero. *)
Definition no_leading_zero (l : list Z) : Prop := hd 1 l <> 0.

Lemma undigits_snoc b l d : undigits b (l ++ [d]) = undigits b l * b + d.
Proof. unfold undigits. by rewrite fold_left_app. Qed.

Lemma undigits_acc b l x :
  fold_left (fun x d => x * b + d) l x = x * b ^ Z.of_nat (length l) + undigits b l.
Proof.
  induction l as [|d l IH] using rev_ind.
  - cbn [fold_left length]. rewrite Z.pow_0_r. unfold undigits; cbn; lia.
  - rewrite fold_left_app, undigits_snoc, length_app, Nat2Z.inj_add. cbn [fold_left length].
    rewrite IH, Z.pow_add_r by lia. change (Z.of_nat 1) with 1. rewrite Z.pow_1_r. ring.
Qed.

Lemma undigits_app b l1 l2 :
  undigits b (l1 ++ l2) = undigits b l1 * b ^ Z.of_nat (length l2) + undigits b l2.
Proof. unfold undigits at 1. by rewrite fold_left_app, undigits_acc. Qed.

Lemma undigits_cons b d l :
  undigits b (d :: l) = d * b ^ Z.of_nat (length l) + undigits b l.
Proof. unfold undigits at 1. cbn [fold_left]. rewrite undigits_acc. lia. Qed.

Lemma undigits_bound b l :
  0 < b -> Forall (is_digit b) l -> 0 <= undigits b l < b ^ Z.of_nat (length l).
Proof.
  intros Hb Hl. induction Hl as [|d l Hd Hl IH].
  - cbn. lia.
  - rewrite undigits_cons. cbn [length]. rewrite Nat2Z.inj_succ, Z.pow_succ_r by lia.
    unfold is_digit in Hd. nia.
Qed.

Lemma undigits_lower b d l :
  0 < b -> Forall (is_digit b) l -> 0 < d ->
  b ^ Z.of_nat (length l) <= undigits b (d :: l).
Proof.
  intros Hb Hl Hd. rewrite undigits_cons. pose proof (undigits_bound b l Hb Hl). nia.
Qed.

Lemma digits_le_value b fuel : forall n,
  1 < b -> 0 <= n < 2 ^ Z.of_nat fuel -> undigits b (rev (digits_le fuel b n)) = n.
Proof.
  induction fuel as [|f IH]; intros n Hb Hn; cbn [digits_le].
  - cbn in *. lia.
  - destruct (0 <? n) eqn:E; bool_to_prop; [|cbn; lia].
    cbn [rev]. rewrite undigits_snoc, IH.
    + pose proof (Z.div_mod n b). lia.
    + done.
    + rewrite Nat2Z.inj_succ, Z.pow_succ_r in Hn by lia. split; [apply Z.div_pos; lia|].
      apply Z.div_lt_upper_bound; nia.
Qed.

Lemma digit_fuel_enough n : 0 <= n -> n < 2 ^ Z.of_nat (digit_fuel n).
Proof.
  intros Hn. unfold digit_fuel. pose proof (Z.log2_nonneg n).
  rewrite Nat2Z.inj_succ, Z2Nat.id by done.
  destruct (decide (n = 0)) as [->|]; [done|]. apply Z.log2_spec. lia.
Qed.

(** Reading back the digits of a number gives the number. *)
Lemma undigits_digits b n : 1 < b -> 0 <= n -> undigits b (digits b n) = n.
Proof. intros. apply digits_le_value; auto using digit_fuel_enough. Qed.

Lemma digits_le_digit b fuel : forall n, 0 < b -> Forall (is_digit b) (digits_le fuel b n).
Proof.
  induction fuel as [|f IH]; intros n Hb; cbn [digits_le]; [constructor|].
  destruct (0 <? n); constructor; auto. apply Z.mod_pos_bound; lia.
Qed.

Lemma digits_digit b n : 0 < b -> Forall (is_digit b) (digits b n).
Proof. intros. unfold digits. apply Forall_rev, digits_le_digit; done. Qed.

Lemma digits_le_last b fuel : forall n,
  1 < b -> 0 < n < 2 ^ Z.of_nat fuel -> exists l d, digits_le fuel b n = l ++ [d] /\ 0 < d.
Proof.
  induction fuel as [|f IH]; intros n Hb Hn; [cbn in *; lia|].
  cbn [digits_le]. replace (0 <? n) with true by (symmetry; apply Z.ltb_lt; lia).
  destruct (decide (0 < n / b)) as [Hq|Hq].
  - destruct (IH (n / b)) as (l & d & -> & Hd); [done| |].
    + split; [done|]. rewrite Nat2Z.inj_succ, Z.pow_succ_r in Hn by lia.
      apply Z.div_lt_upper_bound; nia.
    + by exists (n mod b :: l), d.
  - exists [], (n mod b). split.
    + destruct f; cbn; [done|]. by replace (0 <? n / b) with false by (symmetry; apply Z.ltb_ge; lia).
    + assert (n / b = 0) by (pose proof (Z.div_pos n b); lia).
      pose proof (Z.div_mod n b). lia.
Qed.

Lemma digits_no_leading_zero b n : 1 < b -> 0 <= n -> no_leading_zero (digits b n).
Proof.
  intros Hb Hn. unfold no_leading_zero, digits.
  destruct (decide (n = 0)) as [->|]; [done|].
  destruct (digits_le_last b (digit_fuel n) n) as (l & d & -> & Hd); [done| |].
  - split; [lia|]. by apply digit_fuel_enough.
  - rewrite rev_app_distr. cbn. lia.
Qed.

(** A digit list without leading zeros is determined by its value. *)
Lemma undigits_inj_length b l1 : forall l2,
  0 < b -> Forall (is_digit b) l1 -> Forall (is_digit b) l2 -> length l1 = length l2 ->
  undigits b l1 = undigits b l2 -> l1 = l2.
Proof.
  induction l1 as [|d1 l1 IH]; intros [|d2 l2] Hb H1 H2 Hlen Heq; cbn in Hlen; try done.
  inversion H1 as [|? ? Hd1 Hl1]; inversion H2 as [|? ? Hd2 Hl2]; subst. simplify_eq.
  rewrite !undigits_cons, Hlen in Heq.
  pose proof (undigits_bound b l1 Hb Hl1) as B1. pose proof (undigits_bound b l2 Hb Hl2) as B2.
  rewrite Hlen in B1. unfold is_digit in *.
  assert (d1 = d2) as -> by nia. f_equal. apply IH; auto. lia.
Qed.

Lemma undigits_length_unique b l1 l2 :
  1 < b -> Forall (is_digit b) l1 -> Forall (is_digit b) l2 ->
  no_leading_zero l1 -> no_leading_zero l2 ->
  undigits b l1 = undigits b l2 -> length l1 = length l2.
Proof.
  intros Hb H1 H2 N1 N2 Heq.
  assert (Hlt : forall k1 k2, Forall (is_digit b) k1 -> Forall (is_digit b) k2 ->
    no_leading_zero k2 -> undigits b k1 = undigits b k2 -> (length k2 <= length k1)%nat).
  { intros k1 [|d k2] F1 F2 N E; [cbn; lia|]. inversion F2 as [|? ? Fd F2']; subst.
    pose proof (undigits_bound b k1 ltac:(lia) F1) as B.
    unfold no_leading_zero, is_digit in *; cbn in N.
    pose proof (undigits_lower b d k2 ltac:(lia) F2' ltac:(lia)) as L.
    rewrite <- E in L. cbn [length]. apply Nat2Z.inj_le. rewrite Nat2Z.inj_succ.
    destruct (Z.le_gt_cases (Z.of_nat (length k1)) (Z.of_nat (length k2))) as [Hle|]; [|lia].
    assert (b ^ Z.of_nat (length k1) <= b ^ Z.of_nat (length k2)) by (apply Z.pow_le_mono_r; lia).
    lia. }
  apply Nat.le_antisymm; apply Hlt; auto.
Qed.

Lemma undigits_inj b l1 l2 :
  1 < b -> Forall (is_digit b) l1 -> Forall (is_digit b) l2 ->
  no_leading_zero l1 -> no_leading_zero l2 ->
  undigits b l1 = undigits b l2 -> l1 = l2.
Proof.
  intros. apply (undigits_inj_length b); try done; [lia|].
  by apply (undigits_length_unique b).
Qed.

#[export] Hint Resolve digits_digit digits_no_leading_zero : talent.

Lemma undigits_repeat_zero b k : undigits b (repeat 0 k) = 0.
Proof. induction k as [|k IH]; [done|]. cbn [repeat]. rewrite undigits_cons, IH. lia. Qed.

Lemma digits_length_le b n k :
  1 < b -> 0 <= n < b ^ Z.of_nat k -> (length (digits b n) <= k)%nat.
Proof.
  intros Hb Hn. pose proof (digits_digit b n ltac:(lia)) as Hd.
  pose proof (digits_no_leading_zero b n Hb ltac:(lia)) as Hz.
  pose proof (undigits_digits b n Hb ltac:(lia)) as Hv.
  destruct (digits b n) as [|d l]; [cbn; lia|].
  inversion Hd as [|? ? Hd0 Hl]; subst. unfold no_leading_zero, is_digit in *. cbn in Hz.
  pose proof (undigits_lower b d l ltac:(lia) Hl ltac:(lia)) as Hlow.
  cbn [length]. destruct (Nat.le_gt_cases k (length l)) as [Hk|]; [|lia].
  assert (b ^ Z.of_nat k <= b ^ Z.of_nat (length l)) by (apply Z.pow_le_mono_r; lia).
  lia.
Qed.

(** The digits of a number in the interval of the numbers that start with [p]
    followed by [m] more digits. *)
Lemma digits_with_prefix b p m n :
  1 < b -> Forall (is_digit b) p -> 0 < hd 0 p ->
  undigits b p * b ^ Z.of_nat m <= n < (undigits b p + 1) * b ^ Z.of_nat m ->
  exists tail, digits b n = p ++ tail /\ length tail = m.
Proof.
  intros Hb Hp Hhd Hn. set (q := n - undigits b p * b ^ Z.of_nat m).
  assert (Hq : 0 <= q < b ^ Z.of_nat m) by lia.
  pose proof (undigits_bound b p ltac:(lia) Hp) as Hpb.
  pose proof (digits_length_le b q m Hb Hq) as Hlen.
  exists (repeat 0 (m - length (digits b q)) ++ digits b q). split.
  - apply (undigits_inj b).
    + done.
    + apply digits_digit; lia.
    + apply Forall_app; split; [done|]. apply Forall_app; split; [|apply digits_digit; lia].
      apply Forall_forall. intros x Hx. apply repeat_spec in Hx.
      subst. unfold is_digit; lia.
    + apply digits_no_leading_zero; [done|nia].
    + unfold no_leading_zero. destruct p as [|d p]; cbn in *; lia.
    + rewrite undigits_digits by (try done; nia).
      rewrite !undigits_app, undigits_repeat_zero, !length_app, repeat_length.
      rewrite undigits_digits by lia.
      replace (m - length (digits b q) + length (digits b q))%nat with m by lia. lia.
  - rewrite length_app, repeat_length. lia.
Qed.
