(* ===== verification/PyStr.v ===== *)
(** * Python strings

    A Python [str] is a sequence of code points, here a [list N]; [bytes] is a
    list of integers in 0..255.  This file models the string methods of the
    standard library the sources call (startswith, split, strip, join, slices,
    str and int conversions, hex) together with the character classes that the
    re module and these methods share.  Characters outside ASCII are classified
    by the interpreter's Unicode database, the parameter [UCD]. *)

From Stdlib Require Import ZArith Lia.
From stdpp Require Import base tactics list gmap strings numbers.
From S2P Require Import Prelude.

Local Open Scope Z_scope.

(** ** Code points, literals *)

Abbreviation str := (list N).
Abbreviation bytes := (list Z).

(** UTF-8 decoding of the literals of this development: a Rocq string literal
    is the UTF-8 encoding of the text between the quotes. *)
Fixpoint utf8_decode (bs : list N) : str :=
  match bs with
  | [] => []
  | b0 :: r0 =>
      if (b0 <? 192)%N then b0 :: utf8_decode r0
      else if (b0 <? 224)%N then
        match r0 with
        | b1 :: r1 => ((b0 - 192) * 64 + (b1 - 128))%N :: utf8_decode r1
        | _ => [b0]
        end
      else if (b0 <? 240)%N then
        match r0 with
        | b1 :: b2 :: r2 =>
            ((b0 - 224) * 4096 + (b1 - 128) * 64 + (b2 - 128))%N :: utf8_decode r2
        | _ => [b0]
        end
      else
        match r0 with
        | b1 :: b2 :: b3 :: r3 =>
            ((b0 - 240) * 262144 + (b1 - 128) * 4096 + (b2 - 128) * 64 + (b3 - 128))%N
              :: utf8_decode r3
        | _ => [b0]
        end
  end.

Definition lit (s : string) : str :=
  utf8_decode (map Ascii.N_of_ascii (String.list_ascii_of_string s)).

Arguments lit _ : simpl never.

(** [str.encode()]: UTF-8. *)
Definition utf8_encode_cp (c : N) : bytes :=
  (if (c <? 128)%N then [Z.of_N c]
   else if (c <? 2048)%N then [192 + Z.of_N (c / 64); 128 + Z.of_N (c mod 64)]
   else if (c <? 65536)%N then
     [224 + Z.of_N (c / 4096); 128 + Z.of_N (c / 64 mod 64); 128 + Z.of_N (c mod 64)]
   else [240 + Z.of_N (c / 262144); 128 + Z.of_N (c / 4096 mod 64);
         128 + Z.of_N (c / 64 mod 64); 128 + Z.of_N (c mod 64)])%Z.

Definition encode (s : str) : bytes := flat_map utf8_encode_cp s.

Declare Scope py_scope.
Delimit Scope py_scope with py.

(** [$ "text"] is the Python literal 'text'. *)
Notation "$ x" := (lit x%string) (at level 1, x at level 0, format "$ x") : py_scope.

Local Open Scope py_scope.

(** Characters written by their code. *)
Definition nl : N := 10%N.
Definition dquote : N := 34%N.

(** ** Character classes *)

Class UCD := {
  uni_alnum : N -> bool;
  uni_space : N -> bool;
  uni_decimal : N -> option Z;
  uni_lower : N -> str;
  uni_title : N -> str
}.

(** A database that classifies no character beyond ASCII. *)
Definition ascii_only_ucd : UCD :=
  {| uni_alnum := fun _ => false; uni_space := fun _ => false;
     uni_decimal := fun _ => None; uni_lower := fun c => [c]; uni_title := fun c => [c] |}.

Definition in_range (lo hi c : N) : bool := ((lo <=? c) && (c <=? hi))%N.

Definition ascii_digit (c : N) : bool := in_range 48 57 c.
Definition ascii_lower (c : N) : bool := in_range 97 122 c.
Definition ascii_upper (c : N) : bool := in_range 65 90 c.
Definition ascii_alnum (c : N) : bool := ascii_digit c || ascii_lower c || ascii_upper c.

Section Classes.
Context {U : UCD}.

(** The class [\w] of re, and [str.isalnum() or '_']. *)
Definition is_word (c : N) : bool :=
  if (c <? 128)%N then ascii_alnum c || (c =? 95)%N else uni_alnum c.

(** The class [\s] of re, and [str.isspace()]. *)
Definition is_space (c : N) : bool :=
  if (c <? 128)%N then in_range 9 13 c || in_range 28 32 c else uni_space c.

(** The value of a decimal digit, for [\d] and [int()]. *)
Definition digit_value (c : N) : option Z :=
  if (c <? 128)%N then
    if ascii_digit c then Some (Z.of_N c - 48) else None
  else uni_decimal c.

Definition is_decimal (c : N) : bool :=
  match digit_value c with Some _ => true | None => false end.

Definition lower_cp (c : N) : str :=
  if (c <? 128)%N then [if ascii_upper c then (c + 32)%N else c] else uni_lower c.

Definition lower (s : str) : str := flat_map lower_cp s.

Definition title_cp (c : N) : str :=
  if (c <? 128)%N then [if ascii_lower c then (c - 32)%N else c] else uni_title c.

(** [s.capitalize()] *)
Definition capitalize (s : str) : str :=
  match s with [] => [] | c :: r => title_cp c ++ lower r end.

(** ** str methods *)

Fixpoint drop_while {A} (p : A -> bool) (s : list A) : list A :=
  match s with
  | [] => []
  | c :: r => if p c then drop_while p r else s
  end.

Fixpoint take_while {A} (p : A -> bool) (s : list A) : list A :=
  match s with
  | [] => []
  | c :: r => if p c then c :: take_while p r else []
  end.

Definition lstrip_by (p : N -> bool) (s : str) : str := drop_while p s.
Definition rstrip_by (p : N -> bool) (s : str) : str := rev (drop_while p (rev s)).

Definition rstrip (s : str) : str := rstrip_by is_space s.
Definition strip (s : str) : str := rstrip_by is_space (lstrip_by is_space s).

(** [s.lstrip(chars)] *)
Definition lstrip_chars (chars s : str) : str := lstrip_by (fun c => bool_decide (c ∈ chars)) s.

(** [s.replace(a, b)] for a single character [a]. *)
Definition replace_char (a b : N) (s : str) : str := map (fun c => if (c =? a)%N then b else c) s.

(** [s.count(c)] for a single character. *)
Definition count_char (c : N) (s : str) : nat := length (filter (fun d => d = c) s).

(** [s.split()]: maximal runs of non-space characters. *)
Fixpoint split_ws_aux (cur : str) (s : str) : list str :=
  match s with
  | [] => if bool_decide (cur = []) then [] else [rev cur]
  | c :: r =>
      if is_space c
      then if bool_decide (cur = []) then split_ws_aux [] r else rev cur :: split_ws_aux [] r
      else split_ws_aux (c :: cur) r
  end.

Definition split_ws (s : str) : list str := split_ws_aux [] s.

(** Digits separated by single underscores, as [int] and [float] accept them. *)
Fixpoint more_digits (s : str) : option (list Z) :=
  match s with
  | [] => Some []
  | c :: r =>
      match digit_value c with
      | Some d => match more_digits r with Some l => Some (d :: l) | None => None end
      | None =>
          if (c =? 95)%N then
            match r with
            | c' :: r' =>
                match digit_value c', more_digits r' with
                | Some d, Some l => Some (d :: l)
                | _, _ => None
                end
            | [] => None
            end
          else None
      end
  end.

Definition digit_string (s : str) : option (list Z) :=
  match s with
  | c :: r =>
      match digit_value c, more_digits r with
      | Some d, Some l => Some (d :: l)
      | _, _ => None
      end
  | [] => None
  end.

(** [int(s)]; [None] is the ValueError. *)
Definition parse_int (s : str) : option Z :=
  let body := strip s in
  match body with
  | c :: r =>
      if (c =? 45)%N then option_map (fun l => - undigits 10 l) (digit_string r)
      else if (c =? 43)%N then option_map (undigits 10) (digit_string r)
      else option_map (undigits 10) (digit_string body)
  | [] => None
  end.
End Classes.

(** [s.startswith(p)] *)
Fixpoint startswith {A} `{EqDecision A} (p s : list A) : bool :=
  match p, s with
  | [], _ => true
  | c :: p', d :: s' => bool_decide (c = d) && startswith p' s'
  | _ :: _, [] => false
  end.

(** [s.endswith(p)] *)
Definition endswith (p s : str) : bool := startswith (rev p) (rev s).

(** [p in s] *)
Fixpoint contains (p s : str) : bool :=
  startswith p s || match s with [] => false | _ :: r => contains p r end.

(** [s.split(c)] for a one-character separator. *)
Fixpoint split_on (c : N) (s : str) : list str :=
  match s with
  | [] => [[]]
  | d :: r =>
      if (d =? c)%N then [] :: split_on c r
      else match split_on c r with
           | w :: ws => (d :: w) :: ws
           | [] => [[d]]
           end
  end.

(** [sep.join(l)] *)
Fixpoint join (sep : str) (l : list str) : str :=
  match l with
  | [] => []
  | [s] => s
  | s :: r => s ++ sep ++ join sep r
  end.

(** Line boundaries of [str.splitlines]. *)
Definition is_linebreak (c : N) : bool :=
  in_range 10 13 c || in_range 28 30 c || (c =? 133)%N || (c =? 8232)%N || (c =? 8233)%N.

Fixpoint splitlines_aux (cur : str) (s : str) : list str :=
  match s with
  | [] => if bool_decide (cur = []) then [] else [rev cur]
  | c :: r =>
      if is_linebreak c then
        rev cur ::
          match r with
          | d :: r' => if ((c =? 13) && (d =? 10))%N then splitlines_aux [] r'
                       else splitlines_aux [] r
          | [] => []
          end
      else splitlines_aux (c :: cur) r
  end.

(** [s.splitlines()] *)
Definition splitlines (s : str) : list str := splitlines_aux [] s.

(** Python's clamping of a slice bound to [0 .. len]. *)
Definition clamp_index (len i : Z) : Z :=
  if i <? 0 then Z.max 0 (len + i) else Z.min len i.

(** [s[lo:hi]] *)
Definition slice {A} (lo hi : option Z) (s : list A) : list A :=
  let len := Z.of_nat (length s) in
  let l := match lo with Some i => clamp_index len i | None => 0 end in
  let h := match hi with Some i => clamp_index len i | None => len end in
  take (Z.to_nat (h - l)) (drop (Z.to_nat l) s).

(** [l[i]] with an integer index; [None] is the IndexError. *)
Definition index {A} (l : list A) (i : Z) : option A :=
  let len := Z.of_nat (length l) in
  let j := if i <? 0 then len + i else i in
  if (0 <=? j) && (j <? len) then l !! Z.to_nat j else None.

(** Position of the first occurrence of a character, or -1 ([str.find]). *)
Fixpoint find_char_from (i : Z) (c : N) (s : str) : Z :=
  match s with
  | [] => -1
  | d :: r => if (d =? c)%N then i else find_char_from (i + 1) c r
  end.

Definition find_char (c : N) (s : str) : Z := find_char_from 0 c s.

(** [str(n)] for an integer. *)
Definition digit_char (d : Z) : N := Z.to_N (48 + d).

Definition str_int (n : Z) : str :=
  if n =? 0 then [48%N]
  else if n <? 0 then 45%N :: map digit_char (digits 10 (- n))
  else map digit_char (digits 10 n).

(** [bytes.hex()] and [bytes.fromhex()]. *)
Definition hex_char (d : Z) : N := if d <? 10 then Z.to_N (48 + d) else Z.to_N (87 + d).

Definition hex (bs : bytes) : str := flat_map (fun b => [hex_char (b / 16); hex_char (b mod 16)]) bs.

Definition hex_value (c : N) : option Z :=
  if ascii_digit c then Some (Z.of_N c - 48)
  else if in_range 97 102 c then Some (Z.of_N c - 87)
  else if in_range 65 70 c then Some (Z.of_N c - 55)
  else None.

(** [bytes.fromhex] skips ASCII whitespace between bytes; [None] is the
    ValueError. *)
Definition ascii_space (c : N) : bool := in_range 9 13 c || (c =? 32)%N.

Fixpoint fromhex (s : str) : option bytes :=
  match s with
  | [] => Some []
  | c :: r =>
      if ascii_space c then fromhex r
      else match r with
           | d :: r' =>
               match hex_value c, hex_value d, fromhex r' with
               | Some h, Some l, Some bs => Some (16 * h + l :: bs)
               | _, _, _ => None
               end
           | [] => None
           end
  end.

Notation "a +:+ b" := (@app N a b) (right associativity, at level 60) : py_scope.

Definition is_byte (b : Z) : Prop := 0 <= b < 256.

(** ** Lemmas *)

Lemma startswith_spec {A} `{EqDecision A} (p s : list A) :
  startswith p s = true <-> exists r, s = p ++ r.
Proof.
  revert s; induction p as [|c p IH]; intros [|d s]; cbn; split; intros H; try done; eauto.
  - by destruct H.
  - apply andb_true_iff in H as [Hc [r ->]%IH]. apply bool_decide_eq_true in Hc as ->. eauto.
  - destruct H as [r H]. simplify_eq/=. apply andb_true_iff. split; [by apply bool_decide_eq_true|].
    apply IH. eauto.
Qed.

Lemma startswith_app {A} `{EqDecision A} (p r : list A) : startswith p (p ++ r) = true.
Proof. apply startswith_spec. eauto. Qed.

Lemma endswith_spec p s : endswith p s = true <-> exists r, s = r ++ p.
Proof.
  unfold endswith. rewrite startswith_spec. split; intros [r Hr].
  - exists (rev r). apply (f_equal (@rev N)) in Hr.
    by rewrite rev_involutive, rev_app_distr, rev_involutive in Hr.
  - exists (rev r). by rewrite Hr, rev_app_distr.
Qed.

Lemma contains_spec p s : contains p s = true <-> exists u v, s = u ++ p ++ v.
Proof.
  induction s as [|c s IH]; cbn [contains]; rewrite orb_true_iff, startswith_spec.
  - split; [|].
    + intros [[r Hr]|]; [|done]. exists [], r. done.
    + intros (u & v & H). destruct u; [|done]. left. eauto.
  - rewrite IH. split.
    + intros [[r Hr]|(u & v & ->)]; [by exists [], r|by exists (c :: u), v].
    + intros ([|d u] & v & H); simplify_eq/=; eauto.
Qed.

Lemma take_while_all {A} (p : A -> bool) s : Forall (fun c => p c = true) (take_while p s).
Proof. induction s as [|c s IH]; cbn; [constructor|]. destruct (p c) eqn:E; constructor; auto. Qed.

Lemma take_drop_while {A} (p : A -> bool) s : take_while p s ++ drop_while p s = s.
Proof. induction s as [|c s IH]; cbn; [done|]. destruct (p c); cbn; congruence. Qed.

Lemma join_cons sep s r : r <> [] -> join sep (s :: r) = s ++ sep ++ join sep r.
Proof. by destruct r. Qed.

(** Splitting at a separator undoes joining with it. *)
Lemma split_on_no_sep c w : c ∉ w -> split_on c w = [w].
Proof.
  induction w as [|d w IH]; cbn; intros H; [done|].
  apply not_elem_of_cons in H as [Hne H].
  replace (d =? c)%N with false by (symmetry; apply N.eqb_neq; congruence).
  by rewrite IH.
Qed.

Lemma split_on_app_sep c w s : c ∉ w -> split_on c (w ++ c :: s) = w :: split_on c s.
Proof.
  induction w as [|d w IH]; cbn; intros H; [by rewrite N.eqb_refl|].
  apply not_elem_of_cons in H as [Hne H].
  replace (d =? c)%N with false by (symmetry; apply N.eqb_neq; congruence).
  by rewrite IH.
Qed.

Lemma split_on_join c ws :
  ws <> [] -> Forall (fun w => c ∉ w) ws -> split_on c (join [c] ws) = ws.
Proof.
  induction ws as [|w ws IH]; [done|]. intros _ Hall.
  inversion Hall as [|? ? Hw Hws]; subst. destruct ws as [|w' ws].
  - by apply split_on_no_sep.
  - rewrite join_cons by done. cbn [app]. rewrite split_on_app_sep by done. by rewrite IH.
Qed.

Lemma digit_value_digit_char {U : UCD} d : is_digit 10 d -> digit_value (digit_char d) = Some d.
Proof.
  unfold is_digit, digit_value, digit_char, ascii_digit, in_range. intros Hd.
  replace (Z.to_N (48 + d) <? 128)%N with true by (symmetry; apply N.ltb_lt; lia).
  replace (48 <=? Z.to_N (48 + d))%N with true by (symmetry; apply N.leb_le; lia).
  replace (Z.to_N (48 + d) <=? 57)%N with true by (symmetry; apply N.leb_le; lia).
  cbn. f_equal. lia.
Qed.

Lemma more_digits_chars {U : UCD} l :
  Forall (is_digit 10) l -> more_digits (map digit_char l) = Some l.
Proof.
  induction 1 as [|d l Hd Hl IH]; cbn; [done|]. by rewrite digit_value_digit_char, IH.
Qed.

Lemma digit_string_chars {U : UCD} l :
  l <> [] -> Forall (is_digit 10) l -> digit_string (map digit_char l) = Some l.
Proof.
  intros Hne Hl. destruct Hl as [|d l Hd Hl]; [done|]. cbn.
  by rewrite digit_value_digit_char, more_digits_chars.
Qed.

Lemma digits_nonempty b n : 1 < b -> 0 < n -> digits b n <> [].
Proof.
  intros Hb Hn H. pose proof (undigits_digits b n Hb ltac:(lia)) as E.
  rewrite H in E. cbn in E. lia.
Qed.

Lemma digit_char_props {U : UCD} d :
  is_digit 10 d -> is_space (digit_char d) = false /\ digit_char d <> 45%N /\ digit_char d <> 43%N
                   /\ digit_char d <> 95%N /\ digit_char d <> 46%N /\ ascii_digit (digit_char d) = true.
Proof.
  unfold is_digit, digit_char, is_space, ascii_digit, in_range. intros Hd.
  assert (Hc : (48 <= Z.to_N (48 + d) <= 57)%N) by lia.
  generalize dependent (Z.to_N (48 + d)). intros c Hc.
  assert (E : In c (map N.of_nat (seq 48 10))).
  { apply in_map_iff. exists (N.to_nat c). rewrite in_seq. split; lia. }
  cbn in E. intuition subst; try done.
Qed.

Lemma drop_while_id {A} (p : A -> bool) s :
  match s with [] => True | c :: _ => p c = false end -> drop_while p s = s.
Proof. destruct s as [|c s]; [done|]. cbn. by intros ->. Qed.

Lemma strip_no_space {U : UCD} s :
  Forall (fun c => is_space c = false) s -> strip s = s.
Proof.
  intros Hs. unfold strip, lstrip_by, rstrip_by.
  rewrite (drop_while_id _ s) by (destruct Hs; done).
  rewrite drop_while_id, rev_involutive; [done|].
  apply Forall_rev in Hs. destruct Hs; done.
Qed.

Lemma str_int_no_space {U : UCD} n : Forall (fun c => is_space c = false) (str_int n).
Proof.
  unfold str_int. assert (H : forall k, Forall (fun c => is_space c = false) (map digit_char (digits 10 k))).
  { intros k. apply Forall_map. apply (List.Forall_impl (P := is_digit 10)).
    - intros d Hd. cbn. by apply digit_char_props.
    - apply digits_digit. lia. }
  destruct (n =? 0); [by repeat constructor|]. destruct (n <? 0); auto.
Qed.

(** [int(str(n)) = n]. *)
Lemma parse_int_str_int {U : UCD} n : parse_int (str_int n) = Some n.
Proof.
  unfold parse_int. rewrite strip_no_space by apply str_int_no_space. unfold str_int.
  destruct (n =? 0) eqn:E0; [bool_to_prop; subst; done|].
  destruct (n <? 0) eqn:En; bool_to_prop.
  - rewrite N.eqb_refl.
    rewrite digit_string_chars by (first [apply digits_nonempty; lia | apply digits_digit; lia]).
    cbn [option_map]. f_equal. rewrite undigits_digits; lia.
  - destruct (digits 10 n) as [|d l] eqn:Ed; [exfalso; apply (digits_nonempty 10 n); [lia|lia|done]|].
    pose proof (digits_digit 10 n ltac:(lia)) as Hd. rewrite Ed in Hd.
    inversion Hd as [|? ? Hd0 Hl]; subst. cbn [map].
    destruct (digit_char_props d Hd0) as (_ & H45 & H43 & _).
    apply N.eqb_neq in H45. apply N.eqb_neq in H43. rewrite H45, H43.
    change (digit_char d :: map digit_char l) with (map digit_char (d :: l)).
    rewrite digit_string_chars by done. cbn [option_map]. f_equal.
    rewrite <- Ed. apply undigits_digits; lia.
Qed.

Lemma str_int_nonempty n : str_int n <> [].
Proof.
  unfold str_int. destruct (n =? 0) eqn:E0; [done|]. destruct (n <? 0) eqn:En; [done|].
  bool_to_prop. intros E%map_eq_nil. by apply (digits_nonempty 10 n) in E; [|lia|lia].
Qed.

Lemma str_int_ascii_digit n : 0 <= n -> Forall (fun c => ascii_digit c = true) (str_int n).
Proof.
  intros Hn. unfold str_int. destruct (n =? 0); [by repeat constructor|].
  destruct (n <? 0) eqn:En; [bool_to_prop; lia|]. apply Forall_map.
  apply (List.Forall_impl (P := is_digit 10)); [|apply digits_digit; lia].
  intros d Hd. by apply (@digit_char_props ascii_only_ucd).
Qed.

Lemma ascii_digit_range c : ascii_digit c = true -> (48 <= c <= 57)%N.
Proof. unfold ascii_digit, in_range. intros [H1%N.leb_le H2%N.leb_le]%andb_true_iff. lia. Qed.

Lemma ascii_digit_decimal {U : UCD} c : ascii_digit c = true -> is_decimal c = true.
Proof.
  intros H. pose proof (ascii_digit_range c H). unfold is_decimal, digit_value.
  replace (c <? 128)%N with true by (symmetry; apply N.ltb_lt; lia). by rewrite H.
Qed.

Lemma ascii_digit_word {U : UCD} c : ascii_digit c = true -> is_word c = true.
Proof.
  intros H. pose proof (ascii_digit_range c H). unfold is_word, ascii_alnum.
  replace (c <? 128)%N with true by (symmetry; apply N.ltb_lt; lia). by rewrite H.
Qed.

Lemma str_int_decimal {U : UCD} n : 0 <= n -> Forall (fun c => is_decimal c = true) (str_int n).
Proof.
  intros Hn. eapply List.Forall_impl; [|by apply str_int_ascii_digit].
  intros c. apply ascii_digit_decimal.
Qed.

Lemma str_int_inj n1 n2 : str_int n1 = str_int n2 -> n1 = n2.
Proof.
  intros H. pose proof (@parse_int_str_int ascii_only_ucd n1) as E.
  rewrite H, parse_int_str_int in E. congruence.
Qed.

Lemma hex_value_char d : 0 <= d < 16 -> hex_value (hex_char d) = Some d.
Proof.
  intros H. assert (E : In d (map Z.of_nat (seq 0 16))).
  { apply in_map_iff. exists (Z.to_nat d). rewrite in_seq. split; lia. }
  cbn in E. intuition subst; done.
Qed.

Lemma hex_char_not_space d : 0 <= d < 16 -> ascii_space (hex_char d) = false.
Proof.
  intros H. assert (E : In d (map Z.of_nat (seq 0 16))).
  { apply in_map_iff. exists (Z.to_nat d). rewrite in_seq. split; lia. }
  cbn in E. intuition subst; done.
Qed.

(** [bytes.fromhex(bs.hex()) = bs]. *)
Lemma fromhex_hex bs : Forall is_byte bs -> fromhex (hex bs) = Some bs.
Proof.
  induction 1 as [|b bs Hb Hbs IH]; [done|]. cbn.
  unfold is_byte in Hb. pose proof (Z.mod_pos_bound b 16 ltac:(lia)).
  assert (0 <= b / 16 < 16) by (split; [apply Z.div_pos; lia|apply Z.div_lt_upper_bound; lia]).
  rewrite hex_char_not_space, !hex_value_char by done.
  fold (hex bs). rewrite IH. do 2 f_equal. pose proof (Z.div_mod b 16). lia.
Qed.

Lemma length_hex bs : length (hex bs) = (2 * length bs)%nat.
Proof. induction bs as [|b bs IH]; cbn; [done|]. fold (hex bs). lia. Qed.

Lemma hex_app b1 b2 : hex (b1 ++ b2) = hex b1 ++ hex b2.
Proof. unfold hex. by rewrite flat_map_app. Qed.

(** Decoding the lower-case hexadecimal text and printing it again is the
    identity on its image. *)
Lemma encode_app s1 s2 : encode (s1 ++ s2) = encode s1 ++ encode s2.
Proof. unfold encode. by rewrite flat_map_app. Qed.

Lemma encode_ascii s : Forall (fun c => (c < 128)%N) s -> encode s = map Z.of_N s.
Proof.
  induction 1 as [|c s Hc Hs IH]; [done|]. cbn. unfold utf8_encode_cp at 1.
  apply N.ltb_lt in Hc as ->. cbn. by rewrite <- IH.
Qed.

Lemma slice_from_app {A} (p q : list A) n :
  n = Z.of_nat (length p) -> slice (Some n) None (p ++ q) = q.
Proof.
  intros ->. unfold slice, clamp_index. rewrite length_app.
  destruct (Z.ltb_spec (Z.of_nat (length p)) 0); [lia|].
  replace (Z.min (Z.of_nat (length p + length q)) (Z.of_nat (length p))) with (Z.of_nat (length p)) by lia.
  rewrite Nat2Z.id, drop_app_length. apply take_ge. lia.
Qed.

Lemma slice_strip_ends {A} (p m q : list A) lo hi :
  Z.of_nat (length p) = lo -> Z.of_nat (length q) = hi -> 0 < hi ->
  slice (Some lo) (Some (- hi)) (p ++ m ++ q) = m.
Proof.
  intros <- <- Hq. unfold slice, clamp_index. rewrite !length_app, !Nat2Z.inj_add.
  replace (Z.of_nat (length p) <? 0) with false by (symmetry; apply Z.ltb_ge; lia).
  replace (- Z.of_nat (length q) <? 0) with true by (symmetry; apply Z.ltb_lt; lia).
  rewrite Z.min_r by lia. rewrite Z.max_r by lia. rewrite Nat2Z.id, drop_app_length.
  replace (Z.to_nat _) with (length m) by lia. apply take_app_length.
Qed.

(** ** The lines of a file *)

(** Each with its newline. *)
Fixpoint file_lines (s : str) : list str :=
  match s with
  | [] => []
  | c :: r =>
      if (c =? nl)%N then [nl] :: file_lines r
      else match file_lines r with [] => [[c]] | l :: ls => (c :: l) :: ls end
  end.

Lemma file_lines_nl w s : nl ∉ w -> file_lines (w ++ nl :: s) = (w ++ [nl]) :: file_lines s.
Proof.
  induction w as [|c w IH]; intros H; [done|]. cbn [app file_lines].
  apply not_elem_of_cons in H as [Hc H]. destruct (N.eqb_spec c nl) as [->|_]; [done|]. by rewrite IH.
Qed.

Lemma file_lines_last w : nl ∉ w -> w <> [] -> file_lines w = [w].
Proof.
  induction w as [|c w IH]; intros H Hne; [done|]. cbn [file_lines].
  apply not_elem_of_cons in H as [Hc H]. destruct (N.eqb_spec c nl) as [->|_]; [done|].
  destruct w as [|d w]; [done|]. by rewrite IH.
Qed.

(** Induction on the lines of a text. *)
Lemma text_ind (P : str -> Prop) :
  P [] -> (forall w, nl ∉ w -> w <> [] -> P w) -> (forall w s, nl ∉ w -> P s -> P (w ++ nl :: s)) ->
  forall s, P s.
Proof.
  intros H0 H1 H2. assert (forall n s, (length s <= n)%nat -> P s) as H; [|intros s; by apply (H (length s))].
  induction n as [|n IH]; intros s Hn; [by destruct s; [|cbn in Hn; lia]|].
  destruct (decide (nl ∈ s)) as [(w & s' & -> & Hw)%list_elem_of_split_l|Hs].
  - apply H2; [done|]. apply IH. rewrite length_app in Hn. cbn in Hn. lia.
  - destruct s; [done|]. by apply H1.
Qed.

Lemma concat_file_lines s : concat (file_lines s) = s.
Proof.
  induction s as [|w Hw Hne|w s Hw IH] using text_ind; [done| |].
  - rewrite file_lines_last by done. by rewrite concat_cons, app_nil_r.
  - rewrite file_lines_nl by done. cbn [concat]. by rewrite IH, <- app_assoc.
Qed.

Lemma slice_middle {A} (p m q : list A) i j :
  i = Z.of_nat (length p) -> j = Z.of_nat (length p + length m) -> slice (Some i) (Some j) (p ++ m ++ q) = m.
Proof.
  intros -> ->. unfold slice, clamp_index. rewrite !length_app.
  destruct (Z.ltb_spec (Z.of_nat (length p)) 0); [lia|].
  destruct (Z.ltb_spec (Z.of_nat (length p + length m)) 0); [lia|].
  rewrite !Z.min_r by lia. rewrite Nat2Z.id, drop_app_length.
  replace (Z.to_nat _) with (length m) by lia. apply take_app_length.
Qed.
