(* ===== verification/PyExc.v ===== *)
(** * Python exceptions and results

    A call of the sources returns a value or raises; [res A] is the sum of the
    two.  The type of exceptions holds the standard-library exceptions the code
    raises or catches, and the repository's own. *)

From Stdlib Require Import ZArith.
From stdpp Require Import base tactics list strings numbers.
From S2P Require Import Prelude PyStr.

Inductive exc :=
| AssertionError
| KeyError
| IndexError
| ValueError
| TypeError
| AttributeError
| ZeroDivisionError
| OverflowError
| UnboundLocalError
| StopIteration
| TimeoutExpired
| JSONDecodeError
| OSError
| SystemExit (code : Z)
| CalledProcessError (returncode : Z) (cmd : list str) (stdout stderr : str)
| HTTPError (status : Z) (body : str)
| ArgumentTypeError (message : str)
| PytestExit (reason : str)
| InvalidClientOutput (client_output : str)
| InvalidExitCode (exit_code : Z)
| GitlabError (message : str)
| RecursionError
| XFailed (reason : str)
| Skipped (reason : str).

#[export] Instance exc_eq_dec : EqDecision exc.
Proof. solve_decision. Defined.

Inductive res (A : Type) :=
| Ok (a : A)
| Raise (e : exc).

Arguments Ok {A} a.
Arguments Raise {A} e.

#[export] Instance res_eq_dec A `{EqDecision A} : EqDecision (res A).
Proof. solve_decision. Defined.

#[export] Instance res_ret : MRet res := fun A a => Ok a.
#[export] Instance res_bind : MBind res := fun A B f m =>
  match m with Ok a => f a | Raise e => Raise e end.
#[export] Instance res_fmap : FMap res := fun A B f m =>
  match m with Ok a => Ok (f a) | Raise e => Raise e end.

(** [assert b] *)
Definition assert_ (b : bool) : res () := if b then Ok () else Raise AssertionError.

(** An operation that fails with [e]: [None] raises. *)
Definition or_raise {A} (e : exc) (o : option A) : res A :=
  match o with Some a => Ok a | None => Raise e end.

(** A comprehension or loop whose body may raise: left to right, stopping at the
    first exception. *)
Fixpoint mapM_res {A B} (f : A -> res B) (l : list A) : res (list B) :=
  match l with
  | [] => Ok []
  | a :: r => b ← f a; bs ← mapM_res f r; Ok (b :: bs)
  end.

Definition is_ok {A} (m : res A) : bool := match m with Ok _ => true | Raise _ => false end.

Lemma bind_ok {A B} (f : A -> res B) (m : res A) b :
  (m ≫= f) = Ok b <-> exists a, m = Ok a /\ f a = Ok b.
Proof.
  destruct m as [a|e]; cbn; split; [eauto|by intros (? & [= <-] & ?)|done|by intros (? & ? & ?)].
Qed.

Lemma assert_ok b : assert_ b = Ok () <-> b = true.
Proof. by destruct b. Qed.

Lemma mapM_res_Forall2 {A B} (f : A -> res B) l k :
  mapM_res f l = Ok k <-> Forall2 (fun a b => f a = Ok b) l k.
Proof.
  revert k; induction l as [|a l IH]; intros k; cbn.
  - split; intros H; [by simplify_eq|by inversion H].
  - rewrite bind_ok. setoid_rewrite bind_ok. split.
    + intros (b & Hb & bs & Hbs & [= <-]). constructor; [done|]. by apply IH.
    + intros H. inversion H; subst. eexists; split; [done|]. eexists; split; [by apply IH|done].
Qed.

(** Turns an equation on a monadic computation into its steps. *)
Ltac res_inv :=
  repeat match goal with
  | H : (_ ≫= _) = Ok _ |- _ =>
      let H1 := fresh "H" in apply bind_ok in H; destruct H as (? & H1 & H)
  | H : assert_ _ = Ok _ |- _ => apply assert_ok in H
  | H : Raise _ = Ok _ |- _ => discriminate H
  | H : or_raise _ ?o = Ok _ |- _ => destruct o eqn:?; cbn in H
  end; simplify_eq/=.
