(* ===== verification/PyRe.v ===== *)
(** * The re module

    Regular expressions as the sources use them, with the backtracking search
    of CPython's sre engine: alternatives are tried left to right, a greedy
    repetition tries one more iteration before it stops, a lazy one the other
    way round, an iteration that consumes nothing ends the repetition, and a
    group keeps its last capture.  [den] is the declarative reading of a pattern
    (which stretches of text it may match), [mt] the executable search;
    [mt_sound] and [mt_complete] relate the two. *)

From Stdlib Require Import ZArith Lia.
From stdpp Require Import base tactics list strings numbers.
From S2P Require Import Prelude PyStr PyExc.

Inductive regex :=
| REps
| RChar (p : N -> bool)
| RSeq (r1 r2 : regex)
| RAlt (r1 r2 : regex)
| RStar (greedy : bool) (r : regex)
| RGroup (i : nat) (r : regex)
| RBol            (* ^ with re.MULTILINE *)
| REol            (* $ with re.MULTILINE *)
| REnd            (* $ without re.MULTILINE *)
| RNotAhead (r : regex). (* (?!...) *)

(** A position in the text: what is before it (reversed), what is after it, and
    the captures so far, latest first. *)
Record st := St { before : str; after : str; caps : list (nat * str) }.

Definition advance (c : N) (t : str) (s : st) : st := St (c :: before s) t (caps s).

(** The text between two positions. *)
Definition between (s s' : st) : str := take (length (after s) - length (after s')) (after s).

Definition capture (i : nat) (s s' : st) : st :=
  St (before s') (after s') ((i, between s s') :: caps s').

Definition progress (s s' : st) : bool := (length (after s') <? length (after s))%nat.

Definition at_bol (s : st) : bool :=
  match before s with [] => true | c :: _ => (c =? nl)%N end.

Definition at_eol (s : st) : bool :=
  match after s with [] => true | c :: _ => (c =? nl)%N end.

Definition at_end (s : st) : bool :=
  match after s with [] => true | [c] => (c =? nl)%N | _ => false end.

(** ** The search *)

(** A repetition, given the search of its body; [fuel] bounds the iterations. *)
Fixpoint star_loop (greedy : bool) (body : st -> (st -> option st) -> option st)
    (fuel : nat) (s : st) (k : st -> option st) : option st :=
  match fuel with
  | O => k s
  | S n =>
      let more := body s (fun s' => if progress s s' then star_loop greedy body n s' k else None) in
      if greedy then match more with Some x => Some x | None => k s end
      else match k s with Some x => Some x | None => more end
  end.

Fixpoint mt (r : regex) (s : st) (k : st -> option st) : option st :=
  match r with
  | REps => k s
  | RChar p =>
      match after s with
      | c :: t => if p c then k (advance c t s) else None
      | [] => None
      end
  | RSeq r1 r2 => mt r1 s (fun s' => mt r2 s' k)
  | RAlt r1 r2 => match mt r1 s k with Some x => Some x | None => mt r2 s k end
  | RStar g r' => star_loop g (mt r') (S (length (after s))) s k
  | RGroup i r' => mt r' s (fun s' => k (capture i s s'))
  | RBol => if at_bol s then k s else None
  | REol => if at_eol s then k s else None
  | REnd => if at_end s then k s else None
  | RNotAhead r' => match mt r' s Some with Some _ => None | None => k s end
  end.

(** ** Pattern combinators *)

Definition ch (c : N) : regex := RChar (N.eqb c).
Fixpoint rlit (s : str) : regex :=
  match s with [] => REps | c :: t => RSeq (ch c) (rlit t) end.
Definition ropt (r : regex) : regex := RAlt r REps.
Definition rstar (r : regex) : regex := RStar true r.
Definition rlazy (r : regex) : regex := RStar false r.
Definition rplus (r : regex) : regex := RSeq r (rstar r).
Fixpoint rrep (n : nat) (r : regex) : regex :=
  match n with O => REps | S k => RSeq r (rrep k r) end.
Fixpoint ralts (l : list regex) : regex :=
  match l with [] => RNotAhead REps | [r] => r | r :: l' => RAlt r (ralts l') end.
Fixpoint rseqs (l : list regex) : regex :=
  match l with [] => REps | [r] => r | r :: l' => RSeq r (rseqs l') end.

(** [.] without re.DOTALL, and any character. *)
Definition dot : regex := RChar (fun c => negb (c =? nl)%N).
Definition anychar : regex := RChar (fun _ => true).

Section Classes.
Context {U : UCD}.
Definition rw : regex := RChar is_word.
Definition rs : regex := RChar is_space.
Definition rS : regex := RChar (fun c => negb (is_space c)).
Definition rd : regex := RChar is_decimal.
End Classes.

(** ** Entry points *)

Definition start (s : str) : st := St [] s [].

Record mobj := MObj { m_start : st; m_end : st }.

(** [m.group(0)], [m.group(i)] *)
Definition group0 (m : mobj) : str := between (m_start m) (m_end m).

Fixpoint assoc_nat (i : nat) (l : list (nat * str)) : option str :=
  match l with
  | [] => None
  | (j, s) :: r => if Nat.eqb i j then Some s else assoc_nat i r
  end.

Definition group (i : nat) (m : mobj) : option str := assoc_nat i (caps (m_end m)).

(** A match at this position; with [must] it may not be empty. *)
Definition match_here (must : bool) (r : regex) (s : st) : option st :=
  mt r s (fun s' => if must && negb (progress s s') then None else Some s').

(** The first position, from left to right, where the pattern matches. *)
Fixpoint search_at (r : regex) (must : bool) (b : str) (a : str) : option mobj :=
  match match_here must r (St b a []) with
  | Some s' => Some (MObj (St b a []) s')
  | None => match a with [] => None | c :: t => search_at r false (c :: b) t end
  end.

(** [re.search(r, s)], [re.match(r, s)], [re.fullmatch(r, s)] *)
Definition re_search (r : regex) (s : str) : option mobj := search_at r false [] s.
Definition re_match (r : regex) (s : str) : option mobj :=
  MObj (start s) <$> match_here false r (start s).
Definition re_fullmatch (r : regex) (s : str) : option mobj :=
  MObj (start s) <$> mt r (start s) (fun s' => match after s' with [] => Some s' | _ => None end).

(** [re.finditer]: successive matches, each starting where the previous one
    ended; after an empty match the next one at the same place may not be
    empty.  Every two steps consume a character, which the fuel covers. *)
Fixpoint finditer_loop (fuel : nat) (r : regex) (must : bool) (b a : str) : list mobj :=
  match fuel with
  | O => []
  | S n =>
      match search_at r must b a with
      | None => []
      | Some m =>
          m :: finditer_loop n r (negb (progress (m_start m) (m_end m)))
                 (before (m_end m)) (after (m_end m))
      end
  end.

Definition re_finditer_from (r : regex) (b a : str) : list mobj :=
  finditer_loop (2 * length a + 2) r false b a.

Definition re_finditer (r : regex) (s : str) : list mobj := re_finditer_from r [] s.

(** [re.sub(r, f, s)] with the replacement computed from the match. *)
Fixpoint sub_loop (fuel : nat) (r : regex) (f : mobj -> str) (must : bool) (b a : str) : str :=
  match fuel with
  | O => a
  | S n =>
      match search_at r must b a with
      | None => a
      | Some m =>
          take (length a - length (after (m_start m))) a ++ f m
            ++ sub_loop n r f (negb (progress (m_start m) (m_end m)))
                 (before (m_end m)) (after (m_end m))
      end
  end.

Definition re_sub_fun (r : regex) (f : mobj -> str) (s : str) : str :=
  sub_loop (2 * length s + 2) r f false [] s.

(** [re.sub(r, repl, s)] for a replacement without backslashes. *)
Definition re_sub (r : regex) (repl : str) (s : str) : str := re_sub_fun r (fun _ => repl) s.

(** ** Declarative reading *)

Inductive star_rel (R : st -> st -> Prop) : st -> st -> Prop :=
| star_stop s : star_rel R s s
| star_more s s1 s2 : R s s1 -> progress s s1 = true -> star_rel R s1 s2 -> star_rel R s s2.

Fixpoint den (r : regex) : st -> st -> Prop :=
  match r with
  | REps => fun s s' => s' = s
  | RChar p => fun s s' => exists c t, after s = c :: t /\ p c = true /\ s' = advance c t s
  | RSeq r1 r2 => fun s s' => exists s1, den r1 s s1 /\ den r2 s1 s'
  | RAlt r1 r2 => fun s s' => den r1 s s' \/ den r2 s s'
  | RStar _ r' => star_rel (den r')
  | RGroup i r' => fun s s' => exists s1, den r' s s1 /\ s' = capture i s s1
  | RBol => fun s s' => at_bol s = true /\ s' = s
  | REol => fun s s' => at_eol s = true /\ s' = s
  | REnd => fun s s' => at_end s = true /\ s' = s
  | RNotAhead r' => fun s s' => (forall x, ~ den r' s x) /\ s' = s
  end.

(** The pattern matches somewhere in the text. *)
Definition occurs (r : regex) (s : str) : Prop :=
  exists b a s', s = rev b ++ a /\ den r (St b a []) s'.

(** ** Soundness and completeness of the search *)

Lemma star_loop_sound g body (R : st -> st -> Prop) fuel :
  (forall s k x, body s k = Some x -> exists s', R s s' /\ k s' = Some x) ->
  forall s k x, star_loop g body fuel s k = Some x -> exists s', star_rel R s s' /\ k s' = Some x.
Proof.
  intros Hb. induction fuel as [|n IH]; intros s k x; cbn [star_loop].
  { intros H. exists s. split; [constructor|done]. }
  assert (Hmore : body s (fun s' => if progress s s' then star_loop g body n s' k else None) = Some x ->
    exists s', star_rel R s s' /\ k s' = Some x).
  { intros (s1 & HR & Hk)%Hb. destruct (progress s s1) eqn:Hp; [|done].
    apply IH in Hk as (s2 & Hs & Hk). exists s2. split; [by econstructor|done]. }
  assert (Hstop : k s = Some x -> exists s', star_rel R s s' /\ k s' = Some x).
  { intros. exists s. split; [constructor|done]. }
  destruct g; intros H; repeat case_match; simplify_eq; auto.
Qed.

Lemma star_loop_complete g body (R : st -> st -> Prop) fuel :
  (forall s k s', body s k = None -> R s s' -> k s' = None) ->
  forall s k s', (length (after s) < fuel)%nat ->
    star_loop g body fuel s k = None -> star_rel R s s' -> k s' = None.
Proof.
  intros Hb. induction fuel as [|n IH]; intros s k s' Hlen; [lia|]. cbn [star_loop].
  intros Hnone Hstar.
  assert (k s = None /\ body s (fun s' => if progress s s' then star_loop g body n s' k else None) = None)
    as [Hk Hmore] by (destruct g; repeat case_match; done).
  destruct Hstar as [s|s s1 s2 HR Hp Hs]; [done|].
  specialize (Hb s _ s1 Hmore HR). cbv beta in Hb. rewrite Hp in Hb.
  apply (IH s1 k s2); auto. unfold progress in Hp. apply Nat.ltb_lt in Hp. lia.
Qed.

(** Soundness and completeness are proved together: the lookahead needs both. *)
Lemma mt_spec r :
  (forall s k x, mt r s k = Some x -> exists s', den r s s' /\ k s' = Some x)
  /\ (forall s k s', mt r s k = None -> den r s s' -> k s' = None).
Proof.
  induction r as [|p|r1 [S1 C1] r2 [S2 C2]|r1 [S1 C1] r2 [S2 C2]|g r [S C]|i r [S C]| | | |r [S C]];
    (split; [intros s k x H|intros s k s' H D]); cbn [mt den] in *.
  - eauto.
  - by subst.
  - destruct (after s) as [|c t]; [done|]. destruct (p c) eqn:Hp; [|done]. eauto 10.
  - destruct D as (c & t & E & Hp & ->). by rewrite E, Hp in H.
  - apply S1 in H as (s1 & H1 & H). apply S2 in H as (s2 & H2 & H). eauto.
  - destruct D as (s1 & D1 & D2). eapply C2; [|done]. by apply (C1 s _ s1 H).
  - destruct (mt r1 s k) eqn:E; simplify_eq.
    + apply S1 in E as (s' & H1 & H). eauto.
    + apply S2 in H as (s' & H2 & H). eauto.
  - destruct (mt r1 s k) eqn:E; [done|]. destruct D as [D|D]; eauto.
  - by apply (star_loop_sound g (mt r) (den r)) in H.
  - by apply (star_loop_complete g (mt r) (den r) (Datatypes.S (length (after s)))
      C s k s' ltac:(lia) H).
  - apply S in H as (s1 & H1 & H). eauto.
  - destruct D as (s1 & D & ->). by apply (C s _ s1 H).
  - destruct (at_bol s) eqn:E; [|done]. eauto.
  - destruct D as [E ->]. by rewrite E in H.
  - destruct (at_eol s) eqn:E; [|done]. eauto.
  - destruct D as [E ->]. by rewrite E in H.
  - destruct (at_end s) eqn:E; [|done]. eauto.
  - destruct D as [E ->]. by rewrite E in H.
  - destruct (mt r s Some) eqn:E; [done|]. exists s. split; [|done]. split; [|done].
    intros y Hy. by apply (C s _ y E) in Hy.
  - destruct D as [Hno ->]. destruct (mt r s Some) eqn:E; [|done].
    apply S in E as (s' & D & _). by apply Hno in D.
Qed.

Lemma mt_sound r s k x : mt r s k = Some x -> exists s', den r s s' /\ k s' = Some x.
Proof. apply mt_spec. Qed.

Lemma mt_complete r s k s' : mt r s k = None -> den r s s' -> k s' = None.
Proof. apply mt_spec. Qed.

(** A match consumes the text it moves over and nothing else. *)
Definition consumes (s s' : st) : Prop :=
  exists w, after s = w ++ after s' /\ before s' = rev w ++ before s.

Lemma consumes_refl s : consumes s s.
Proof. by exists []. Qed.

Lemma consumes_trans s1 s2 s3 : consumes s1 s2 -> consumes s2 s3 -> consumes s1 s3.
Proof.
  intros (w & Ha & Hb) (v & Ha' & Hb'). exists (w ++ v).
  by rewrite Ha, Ha', Hb', Hb, rev_app_distr, !app_assoc.
Qed.

Lemma den_consumes r : forall s s', den r s s' -> consumes s s'.
Proof.
  induction r as [|p|r1 IH1 r2 IH2|r1 IH1 r2 IH2|g r IH|i r IH| | | |r IH]; intros s s' D; cbn in D.
  - subst. apply consumes_refl.
  - destruct D as (c & t & E & _ & ->). by exists [c].
  - destruct D as (s1 & D1 & D2). eauto using consumes_trans.
  - destruct D; eauto.
  - induction D as [s|s s1 s2 D _ _ IHD]; eauto using consumes_refl, consumes_trans.
  - destruct D as (s1 & D & ->). apply IH in D as (w & Ha & Hb). by exists w.
  - destruct D as [_ ->]. apply consumes_refl.
  - destruct D as [_ ->]. apply consumes_refl.
  - destruct D as [_ ->]. apply consumes_refl.
  - destruct D as [_ ->]. apply consumes_refl.
Qed.

Lemma between_consumes s s' w : after s = w ++ after s' -> between s s' = w.
Proof.
  intros E. unfold between. rewrite E, length_app.
  replace (length w + length (after s') - length (after s'))%nat with (length w) by lia.
  apply take_app_length.
Qed.

(** [search] returns the leftmost position at which the pattern matches. *)
Lemma search_at_Some r b a m :
  search_at r false b a = Some m ->
  exists w t, a = w ++ t /\ m_start m = St (rev w ++ b) t [] /\ den r (m_start m) (m_end m)
    /\ forall w1 t1, a = w1 ++ t1 -> (length w1 < length w)%nat ->
         forall s', ~ den r (St (rev w1 ++ b) t1 []) s'.
Proof.
  revert b; induction a as [|c a IH]; intros b; cbn [search_at];
    destruct (match_here false r _) as [s'|] eqn:E; unfold match_here in E; cbn [andb] in E.
  1,3: intros [= <-]; apply mt_sound in E as (s1 & D & [= <-]); cbn [m_start m_end];
    eexists [], _; split_and!; [done|done|done|]; intros ? ? ? Hl; cbn in Hl; lia.
  - done.
  - intros H. apply IH in H as (w & t & -> & Hs & D & Hmin).
    exists (c :: w), t. split_and!; [done|by rewrite Hs; cbn; rewrite <- app_assoc|done|].
    intros [|d w1] t1 Heq Hl s' D'; cbn in Heq; simplify_eq.
    + by apply (mt_complete _ _ _ _ E) in D'.
    + cbn in D', Hl. rewrite <- app_assoc in D'. eapply (Hmin w1 t1); eauto. lia.
Qed.

Lemma search_at_None r b a :
  search_at r false b a = None ->
  forall w t, a = w ++ t -> forall s', ~ den r (St (rev w ++ b) t []) s'.
Proof.
  revert b; induction a as [|c a IH]; intros b; cbn [search_at];
    destruct (match_here false r _) as [s1|] eqn:E; try done; unfold match_here in E; cbn [andb] in E.
  - intros _ w t Heq s' D. symmetry in Heq. apply app_eq_nil in Heq as [-> ->]. cbn in D.
    by apply (mt_complete _ _ _ _ E) in D.
  - intros H [|d w] t Heq s' D; cbn in Heq; simplify_eq.
    + by apply (mt_complete _ _ _ _ E) in D.
    + cbn in D. rewrite <- app_assoc in D. eapply IH; eauto.
Qed.

(** [re.search] fails exactly when the pattern occurs nowhere. *)
Lemma re_search_None r s : re_search r s = None <-> ~ occurs r s.
Proof.
  unfold re_search, occurs. split.
  - intros H (b & a & s' & -> & D).
    eapply (search_at_None r [] _ H (rev b) a); [done|]. by rewrite rev_involutive, app_nil_r.
  - intros Hno. destruct (search_at r false [] s) as [m|] eqn:E; [|done].
    apply search_at_Some in E as (w & t & -> & Hs & D & _). exfalso. apply Hno.
    rewrite app_nil_r in Hs. rewrite Hs in D. exists (rev w), t, (m_end m).
    by rewrite rev_involutive.
Qed.

(** ** Searching for simple patterns *)

(** Moving over a stretch of text. *)
Definition skip (w t : str) (s : st) : st := St (rev w ++ before s) t (caps s).

Lemma skip_nil s t : after s = t -> skip [] t s = s.
Proof. intros <-. by destruct s. Qed.

Lemma mt_rlit w : forall s t k, after s = w ++ t -> mt (rlit w) s k = k (skip w t s).
Proof.
  induction w as [|c w IH]; intros s t k E; cbn [rlit mt].
  - by rewrite skip_nil.
  - cbn in E. cbn. rewrite E, N.eqb_refl. rewrite (IH _ t) by done. unfold skip, advance. cbn.
    by rewrite <- app_assoc.
Qed.

Lemma mt_rlit_fail w : forall s k, startswith w (after s) = false -> mt (rlit w) s k = None.
Proof.
  induction w as [|c w IH]; intros s k E; [done|]. cbn in *.
  destruct (after s) as [|d t] eqn:Ea; [done|].
  destruct (N.eqb_spec c d) as [->|]; [|done].
  rewrite IH; [done|]. cbn. by rewrite bool_decide_eq_true_2 in E.
Qed.

Lemma den_rlit w s s' : den (rlit w) s s' -> startswith w (after s) = true.
Proof.
  intros D. destruct (startswith w (after s)) eqn:E; [done|].
  pose proof (mt_rlit_fail w s Some E) as H. by apply (mt_complete _ _ _ _ H) in D.
Qed.

(** What stops a run of characters of a class. *)
Definition stops (p : N -> bool) (t : str) : Prop :=
  match t with [] => True | c :: _ => p c = false end.

Lemma star_loop_run p fuel : forall s w t k x,
  after s = w ++ t -> Forall (fun c => p c = true) w -> stops p t ->
  (length (after s) < fuel)%nat -> k (skip w t s) = Some x ->
  star_loop true (mt (RChar p)) fuel s k = Some x.
Proof.
  induction fuel as [|n IH]; intros s w t k x E Hw Ht Hf Hk; [lia|]. cbn [star_loop mt].
  destruct w as [|c w].
  - cbn in E. rewrite skip_nil in Hk by done. rewrite E.
    destruct t as [|d t]; cbn in Ht; [done|]. by rewrite Ht.
  - cbn in E. rewrite E. inversion Hw as [|? ? Hc Hw']; subst. rewrite Hc.
    assert (Hp : progress s (advance c (w ++ t) s) = true).
    { unfold progress. rewrite E. apply Nat.ltb_lt. cbn. lia. }
    rewrite Hp. rewrite (IH _ w t k x); [done|done|done|done| |].
    + cbn. rewrite E in Hf. cbn in Hf. lia.
    + unfold skip, advance in *. cbn in *. by rewrite <- app_assoc in Hk.
Qed.

(** A greedy class repetition takes the whole run when the rest then matches. *)
Lemma mt_star_run p s w t k x :
  after s = w ++ t -> Forall (fun c => p c = true) w -> stops p t ->
  k (skip w t s) = Some x -> mt (rstar (RChar p)) s k = Some x.
Proof. intros. cbn [mt rstar]. eapply star_loop_run; eauto. Qed.

Lemma mt_plus_run p s w t k x :
  after s = w ++ t -> w <> [] -> Forall (fun c => p c = true) w -> stops p t ->
  k (skip w t s) = Some x -> mt (rplus (RChar p)) s k = Some x.
Proof.
  intros E Hne Hw Ht Hk. unfold rplus. cbn [mt]. destruct w as [|c w]; [done|].
  cbn in E. rewrite E. inversion Hw as [|? ? Hc Hw']; subst. rewrite Hc.
  eapply mt_star_run; eauto. unfold skip, advance in *. cbn in *. by rewrite <- app_assoc in Hk.
Qed.

(** Searching for a pattern that starts with a literal [w]: the search stops at
    the first occurrence of [w] if the pattern matches there. *)
Lemma search_literal w r u v b m :
  (forall u1 u2, u = u1 ++ u2 -> u2 <> [] -> startswith w (u2 ++ w ++ v) = false) ->
  match_here false (RSeq (rlit w) r) (St (rev u ++ b) (w ++ v) []) = Some m ->
  search_at (RSeq (rlit w) r) false b (u ++ w ++ v)
    = Some (MObj (St (rev u ++ b) (w ++ v) []) m).
Proof.
  revert b; induction u as [|c u IH]; intros b Hfresh Hm.
  - cbn [app rev] in *. destruct (w ++ v) eqn:E; cbn [search_at]; by rewrite Hm.
  - cbn [app search_at]. unfold match_here at 1. cbn [mt].
    rewrite mt_rlit_fail by (apply (Hfresh [] (c :: u)); done).
    rewrite IH; [by cbn [rev]; rewrite <- app_assoc| |].
    + intros u1 u2 Hu Hne. apply (Hfresh (c :: u1) u2); [by rewrite Hu|done].
    + by cbn [rev] in Hm; rewrite <- app_assoc in Hm.
Qed.

(** A text that does not contain [w] does not match a pattern starting with it. *)
Lemma search_literal_None w r b a :
  contains w a = false -> search_at (RSeq (rlit w) r) false b a = None.
Proof.
  revert b; induction a as [|c a IH]; intros b H; cbn [contains search_at] in *;
    apply orb_false_iff in H as [Hs Hr]; unfold match_here; cbn [mt];
    rewrite mt_rlit_fail by done; auto.
Qed.

Lemma re_search_literal_None w r s :
  contains w s = false -> re_search (RSeq (rlit w) r) s = None.
Proof. apply search_literal_None. Qed.

(** [re.sub] leaves a text alone in which the pattern does not occur. *)
Lemma re_sub_no_occurrence r f s : ~ occurs r s -> re_sub_fun r f s = s.
Proof.
  intros H%re_search_None. unfold re_sub_fun, re_search in *.
  replace (2 * length s + 2)%nat with (S (2 * length s + 1)) by lia.
  cbn [sub_loop]. by rewrite H.
Qed.

(** ** Patterns that start with a literal *)

(** [w] does not occur in [u ++ rest] before position [length u]. *)
Fixpoint no_earlier (w u rest : str) : bool :=
  match u with
  | [] => true
  | c :: u' => negb (startswith w (u ++ rest)) && no_earlier w u' rest
  end.

Lemma no_earlier_spec w u rest : no_earlier w u rest = true ->
  forall u1 u2, u = u1 ++ u2 -> u2 <> [] -> startswith w (u2 ++ rest) = false.
Proof.
  induction u as [|c u IH]; cbn [no_earlier].
  - intros _ u1 u2 E Hne. symmetry in E. by apply app_eq_nil in E as [_ ->].
  - intros [H1%negb_true_iff H2]%andb_true_iff [|d u1] u2 E Hne; cbn in E; simplify_eq; [done|eauto].
Qed.

Lemma re_search_at_literal w r u v m :
  no_earlier w u (w ++ v) = true ->
  mt r (St (rev w ++ rev u) v []) Some = Some m ->
  re_search (RSeq (rlit w) r) (u ++ w ++ v) = Some (MObj (St (rev u) (w ++ v) []) m).
Proof.
  intros Hu Hm. unfold re_search. rewrite (search_literal w r u v [] m).
  - by rewrite app_nil_r.
  - by apply no_earlier_spec.
  - unfold match_here. cbn [mt andb]. rewrite (mt_rlit w _ v) by done.
    unfold skip. cbn [before caps]. by rewrite app_nil_r.
Qed.

Lemma den_rlit_intro w s t : after s = w ++ t -> den (rlit w) s (skip w t s).
Proof.
  revert s. induction w as [|c w IH]; intros s E; cbn in *.
  - by rewrite skip_nil.
  - exists (advance c (w ++ t) s). split.
    + exists c, (w ++ t). by rewrite N.eqb_refl.
    + replace (skip (c :: w) t s) with (skip w t (advance c (w ++ t) s)).
      * by apply IH.
      * unfold skip, advance. cbn. by rewrite <- app_assoc.
Qed.

(** If what follows the literal can match the empty text, the pattern is found
    exactly in the texts that contain the literal. *)
Lemma re_search_literal_iff w r s :
  (forall x, exists y, den r x y) -> re_search (RSeq (rlit w) r) s = None <-> contains w s = false.
Proof.
  intros Hr. split; [|apply re_search_literal_None].
  rewrite re_search_None. intros Hno. destruct (contains w s) eqn:E; [|done]. exfalso.
  apply contains_spec in E as (u & v & ->). apply Hno.
  pose (s0 := St (rev u) (w ++ v) []). destruct (Hr (skip w v s0)) as [y Hy].
  exists (rev u), (w ++ v), y. rewrite rev_involutive. split; [done|].
  exists (skip w v s0). split; [by apply den_rlit_intro|done].
Qed.

(** Deciding occurrence by running the search. *)
Definition found (r : regex) (s : str) : bool :=
  match re_search r s with Some _ => true | None => false end.

Lemma found_occurs r s : found r s = true -> occurs r s.
Proof.
  unfold found, re_search. destruct (search_at r false [] s) as [m|] eqn:E; [|done]. intros _.
  apply search_at_Some in E as (w & v & -> & Hs & D & _). rewrite app_nil_r in Hs.
  exists (rev w), v, (m_end m). by rewrite rev_involutive, <- Hs.
Qed.

(** A repeated class matches a run of characters of the class. *)
Lemma den_star_class g p s s' : den (RStar g (RChar p)) s s' ->
  exists w, after s = w ++ after s' /\ Forall (fun c => p c = true) w /\ caps s' = caps s.
Proof.
  cbn [den]. induction 1 as [s|s s1 s2 (c & t & E & Hc & ->) _ _ (w & E' & Hw & Hcaps)].
  - by exists [].
  - exists (c :: w). cbn in *. rewrite E, E'. split; [done|]. split; [by constructor|done].
Qed.

Lemma den_char_caps p s s' : den (RChar p) s s' -> caps s' = caps s.
Proof. cbn [den]. by intros (c & t & _ & _ & ->). Qed.

(** ** First characters

    [nullable r] holds when [r] might match the empty text, [first r c] when a
    match of [r] may start with [c]. *)

Fixpoint nullable (r : regex) : bool :=
  match r with
  | RChar _ => false
  | RSeq r1 r2 => nullable r1 && nullable r2
  | RAlt r1 r2 => nullable r1 || nullable r2
  | RGroup _ r' => nullable r'
  | _ => true
  end.

Fixpoint first (r : regex) (c : N) : bool :=
  match r with
  | RChar p => p c
  | RSeq r1 r2 => first r1 c || nullable r1 && first r2 c
  | RAlt r1 r2 => first r1 c || first r2 c
  | RStar _ r' | RGroup _ r' => first r' c
  | _ => false
  end.

Definition starts_with_first (r : regex) (s s' : st) : Prop :=
  exists c t, after s = c :: t /\ first r c = true /\ (length (after s') < length (after s))%nat.

Lemma den_first r : forall s s', den r s s' ->
  after s' = after s /\ nullable r = true \/ starts_with_first r s s'.
Proof.
  unfold starts_with_first.
  induction r as [|p|r1 IH1 r2 IH2|r1 IH1 r2 IH2|g r IH|i r IH| | | |r IH]; intros s s' D; cbn in D |- *.
  - left. by subst.
  - destruct D as (c & t & E & Hc & ->). right. exists c, t. cbn. rewrite E. auto with arith.
  - destruct D as (s1 & D1 & D2). apply IH1 in D1 as [[E1 ->]|(c & t & E1 & H1 & L1)].
    + apply IH2 in D2 as [[E2 ->]|(c & t & E2 & H2 & L2)]; [left; split; [congruence|done]|].
      right. exists c, t. rewrite <- E1. by rewrite H2, orb_true_r.
    + right. exists c, t. rewrite H1. apply den_consumes in D2 as (w & E2 & _).
      rewrite E2, length_app in L1. split_and!; [done|done|lia].
  - destruct D as [D|D]; [apply IH1 in D|apply IH2 in D];
      (destruct D as [[E ->]|(c & t & E & H & L)]; [left|right; exists c, t; rewrite H]);
      rewrite ?orb_true_r; auto.
  - induction D as [s|s s1 s2 D Hp Hs _]; [by left|]. right.
    apply IH in D as [[E _]|(c & t & E & H & L)]; [unfold progress in Hp; rewrite E, Nat.ltb_irrefl in Hp; done|].
    exists c, t. split_and!; [done|done|]. change (star_rel (den r) s1 s2) with (den (RStar g r) s1 s2) in Hs.
    apply den_consumes in Hs as (w & E2 & _). rewrite E2, length_app in L. lia.
  - destruct D as (s1 & D & ->). by apply IH in D.
  - left. by destruct D as [_ ->].
  - left. by destruct D as [_ ->].
  - left. by destruct D as [_ ->].
  - left. by destruct D as [_ ->].
Qed.

(** A pattern that cannot match the empty text fails on a text whose first
    character it cannot start with. *)
Lemma mt_first_fail r b c t cs k :
  nullable r = false -> first r c = false -> mt r (St b (c :: t) cs) k = None.
Proof.
  intros Hn Hf. destruct (mt r _ k) eqn:E; [|done].
  apply mt_sound in E as (s' & [[_ D]|(c' & t' & E & D & _)]%den_first & _); [congruence|].
  cbn in E. simplify_eq. congruence.
Qed.

Lemma mt_nonnullable_progress r s s' :
  nullable r = false -> mt r s Some = Some s' -> (length (after s') < length (after s))%nat.
Proof.
  intros Hn (s1 & [[_ D]|(c & t & _ & _ & L)]%den_first & [= ->])%mt_sound; [congruence|done].
Qed.

(** ** Runs of a class, with backtracking

    A greedy repetition of a class takes the longest run after which the rest of
    the pattern matches. *)

Abbreviation run_of p w := (Forall (fun c => p c = true) w).

Lemma star_loop_longest p fuel : forall s w t k x,
  after s = w ++ t -> run_of p w -> (length (after s) < fuel)%nat ->
  (forall u v, t = u ++ v -> u <> [] -> run_of p u -> k (skip (w ++ u) v s) = None) ->
  k (skip w t s) = Some x -> star_loop true (mt (RChar p)) fuel s k = Some x.
Proof.
  induction fuel as [|n IH]; intros s w t k x E Hw Hf Hlong Hk; [lia|]. cbn [star_loop].
  destruct w as [|c w].
  - cbn [app] in *. rewrite skip_nil in Hk by done.
    destruct (mt (RChar p) s _) as [y|] eqn:Em; [|done]. exfalso.
    apply mt_sound in Em as (s1 & (c & t' & Ea & Hc & ->) & Em).
    destruct (progress _ _); [|done].
    apply (star_loop_sound true (mt (RChar p)) (den (RChar p))) in Em as (s2 & Hst & Hk2); [|apply mt_sound].
    apply (den_star_class true) in Hst as Hrun. destruct Hrun as (w & Ew & Hw' & Hcaps).
    change (star_rel (den (RChar p))) with (den (RStar true (RChar p))) in Hst.
    apply den_consumes in Hst as (w2 & Ew2 & Eb). cbn in *.
    assert (w2 = w) as -> by (rewrite Ew2 in Ew; by apply app_inv_tail in Ew).
    enough (k s2 = None) by congruence.
    rewrite <- (Hlong (c :: w) (after s2)); [|cbn; congruence|done|by constructor].
    f_equal. destruct s2. unfold skip, advance in *. cbn in *. subst. by rewrite <- app_assoc.
  - cbn in E. inversion Hw as [|? ? Hc Hw']; subst. cbn [mt]. rewrite E, Hc.
    assert (Hp : progress s (advance c (w ++ t) s) = true).
    { unfold progress. rewrite E. apply Nat.ltb_lt. cbn. lia. }
    rewrite Hp. rewrite (IH _ w t k x); [done|done|done| | |].
    + cbn. rewrite E in Hf. cbn in Hf. lia.
    + intros u v Ht Hne Hu. rewrite <- (Hlong u v Ht Hne Hu). f_equal. unfold skip, advance. cbn.
      by rewrite <- app_assoc.
    + unfold skip, advance in *. cbn in *. by rewrite <- app_assoc in Hk.
Qed.

Lemma mt_star_longest p s w t k x :
  after s = w ++ t -> run_of p w ->
  (forall u v, t = u ++ v -> u <> [] -> run_of p u -> k (skip (w ++ u) v s) = None) ->
  k (skip w t s) = Some x -> mt (rstar (RChar p)) s k = Some x.
Proof. intros. cbn [mt rstar]. eapply star_loop_longest; eauto. Qed.

Lemma mt_plus_longest p s w t k x :
  after s = w ++ t -> w <> [] -> run_of p w ->
  (forall u v, t = u ++ v -> u <> [] -> run_of p u -> k (skip (w ++ u) v s) = None) ->
  k (skip w t s) = Some x -> mt (rplus (RChar p)) s k = Some x.
Proof.
  intros E Hne Hw Hlong Hk. unfold rplus. cbn [mt]. destruct w as [|c w]; [done|].
  cbn in E. rewrite E. inversion Hw as [|? ? Hc Hw']; subst. rewrite Hc.
  assert (Hs : forall u v, skip u v (advance c (w ++ t) s) = skip (c :: u) v s)
    by (intros; unfold skip, advance; cbn; by rewrite <- app_assoc).
  eapply (mt_star_longest p _ w t); [done|done| |by rewrite Hs].
  intros u v Ht Hu Hr. rewrite Hs. by apply Hlong.
Qed.

Lemma den_plus_class p s s' : den (rplus (RChar p)) s s' ->
  exists w, after s = w ++ after s' /\ run_of p w /\ w <> [] /\ s' = skip w (after s') s.
Proof.
  intros D. pose proof (den_consumes _ _ _ D) as (w0 & Ew0 & Eb).
  destruct D as (s1 & (c & t & E & Hc & ->) & D). apply den_star_class in D as (w & Ew & Hw & Hcaps).
  exists (c :: w). cbn in *. rewrite E, Ew. split_and!; [done|by constructor|done|].
  assert (w0 = c :: w) as -> by (rewrite E, Ew in Ew0; change (c :: w ++ after s') with ((c :: w) ++ after s') in Ew0;
    by apply app_inv_tail in Ew0).
  destruct s'. unfold skip. cbn in *. by rewrite Eb, Hcaps.
Qed.

(** No run of the class is followed by a match of the rest. *)
Lemma mt_plus_none p s k :
  (forall w t, after s = w ++ t -> w <> [] -> run_of p w -> k (skip w t s) = None) ->
  mt (rplus (RChar p)) s k = None.
Proof.
  intros H. destruct (mt _ s k) as [x|] eqn:E; [|done].
  apply mt_sound in E as (s' & (w & Ea & Hw & Hne & Es)%den_plus_class & Hk).
  rewrite Es, (H w) in Hk by done. done.
Qed.

Lemma mt_rrep_run p w : forall s t k, after s = w ++ t -> run_of p w ->
  mt (rrep (length w) (RChar p)) s k = k (skip w t s).
Proof.
  induction w as [|c w IH]; intros s t k E Hw; cbn [rrep length mt].
  - by rewrite skip_nil.
  - inversion Hw as [|? ? Hc Hw']; subst. cbn in E. rewrite E, Hc, (IH _ t) by done.
    f_equal. unfold skip, advance. cbn. by rewrite <- app_assoc.
Qed.

Lemma den_rrep_class p n : forall s s', den (rrep n (RChar p)) s s' ->
  exists w, after s = w ++ after s' /\ run_of p w /\ length w = n.
Proof.
  induction n as [|n IH]; intros s s'; cbn [rrep den].
  - intros ->. by exists [].
  - intros (s1 & (c & t & E & Hc & ->) & (w & Ew & Hw & <-)%IH). exists (c :: w). cbn in *.
    rewrite E, Ew. split_and!; [done|by constructor|done].
Qed.

Lemma den_rlit_app w : forall s s', den (rlit w) s s' -> after s = w ++ after s'.
Proof.
  induction w as [|c w IH]; intros s s'; cbn [rlit den]; [by intros ->|].
  intros (s1 & (d & t & E & Hd%N.eqb_eq & ->) & D%IH). cbn in D. by rewrite E, D, Hd.
Qed.

(** [$] is at the end of the text, or before a newline there. *)
Lemma at_end_cases s : at_end s = true -> after s = [] \/ after s = [nl].
Proof.
  unfold at_end. destruct (after s) as [|c [|d t]]; [by left| |done].
  intros ->%N.eqb_eq. by right.
Qed.
