(* ===== verification/PyDict.v ===== *)
(** * Python dictionaries

    A dict keeps its keys in insertion order, which the sources observe through
    [items()] and [values()]; it is an association list without duplicate keys.
    [dict_map] gives its meaning as a finite map, and each operation is the map
    operation through it. *)

From Stdlib Require Import Lia.
From stdpp Require Import base tactics list gmap fin_maps.
From S2P Require Import Prelude.

Section Dict.
Context {K V : Type} `{EqDecision K}.

Abbreviation dict := (list (K * V)).

(** [d.get(k)], [k in d] *)
Fixpoint dget (k : K) (d : dict) : option V :=
  match d with
  | [] => None
  | (k', v) :: r => if decide (k = k') then Some v else dget k r
  end.

Definition dmem (k : K) (d : dict) : bool :=
  match dget k d with Some _ => true | None => false end.

(** [d[k] = v]: an existing key keeps its place, a new one goes last. *)
Fixpoint dset (k : K) (v : V) (d : dict) : dict :=
  match d with
  | [] => [(k, v)]
  | (k', v') :: r => if decide (k = k') then (k, v) :: r else (k', v') :: dset k v r
  end.

(** [del d[k]], for a key that is present *)
Fixpoint ddel (k : K) (d : dict) : dict :=
  match d with
  | [] => []
  | (k', v') :: r => if decide (k = k') then r else (k', v') :: ddel k r
  end.

Definition dkeys (d : dict) : list K := map fst d.
Definition dvalues (d : dict) : list V := map snd d.

(** [dict(pairs)] and dict comprehensions: later pairs win. *)
Definition dict_of (l : list (K * V)) : dict := fold_left (fun d kv => dset kv.1 kv.2 d) l [].

(** [d.update(e)] *)
Definition dupdate (d e : dict) : dict := fold_left (fun d kv => dset kv.1 kv.2 d) e d.

Definition wf_dict (d : dict) : Prop := NoDup (dkeys d).

Lemma dget_dset_eq k v d : dget k (dset k v d) = Some v.
Proof.
  induction d as [|[k' v'] d IH]; cbn; [by rewrite decide_True|].
  case_decide; cbn; [by rewrite decide_True|by rewrite decide_False].
Qed.

Lemma dget_dset_ne k k' v d : k <> k' -> dget k (dset k' v d) = dget k d.
Proof.
  intros Hne. induction d as [|[j w] d IH]; cbn; [by rewrite decide_False|].
  case_decide; subst; cbn; [by rewrite !decide_False|]. by rewrite IH.
Qed.

Lemma dget_dset k k' v d : dget k (dset k' v d) = if decide (k = k') then Some v else dget k d.
Proof. case_decide; subst; [apply dget_dset_eq|by apply dget_dset_ne]. Qed.

Lemma dget_None k d : dget k d = None <-> k ∉ dkeys d.
Proof.
  induction d as [|[j w] d IH]; cbn; [split; [by intros _ ?%elem_of_nil|done]|].
  rewrite not_elem_of_cons, <- IH. case_decide; naive_solver.
Qed.

Lemma dget_Some_key k v d : dget k d = Some v -> k ∈ dkeys d.
Proof.
  intros H. destruct (decide (k ∈ dkeys d)) as [|Hn]; [done|]. apply dget_None in Hn. congruence.
Qed.

Lemma dmem_keys k d : dmem k d = true <-> k ∈ dkeys d.
Proof.
  unfold dmem. destruct (dget k d) eqn:E.
  - split; [intros _; by eapply dget_Some_key|done].
  - apply dget_None in E. split; done.
Qed.

Lemma dget_elem_of k v d : dget k d = Some v -> (k, v) ∈ d.
Proof.
  induction d as [|[j w] d IH]; cbn; [done|]. case_decide; subst; intros E; simplify_eq;
    rewrite elem_of_cons; auto.
Qed.

Lemma elem_of_dget k v d : wf_dict d -> (k, v) ∈ d -> dget k d = Some v.
Proof.
  unfold wf_dict. induction d as [|[j w] d IH]; cbn; [by intros _ ?%elem_of_nil|].
  rewrite NoDup_cons, elem_of_cons. intros [Hj Hnd] [E|Hin]; simplify_eq; [by rewrite decide_True|].
  rewrite decide_False; [auto|]. intros ->. apply Hj. apply list_elem_of_fmap. by exists (j, v).
Qed.

Lemma dkeys_dset k v d :
  dkeys (dset k v d) = if decide (k ∈ dkeys d) then dkeys d else dkeys d ++ [k].
Proof.
  induction d as [|[j w] d IH]; cbn.
  - rewrite decide_False; [done|apply not_elem_of_nil].
  - destruct (decide (k = j)) as [->|Hne]; cbn.
    + rewrite decide_True; [done|apply elem_of_cons; by left].
    + fold (dkeys (dset k v d)) (dkeys d). rewrite IH.
      destruct (decide (k ∈ dkeys d)) as [Hin|Hin].
      * rewrite decide_True; [done|]. apply elem_of_cons; by right.
      * rewrite decide_False; [done|]. by apply not_elem_of_cons.
Qed.

Lemma elem_of_dkeys_dset k k' v d : k ∈ dkeys (dset k' v d) <-> k = k' \/ k ∈ dkeys d.
Proof.
  rewrite dkeys_dset. case_decide.
  - split; [by right|by intros [->|]].
  - rewrite elem_of_app, list_elem_of_singleton. tauto.
Qed.

Lemma wf_dset k v d : wf_dict d -> wf_dict (dset k v d).
Proof.
  unfold wf_dict. rewrite dkeys_dset. intros Hd. case_decide; [done|].
  apply NoDup_app. split_and!; [done| |apply NoDup_singleton].
  intros x Hx ->%list_elem_of_singleton. done.
Qed.

Lemma wf_nil : wf_dict [].
Proof. constructor. Qed.

Lemma dget_ddel_ne k k' d : k <> k' -> dget k (ddel k' d) = dget k d.
Proof.
  intros Hne. induction d as [|[j w] d IH]; cbn; [done|].
  destruct (decide (k' = j)) as [->|]; cbn; [by rewrite decide_False|]. by rewrite IH.
Qed.

Lemma dget_ddel_eq k d : wf_dict d -> dget k (ddel k d) = None.
Proof.
  unfold wf_dict. induction d as [|[j w] d IH]; cbn; [done|]. rewrite NoDup_cons. intros [Hj Hnd].
  destruct (decide (k = j)) as [->|]; cbn; [by apply dget_None|]. by rewrite decide_False, IH.
Qed.

Lemma dget_ddel k k' d :
  wf_dict d -> dget k (ddel k' d) = if decide (k = k') then None else dget k d.
Proof. intros. case_decide; subst; [by apply dget_ddel_eq|by apply dget_ddel_ne]. Qed.

Lemma ddel_sublist k d : sublist (dkeys (ddel k d)) (dkeys d).
Proof.
  induction d as [|[j w] d IH]; cbn; [constructor|].
  destruct (decide (k = j)); cbn; [by constructor|by constructor].
Qed.

Lemma wf_ddel k d : wf_dict d -> wf_dict (ddel k d).
Proof. unfold wf_dict. intros H. eapply sublist_NoDup; [done|apply ddel_sublist]. Qed.

Lemma elem_of_dkeys_ddel j k d : wf_dict d -> j ∈ dkeys (ddel k d) <-> j <> k /\ j ∈ dkeys d.
Proof.
  intros Hd. pose proof (dget_None j (ddel k d)) as H1. pose proof (dget_None j d) as H2.
  rewrite dget_ddel in H1 by done. destruct (decide (j = k)) as [->|Hn].
  - split; [|by intros [? _]]. intros Hin. by destruct (proj1 H1 eq_refl).
  - destruct (decide (j ∈ dkeys d)), (decide (j ∈ dkeys (ddel k d))); tauto.
Qed.

Lemma dset_snoc k v d : dget k d = None -> dset k v d = d ++ [(k, v)].
Proof.
  induction d as [|[j w] d IH]; cbn; [done|]. case_decide; [done|]. intros E. by rewrite IH.
Qed.

Lemma dict_of_wf l : wf_dict (dict_of l).
Proof.
  unfold dict_of. generalize wf_nil. generalize (@nil (K * V)).
  induction l as [|kv l IH]; intros d Hd; cbn; [done|]. apply IH. by apply wf_dset.
Qed.

(** The last pair with a key decides its value. *)
Lemma dict_of_snoc l k v : dict_of (l ++ [(k, v)]) = dset k v (dict_of l).
Proof. unfold dict_of. by rewrite fold_left_app. Qed.
End Dict.

Section Meaning.
Context {K V : Type} `{Countable K}.

(** The finite map a dictionary stands for. *)
Definition dict_map (d : list (K * V)) : gmap K V := list_to_map d.

Lemma dict_map_lookup k d : dict_map d !! k = dget k d.
Proof.
  unfold dict_map. induction d as [|[j w] d IH]; cbn; [apply lookup_empty|].
  rewrite lookup_insert. repeat case_decide; subst; done.
Qed.

Lemma dict_map_dset k v d : dict_map (dset k v d) = <[k:=v]> (dict_map d).
Proof.
  apply map_eq. intros j. rewrite lookup_insert, !dict_map_lookup, dget_dset.
  repeat case_decide; subst; done.
Qed.

Lemma dict_map_ddel k d : wf_dict d -> dict_map (ddel k d) = delete k (dict_map d).
Proof.
  intros Hd. apply map_eq. intros j. rewrite lookup_delete, !dict_map_lookup, dget_ddel by done.
  repeat case_decide; subst; done.
Qed.
End Meaning.

#[export] Hint Resolve wf_dset wf_ddel wf_nil dict_of_wf : talent.

Section Building.
Context {K V : Type} `{EqDecision K}.

(** A dict built from pairs has exactly their keys, with values among theirs. *)
Lemma dkeys_dict_of (l : list (K * V)) k : k ∈ dkeys (dict_of l) <-> k ∈ map fst l.
Proof.
  induction l as [|[k' v'] l IH] using rev_ind; [done|].
  rewrite dict_of_snoc, elem_of_dkeys_dset, IH, map_app, elem_of_app. cbn.
  rewrite list_elem_of_singleton. tauto.
Qed.

Lemma dget_dict_of (l : list (K * V)) k v : dget k (dict_of l) = Some v -> (k, v) ∈ l.
Proof.
  induction l as [|[k' v'] l IH] using rev_ind; [done|].
  rewrite dict_of_snoc, dget_dset, elem_of_app, list_elem_of_singleton.
  case_decide; [intros [= ->]; subst; by right|by left; apply IH].
Qed.

(** An update changes the keys of its argument to the values there. *)
Lemma dget_dupdate (d e : list (K * V)) k : wf_dict e ->
  dget k (dupdate d e) = match dget k e with Some v => Some v | None => dget k d end.
Proof.
  unfold dupdate, wf_dict. revert d. induction e as [|[k' v] e IH]; intros d Hw; [done|].
  cbn [fold_left fst snd dkeys map] in *. apply NoDup_cons in Hw as [Hn Hw]. rewrite IH by done.
  cbn [dget]. rewrite dget_dset. destruct (decide (k = k')) as [->|]; [|done].
  by rewrite (proj2 (dget_None k' e)).
Qed.

Lemma dget_is_Some k (d : list (K * V)) : k ∈ dkeys d -> is_Some (dget k d).
Proof. intros Hk. apply not_eq_None_Some. intros E. by apply dget_None in E. Qed.
End Building.
