(* ===== verification/PyFloat.v ===== *)
(** * Python floats

    A Python float is an IEEE 754 binary64 number; the standard library's
    [spec_float] operations give its arithmetic exactly, with rounding to
    nearest, without any axiom.  Conversions to and from text follow the
    interpreter: [float(s)] rounds the decimal value correctly, ['%.6f' % x]
    rounds the exact binary value half to even, and [str(x)] writes the shortest
    decimal that reads back as the same float. *)

From Stdlib Require Import ZArith Lia Floats.SpecFloat.
From stdpp Require Import base tactics list strings numbers.
From S2P Require Import Prelude PyStr PyExc.

Local Open Scope Z_scope.
Local Open Scope py_scope.

Abbreviation float := spec_float.
Definition prec : Z := 53.
Definition emax : Z := 1024.

Definition fadd : float -> float -> float := SFadd prec emax.
Definition fsub : float -> float -> float := SFsub prec emax.
Definition fmul : float -> float -> float := SFmul prec emax.
Definition fdiv : float -> float -> float := SFdiv prec emax.
Definition fltb : float -> float -> bool := SFltb.
Definition feqb : float -> float -> bool := SFeqb.

(** [float(n)] for an integer. *)
Definition float_of_Z (n : Z) : float := binary_normalize prec emax n 0 false.

(** The float nearest to [m * 10 ^ e], for [m >= 0]. *)
Definition float_of_decimal (m e : Z) : float :=
  match m with
  | Zpos p =>
      if 0 <=? e then binary_normalize prec emax (m * 10 ^ e) 0 false
      else match 10 ^ (- e) with
           | Zpos q => SFdiv prec emax (S754_finite false p 0) (S754_finite false q 0)
           | _ => S754_nan
           end
  | _ => S754_zero false
  end.

Definition fopp (x : float) : float := SFopp x.

(** [int(x)]: truncation; infinities and NaN raise (OverflowError, ValueError). *)
Definition trunc (x : float) : res Z :=
  match x with
  | S754_zero _ => Ok 0
  | S754_finite s m e =>
      let n := if 0 <=? e then Zpos m * 2 ^ e else Zpos m / 2 ^ (- e) in
      Ok (if s then - n else n)
  | S754_infinity _ => Raise OverflowError
  | S754_nan => Raise ValueError
  end.

(** The absolute value of a finite float as a fraction. *)
Definition frac (m : positive) (e : Z) : Z * Z :=
  if 0 <=? e then (Zpos m * 2 ^ e, 1) else (Zpos m, 2 ^ (- e)).

(** Rounds [num / den] to an integer, ties to even. *)
Definition round_half_even (num den : Z) : Z :=
  let q := num / den in
  let r := num mod den in
  if 2 * r <? den then q
  else if den <? 2 * r then q + 1
  else if Z.even q then q else q + 1.

Definition sign_str (s : bool) : str := if s then $"-" else [].

(** Decimal text of a natural number with at least [w] digits. *)
Definition pad_digits (w : nat) (n : Z) : str :=
  let l := map digit_char (digits 10 n) in
  repeat 48%N (w - length l) ++ l.

(** ['%.6f' % x] *)
Definition format_6f (x : float) : str :=
  match x with
  | S754_zero s => sign_str s +:+ $"0.000000"
  | S754_finite s m e =>
      let (num, den) := frac m e in
      let n := round_half_even (num * 10 ^ 6) den in
      sign_str s +:+ str_int (n / 10 ^ 6) +:+ $"." +:+ pad_digits 6 (n mod 10 ^ 6)
  | S754_infinity s => sign_str s +:+ $"inf"
  | S754_nan => $"nan"
  end.

(** ** Shortest representation *)

(** The [k] with [10 ^ (k - 1) <= num / den < 10 ^ k]. *)
Definition decpt (num den : Z) : Z :=
  let k := Z.of_nat (length (digits 10 num)) - Z.of_nat (length (digits 10 den)) in
  let below := if 0 <=? k then num <? den * 10 ^ k else num * 10 ^ (- k) <? den in
  if below then k else k + 1.

Definition scale (num den e : Z) : Z * Z :=
  if 0 <=? e then (num * 10 ^ e, den) else (num, den * 10 ^ (- e)).

Definition same_float (x y : float) : bool :=
  match x, y with
  | S754_finite s m e, S754_finite s' m' e' =>
      Bool.eqb s s' && Pos.eqb m m' && (e =? e')
  | _, _ => false
  end.

(** The decimal of [n] digits nearest to the value among the two neighbours that
    read back as it. *)
Definition candidate (x : float) (num den k n : Z) : option Z :=
  let (a, b) := scale num den (n - k) in
  let lo := a / b in
  let hi := lo + 1 in
  let ok c := same_float (float_of_decimal c (k - n)) x in
  if ok lo && ok hi then Some (if (a - lo * b) <=? (hi * b - a) then lo else hi)
  else if ok lo then Some lo
  else if ok hi then Some hi
  else None.

Fixpoint shortest (x : float) (num den k : Z) (fuel : nat) (n : Z) : Z * Z :=
  match fuel with
  | O => (0, 0)
  | S f =>
      match candidate x num den k n with
      | Some c => (c, k - n)
      | None => shortest x num den k f (n + 1)
      end
  end.

Fixpoint strip_zeros (fuel : nat) (c e : Z) : Z * Z :=
  match fuel with
  | O => (c, e)
  | S f => if (c mod 10 =? 0) && (0 <? c) then strip_zeros f (c / 10) (e + 1) else (c, e)
  end.

(** The text of the positive decimal [c * 10 ^ e]; with more than [limit] digits
    before the point the exponent is written. *)
Definition decimal_text (limit c e : Z) : str :=
  let ds := map digit_char (digits 10 c) in
  let n := Z.of_nat (length ds) in
  let p := n + e in
  if (-4 <? p) && (p <=? limit) then
    if p <=? 0 then $"0." +:+ repeat 48%N (Z.to_nat (- p)) +:+ ds
    else if n <=? p then ds +:+ repeat 48%N (Z.to_nat (p - n)) +:+ $".0"
    else take (Z.to_nat p) ds +:+ $"." +:+ drop (Z.to_nat p) ds
  else
    let mant := match ds with
                | [d] => [d]
                | d :: r => d :: $"." +:+ r
                | [] => []
                end in
    let x := p - 1 in
    mant +:+ $"e" +:+ (if x <? 0 then $"-" else $"+") +:+ pad_digits 2 (Z.abs x).

(** [str(x)] *)
Definition str_float (x : float) : str :=
  match x with
  | S754_zero s => sign_str s +:+ $"0.0"
  | S754_finite s m e =>
      let (num, den) := frac m e in
      let k := decpt num den in
      let (c, ex) := shortest (S754_finite false m e) num den k 17 1 in
      let (c', ex') := strip_zeros 20 c ex in
      sign_str s +:+ decimal_text 16 c' ex'
  | S754_infinity s => sign_str s +:+ $"inf"
  | S754_nan => $"nan"
  end.

(** [str(x)] of Python 2: at most twelve significant digits. *)
Definition str_float_12 (x : float) : str :=
  match x with
  | S754_zero s => sign_str s +:+ $"0.0"
  | S754_finite s m e =>
      let (num, den) := frac m e in
      let k := decpt num den in
      let (a, b) := scale num den (12 - k) in
      let (c, ex) := strip_zeros 20 (round_half_even a b) (k - 12) in
      sign_str s +:+ decimal_text 12 c ex
  | S754_infinity s => sign_str s +:+ $"inf"
  | S754_nan => $"nan"
  end.

(** ** Reading *)

Section Reading.
Context {U : UCD}.

(** Splits at the first character of a class. *)
Fixpoint span {A} (p : A -> bool) (s : list A) : list A * list A :=
  match s with
  | [] => ([], [])
  | c :: r => if p c then let (a, b) := span p r in (c :: a, b) else ([], s)
  end.

Definition is_exp (c : N) : bool := (c =? 101)%N || (c =? 69)%N.

(** Digits with underscores, or nothing. *)
Definition opt_digits (s : str) : option (list Z) :=
  match s with [] => Some [] | _ => digit_string s end.

(** A signed exponent. *)
Definition parse_exponent (s : str) : option Z :=
  match s with
  | c :: r =>
      if (c =? 45)%N then option_map (fun l => - undigits 10 l) (digit_string r)
      else if (c =? 43)%N then option_map (undigits 10) (digit_string r)
      else option_map (undigits 10) (digit_string s)
  | [] => None
  end.

(** Unsigned decimal number: digits, optional fraction, optional exponent. *)
Definition parse_unsigned (s : str) : option float :=
  let (mant, ex) := span (fun c => negb (is_exp c)) s in
  let exponent := match ex with [] => Some 0 | _ :: r => parse_exponent r end in
  let (ip, fp) := span (fun c => negb (c =? 46)%N) mant in
  let fdigits := match fp with [] => Some [] | _ :: r => opt_digits r end in
  match opt_digits ip, fdigits, exponent with
  | Some i, Some f, Some x =>
      if bool_decide (i = [] /\ f = []) then None
      else Some (float_of_decimal (undigits 10 (i ++ f)) (x - Z.of_nat (length f)))
  | _, _, _ => None
  end.

Definition parse_special (s : str) : option float :=
  let l := lower s in
  if bool_decide (l = $"inf") || bool_decide (l = $"infinity") then Some (S754_infinity false)
  else if bool_decide (l = $"nan") then Some S754_nan
  else None.

Definition parse_magnitude (s : str) : option float :=
  match parse_special s with Some x => Some x | None => parse_unsigned s end.

(** [float(s)]; [None] is the ValueError. *)
Definition parse_float (s : str) : option float :=
  match strip s with
  | c :: r =>
      if (c =? 45)%N then option_map fopp (parse_magnitude r)
      else if (c =? 43)%N then parse_magnitude r
      else parse_magnitude (c :: r)
  | [] => None
  end.
End Reading.

(** ** Sanity checks against the interpreter *)

Example str_float_100 : str_float (float_of_Z 100) = $"100.0".
Proof. vm_compute. reflexivity. Qed.

Example str_float_small : str_float (float_of_decimal 1 (-5)) = $"1e-05".
Proof. vm_compute. reflexivity. Qed.

Example str_float_third : str_float (fdiv (float_of_Z 1) (float_of_Z 3)) = $"0.3333333333333333".
Proof. vm_compute. reflexivity. Qed.

Example str_float_sum :
  str_float (fadd (float_of_decimal 1 (-1)) (float_of_decimal 2 (-1))) = $"0.30000000000000004".
Proof. vm_compute. reflexivity. Qed.

Example format_6f_half : format_6f (float_of_decimal 15 (-1)) = $"1.500000".
Proof. vm_compute. reflexivity. Qed.

Example parse_float_fee :
  @parse_float ascii_only_ucd $"0.000395" = Some (float_of_decimal 395 (-6)).
Proof. vm_compute. reflexivity. Qed.

Example str_float_power_of_two : str_float (S754_finite false (2 ^ 52) (-96)) = $"5.684341886080802e-14".
Proof. vm_compute. reflexivity. Qed.
