(* ===== verification/PyJson.v ===== *)
(** * The json module

    [json.loads] and [json.dumps] on the values the sources exchange with the
    node and the client: the grammar of the standard library's scanner and the
    default formatting of its encoder (ASCII output, insertion order of keys). *)

From Stdlib Require Import ZArith Lia Floats.SpecFloat.
From stdpp Require Import base tactics list strings numbers.
From S2P Require Import Prelude PyStr PyExc PyDict PyFloat.

Local Open Scope Z_scope.
Local Open Scope py_scope.

Inductive json :=
| JNull
| JBool (b : bool)
| JInt (n : Z)
| JFloat (x : float)
| JStr (s : str)
| JList (l : list json)
| JDict (d : list (str * json)).

(** ** Access, as the subscripts of the sources do it *)

(** [j[key]] *)
Definition jkey (k : str) (j : json) : res json :=
  match j with
  | JDict d => or_raise KeyError (dget k d)
  | _ => Raise TypeError
  end.

(** [j[i]] *)
Definition jindex (i : Z) (j : json) : res json :=
  match j with
  | JList l => or_raise IndexError (index l i)
  | JStr s => or_raise IndexError ((fun c => JStr [c]) <$> index s i)
  | JDict _ => Raise KeyError
  | _ => Raise TypeError
  end.

Definition float_eq_dec : forall x y : float, {x = y} + {x <> y}.
Proof. decide equality; first [apply Bool.bool_dec | apply Z.eq_dec | apply Pos.eq_dec]. Defined.

(** [a == b] on decoded values: numbers by value, dicts regardless of order. *)
Definition jnum (j : json) : option float :=
  match j with
  | JInt n => Some (float_of_Z n)
  | JFloat x => Some x
  | JBool b => Some (float_of_Z (if b then 1 else 0))
  | _ => None
  end.

Fixpoint jeqb (a b : json) {struct a} : bool :=
  match a, b with
  | JNull, JNull => true
  | JStr s, JStr s' => bool_decide (s = s')
  | JInt n, JInt n' => n =? n'
  | JList l, JList l' =>
      (fix go l l' := match l, l' with
        | [], [] => true
        | x :: r, y :: r' => jeqb x y && go r r'
        | _, _ => false
        end) l l'
  | JDict d, JDict d' =>
      Nat.eqb (length d) (length d') &&
      (fix go d := match d with
        | [] => true
        | (k, x) :: r => match dget k d' with Some y => jeqb x y | None => false end && go r
        end) d
  | _, _ =>
      match jnum a, jnum b with
      | Some x, Some y => feqb x y
      | _, _ => false
      end
  end.

(** [bool(j)] *)
Definition jtruth (j : json) : bool :=
  match j with
  | JNull => false
  | JBool b => b
  | JInt n => negb (n =? 0)
  | JFloat x => negb (feqb x (float_of_Z 0))
  | JStr s => negb (bool_decide (s = []))
  | JList l => match l with [] => false | _ => true end
  | JDict d => match d with [] => false | _ => true end
  end.

(** ** dumps *)

Definition esc_u (n : N) : str :=
  let d k := hex_char (Z.of_N (n / k) mod 16) in
  92%N :: 117%N :: [d 4096%N; d 256%N; d 16%N; d 1%N].

Definition esc_char (c : N) : str :=
  if (c =? 34)%N then [92; 34]%N
  else if (c =? 92)%N then [92; 92]%N
  else if (c =? 10)%N then [92; 110]%N
  else if (c =? 13)%N then [92; 114]%N
  else if (c =? 9)%N then [92; 116]%N
  else if (c =? 12)%N then [92; 102]%N
  else if (c =? 8)%N then [92; 98]%N
  else if in_range 32 126 c then [c]
  else if (c <? 65536)%N then esc_u c
  else let v := (c - 65536)%N in
       esc_u (55296 + v / 1024)%N ++ esc_u (56320 + v mod 1024)%N.

Definition dumps_str (s : str) : str := 34%N :: flat_map esc_char s ++ [34%N].

Definition dumps_float (x : float) : str :=
  match x with
  | S754_nan => $"NaN"
  | S754_infinity s => if s then $"-Infinity" else $"Infinity"
  | _ => str_float x
  end.

Fixpoint dumps_with (item_sep key_sep : str) (j : json) : str :=
  match j with
  | JNull => $"null"
  | JBool b => if b then $"true" else $"false"
  | JInt n => str_int n
  | JFloat x => dumps_float x
  | JStr s => dumps_str s
  | JList l => $"[" +:+ join item_sep (map (dumps_with item_sep key_sep) l) +:+ $"]"
  | JDict d =>
      $"{" +:+ join item_sep (map (fun '(k, v) => dumps_str k +:+ key_sep +:+ dumps_with item_sep key_sep v) d)
      +:+ $"}"
  end.

(** [json.dumps(j)] and [json.dumps(j, separators=(',', ':'))] *)
Definition dumps : json -> str := dumps_with $", " $": ".
Definition dumps_compact : json -> str := dumps_with $"," $":".

(** [json.dumps(j, indent=4, sort_keys=True)] *)
Fixpoint str_leb (a b : str) : bool :=
  match a, b with
  | [], _ => true
  | _ :: _, [] => false
  | x :: a', y :: b' => if (x <? y)%N then true else if (x =? y)%N then str_leb a' b' else false
  end.

Fixpoint insert_key {V} (kv : str * V) (d : list (str * V)) : list (str * V) :=
  match d with
  | [] => [kv]
  | kv' :: r => if str_leb kv.1 kv'.1 then kv :: d else kv' :: insert_key kv r
  end.

Definition sort_keys {V} (d : list (str * V)) : list (str * V) := foldr insert_key [] d.

Fixpoint dumps_pretty (indent : nat) (j : json) : str :=
  let pad k := nl :: replicate (4 * k) 32%N in
  match j with
  | JList [] => $"[]"
  | JDict [] => $"{}"
  | JList l =>
      $"[" +:+ pad (S indent)
      +:+ join ($"," +:+ pad (S indent)) (map (dumps_pretty (S indent)) l) +:+ pad indent +:+ $"]"
  | JDict d =>
      $"{" +:+ pad (S indent)
      +:+ join ($"," +:+ pad (S indent))
            (map (fun kv => dumps_str kv.1 +:+ $": " +:+ kv.2)
               (sort_keys (map (fun '(k, v) => (k, dumps_pretty (S indent) v)) d)))
      +:+ pad indent +:+ $"}"
  | _ => dumps j
  end.

(** ** loads *)

Definition json_ws (c : N) : bool := (c =? 32)%N || (c =? 9)%N || (c =? 10)%N || (c =? 13)%N.
Definition skip_ws (s : str) : str := drop_while json_ws s.

Definition hex4 (a b c d : N) : option N :=
  match hex_value a, hex_value b, hex_value c, hex_value d with
  | Some a, Some b, Some c, Some d => Some (Z.to_N (((a * 16 + b) * 16 + c) * 16 + d))
  | _, _, _, _ => None
  end.

Definition simple_escape (c : N) : option N :=
  match c with
  | 34 => Some 34 | 92 => Some 92 | 47 => Some 47 | 98 => Some 8
  | 102 => Some 12 | 110 => Some 10 | 114 => Some 13 | 116 => Some 9
  | _ => None
  end%N.

Definition is_high (n : N) : bool := in_range 55296 56319 n.
Definition is_low (n : N) : bool := in_range 56320 57343 n.

(** After the opening quote: the characters and what follows the closing one. *)
Fixpoint parse_chars (s : str) : option (str * str) :=
  match s with
  | [] => None
  | 34%N :: r => Some ([], r)
  | 92%N :: 117%N :: a :: b :: c :: d :: r =>
      match hex4 a b c d with
      | None => None
      | Some n =>
          let single := (fun '(t, r') => (n :: t, r')) <$> parse_chars r in
          if is_high n then
            match r with
            | 92%N :: 117%N :: a' :: b' :: c' :: d' :: r2 =>
                match hex4 a' b' c' d' with
                | Some n2 =>
                    if is_low n2 then
                      (fun '(t, r') => ((65536 + (n - 55296) * 1024 + (n2 - 56320))%N :: t, r'))
                        <$> parse_chars r2
                    else single
                | None => single
                end
            | _ => single
            end
          else single
      end
  | 92%N :: c :: r =>
      match simple_escape c with
      | Some e => (fun '(t, r') => (e :: t, r')) <$> parse_chars r
      | None => None
      end
  | c :: r => if (c <? 32)%N then None else (fun '(t, r') => (c :: t, r')) <$> parse_chars r
  end.

(** The numbers of the scanner: an optional minus, 0 or digits that do not start
    with 0, an optional fraction and an optional exponent. *)
Definition parse_number (s : str) : option (json * str) :=
  let '(sign, s1) := match s with 45%N :: r => ([45%N], r) | _ => ([], s) end in
  let '(int_part, s2) :=
    match s1 with
    | 48%N :: r => ([48%N], r)
    | _ => (take_while ascii_digit s1, drop_while ascii_digit s1)
    end in
  if bool_decide (int_part = []) then None
  else
    let '(frac_part, s3) :=
      match s2 with
      | 46%N :: r => let ds := take_while ascii_digit r in
          if bool_decide (ds = []) then ([], s2) else (46%N :: ds, drop_while ascii_digit r)
      | _ => ([], s2)
      end in
    let '(exp_part, s4) :=
      match s3 with
      | e :: r =>
          if is_exp e then
            let '(sg, r1) := match r with
              | c :: r' => if (c =? 43)%N || (c =? 45)%N then ([c], r') else ([], r)
              | [] => ([], r) end in
            let ds := take_while ascii_digit r1 in
            if bool_decide (ds = []) then ([], s3) else (e :: sg ++ ds, drop_while ascii_digit r1)
          else ([], s3)
      | [] => ([], s3)
      end in
    if bool_decide (frac_part = []) && bool_decide (exp_part = []) then
      (fun n => (JInt n, s4)) <$> parse_int (U := ascii_only_ucd) (sign ++ int_part)
    else
      (fun x => (JFloat x, s4)) <$> parse_float (U := ascii_only_ucd) (sign ++ int_part ++ frac_part ++ exp_part).

Definition strip_lit (w s : str) : option str :=
  if startswith w s then Some (drop (length w) s) else None.

(** Values, with the lists of elements and members after their first bracket.
    Every call but the one that moves from a bracket to the first element
    consumes a character, so that twice the length is fuel enough. *)
Fixpoint parse_value (fuel : nat) (s : str) : option (json * str) :=
  match fuel with
  | O => None
  | S f =>
      match s with
      | 34%N :: r => (fun '(t, r') => (JStr t, r')) <$> parse_chars r
      | 123%N :: r =>
          match skip_ws r with
          | 125%N :: r' => Some (JDict [], r')
          | r' => (fun '(d, r'') => (JDict (dict_of d), r'')) <$> parse_members f r'
          end
      | 91%N :: r =>
          match skip_ws r with
          | 93%N :: r' => Some (JList [], r')
          | r' => (fun '(l, r'') => (JList l, r'')) <$> parse_elements f r'
          end
      | _ =>
          match strip_lit $"null" s, strip_lit $"true" s, strip_lit $"false" s,
                strip_lit $"NaN" s, strip_lit $"Infinity" s, strip_lit $"-Infinity" s with
          | Some r, _, _, _, _, _ => Some (JNull, r)
          | _, Some r, _, _, _, _ => Some (JBool true, r)
          | _, _, Some r, _, _, _ => Some (JBool false, r)
          | _, _, _, Some r, _, _ => Some (JFloat S754_nan, r)
          | _, _, _, _, Some r, _ => Some (JFloat (S754_infinity false), r)
          | _, _, _, _, _, Some r => Some (JFloat (S754_infinity true), r)
          | _, _, _, _, _, _ => parse_number s
          end
      end
  end
with parse_elements (fuel : nat) (s : str) : option (list json * str) :=
  match fuel with
  | O => None
  | S f =>
      match parse_value f s with
      | None => None
      | Some (v, r) =>
          match skip_ws r with
          | 93%N :: r' => Some ([v], r')
          | 44%N :: r' => (fun '(l, r'') => (v :: l, r'')) <$> parse_elements f (skip_ws r')
          | _ => None
          end
      end
  end
with parse_members (fuel : nat) (s : str) : option (list (str * json) * str) :=
  match fuel with
  | O => None
  | S f =>
      match s with
      | 34%N :: r =>
          match parse_chars r with
          | None => None
          | Some (k, r1) =>
              match skip_ws r1 with
              | 58%N :: r2 =>
                  match parse_value f (skip_ws r2) with
                  | None => None
                  | Some (v, r3) =>
                      match skip_ws r3 with
                      | 125%N :: r4 => Some ([(k, v)], r4)
                      | 44%N :: r4 => (fun '(d, r5) => ((k, v) :: d, r5)) <$> parse_members f (skip_ws r4)
                      | _ => None
                      end
                  end
              | _ => None
              end
          end
      | _ => None
      end
  end.

Definition json_fuel (s : str) : nat := (2 * length s + 2)%nat.

(** [json.loads(s)] *)
Definition loads (s : str) : res json :=
  match parse_value (json_fuel s) (skip_ws s) with
  | Some (v, r) => if bool_decide (skip_ws r = []) then Ok v else Raise JSONDecodeError
  | None => Raise JSONDecodeError
  end.

Example loads_ex1 : loads $"{ 'a' : [1, -2.5e1 ,true] , 'b': null}" = Raise JSONDecodeError.
Proof. vm_compute. reflexivity. Qed.

Example loads_dumps_ex :
  let j := JDict [($"destination", JStr $"ꜩ\x"); ($"l", JList [JInt (-3); JFloat (float_of_Z 2); JNull; JDict []; JList []])] in
  loads (dumps j) = Ok j /\ loads (dumps_compact j) = Ok j /\ loads (dumps_pretty 0 j) = Ok j.
Proof. vm_compute. auto. Qed.

Example dumps_ex : dumps (JList [JDict [($"a", JStr $"b"); ($"c", JInt 3)]])
  = lit "[{" +:+ [dquote] +:+ $"a" +:+ [dquote] +:+ $": " +:+ [dquote] +:+ $"b" +:+ [dquote] +:+ $", "
    +:+ [dquote] +:+ $"c" +:+ [dquote] +:+ $": 3}]".
Proof. vm_compute. reflexivity. Qed.
