(* ===== verification/PyTime.v ===== *)
(** * Dates, CSV and byte strings of the standard library

    The pieces of datetime, csv and bytes formatting that the client wrapper
    uses: [strftime] and [strptime] with the format %Y-%m-%dT%H:%M:%SZ,
    [csv.reader] and the printed form of bytes. *)

From Stdlib Require Import ZArith Lia.
From stdpp Require Import base tactics list strings numbers.
From S2P Require Import Prelude PyStr PyExc PyRe PyFloat.

Local Open Scope Z_scope.
Local Open Scope py_scope.

(** ** datetime *)

(** Days since 1970-01-01 of a date of the Gregorian calendar, and back; years
    are counted from March, in eras of 400 years. *)
Definition days_from_civil (y m d : Z) : Z :=
  let y := if m <=? 2 then y - 1 else y in
  let era := y / 400 in
  let yoe := y mod 400 in
  let doy := (153 * (if 2 <? m then m - 3 else m + 9) + 2) / 5 + d - 1 in
  let doe := yoe * 365 + yoe / 4 - yoe / 100 + doy in
  era * 146097 + doe - 719468.

Definition civil_from_days (z : Z) : Z * Z * Z :=
  let z := z + 719468 in
  let era := z / 146097 in
  let doe := z mod 146097 in
  let yoe := (doe - doe / 1460 + doe / 36524 - doe / 146096) / 365 in
  let doy := doe - (365 * yoe + yoe / 4 - yoe / 100) in
  let mp := (5 * doy + 2) / 153 in
  let d := doy - (153 * mp + 2) / 5 + 1 in
  let m := if mp <? 10 then mp + 3 else mp - 9 in
  (if m <=? 2 then yoe + era * 400 + 1 else yoe + era * 400, m, d).

(** [datetime.strftime("%Y-%m-%dT%H:%M:%SZ")] of a time in seconds. *)
Definition iso_utc (secs : Z) : str :=
  let '(y, m, d) := civil_from_days (secs / 86400) in
  let s := secs mod 86400 in
  str_int y +:+ $"-" +:+ pad_digits 2 m +:+ $"-" +:+ pad_digits 2 d +:+ $"T"
  +:+ pad_digits 2 (s / 3600) +:+ $":" +:+ pad_digits 2 (s / 60 mod 60) +:+ $":"
  +:+ pad_digits 2 (s mod 60) +:+ $"Z".

Definition char_class (s : str) : regex := RChar (fun c => existsb (N.eqb c) s).

Section Strptime.
Context {U : UCD}.

(** The pattern that the strptime module builds for the format, which ignores
    case. *)
Definition iso_pattern : regex :=
  let two a b := RSeq a b in
  rseqs
    [ RGroup 1 (rrep 4 rd); ch 45;
      RGroup 2 (ralts [two (ch 49) (char_class $"012"); two (ch 48) (char_class $"123456789");
                       char_class $"123456789"]); ch 45;
      RGroup 3 (ralts [two (ch 51) (char_class $"01"); two (char_class $"12") rd;
                       two (ch 48) (char_class $"123456789"); char_class $"123456789";
                       two (ch 32) (char_class $"123456789")]);
      char_class $"Tt";
      RGroup 4 (ralts [two (ch 50) (char_class $"0123"); two (char_class $"01") rd; rd]); ch 58;
      RGroup 5 (ralts [two (char_class $"012345") rd; rd]); ch 58;
      RGroup 6 (ralts [two (ch 54) (char_class $"01"); two (char_class $"012345") rd; rd]);
      char_class $"Zz" ].

Definition group_int (i : nat) (m : mobj) : res Z :=
  s ← or_raise ValueError (group i m); or_raise ValueError (parse_int s).

(** The time, in seconds, of [datetime.strptime(s, "%Y-%m-%dT%H:%M:%SZ")]. *)
Definition strptime_iso (s : str) : res Z :=
  m ← or_raise ValueError (re_match iso_pattern s);
  if negb (bool_decide (after (m_end m) = [])) then Raise ValueError
  else
    y ← group_int 1 m; mo ← group_int 2 m; d ← group_int 3 m;
    hh ← group_int 4 m; mi ← group_int 5 m; se ← group_int 6 m;
    let days := days_from_civil y mo d in
    if (y =? 0) || negb (bool_decide (civil_from_days days = (y, mo, d))) || (59 <? se) then Raise ValueError
    else Ok (days * 86400 + hh * 3600 + mi * 60 + se).
End Strptime.

Example iso_ex : iso_utc 1569236340 = $"2019-09-23T10:59:00Z".
Proof. vm_compute. reflexivity. Qed.

Example strptime_ex :
  strptime_iso (U := ascii_only_ucd) $"2019-09-23T10:59:00Z" = Ok 1569236340 /\
  strptime_iso (U := ascii_only_ucd) $"2019-02-30T10:59:00Z" = Raise ValueError.
Proof. vm_compute. auto. Qed.

(** ** csv.reader *)

Inductive csv_state := StartRecord | StartField | InField | InQuotedField | QuoteInQuotedField | EatCrnl.

(** The reader between two characters: the state, the fields of the row so far
    and the current field, both reversed. *)
Record csv := Csv { csv_st : csv_state; csv_row : list str; csv_field : str }.

Definition save_field (c : csv) (st : csv_state) : csv :=
  Csv st (rev (csv_field c) :: csv_row c) [].

Definition is_crnl (c : N) : bool := (c =? 10)%N || (c =? 13)%N.

(** One character; [None] is csv.Error. *)
Definition csv_char (delim : N) (c : csv) (x : N) : option csv :=
  let add st := Some (Csv st (csv_row c) (x :: csv_field c)) in
  let start_field :=
    if is_crnl x then Some (save_field c EatCrnl)
    else if (x =? 34)%N then Some (Csv InQuotedField (csv_row c) (csv_field c))
    else if (x =? delim)%N then Some (save_field c StartField)
    else add InField in
  match csv_st c with
  | StartRecord => if is_crnl x then Some (Csv EatCrnl (csv_row c) (csv_field c)) else start_field
  | StartField => start_field
  | InField =>
      if is_crnl x then Some (save_field c EatCrnl)
      else if (x =? delim)%N then Some (save_field c StartField)
      else add InField
  | InQuotedField =>
      if (x =? 34)%N then Some (Csv QuoteInQuotedField (csv_row c) (csv_field c)) else add InQuotedField
  | QuoteInQuotedField =>
      if (x =? 34)%N then add InQuotedField
      else if (x =? delim)%N then Some (save_field c StartField)
      else if is_crnl x then Some (save_field c EatCrnl)
      else add InField
  | EatCrnl => if is_crnl x then Some c else None
  end.

(** The end of a line: the row is complete unless a quoted field is open. *)
Definition csv_eol (c : csv) : csv :=
  match csv_st c with
  | StartRecord => c
  | StartField | InField | QuoteInQuotedField => save_field c StartRecord
  | InQuotedField => c
  | EatCrnl => Csv StartRecord (csv_row c) (csv_field c)
  end.

Fixpoint csv_line (delim : N) (c : csv) (line : str) : option csv :=
  match line with
  | [] => Some (csv_eol c)
  | x :: r => match csv_char delim c x with Some c' => csv_line delim c' r | None => None end
  end.

Fixpoint csv_rows (delim : N) (c : csv) (lines : list str) : option (list (list str)) :=
  match lines with
  | [] =>
      match csv_st c with
      | StartRecord => Some []
      | _ => Some [rev (csv_row (save_field c StartRecord))]
      end
  | line :: rest =>
      match csv_line delim c line with
      | None => None
      | Some c' =>
          match csv_st c' with
          | StartRecord => (fun rows => rev (csv_row c') :: rows) <$> csv_rows delim (Csv StartRecord [] []) rest
          | _ => csv_rows delim c' rest
          end
      end
  end.

(** [list(csv.reader(lines, delimiter=delim))] *)
Definition csv_reader (lines : list str) (delim : N) : res (list (list str)) :=
  or_raise ValueError (csv_rows delim (Csv StartRecord [] []) lines).

Example csv_ex : csv_reader [$"expr1,a"; $"expr2,b c"; []] 44
  = Ok [[$"expr1"; $"a"]; [$"expr2"; $"b c"]; []].
Proof. vm_compute. reflexivity. Qed.

(** ** str(bytes) *)

Definition byte_repr (quote : Z) (b : Z) : str :=
  if b =? quote then [92%N; Z.to_N b]
  else if b =? 92 then [92; 92]%N
  else if b =? 9 then [92; 116]%N
  else if b =? 10 then [92; 110]%N
  else if b =? 13 then [92; 114]%N
  else if (b <? 32) || (127 <=? b) then 92%N :: 120%N :: [hex_char (b / 16); hex_char (b mod 16)]
  else [Z.to_N b].

Definition bytes_repr (bs : bytes) : str :=
  let has c := existsb (Z.eqb c) bs in
  let quote := if has 39 && negb (has 34) then 34 else 39 in
  98%N :: Z.to_N quote :: flat_map (byte_repr quote) bs ++ [Z.to_N quote].

(** ** Numbers that are printed as they were given: int or float *)

Inductive num := NInt (n : Z) | NFloat (x : float).

Definition str_num (x : num) : str := match x with NInt n => str_int n | NFloat x => str_float x end.
Definition num_float (x : num) : float := match x with NInt n => float_of_Z n | NFloat x => x end.

(** [s[:-1]] *)
Definition chop (s : str) : str := slice None (Some (-1)) s.

(** [s.upper()] for the letters of ASCII. *)
Definition upper_ascii (s : str) : str := map (fun c => if ascii_lower c then (c - 32)%N else c) s.
