(* ===== verification/TimeFacts.v ===== *)
(** * Facts about dates

    A time formatted with %Y-%m-%dT%H:%M:%SZ is read back by strptime with the
    same format, for the years that have four digits. *)

From Stdlib Require Import ZArith Lia.
From stdpp Require Import base tactics list strings numbers.
From S2P Require Import Prelude PyStr PyExc PyRe PyFloat PyTime.

Local Open Scope Z_scope.
Local Open Scope py_scope.

(** ** The calendar *)

(** The year of the era and the day of the year, both counted from March. *)
Lemma doe_ranges doe : 0 <= doe < 146097 ->
  let yoe := (doe - doe / 1460 + doe / 36524 - doe / 146096) / 365 in
  let doy := doe - (365 * yoe + yoe / 4 - yoe / 100) in
  0 <= yoe < 400 /\ 0 <= doy <= 365.
Proof. intros H yoe doy. unfold doy, yoe. Z.to_euclidean_division_equations. lia. Qed.

Lemma month_ranges doy : 0 <= doy <= 365 ->
  let mp := (5 * doy + 2) / 153 in
  0 <= mp <= 11 /\ 1 <= doy - (153 * mp + 2) / 5 + 1 <= 31.
Proof. intros H mp. unfold mp. Z.to_euclidean_division_equations. lia. Qed.

Lemma civil_from_days_spec z y m d : civil_from_days z = (y, m, d) ->
  1 <= m <= 12 /\ 1 <= d <= 31 /\ days_from_civil y m d = z.
Proof.
  unfold civil_from_days. set (doe := (z + 719468) mod 146097). set (era := (z + 719468) / 146097).
  pose proof (Z.mod_pos_bound (z + 719468) 146097 ltac:(lia)) as Hdoe. fold doe in Hdoe.
  pose proof (Z.div_mod (z + 719468) 146097 ltac:(lia)) as Hz. fold doe era in Hz.
  destruct (doe_ranges doe Hdoe) as [Hyoe Hdoy].
  set (yoe := (doe - doe / 1460 + doe / 36524 - doe / 146096) / 365) in *.
  set (doy := doe - (365 * yoe + yoe / 4 - yoe / 100)) in *.
  destruct (month_ranges doy Hdoy) as [Hmp Hd]. set (mp := (5 * doy + 2) / 153) in *.
  intros [= <- <- <-].
  assert (Hm : 1 <= (if mp <? 10 then mp + 3 else mp - 9) <= 12) by (destruct (Z.ltb_spec mp 10); lia).
  split; [done|]. split; [done|].
  assert (He : (yoe + era * 400) / 400 = era /\ (yoe + era * 400) mod 400 = yoe).
  { rewrite Z.div_add, Z.mod_add by lia. rewrite Z.div_small, Z.mod_small by lia. lia. }
  unfold days_from_civil. destruct (Z.ltb_spec mp 10).
  - replace (mp + 3 <=? 2) with false by (symmetry; apply Z.leb_gt; lia).
    replace (2 <? mp + 3) with true by (symmetry; apply Z.ltb_lt; lia).
    destruct He as [-> ->]. replace (mp + 3 - 3) with mp by lia. lia.
  - replace (mp - 9 <=? 2) with true by (symmetry; apply Z.leb_le; lia).
    replace (2 <? mp - 9) with false by (symmetry; apply Z.ltb_ge; lia).
    replace (yoe + era * 400 + 1 - 1) with (yoe + era * 400) by lia.
    destruct He as [-> ->]. replace (mp - 9 + 9) with mp by lia. lia.
Qed.

(** Days from 1001-01-01 to 9998-12-31 have a year of four digits. *)
Lemma year_range z y m d : -353920 <= z <= 2932530 -> civil_from_days z = (y, m, d) -> 1000 <= y <= 9999.
Proof.
  intros Hz. unfold civil_from_days. intros [= <- _ _].
  destruct (_ <? 10); destruct (_ <=? 2); Z.to_euclidean_division_equations; lia.
Qed.

(** ** Fields of two digits *)

Section Parse.
Context {U : UCD}.

(** The pattern takes the whole of [w], when the rest then matches. *)
Definition takes (r : regex) (w : str) : Prop :=
  forall s t k x, after s = w ++ t -> k (skip w t s) = Some x -> mt r s k = Some x.

Definition month_pat : regex :=
  ralts [RSeq (ch 49) (char_class $"012"); RSeq (ch 48) (char_class $"123456789"); char_class $"123456789"].
Definition day_pat : regex :=
  ralts [RSeq (ch 51) (char_class $"01"); RSeq (char_class $"12") rd;
         RSeq (ch 48) (char_class $"123456789"); char_class $"123456789";
         RSeq (ch 32) (char_class $"123456789")].
Definition hour_pat : regex := ralts [RSeq (ch 50) (char_class $"0123"); RSeq (char_class $"01") rd; rd].
Definition minute_pat : regex := ralts [RSeq (char_class $"012345") rd; rd].
Definition second_pat : regex := ralts [RSeq (ch 54) (char_class $"01"); RSeq (char_class $"012345") rd; rd].

Lemma small_cases (P : Z -> Prop) n :
  (forall k, (k < n)%nat -> P (Z.of_nat k)) -> forall v, 0 <= v < Z.of_nat n -> P v.
Proof. intros H v Hv. rewrite <- (Z2Nat.id v) by lia. apply H. lia. Qed.

Ltac two_digits :=
  let s := fresh "s" in let t := fresh "t" in let k := fresh "k" in let x := fresh "x" in
  let E := fresh "E" in let Hk := fresh "Hk" in
  intros s t k x E Hk; destruct s as [b a cs]; cbn [after] in E; subst a;
  vm_compute in Hk |- *; rewrite Hk; reflexivity.

(** A field: the pattern takes the two digits of the number, which are read back. *)
Definition field (r : regex) (v : Z) : Prop :=
  takes r (pad_digits 2 v) /\ parse_int (pad_digits 2 v) = Some v.

Lemma month_field v : 1 <= v <= 12 -> field month_pat v.
Proof.
  intros Hv. apply (small_cases (fun v => 1 <= v -> field month_pat v) 13); [|lia|lia]. intros n Hn.
  do 13 (destruct n as [|n]; [intros H1; first [lia | split; [two_digits|vm_compute; reflexivity]]|]). lia.
Qed.

Lemma day_field v : 1 <= v <= 31 -> field day_pat v.
Proof.
  intros Hv. apply (small_cases (fun v => 1 <= v -> field day_pat v) 32); [|lia|lia]. intros n Hn.
  do 32 (destruct n as [|n]; [intros H1; first [lia | split; [two_digits|vm_compute; reflexivity]]|]). lia.
Qed.

Lemma hour_field v : 0 <= v < 24 -> field hour_pat v.
Proof.
  apply (small_cases (field hour_pat) 24). intros n Hn.
  do 24 (destruct n as [|n]; [split; [two_digits|vm_compute; reflexivity]|]). lia.
Qed.

Lemma minute_field v : 0 <= v < 60 -> field minute_pat v.
Proof.
  apply (small_cases (field minute_pat) 60). intros n Hn.
  do 60 (destruct n as [|n]; [split; [two_digits|vm_compute; reflexivity]|]). lia.
Qed.

Lemma second_field v : 0 <= v < 60 -> field second_pat v.
Proof.
  apply (small_cases (field second_pat) 60). intros n Hn.
  do 60 (destruct n as [|n]; [split; [two_digits|vm_compute; reflexivity]|]). lia.
Qed.

(** ** Reading what was written *)

Lemma length_year y : 1000 <= y <= 9999 -> length (str_int y) = 4%nat.
Proof.
  intros Hy. unfold str_int. destruct (Z.eqb_spec y 0); [lia|]. destruct (Z.ltb_spec y 0); [lia|].
  rewrite length_map. pose proof (digits_length_le 10 y 4 ltac:(lia) ltac:(lia)) as Hle.
  enough (~ (length (digits 10 y) <= 3)%nat) by lia. intros H3.
  pose proof (undigits_bound 10 (digits 10 y) ltac:(lia) (digits_digit 10 y ltac:(lia))) as Hb.
  rewrite undigits_digits in Hb by lia.
  assert (10 ^ Z.of_nat (length (digits 10 y)) <= 10 ^ 3) by (apply Z.pow_le_mono_r; lia). lia.
Qed.

Lemma year_takes y : 1000 <= y <= 9999 -> takes (rrep 4 rd) (str_int y).
Proof.
  intros Hy s t k x E Hk. change rd with (RChar is_decimal). rewrite <- (length_year y Hy).
  rewrite (mt_rrep_run is_decimal (str_int y) s t); [done|done|]. apply str_int_decimal. lia.
Qed.

(** A group over a pattern, or a separator, and what follows. *)
Lemma seq_group i r rest w b t cs k x :
  takes r w -> mt rest (St (rev w ++ b) t ((i, w) :: cs)) k = Some x ->
  mt (RSeq (RGroup i r) rest) (St b (w ++ t) cs) k = Some x.
Proof.
  intros Hr Hk. cbn [mt]. eapply Hr; [done|]. unfold capture. by rewrite (between_consumes _ _ w) by done.
Qed.

Lemma seq_sep (p : N -> bool) c rest b t cs k x :
  p c = true -> mt rest (St (c :: b) t cs) k = Some x -> mt (RSeq (RChar p) rest) (St b (c :: t) cs) k = Some x.
Proof. intros Hp Hk. cbn [mt after]. by rewrite Hp. Qed.

Lemma iso_match y m d hh mi se :
  1000 <= y <= 9999 -> 1 <= m <= 12 -> 1 <= d <= 31 -> 0 <= hh < 24 -> 0 <= mi < 60 -> 0 <= se < 60 ->
  exists b, mt iso_pattern (start (str_int y +:+ $"-" +:+ pad_digits 2 m +:+ $"-" +:+ pad_digits 2 d +:+ $"T"
    +:+ pad_digits 2 hh +:+ $":" +:+ pad_digits 2 mi +:+ $":" +:+ pad_digits 2 se +:+ $"Z")) Some
  = Some (St b [] [(6%nat, pad_digits 2 se); (5%nat, pad_digits 2 mi); (4%nat, pad_digits 2 hh);
                   (3%nat, pad_digits 2 d); (2%nat, pad_digits 2 m); (1%nat, str_int y)]).
Proof.
  intros Hy Hm Hd Hh Hmi Hse. eexists. unfold iso_pattern, start. cbn [rseqs].
  eapply (seq_group 1); [by apply year_takes|].
  eapply seq_sep; [reflexivity|]. eapply (seq_group 2); [by apply month_field|].
  eapply seq_sep; [reflexivity|]. eapply (seq_group 3); [by apply day_field|].
  eapply seq_sep; [reflexivity|]. eapply (seq_group 4); [by apply hour_field|].
  eapply seq_sep; [reflexivity|]. eapply (seq_group 5); [by apply minute_field|].
  eapply seq_sep; [reflexivity|]. eapply (seq_group 6); [by apply second_field|].
  reflexivity.
Qed.

(** A time is read back from its text. *)
Lemma strptime_iso_utc secs :
  -353920 * 86400 <= secs < 2932531 * 86400 -> strptime_iso (iso_utc secs) = Ok secs.
Proof.
  intros Hs. unfold iso_utc. destruct (civil_from_days (secs / 86400)) as [[y m] d] eqn:Ec.
  assert (Hz : -353920 <= secs / 86400 <= 2932530).
  { split; [apply Z.div_le_lower_bound; lia|]. enough (secs / 86400 < 2932531) by lia.
    apply Z.div_lt_upper_bound; lia. }
  pose proof (year_range _ y m d Hz Ec) as Hy. destruct (civil_from_days_spec _ y m d Ec) as (Hm & Hd & Hdays).
  pose proof (Z.mod_pos_bound secs 86400 ltac:(lia)) as Hr. set (r := secs mod 86400) in *.
  assert (Hh : 0 <= r / 3600 < 24) by (Z.to_euclidean_division_equations; lia).
  assert (Hmi : 0 <= r / 60 mod 60 < 60) by (apply Z.mod_pos_bound; lia).
  assert (Hse : 0 <= r mod 60 < 60) by (apply Z.mod_pos_bound; lia).
  destruct (iso_match y m d _ _ _ Hy Hm Hd Hh Hmi Hse) as [b Hmt].
  unfold strptime_iso, re_match, match_here. cbn [andb].
  change (mt iso_pattern ?s (fun s' => Some s')) with (mt iso_pattern s Some). rewrite Hmt.
  cbn [fmap option_fmap option_map or_raise mbind res_bind m_end after]. rewrite bool_decide_eq_true_2 by done.
  unfold group_int, group. cbn [m_end caps assoc_nat Nat.eqb or_raise mbind res_bind negb].
  rewrite parse_int_str_int, (proj2 (month_field m Hm)), (proj2 (day_field d Hd)), (proj2 (hour_field _ Hh)),
    (proj2 (minute_field _ Hmi)), (proj2 (second_field _ Hse)).
  cbn [or_raise mbind res_bind]. rewrite Hdays, Ec, bool_decide_eq_true_2 by done.
  replace (y =? 0) with false by (symmetry; apply Z.eqb_neq; lia).
  replace (59 <? r mod 60) with false by (symmetry; apply Z.ltb_ge; lia). cbn [negb orb].
  f_equal. unfold r. Z.to_euclidean_division_equations; lia.
Qed.
End Parse.
