(* ===== verification/PyHeap.v ===== *)
(** * Shared objects

    Lists and dictionaries are objects that several names may refer to; deepcopy
    of the copy module makes new ones.  Decoded JSON values live in a heap: a value
    is immediate or a reference to a cell.  [read_in P] reads a value that only
    uses cells in [P]; [deepcopy] is the procedure of the standard library, with
    its memo of the objects already copied. *)

From Stdlib Require Import ZArith Lia.
From stdpp Require Import base tactics list strings numbers.
From S2P Require Import Prelude PyStr PyExc PyDict PyFloat PyJson.

Inductive hval :=
| HNull
| HBool (b : bool)
| HInt (n : Z)
| HFloat (x : float)
| HStr (s : str)
| HRef (l : nat).

Inductive obj :=
| OList (l : list hval)
| ODict (d : list (str * hval)).

Abbreviation heap := (list obj).

(** The values an object holds. *)
Definition fields (x : obj) : list hval :=
  match x with OList l => l | ODict d => map snd d end.

(** ** Reading *)

Definition immediate (v : hval) : option json :=
  match v with
  | HNull => Some JNull
  | HBool b => Some (JBool b)
  | HInt n => Some (JInt n)
  | HFloat x => Some (JFloat x)
  | HStr s => Some (JStr s)
  | HRef _ => None
  end.

(** The JSON value of an object, from those of its fields. *)
Definition build (x : obj) (js : list json) : json :=
  match x with
  | OList _ => JList js
  | ODict d => JDict (zip (map fst d) js)
  end.

(** The value [v] as JSON, if all cells it uses are in [P]; [n] bounds the depth. *)
Fixpoint read_in (n : nat) (P : nat -> bool) (h : heap) (v : hval) : option json :=
  match v with
  | HRef r =>
      match n with
      | O => None
      | S k =>
          if P r then x ← h !! r; build x <$> mapM (read_in k P h) (fields x) else None
      end
  | _ => immediate v
  end.

Definition reads (P : nat -> bool) (h : heap) (v : hval) (j : json) : Prop := exists n, read_in n P h v = Some j.

Definition everywhere (_ : nat) : bool := true.

(** The cells a value leads to. *)
Inductive reach (h : heap) : hval -> nat -> Prop :=
| reach_here r : reach h (HRef r) r
| reach_field r x v l : h !! r = Some x -> v ∈ fields x -> reach h v l -> reach h (HRef r) l.

(** ** deepcopy *)

Record copying := Copying { c_heap : heap; memo : list (nat * nat) }.

Definition refill (x : obj) (ys : list hval) : obj :=
  match x with OList _ => OList ys | ODict d => ODict (zip (map fst d) ys) end.

(** The fields are copied one after the other, and each copy is added to the new
    object at once. *)
Fixpoint fill (copy : hval -> copying -> option (hval * copying)) (r' : nat) (x : obj)
    (vs ys : list hval) (s : copying) : option copying :=
  match vs with
  | [] => Some s
  | v :: vs' =>
      '(y, s1) ← copy v s;
      fill copy r' x vs' (ys ++ [y]) (Copying (<[r' := refill x (ys ++ [y])]> (c_heap s1)) (memo s1))
  end.

(** A new object is made and recorded in the memo before its fields are copied;
    [n] bounds the depth of the recursion. *)
Fixpoint deepcopy (n : nat) (v : hval) (s : copying) : option (hval * copying) :=
  match v with
  | HRef r =>
      match dget r (memo s) with
      | Some r' => Some (HRef r', s)
      | None =>
          match n with
          | O => None
          | S k =>
              x ← c_heap s !! r;
              let r' := length (c_heap s) in
              s' ← fill (deepcopy k) r' x (fields x) []
                     (Copying (c_heap s ++ [refill x []]) ((r, r') :: memo s));
              Some (HRef r', s')
          end
      end
  | _ => Some (v, s)
  end.

(** ** Facts about reading *)

Lemma mapM_read_weaken {A B} (f g : A -> option B) l js :
  (forall x j, f x = Some j -> g x = Some j) -> mapM f l = Some js -> mapM g l = Some js.
Proof. intros H. rewrite !mapM_Some. intros Hl. induction Hl; constructor; auto. Qed.

(** More fuel, more cells and changes elsewhere do not matter. *)
Lemma read_weaken n : forall m (P Q : nat -> bool) h h' v j,
  n <= m -> (forall l, P l = true -> Q l = true /\ h' !! l = h !! l) ->
  read_in n P h v = Some j -> read_in m Q h' v = Some j.
Proof.
  induction n as [|n IH]; intros m P Q h h' v j Hm Hag Hr.
  { destruct v; [by destruct m..|done]. }
  destruct v as [| | | | |l]; [by destruct m..|].
  destruct m as [|m]; [lia|]. cbn [read_in] in *. destruct (P l) eqn:HP; [|done].
  destruct (Hag l HP) as [-> ->]. destruct (h !! l) as [x|]; [|done]. cbn [mbind option_bind] in *.
  destruct (mapM _ _) as [js|] eqn:E; [|done]. cbn in Hr. simplify_eq.
  erewrite (mapM_read_weaken (read_in n P h)); [done| |done]. intros y j. apply IH; [lia|done].
Qed.

Lemma reads_weaken (P Q : nat -> bool) h h' v j :
  (forall l, P l = true -> Q l = true /\ h' !! l = h !! l) -> reads P h v j -> reads Q h' v j.
Proof. intros H [n Hn]. exists n. by eapply read_weaken. Qed.

Lemma reads_list_weaken (P Q : nat -> bool) h h' vs js :
  (forall l, P l = true -> Q l = true /\ h' !! l = h !! l) ->
  Forall2 (reads P h) vs js -> Forall2 (reads Q h') vs js.
Proof. intros H. induction 1; constructor; eauto using reads_weaken. Qed.

Lemma reads_unique P Q h v j1 j2 : reads P h v j1 -> reads Q h v j2 -> j1 = j2.
Proof.
  intros [n1 H1] [n2 H2].
  apply (read_weaken _ (n1 + n2) P everywhere h h) in H1; [|lia|done].
  apply (read_weaken _ (n1 + n2) Q everywhere h h) in H2; [|lia|done]. congruence.
Qed.

Lemma reads_list P h vs js : Forall2 (reads P h) vs js -> exists n, mapM (read_in n P h) vs = Some js.
Proof.
  induction 1 as [|v j vs js [n Hn] _ [m Hm]]; [by exists 0|]. exists (n + m).
  apply (read_weaken _ (n + m) P P h h) in Hn; [|lia|done].
  apply (mapM_read_weaken _ (read_in (n + m) P h)) in Hm; [|intros x j'; apply read_weaken; [lia|done]].
  cbn. by rewrite Hn, Hm.
Qed.

Lemma reads_ref P h r x js :
  P r = true -> h !! r = Some x -> Forall2 (reads P h) (fields x) js -> reads P h (HRef r) (build x js).
Proof.
  intros HP Hx (n & Hn)%reads_list. exists (S n). cbn [read_in]. rewrite HP, Hx. cbn. by rewrite Hn.
Qed.

Lemma mapM_reads n P h vs js : mapM (read_in n P h) vs = Some js -> Forall2 (reads P h) vs js.
Proof. rewrite mapM_Some. intros H. induction H; constructor; [by exists n|done]. Qed.

Lemma read_ref n P h r j : read_in n P h (HRef r) = Some j ->
  P r = true /\ exists k x js, n = S k /\ h !! r = Some x /\ mapM (read_in k P h) (fields x) = Some js
    /\ j = build x js.
Proof.
  destruct n as [|k]; [done|]. cbn [read_in]. destruct (P r); [|done].
  destruct (h !! r) as [x|] eqn:Hx; [|done]. cbn. destruct (mapM _ _) as [js|] eqn:E; [|done].
  intros [= <-]. split; [done|]. by exists k, x, js.
Qed.

(** A value that can be read in [P] leads to cells of [P] only. *)
Lemma reads_reach P h v l : reach h v l -> forall j, reads P h v j -> P l = true.
Proof.
  induction 1 as [r|r x v l Hx Hv _ IH]; intros j [n Hn]; apply read_ref in Hn as (HP & k & y & js & -> & Hy & Hm & ->);
    [done|]. simplify_eq. apply mapM_reads in Hm.
  apply list_elem_of_lookup in Hv as [i Hi]. eapply Forall2_lookup_l in Hm as (j & _ & Hj); [|done]. eauto.
Qed.

(** ** The size of a value *)

Fixpoint json_size (j : json) : nat :=
  match j with
  | JList l => S (list_sum (map json_size l))
  | JDict d => S (list_sum (map (fun e => json_size e.2) d))
  | _ => 1
  end.

Lemma size_build x js j : length js = length (fields x) -> j ∈ js -> json_size j < json_size (build x js).
Proof.
  intros Hl Hj. assert (H : json_size (build x js) = S (list_sum (map json_size js))).
  { destruct x as [l|d]; [done|]. cbn [build json_size fields] in *. do 2 f_equal.
    rewrite <- (map_map snd json_size). f_equal. rewrite length_map in Hl.
    apply (snd_zip (map fst d)). rewrite length_map. lia. }
  rewrite H. clear H Hl. induction js as [|a js IH]; [by apply elem_of_nil in Hj|].
  apply elem_of_cons in Hj as [->|Hj]; cbn [map list_sum fold_right]; [lia|]. apply IH in Hj. unfold list_sum in *. lia.
Qed.

(** ** deepcopy makes a copy *)

Section Deepcopy.
Context (h0 : heap).

(** The cells made since [h0] and no longer being filled. *)
Definition fresh (prog : list nat) (h : heap) (l : nat) : bool :=
  (length h0 <=? l) && (l <? length h) && bool_decide (l ∉ prog).

(** The objects of [stack] are being copied to the cells [prog]; the others of the
    memo are copied. *)
Record copies (stack prog : list nat) (s : copying) : Prop := MkCopies {
  copies_prefix : length h0 <= length (c_heap s) /\ forall l, l < length h0 -> c_heap s !! l = h0 !! l;
  copies_prog l : l ∈ prog -> length h0 <= l < length (c_heap s);
  copies_memo r r' : dget r (memo s) = Some r' ->
    r ∈ stack \/ forall j, reads everywhere h0 (HRef r) j ->
                   reads (fresh prog (c_heap s)) (c_heap s) (HRef r') j }.

(** Cells and the memo only grow. *)
Definition grows (s s' : copying) : Prop :=
  length (c_heap s) <= length (c_heap s')
  /\ (forall l, l < length (c_heap s) -> c_heap s' !! l = c_heap s !! l)
  /\ forall r r', dget r (memo s) = Some r' -> dget r (memo s') = Some r'.

(** The value is smaller than those being copied. *)
Definition below (stack : list nat) (j : json) : Prop :=
  forall r j', r ∈ stack -> reads everywhere h0 (HRef r) j' -> json_size j < json_size j'.

Lemma grows_refl s : grows s s.
Proof. by split_and!. Qed.

Lemma grows_trans s1 s2 s3 : grows s1 s2 -> grows s2 s3 -> grows s1 s3.
Proof.
  intros (L1 & H1 & M1) (L2 & H2 & M2). split_and!; [lia| |auto].
  intros l Hl. rewrite H2 by lia. auto.
Qed.

Lemma fresh_grows prog s s' : grows s s' -> forall l,
  fresh prog (c_heap s) l = true -> fresh prog (c_heap s') l = true /\ c_heap s' !! l = c_heap s !! l.
Proof.
  intros (L & H & _) l. unfold fresh. rewrite !andb_true_iff, !Nat.leb_le, !Nat.ltb_lt.
  intros [[? ?] ?]. split_and!; [lia|lia|done|apply H; lia].
Qed.

(** Filling a cell that is being filled does not change what is copied. *)
Lemma fresh_insert prog h r x : r ∈ prog -> forall l,
  fresh prog h l = true -> fresh prog (<[r := x]> h) l = true /\ <[r := x]> h !! l = h !! l.
Proof.
  intros Hr l. unfold fresh. rewrite length_insert. intros H. split; [done|].
  apply andb_true_iff in H as [_ H%bool_decide_eq_true_1]. apply list_lookup_insert_ne. by intros ->.
Qed.

Lemma copies_insert stack prog s r x : r ∈ prog -> length h0 <= r ->
  copies stack prog s -> copies stack prog (Copying (<[r := x]> (c_heap s)) (memo s)).
Proof.
  intros Hr Hge [[L H1] H2 H3]. constructor; cbn [c_heap memo].
  - rewrite length_insert. split; [done|]. intros l Hl. rewrite list_lookup_insert_ne by lia. auto.
  - intros l. rewrite length_insert. apply H2.
  - intros q q' Hq. destruct (H3 q q' Hq) as [?|H]; [by left|right]. intros j Hj.
    eapply reads_weaken; [|by apply H]. by apply fresh_insert.
Qed.

(** Before the fields: a new cell for [r], which is now being copied. *)
Lemma copies_start stack prog s r x : copies stack prog s ->
  copies (r :: stack) (length (c_heap s) :: prog) (Copying (c_heap s ++ [x]) ((r, length (c_heap s)) :: memo s)).
Proof.
  intros [[L H1] H2 H3]. constructor; cbn [c_heap memo].
  - rewrite length_app. split; [lia|]. intros l Hl. rewrite lookup_app_l by lia. auto.
  - intros l [->|Hl]%elem_of_cons; rewrite length_app; cbn [length]; [lia|]. apply H2 in Hl. lia.
  - intros q q'. cbn [dget]. destruct (decide (q = r)) as [->|Hne]; [left; left|].
    intros Hq.
    destruct (H3 q q' Hq) as [?|H]; [left; by right|right]. intros j Hj.
    eapply reads_weaken; [|by apply H]. intros l. unfold fresh. rewrite length_app.
    rewrite !andb_true_iff, !Nat.leb_le, !Nat.ltb_lt, !bool_decide_eq_true, not_elem_of_cons.
    intros [[? ?] ?]. split_and!; [lia|cbn; lia|lia|done|]. by apply lookup_app_l.
Qed.

Lemma fields_refill x ys : length ys <= length (fields x) -> fields (refill x ys) = ys.
Proof. destruct x as [l|d]; cbn; [done|]. rewrite length_map. intros H. apply snd_zip. by rewrite length_map. Qed.

Lemma build_refill x ys js : length ys = length (fields x) -> build (refill x ys) js = build x js.
Proof.
  destruct x as [l|d]; cbn; [done|]. rewrite length_map. intros H. do 2 f_equal.
  apply (fst_zip (map fst d)). rewrite length_map. lia.
Qed.

(** After the fields: the new cell is read as the object. *)
Lemma copies_finish stack prog s r r' x ys js :
  copies (r :: stack) (r' :: prog) s -> r' ∉ prog -> length h0 <= r' ->
  dget r (memo s) = Some r' -> c_heap s !! r' = Some (refill x ys) ->
  Forall2 (reads (fresh (r' :: prog) (c_heap s)) (c_heap s)) ys js -> length ys = length (fields x) ->
  reads everywhere h0 (HRef r) (build x js) ->
  copies stack prog s /\ reads (fresh prog (c_heap s)) (c_heap s) (HRef r') (build x js).
Proof.
  intros [H1 H2 H3] Hr' Hge Hmemo Hcell Hys Hlen Hr.
  assert (Hmore : forall l, fresh (r' :: prog) (c_heap s) l = true ->
    fresh prog (c_heap s) l = true /\ c_heap s !! l = c_heap s !! l).
  { intros l. unfold fresh. rewrite !andb_true_iff, !bool_decide_eq_true, not_elem_of_cons. tauto. }
  assert (Hread : reads (fresh prog (c_heap s)) (c_heap s) (HRef r') (build x js)).
  { rewrite <- (build_refill x ys) by done. apply reads_ref; [|done|].
    - unfold fresh. apply lookup_lt_Some in Hcell. rewrite !andb_true_iff, Nat.leb_le, Nat.ltb_lt, bool_decide_eq_true.
      auto.
    - rewrite fields_refill by lia. by eapply reads_list_weaken. }
  split; [|done]. constructor; [done| |].
  - intros l Hl. apply H2. by right.
  - intros q q' Hq. destruct (decide (q = r)) as [->|Hne].
    + right. intros j Hj. rewrite (reads_unique _ _ _ _ _ _ Hj Hr). by simplify_eq.
    + destruct (H3 q q' Hq) as [[->|?]%elem_of_cons|H]; [done|by left|right].
      intros j Hj. eapply reads_weaken; [done|by apply H].
Qed.

(** What a call of [deepcopy] is to do. *)
Definition copy_spec (n : nat) (copy : hval -> copying -> option (hval * copying)) : Prop :=
  forall v s stack prog j, copies stack prog s -> read_in n everywhere h0 v = Some j -> below stack j ->
  exists v' s', copy v s = Some (v', s') /\ copies stack prog s' /\ grows s s'
    /\ reads (fresh prog (c_heap s')) (c_heap s') v' j.

Lemma fill_spec n copy r' x stack prog : copy_spec n copy -> r' ∈ prog -> length h0 <= r' ->
  forall vs js ys jsd s,
    copies stack prog s -> mapM (read_in n everywhere h0) vs = Some js -> Forall (below stack) js ->
    c_heap s !! r' = Some (refill x ys) -> Forall2 (reads (fresh prog (c_heap s)) (c_heap s)) ys jsd ->
    exists ys' s', fill copy r' x vs ys s = Some s' /\ copies stack prog s'
      /\ length (c_heap s) <= length (c_heap s')
      /\ (forall l, l < length (c_heap s) -> l <> r' -> c_heap s' !! l = c_heap s !! l)
      /\ (forall q q', dget q (memo s) = Some q' -> dget q (memo s') = Some q')
      /\ c_heap s' !! r' = Some (refill x ys')
      /\ Forall2 (reads (fresh prog (c_heap s')) (c_heap s')) ys' (jsd ++ js).
Proof.
  intros Hcopy Hr' Hge. induction vs as [|v vs IH]; intros js ys jsd s Hs Hm Hb Hcell Hys; cbn [mapM] in Hm.
  { injection Hm as <-. exists ys, s. rewrite app_nil_r. by split_and!. }
  apply bind_Some in Hm as (j & Hj & Hm). apply bind_Some in Hm as (js' & Hjs & [= <-]).
  inversion Hb as [|? ? Hbj Hb']; subst.
  destruct (Hcopy v s stack prog j Hs Hj Hbj) as (y & s1 & Hc & Hs1 & Hg & Hy).
  cbn [fill]. rewrite Hc. cbn [mbind option_bind].
  assert (Hlt : r' < length (c_heap s1)) by (apply (copies_prog _ _ _ Hs1) in Hr'; lia).
  edestruct (IH js' (ys ++ [y]) (jsd ++ [j])) as (ys' & s' & E & Hs' & L & Hl & Hmm & Hc' & Hys');
    [by apply (copies_insert stack prog s1 r' (refill x (ys ++ [y]))) in Hs1|done|done| | |].
  - cbn [c_heap]. by rewrite list_lookup_insert_eq.
  - cbn [c_heap]. apply Forall2_app.
    + eapply reads_list_weaken; [by apply fresh_insert|]. eapply reads_list_weaken; [by apply fresh_grows|done].
    + repeat constructor. eapply reads_weaken; [by apply fresh_insert|done].
  - exists ys', s'. destruct Hg as (L1 & H1 & M1). cbn [c_heap memo] in *. rewrite length_insert in *.
    rewrite <- app_assoc in Hys'. split_and!; [done|done|lia| |auto|done|done].
    intros l Hlt' Hne. rewrite Hl by (done || lia). rewrite list_lookup_insert_ne by done. auto.
Qed.

Lemma below_fields stack r x js :
  length js = length (fields x) -> below stack (build x js) -> reads everywhere h0 (HRef r) (build x js) ->
  Forall (below (r :: stack)) js.
Proof.
  intros Hl Hb Hr. apply Forall_forall. intros j Hj%list_elem_of_In. pose proof (size_build x js j Hl Hj) as Hs.
  intros q j' [->|Hq]%elem_of_cons Hq'; [by rewrite (reads_unique _ _ _ _ _ _ Hq' Hr)|].
  specialize (Hb q j' Hq Hq'). lia.
Qed.

Lemma copy_immediate n v s stack prog j : copies stack prog s -> immediate v = Some j ->
  exists v' s', deepcopy n v s = Some (v', s') /\ copies stack prog s' /\ grows s s'
    /\ reads (fresh prog (c_heap s')) (c_heap s') v' j.
Proof.
  intros Hs Hv. exists v, s. split; [by destruct v, n|]. split; [done|]. split; [apply grows_refl|].
  exists 0. by destruct v.
Qed.

Lemma deepcopy_spec n : copy_spec n (deepcopy n).
Proof.
  induction n as [|n IH]; intros v s stack prog j Hs Hv Hb.
  { destruct v; [by apply copy_immediate..|done]. }
  destruct v as [| | | | |r]; [by apply copy_immediate..|].
  assert (Hrd : reads everywhere h0 (HRef r) j) by (by exists (S n)).
  cbn [deepcopy]. destruct (dget r (memo s)) as [r'|] eqn:Hr.
  - eexists _, s. split; [done|]. split; [done|]. split; [apply grows_refl|].
    destruct (copies_memo _ _ _ Hs r r' Hr) as [Hin|H]; [|auto].
    specialize (Hb r j Hin Hrd). lia.
  - apply read_ref in Hv as (_ & k & x & js & [= <-] & Hx & Hm & ->).
    assert (Hlen : length js = length (fields x)) by (symmetry; by eapply Forall2_length, mapM_Some).
    pose proof (proj2 (copies_prefix _ _ _ Hs)) as Hpre. pose proof (proj1 (copies_prefix _ _ _ Hs)) as Hle.
    pose proof (lookup_lt_Some _ _ _ Hx) as Hlt. rewrite Hpre, Hx by done. cbn [mbind option_bind].
    set (r' := length (c_heap s)). set (s1 := Copying (c_heap s ++ [refill x []]) ((r, r') :: memo s)).
    pose proof (copies_start stack prog s r (refill x []) Hs) as Hs1.
    destruct (fill_spec n (deepcopy n) r' x (r :: stack) (r' :: prog) IH ltac:(left) Hle
      (fields x) js [] [] s1 Hs1 Hm) as (ys & s' & E & Hs' & L & Hl & Hmm & Hc & Hys).
    + by apply (below_fields stack r x).
    + cbn. unfold r'. rewrite lookup_app_r, Nat.sub_diag by done. done.
    + constructor.
    + rewrite E. cbn [mbind option_bind]. eexists _, s'. split; [done|]. cbn [app] in Hys.
      cbn [c_heap s1] in L, Hl. rewrite length_app in L, Hl. cbn [length] in L, Hl.
      edestruct (copies_finish stack prog s' r r' x ys js) as [H1 H2];
        [done| |done|by apply Hmm; cbn; rewrite decide_True|done|done| |done|].
      * intros Hin. apply (copies_prog _ _ _ Hs) in Hin. unfold r' in Hin. lia.
      * apply Forall2_length in Hys. lia.
      * split; [done|]. split; [|done]. split_and!; [lia| |].
        -- intros l Hl'. rewrite Hl by (unfold r'; lia). by apply lookup_app_l.
        -- intros q q' Hq. apply Hmm. cbn [memo s1 dget]. destruct (decide (q = r)) as [->|]; [congruence|done].
Qed.

End Deepcopy.

(** The copy of a value that can be read reads the same, uses new cells only, and
    no old cell has changed. *)
Lemma deepcopy_copies h n v j : read_in n everywhere h v = Some j ->
  exists v' h' m, deepcopy n v (Copying h []) = Some (v', Copying h' m)
    /\ reads (fun l => length h <=? l) h' v' j /\ forall l, l < length h -> h' !! l = h !! l.
Proof.
  intros Hn.
  destruct (deepcopy_spec h n v (Copying h []) [] [] j) as (v' & [h' m] & E & _ & (_ & Hold & _) & Hr);
    [|done|by intros r j' Hr%elem_of_nil|].
  - constructor; [done|by intros l Hl%elem_of_nil|done].
  - exists v', h', m. split; [done|]. split; [|done].
    eapply reads_weaken; [|exact Hr]. intros l. unfold fresh. cbn. rewrite !andb_true_iff. tauto.
Qed.
