(* ===== verification/PyIO.v ===== *)
(** * Effects

    The launcher code runs processes, reads and writes files, sleeps and prints,
    and mutates the objects it is a method of.  A computation [M S A] takes the
    state [S] of those objects and the trace of what was asked of the operating
    system so far, and gives a result or an exception, the new state and the
    longer trace.  What the system answers is not part of the repository: it is
    the parameter [OS], a family of functions of the trace, so that the same
    question may have another answer later. *)

From Stdlib Require Import ZArith.
From stdpp Require Import base tactics list strings numbers.
From S2P Require Import Prelude PyStr PyExc PyDict PyFloat.

Local Open Scope Z_scope.
Local Open Scope py_scope.

Abbreviation environ := (list (str * str)).

(** Where the output of a spawned process goes: subprocess.DEVNULL, or a log
    file opened by the caller. *)
Inductive target := DevNull | LogFile (path : str).

Inductive event :=
| EPrint (text : str)
| EPrintEnd (text : str)
| EPrintErr (text : str)
| ERun (cmd : list str) (stdin : option bytes) (env : option environ)
| ESpawn (pid : Z) (cmd : list str) (out : target) (env : option environ)
| EPoll (pid : Z)
| ETerminate (pid : Z)
| EKill (pid : Z)
| EWait (pid : Z) (timeout : Z)
| ESleep (seconds : float)
| EMkdtemp (path : str)
| ETempFile (path : str)
| ERmtree (path : str)
| EWrite (path mode text : str)
| EHttp (method url : str) (data : option bytes)
| EExec (cwd : option str) (cmd : list str) (env : option environ)
| EUnlink (path : str)
| ERegtest (regtest : Z) (text : str).

Abbreviation trace := (list event).

(** A finished process: the bytes it wrote and its return code. *)
Record proc_result := ProcResult { p_stdout : bytes; p_stderr : bytes; p_returncode : Z }.

(** The operating system, as the code sees it.  [Raise] is the OSError or
    HTTPError of a call that fails. *)
Class OS := {
  os_isfile : trace -> str -> bool;
  os_isdir : trace -> str -> bool;
  os_environ : trace -> environ;
  os_run : trace -> list str -> option bytes -> option environ -> res proc_result;
  os_spawn : trace -> list str -> target -> option environ -> res Z;
  os_poll : trace -> Z -> option Z;
  os_wait : trace -> Z -> Z -> option Z;
  os_mkdtemp : trace -> str -> res str;
  os_tempfile : trace -> res str;
  os_rmtree : trace -> str -> res ();
  os_read : trace -> str -> res str;
  os_write : trace -> str -> str -> res ();
  os_http : trace -> str -> str -> option bytes -> res bytes;
  os_utcnow : trace -> Z;
  os_getcwd : trace -> str;
  os_listdir : trace -> str -> res (list str);
  os_exec : trace -> option str -> list str -> option environ -> res Z }.

Definition M (S A : Type) : Type := S -> trace -> res A * S * trace.

#[export] Instance M_ret S : MRet (M S) := fun A a s t => (Ok a, s, t).
#[export] Instance M_bind S : MBind (M S) := fun A B f m s t =>
  match m s t with
  | (Ok a, s', t') => f a s' t'
  | (Raise e, s', t') => (Raise e, s', t')
  end.
#[export] Instance M_fmap S : FMap (M S) := fun A B f m s t =>
  match m s t with
  | (Ok a, s', t') => (Ok (f a), s', t')
  | (Raise e, s', t') => (Raise e, s', t')
  end.

Section Basics.
Context {S : Type}.

Definition raise {A} (e : exc) : M S A := fun s t => (Raise e, s, t).
Definition lift {A} (r : res A) : M S A := fun s t => (r, s, t).
Definition emit (e : event) : M S () := fun s t => (Ok (), s, t ++ [e]).
Definition ask {A} (f : trace -> A) : M S A := fun s t => (Ok (f t), s, t).
Definition get : M S S := fun s t => (Ok s, s, t).
Definition put (s : S) : M S () := fun _ t => (Ok (), s, t).
Definition modify (f : S -> S) : M S () := fun s t => (Ok (), f s, t).

(** An answer of the system to a request that is recorded in the trace. *)
Definition request {A} (e : event) (f : trace -> res A) : M S A :=
  fun s t => (f t, s, t ++ [e]).

Definition when (b : bool) (m : M S ()) : M S () := if b then m else mret ().

(** [assert b] *)
Definition massert (b : bool) : M S () := lift (assert_ b).

(** [try: m except ...: h]; the handler gives [None] for the exceptions it does
    not catch.  The effects of [m] before it raised remain. *)
Definition try_except {A} (m : M S A) (h : exc -> option (M S A)) : M S A := fun s t =>
  match m s t with
  | (Raise e, s', t') => match h e with Some k => k s' t' | None => (Raise e, s', t') end
  | r => r
  end.

(** [for x in l: f x] *)
Fixpoint for_ {A} (l : list A) (f : A -> M S ()) : M S () :=
  match l with [] => mret () | a :: r => f a;; for_ r f end.

(** [[f x for x in l]] *)
Fixpoint collect {A B} (l : list A) (f : A -> M S B) : M S (list B) :=
  match l with
  | [] => mret []
  | a :: r => b ← f a; bs ← collect r f; mret (b :: bs)
  end.
End Basics.

(** A method called on an object that is part of a larger state; the object is
    there, [None] is the KeyError of the look-up. *)
Definition zoom {S T A} (get_ : S -> option T) (set_ : T -> S -> S) (m : M T A) : M S A := fun s t =>
  match get_ s with
  | Some x => match m x t with (r, x', t') => (r, set_ x' s, t') end
  | None => (Raise KeyError, s, t)
  end.

(** A computation on another state that starts as [x] and is dropped. *)
Definition on_new {S T A} (x : T) (m : M T A) : M S (A * T) := fun s t =>
  match m x t with
  | (Ok a, x', t') => (Ok (a, x'), s, t')
  | (Raise e, _, t') => (Raise e, s, t')
  end.

(** ** Standard-library calls *)

(** [bytes.decode('utf-8')]: strict; code points are decoded and the bytes must
    be their encoding. *)
Definition valid_cp (c : N) : bool :=
  ((c <? 55296) || ((57343 <? c) && (c <? 1114112)))%N.

Definition decode_utf8 (bs : bytes) : res str :=
  let s := utf8_decode (map Z.to_N bs) in
  if bool_decide (encode s = bs) && forallb valid_cp s then Ok s else Raise ValueError.

(** The newline translation of text-mode pipes and files. *)
Fixpoint universal_newlines (s : str) : str :=
  match s with
  | [] => []
  | 13%N :: r =>
      nl :: match r with
            | 10%N :: r' => universal_newlines r'
            | _ => universal_newlines r
            end
  | c :: r => c :: universal_newlines r
  end.

(** [os.path.join(a, b)] and its iteration. *)
Definition path_join2 (a b : str) : str :=
  if startswith $"/" b then b
  else if bool_decide (a = []) || endswith $"/" a then a +:+ b
  else a +:+ $"/" +:+ b.

Definition path_join (a : str) (l : list str) : str := fold_left path_join2 l a.

(** [os.path.basename] *)
Definition basename (p : str) : str := List.last (split_on 47 p) [].

(** [os.path.splitext(p)[0]]: the extension starts at the last dot of the last
    component, leading dots of the component not counting. *)
Definition splitext_root (p : str) : str :=
  let b := basename p in
  let rest := drop_while (N.eqb 46) b in
  if contains $"." rest then
    let ext := take_while (fun c => negb (c =? 46)%N) (rev rest) in
    take (length p - S (length ext)) p
  else p.

Section Calls.
Context {S : Type} {o : OS}.

Definition print_ (s : str) : M S () := emit (EPrint s).
Definition isfile (p : str) : M S bool := ask (fun t => os_isfile t p).
Definition isdir (p : str) : M S bool := ask (fun t => os_isdir t p).
Definition environ_copy : M S environ := ask os_environ.
Definition sleep (x : float) : M S () := emit (ESleep x).
Definition rmtree (p : str) : M S () := request (ERmtree p) (fun t => os_rmtree t p).
Definition poll (pid : Z) : M S (option Z) := request (EPoll pid) (fun t => Ok (os_poll t pid)).
Definition terminate (pid : Z) : M S () := emit (ETerminate pid).
Definition kill (pid : Z) : M S () := emit (EKill pid).

(** [p.wait(timeout=n)] *)
Definition wait (pid timeout : Z) : M S Z :=
  request (EWait pid timeout) (fun t => or_raise TimeoutExpired (os_wait t pid timeout)).

Definition mkdtemp (prefix : str) : M S str := fun s t =>
  match os_mkdtemp t prefix with
  | Ok p => (Ok p, s, t ++ [EMkdtemp p])
  | Raise e => (Raise e, s, t)
  end.

Definition tempfile_name : M S str := fun s t =>
  match os_tempfile t with
  | Ok p => (Ok p, s, t ++ [ETempFile p])
  | Raise e => (Raise e, s, t)
  end.

(** [open(p, mode).write(text)] *)
Definition write_file (p mode text : str) : M S () :=
  request (EWrite p mode text) (fun t => os_write t p mode).

Definition read_file (p : str) : M S str := fun s t => (os_read t p, s, t).

(** A process run to completion, its output captured. *)
Definition communicate (cmd : list str) (stdin : option bytes) (env : option environ) :
    M S proc_result :=
  request (ERun cmd stdin env) (fun t => os_run t cmd stdin env).

(** [subprocess.Popen(cmd, stdout=out, env=env)] *)
Definition popen (cmd : list str) (out : target) (env : option environ) : M S Z := fun s t =>
  match os_spawn t cmd out env with
  | Ok pid => (Ok pid, s, t ++ [ESpawn pid cmd out env])
  | Raise e => (Raise e, s, t)
  end.

(** A process that writes to the terminal; the result is its return code. *)
Definition exec_in (cwd : option str) (cmd : list str) (env : option environ) : M S Z :=
  request (EExec cwd cmd env) (fun t => os_exec t cwd cmd env).

Definition http (method url : str) (data : option bytes) : M S bytes :=
  request (EHttp method url data) (fun t => os_http t method url data).
End Calls.

(** A system without files or processes, for the witnesses. *)
Definition no_os : OS :=
  {| os_isfile _ _ := false; os_isdir _ _ := false; os_environ _ := [];
     os_run _ _ _ _ := Raise OSError; os_spawn _ _ _ _ := Raise OSError;
     os_poll _ _ := None; os_wait _ _ _ := None; os_mkdtemp _ _ := Raise OSError;
     os_tempfile _ := Raise OSError; os_rmtree _ _ := Raise OSError;
     os_read _ _ := Raise OSError; os_write _ _ _ := Raise OSError;
     os_http _ _ _ _ := Raise OSError; os_utcnow _ := 0; os_getcwd _ := $"/";
     os_listdir _ _ := Raise OSError; os_exec _ _ _ _ := Raise OSError |}.

(** ** Reasoning *)

Section Laws.
Context {S : Type}.

Lemma bind_assoc {A B C} (m : M S A) (f : A -> M S B) (g : B -> M S C) s t :
  ((m ≫= f) ≫= g) s t = (m ≫= (fun a => f a ≫= g)) s t.
Proof. unfold mbind, M_bind. by destruct (m s t) as [[[a|e] s'] t']. Qed.

Lemma bind_Ok {A B} (m : M S A) (f : A -> M S B) s t b s2 t2 :
  (m ≫= f) s t = (Ok b, s2, t2) <->
  exists a s1 t1, m s t = (Ok a, s1, t1) /\ f a s1 t1 = (Ok b, s2, t2).
Proof.
  unfold mbind, M_bind. destruct (m s t) as [[[a|e] s'] t'].
  - split; [by eauto 6|]. by intros (? & ? & ? & ? & ?); simplify_eq.
  - split; [done|]. by intros (? & ? & ? & ? & ?); simplify_eq.
Qed.

(** The computation leaves the state alone and what it asks of the system
    satisfies [P]. *)
Definition emits {A} (P : event -> Prop) (m : M S A) : Prop :=
  forall s t, exists l, (m s t).2 = t ++ l /\ Forall P l /\ (m s t).1.2 = s.

Lemma emits_nothing {A} (P : event -> Prop) (f : S -> trace -> res A) :
  emits P (fun s t => (f s t, s, t)).
Proof. intros s t. exists []. by rewrite app_nil_r. Qed.

Lemma emits_ret {A} P (a : A) : emits P (mret a).
Proof. exact (emits_nothing P (fun _ _ => Ok a)). Qed.

Lemma emits_lift {A} P (r : res A) : emits P (lift r).
Proof. exact (emits_nothing P (fun _ _ => r)). Qed.

Lemma emits_raise {A} P e : emits P (raise (A := A) e).
Proof. exact (emits_nothing P (fun _ _ => Raise e)). Qed.

Lemma emits_ask {A} P (f : trace -> A) : emits P (ask f).
Proof. exact (emits_nothing P (fun _ t => Ok (f t))). Qed.

Lemma emits_get P : emits P get.
Proof. exact (emits_nothing P (fun s _ => Ok s)). Qed.

Lemma emits_emit (P : event -> Prop) e : P e -> emits P (emit e).
Proof. intros He s t. exists [e]. auto. Qed.

Lemma emits_request {A} (P : event -> Prop) e (f : trace -> res A) : P e -> emits P (request e f).
Proof. intros He s t. exists [e]. auto. Qed.

Lemma emits_bind {A B} P (m : M S A) (f : A -> M S B) :
  emits P m -> (forall a, emits P (f a)) -> emits P (m ≫= f).
Proof.
  intros Hm Hf s t. unfold mbind, M_bind. destruct (Hm s t) as (l & Hl & Hp & Hs).
  destruct (m s t) as [[[a|e] s'] t'] eqn:E; cbn in *; subst; [|by exists l].
  destruct (Hf a s (t ++ l)) as (l' & -> & Hp' & ->). exists (l ++ l').
  rewrite app_assoc. split_and!; [done|by apply Forall_app|done].
Qed.

Lemma emits_fmap {A B} P (m : M S A) (f : A -> B) : emits P m -> emits P (f <$> m).
Proof.
  intros Hm s t. unfold fmap, M_fmap. destruct (Hm s t) as (l & Hl & Hp & Hs).
  destruct (m s t) as [[[a|e] s'] t']; cbn in *; subst; by exists l.
Qed.

Lemma emits_for {A} P (l : list A) (f : A -> M S ()) :
  (forall a, emits P (f a)) -> emits P (for_ l f).
Proof. intros Hf. induction l as [|a l IH]; cbn; [apply emits_ret|by apply emits_bind]. Qed.

Lemma emits_collect {A B} P (l : list A) (f : A -> M S B) :
  (forall a, emits P (f a)) -> emits P (collect l f).
Proof.
  intros Hf. induction l as [|a l IH]; cbn; [apply emits_ret|].
  apply emits_bind; [done|]. intros b. apply emits_bind; [done|]. intros bs. apply emits_ret.
Qed.

Lemma emits_try {A} P (m : M S A) h :
  emits P m -> (forall e k, h e = Some k -> emits P k) -> emits P (try_except m h).
Proof.
  intros Hm Hh s t. unfold try_except. destruct (Hm s t) as (l & Hl & Hp & Hs).
  destruct (m s t) as [[[a|e] s'] t'] eqn:E; cbn in *; subst; [by exists l|].
  destruct (h e) as [k|] eqn:Ek; [|by exists l].
  destruct (Hh e k Ek s (t ++ l)) as (l' & -> & Hp' & ->). exists (l ++ l').
  rewrite app_assoc. split_and!; [done|by apply Forall_app|done].
Qed.

Lemma emits_when P b (m : M S ()) : emits P m -> emits P (when b m).
Proof. destruct b; [done|intros _; apply emits_ret]. Qed.

Lemma emits_impl {A} (P Q : event -> Prop) (m : M S A) :
  (forall e, P e -> Q e) -> emits P m -> emits Q m.
Proof.
  intros HPQ Hm s t. destruct (Hm s t) as (l & ? & ? & ?). exists l. split_and!; [done| |done].
  by eapply Forall_impl.
Qed.
End Laws.

#[export] Hint Resolve emits_ret emits_lift emits_raise emits_ask emits_get emits_emit emits_request
  emits_bind emits_fmap emits_for emits_collect emits_try emits_when : talent.

Section CallLaws.
Context {S : Type} {o : OS}.

Lemma emits_popen (P : event -> Prop) cmd out env :
  (forall pid, P (ESpawn pid cmd out env)) -> emits (S := S) P (popen cmd out env).
Proof.
  intros HP s t. unfold popen. destruct (os_spawn t cmd out env) as [pid|e].
  - exists [ESpawn pid cmd out env]. auto.
  - exists []. by rewrite app_nil_r.
Qed.

Lemma emits_mkdtemp (P : event -> Prop) p :
  (forall d, P (EMkdtemp d)) -> emits (S := S) P (mkdtemp p).
Proof.
  intros HP s t. unfold mkdtemp. destruct (os_mkdtemp t p) as [d|e].
  - exists [EMkdtemp d]. auto.
  - exists []. by rewrite app_nil_r.
Qed.

Lemma emits_tempfile (P : event -> Prop) :
  (forall d, P (ETempFile d)) -> emits (S := S) P tempfile_name.
Proof.
  intros HP s t. unfold tempfile_name. destruct (os_tempfile t) as [d|e].
  - exists [ETempFile d]. auto.
  - exists []. by rewrite app_nil_r.
Qed.

Lemma emits_read (P : event -> Prop) p : emits (S := S) P (read_file p).
Proof. exact (emits_nothing P (fun _ t => os_read t p)). Qed.
End CallLaws.

(** Decomposes a computation into its calls; what remains is [P] of the events. *)
Ltac solve_emits :=
  repeat first
    [ progress intros
    | apply emits_ret | apply emits_lift | apply emits_raise | apply emits_ask | apply emits_get
    | apply emits_when | apply emits_for | apply emits_collect | apply emits_fmap
    | apply emits_popen | apply emits_mkdtemp | apply emits_tempfile | apply emits_read
    | apply emits_try | apply emits_bind | apply emits_request | apply emits_emit
    | case_match ].

(** Runs the deterministic prefix of a computation in the goal or a hypothesis. *)
Ltac m_run := cbv beta iota zeta delta
  [mbind M_bind mret M_ret fmap M_fmap raise lift emit ask get put modify request when massert
   assert_ or_raise print_ isfile isdir environ_copy sleep rmtree poll terminate kill wait
   mkdtemp tempfile_name write_file read_file communicate popen http exec_in try_except].
Ltac m_run_in H := cbv beta iota zeta delta
  [mbind M_bind mret M_ret fmap M_fmap raise lift emit ask get put modify request when massert
   assert_ or_raise print_ isfile isdir environ_copy sleep rmtree poll terminate kill wait
   mkdtemp tempfile_name write_file read_file communicate popen http exec_in try_except] in H.

(** ** Triples on the state *)

Section Hoare.
Context {S : Type}.

(** From a state with [P] the computation returns [a] in a state with [Q a], or
    raises in a state with [E]. *)
Definition triple {A} (P : S -> Prop) (m : M S A) (Q : A -> S -> Prop) (E : S -> Prop) : Prop :=
  forall s t, P s -> match m s t with (Ok a, s', _) => Q a s' | (Raise _, s', _) => E s' end.

Lemma triple_bind {A B} P (m : M S A) (f : A -> M S B) Q Q' E :
  triple P m Q E -> (forall a, triple (Q a) (f a) Q' E) -> triple P (m ≫= f) Q' E.
Proof.
  intros Hm Hf s t HP. unfold mbind, M_bind. specialize (Hm s t HP).
  destruct (m s t) as [[[a|e] s'] t']; [|done]. by apply Hf.
Qed.

Lemma triple_ret {A} (a : A) (Q : A -> S -> Prop) E : triple (Q a) (mret a) Q E.
Proof. by intros s t. Qed.

(** A computation that leaves the state alone. *)
Definition keeps {A} (m : M S A) : Prop := forall s t, (m s t).1.2 = s.

Lemma keeps_emits {A} P (m : M S A) : emits P m -> keeps m.
Proof. intros H s t. by destruct (H s t) as (l & _ & _ & ?). Qed.

Lemma keeps_bind {A B} (m : M S A) (f : A -> M S B) :
  keeps m -> (forall a, keeps (f a)) -> keeps (m ≫= f).
Proof.
  intros Hm Hf s t. unfold mbind, M_bind. specialize (Hm s t).
  destruct (m s t) as [[[a|e] s'] t']; cbn in Hm; subst; [apply Hf|done].
Qed.

Lemma keeps_fmap {A B} (m : M S A) (f : A -> B) : keeps m -> keeps (f <$> m).
Proof. intros Hm s t. unfold fmap, M_fmap. specialize (Hm s t). by destruct (m s t) as [[[a|e] s'] t']. Qed.

Lemma keeps_try {A} (m : M S A) h :
  keeps m -> (forall e k, h e = Some k -> keeps k) -> keeps (try_except m h).
Proof.
  intros Hm Hh s t. unfold try_except. specialize (Hm s t).
  destruct (m s t) as [[[a|e] s'] t']; cbn in Hm; subst; [done|].
  destruct (h e) as [k|] eqn:E; [by apply (Hh e k)|done].
Qed.

Lemma keeps_for {A} (l : list A) (f : A -> M S ()) : (forall a, keeps (f a)) -> keeps (for_ l f).
Proof.
  intros Hf. induction l as [|a l IH]; cbn; [by intros s t|]. apply keeps_bind; [apply Hf|done].
Qed.

Lemma keeps_when b (m : M S ()) : keeps m -> keeps (when b m).
Proof. destruct b; [done|by intros _ s t]. Qed.

Lemma triple_frame {A} (P E : S -> Prop) (m : M S A) :
  keeps m -> (forall s, P s -> E s) -> triple P m (fun _ => P) E.
Proof.
  intros Hm HE s t HP. specialize (Hm s t).
  destruct (m s t) as [[[a|e] s'] t']; cbn in Hm; subst; auto.
Qed.

Lemma triple_raise {A} (P E : S -> Prop) (Q : A -> S -> Prop) e :
  (forall s, P s -> E s) -> triple P (raise e) Q E.
Proof. intros HE s t HP. by apply HE. Qed.

Lemma triple_assert (P E : S -> Prop) b :
  (forall s, P s -> E s) -> triple P (massert b) (fun _ s => P s /\ b = true) E.
Proof. intros HE s t HP. destruct b; cbn; auto. Qed.

Lemma triple_get (P E : S -> Prop) : triple P get (fun x s => P s /\ x = s) E.
Proof. by intros s t HP. Qed.

Lemma triple_modify (P E : S -> Prop) f (Q : S -> Prop) :
  (forall s, P s -> Q (f s)) -> triple P (modify f) (fun _ => Q) E.
Proof. intros H s t HP. by apply H. Qed.

Lemma triple_conseq {A} (P P' : S -> Prop) (m : M S A) (Q Q' : A -> S -> Prop) (E E' : S -> Prop) :
  triple P m Q E -> (forall s, P' s -> P s) -> (forall a s, Q a s -> Q' a s) -> (forall s, E s -> E' s) ->
  triple P' m Q' E'.
Proof.
  intros Hm HP HQ HE s t H. specialize (Hm s t (HP s H)).
  destruct (m s t) as [[[a|e] s'] t']; auto.
Qed.

Lemma triple_for {A} (P : S -> Prop) (l : list A) (f : A -> M S ()) :
  (forall a, a ∈ l -> triple P (f a) (fun _ => P) P) -> triple P (for_ l f) (fun _ => P) P.
Proof.
  induction l as [|a l IH]; intros Hf; cbn; [by intros s t|].
  eapply triple_bind; [apply Hf, elem_of_cons; by left|].
  intros []. apply IH. intros b Hb. apply Hf, elem_of_cons. by right.
Qed.

(** *** One statement of a method, and what follows it *)

Lemma get_then {B} (P E : S -> Prop) (f : S -> M S B) Q :
  (forall self, P self -> triple P (f self) Q E) -> triple P (get ≫= f) Q E.
Proof. intros H s t HP. exact (H s HP s t HP). Qed.

Lemma assert_then {B} (P E : S -> Prop) b (f : () -> M S B) Q :
  (forall s, P s -> E s) -> (b = true -> triple P (f ()) Q E) -> triple P (massert b ≫= f) Q E.
Proof. intros HE H s t HP. destruct b; [by apply H|by apply HE]. Qed.

Lemma lift_then {A B} (P E : S -> Prop) (r : res A) (f : A -> M S B) Q :
  (forall s, P s -> E s) -> (forall a, r = Ok a -> triple P (f a) Q E) -> triple P (lift r ≫= f) Q E.
Proof. intros HE H s t HP. destruct r as [a|e]; [by apply (H a)|by apply HE]. Qed.

Lemma keeps_then {A B} (P E : S -> Prop) (m : M S A) (f : A -> M S B) Q :
  keeps m -> (forall s, P s -> E s) -> (forall a, triple P (f a) Q E) -> triple P (m ≫= f) Q E.
Proof. intros Hm HE H. eapply triple_bind; [by apply triple_frame|exact H]. Qed.

Lemma frame_then {A B} (P E : S -> Prop) (m : M S A) (f : A -> M S B) Q :
  triple P m (fun _ => P) P -> (forall s, P s -> E s) -> (forall a, triple P (f a) Q E) -> triple P (m ≫= f) Q E.
Proof.
  intros Hm HE H. eapply triple_bind; [|exact H]. eapply triple_conseq; [exact Hm|done|done|done].
Qed.

Lemma modify_then {B} (P P' E : S -> Prop) g (f : () -> M S B) Q :
  (forall s, P s -> P' (g s)) -> triple P' (f ()) Q E -> triple P (modify g ≫= f) Q E.
Proof. intros Hg H s t HP. apply (H (g s) t), Hg, HP. Qed.

End Hoare.

(** Decomposes a computation into calls that leave the state alone. *)
Ltac solve_keeps :=
  repeat first
    [ progress intros
    | apply keeps_when | apply keeps_for | apply keeps_fmap | apply keeps_try | apply keeps_bind
    | (apply (keeps_emits (fun _ => True)); solve [solve_emits; exact I])
    | case_match ].
