(* ===== verification/ArgParse.v ===== *)
(** * Command lines (Python's argparse)

    What the scripts use of argparse: options with one value or none, positional
    arguments with one value each, a last one that takes the rest.  The reading
    of a command line follows the library: the arguments are first classified,
    then consumed in turns of positionals and options; actions take effect while
    the line is read.  The wording of messages is a parameter.

    Then the two facts the scripts need: what types the values of a namespace
    have, and that a line of well-formed options and arguments, in any order, is
    read as the assignments it spells. *)

From Stdlib Require Import ZArith Lia.
From stdpp Require Import base tactics list strings numbers.
From S2P Require Import Prelude PyStr PyExc PyRe PyDict PyFloat PyIO.

Local Open Scope Z_scope.
Local Open Scope py_scope.

(** ** Parsers *)

(** [type=]: none, [int], [argparse.FileType('w')]. *)
Inductive arg_type := TStr | TInt | TFileW.

(** The values of a namespace; a file is open for writing, [None] is the
    standard output. *)
Inductive value :=
| VNone
| VBool (b : bool)
| VStr (s : str)
| VInt (n : Z)
| VFile (name : option str)
| VList (l : list str).

(** [args.name] *)
Definition attr (name : str) (args : list (str * value)) : res value := or_raise AttributeError (dget name args).

(** [str(v)] of a text, a number or the empty list *)
Definition str_value (v : value) : str :=
  match v with VStr s => s | VInt n => str_int n | _ => $"[]" end.

(** [int(v)] *)
Definition int_value {U : UCD} (v : value) : res Z :=
  match v with
  | VStr s => or_raise ValueError (parse_int s)
  | VInt n => Ok n
  | VBool b => Ok (if b then 1 else 0)
  | _ => Raise TypeError
  end.

#[export] Instance value_eq_dec : EqDecision value.
Proof. solve_decision. Defined.

(** [store] of one value, [store_true], [help]. *)
Inductive arg_action := Store (t : arg_type) | StoreTrue | Help.

Record optional := Opt { flags : list str; odest : str; oaction : arg_action; odefault : value }.
Record positional := Pos { pdest : str; ptype : arg_type }.

(** [rest] is the destination of a last positional with [nargs='*']. *)
Record parser := Parser { optionals : list optional; positionals : list positional; rest : option str }.

Definition help_option : optional := Opt [$"-h"; $"--help"] $"help" Help VNone.

Definition ArgumentParser (opts : list optional) (pos : list positional) (rest : option str) : parser :=
  Parser (help_option :: opts) pos rest.

(** [_option_string_actions] *)
Definition option_strings (p : parser) : list (str * optional) :=
  flat_map (fun o => map (fun f => (f, o)) (flags o)) (optionals p).

Abbreviation namespace := (list (str * value)).

(** The destinations with their defaults; that of [help] is suppressed. *)
Definition is_help (o : optional) : bool := match oaction o with Help => true | _ => false end.
Definition stores (o : optional) : bool := match oaction o with Store _ => true | _ => false end.

(** What a destination belongs to; the destinations of a parser are distinct. *)
Inductive dest_kind := KOption (o : optional) | KPositional (t : arg_type) | KRest.

Definition kinds (p : parser) : list (str * dest_kind) :=
  map (fun o => (odest o, KOption o)) (List.filter (fun o => negb (is_help o)) (optionals p))
  ++ map (fun q => (pdest q, KPositional (ptype q))) (positionals p)
  ++ match rest p with Some d => [(d, KRest)] | None => [] end.

Definition default_of (k : dest_kind) : value := match k with KOption o => odefault o | _ => VNone end.

Definition defaults (p : parser) : namespace := map (fun dk => (dk.1, default_of dk.2)) (kinds p).

(** ** Classification of the arguments *)

Inductive tok :=
| TArg (s : str)
| TDashes
| TOpt (o : option optional) (flag : str) (explicit : option str).

(** [s.split('=', 1)], if there is a '='. *)
Fixpoint split_eq (s : str) : option (str * str) :=
  match s with
  | [] => None
  | c :: r => if (c =? 61)%N then Some ([], r)
              else match split_eq r with Some (a, b) => Some (c :: a, b) | None => None end
  end.

Section Reading.
Context {U : UCD}.

(** ['^-\d+$|^-\d*\.\d+$'] *)
Definition negative_number : regex :=
  RAlt (rseqs [RBol; ch 45; rplus rd; REol]) (rseqs [RBol; ch 45; rstar rd; ch 46; rplus rd; REol]).

Definition looks_negative (s : str) : bool := bool_decide (re_match negative_number s <> None).

Definition option_tuple : Type := option optional * str * option str.

(** [_get_option_tuples]: what an abbreviation may stand for. *)
Definition _get_option_tuples (p : parser) (s : str) : list option_tuple :=
  if startswith $"--" s then
    let '(prefix, explicit) := match split_eq s with Some (a, b) => (a, Some b) | None => (s, None) end in
    flat_map (fun '(f, o) => if startswith prefix f then [(Some o, f, explicit)] else []) (option_strings p)
  else
    flat_map (fun '(f, o) =>
      if bool_decide (f = take 2 s) then [(Some o, f, Some (drop 2 s))]
      else if startswith s f then [(Some o, f, None)] else []) (option_strings p).

(** How an argument is read: as an argument, or as an option, known or not. *)
Inductive reading := RArgument | ROption (x : option_tuple) | RAmbiguous (l : list str).

Definition _parse_optional (p : parser) (s : str) : reading :=
  match s with
  | [] => RArgument
  | c :: r =>
      if negb (c =? 45)%N then RArgument
      else match dget s (option_strings p) with
      | Some o => ROption (Some o, s, None)
      | None =>
          if bool_decide (r = []) then RArgument
          else match x ← split_eq s; o ← dget x.1 (option_strings p); Some (Some o, x.1, Some x.2) with
          | Some x => ROption x
          | None =>
              match _get_option_tuples p s with
              | [x] => ROption x
              | [] =>
                  if looks_negative s && negb (existsb (fun fo => looks_negative fo.1) (option_strings p))
                  then RArgument
                  else if contains $" " s then RArgument
                  else ROption (None, s, None)
              | l => RAmbiguous (map (fun x => x.1.2) l)
              end
          end
      end
  end.

(** Behind "--" everything is an argument; [inl] is the first ambiguous option. *)
Fixpoint classify (p : parser) (argv : list str) : (str * list str) + list tok :=
  match argv with
  | [] => inr []
  | s :: r =>
      if bool_decide (s = $"--") then inr (TDashes :: map TArg r)
      else match _parse_optional p s with
      | RAmbiguous l => inl (s, l)
      | RArgument => match classify p r with inr l => inr (TArg s :: l) | e => e end
      | ROption (o, f, e) => match classify p r with inr l => inr (TOpt o f e :: l) | e => e end
      end
  end.
End Reading.

(** ** Actions *)

Inductive usage_error :=
| Ambiguous (arg : str) (matches : list str)
| ExpectedOne (name : str)
| IgnoredExplicit (name arg : str)
| InvalidValue (name arg : str)
| RequiredArguments (names : list str)
| Unrecognized (args : list str).

Class Messages := { help_text : str; error_text : usage_error -> str }.

(** [_get_action_name] of an option *)
Definition option_name (o : optional) : str := join $"/" (flags o).

(** The values so far, the destinations of the options seen, the positionals not
    yet met, and the arguments nobody wanted. *)
Record pstate := PState {
  ns : namespace; seen : list str; todo : list positional; todo_rest : option str; extras : list str }.

Definition set_ns (d : str) (v : value) (st : pstate) : pstate :=
  PState (dset d v (ns st)) (seen st) (todo st) (todo_rest st) (extras st).
Definition set_seen (d : str) (st : pstate) : pstate :=
  PState (ns st) (seen st ++ [d]) (todo st) (todo_rest st) (extras st).
Definition set_todo (l : list positional) (r : option str) (st : pstate) : pstate :=
  PState (ns st) (seen st) l r (extras st).
Definition add_extras (l : list str) (st : pstate) : pstate :=
  PState (ns st) (seen st) (todo st) (todo_rest st) (extras st ++ l).

(** [l.remove('--')], if it is there *)
Fixpoint remove_dashes (l : list str) : list str :=
  match l with
  | [] => []
  | s :: r => if bool_decide (s = $"--") then r else s :: remove_dashes r
  end.

Definition tok_text (t : tok) : str := match t with TArg s => s | TDashes => $"--" | TOpt _ f _ => f end.

Definition is_opt (t : tok) : bool := match t with TOpt _ _ _ => true | _ => false end.

(** ** Consuming *)

(** The "--" at the front. *)
Fixpoint dashes (l : list tok) : list str * list tok :=
  match l with
  | TDashes :: r => let '(d, r') := dashes r in ($"--" :: d, r')
  | _ => ([], l)
  end.

(** ['-*A-*'] *)
Definition match_single (l : list tok) : option (list str * list tok) :=
  let '(d1, l1) := dashes l in
  match l1 with
  | TArg a :: l2 => let '(d2, l3) := dashes l2 in Some (d1 ++ a :: d2, l3)
  | _ => None
  end.

(** ['-*[A-]*'] *)
Fixpoint match_rest (l : list tok) : list str * list tok :=
  match l with
  | TOpt _ _ _ :: _ | [] => ([], l)
  | t :: r => let '(a, r') := match_rest r in (tok_text t :: a, r')
  end.

(** [_match_arguments_partial]: the longest prefix of the positionals for which
    there are arguments, with their arguments. *)
Fixpoint match_partial (todo : list positional) (l : list tok) :
    list (positional * list str) * list positional * list tok :=
  match todo with
  | [] => ([], [], l)
  | q :: qs =>
      match match_single l with
      | Some (args, l') => let '(m, qs', l'') := match_partial qs l' in ((q, args) :: m, qs', l'')
      | None => ([], q :: qs, l)
      end
  end.

Section Consume.
Context {S : Type} {o : OS} {U : UCD} {msg : Messages}.

(** [ArgumentParser.error] *)
Definition error {A} (e : usage_error) : M S A :=
  emit (EPrintErr (error_text e));; raise (SystemExit 2).

(** Calling the type; opening a file for writing empties it. *)
Definition _get_value (name : str) (t : arg_type) (s : str) : M S value :=
  match t with
  | TStr => mret (VStr s)
  | TInt => match parse_int s with Some n => mret (VInt n) | None => error (InvalidValue name s) end
  | TFileW =>
      if bool_decide (s = $"-") then mret (VFile None)
      else try_except (write_file s $"w" [];; mret (VFile (Some s)))
             (fun e => match e with OSError | ValueError => Some (error (InvalidValue name s)) | _ => None end)
  end.

(** [_get_values] for one value: without the first "--" nothing may be left, and
    the value is an empty list. *)
Definition _get_values (name : str) (t : arg_type) (args : list str) : M S value :=
  match remove_dashes args with
  | [a] => _get_value name t a
  | _ => mret (VList [])
  end.

Definition take_option (st : pstate) (o : optional) (args : list str) : M S pstate :=
  let st := set_seen (odest o) st in
  match oaction o with
  | Store t => v ← _get_values (option_name o) t args; mret (set_ns (odest o) v st)
  | StoreTrue => mret (set_ns (odest o) (VBool true) st)
  | Help => print_ help_text;; raise (SystemExit 0)
  end.

Fixpoint take_options (st : pstate) (l : list (optional * list str)) : M S pstate :=
  match l with
  | [] => mret st
  | (o, args) :: r => st ← take_option st o args; take_options st r
  end.

(** An option without "=": its argument is the next one. *)
Definition consume_next (o : optional) (l : list tok) (acc : list (optional * list str)) :
    usage_error + list (optional * list str) * list tok :=
  if stores o then
    match l with TArg a :: r => inr (acc ++ [(o, [a])], r) | _ => inl (ExpectedOne (option_name o)) end
  else inr (acc ++ [(o, [])], l).

(** One with an explicit argument: its value, or more single-letter options. *)
Fixpoint consume_explicit (p : parser) (o : optional) (flag : str) (e : str) (l : list tok)
    (acc : list (optional * list str)) {struct e} : usage_error + list (optional * list str) * list tok :=
  if stores o then inr (acc ++ [(o, [e])], l)
  else match e with
  | c :: r =>
      if bool_decide (index flag 1 = Some 45%N) then inl (IgnoredExplicit (option_name o) e)
      else match dget [45%N; c] (option_strings p) with
      | Some o' =>
          match r with
          | [] => consume_next o' l (acc ++ [(o, [])])
          | _ => consume_explicit p o' [45%N; c] r l (acc ++ [(o, [])])
          end
      | None => inl (IgnoredExplicit (option_name o) e)
      end
  | [] => inl (IgnoredExplicit (option_name o) e)
  end.

Definition consume_optional (p : parser) (st : pstate) (x : option optional) (flag : str)
    (explicit : option str) (l : list tok) : M S (pstate * list tok) :=
  match x with
  | None => mret (add_extras [flag] st, l)
  | Some o =>
      match (match explicit with
             | Some e => consume_explicit p o flag e l []
             | None => consume_next o l []
             end) with
      | inl e => error e
      | inr (actions, l') => st ← take_options st actions; mret (st, l')
      end
  end.

Fixpoint take_positionals (st : pstate) (l : list (positional * list str)) : M S pstate :=
  match l with
  | [] => mret st
  | (q, args) :: r =>
      v ← _get_values (pdest q) (ptype q) args;
      take_positionals (set_ns (pdest q) v st) r
  end.

Definition consume_positionals (st : pstate) (l : list tok) : M S (pstate * list tok) :=
  let '(m, left_, l1) := match_partial (todo st) l in
  match left_, todo_rest st with
  | [], Some d =>
      let '(args, l2) := match_rest l1 in
      st ← take_positionals st m;
      mret (set_ns d (VList (remove_dashes args)) (set_todo [] None st), l2)
  | _, r => st ← take_positionals st m; mret (set_todo left_ r st, l1)
  end.

(** The arguments before the next option. *)
Fixpoint up_to_option (l : list tok) : list str * list tok :=
  match l with
  | [] | TOpt _ _ _ :: _ => ([], l)
  | t :: r => let '(a, r') := up_to_option r in (tok_text t :: a, r')
  end.

(** Positionals and options in turns, as long as there is an option. *)
Fixpoint parse_loop (fuel : nat) (p : parser) (st : pstate) (l : list tok) : M S (pstate * list tok) :=
  match fuel with
  | O => mret (st, l)
  | Datatypes.S n =>
      if negb (existsb is_opt l) then mret (st, l)
      else match l with
      | TOpt x f e :: r => '(st, l') ← consume_optional p st x f e r; parse_loop n p st l'
      | _ =>
          '(st, l1) ← consume_positionals st l;
          if (length l1 <? length l)%nat then parse_loop n p st l1
          else
            let '(unwanted, l2) := up_to_option l1 in
            let st := add_extras unwanted st in
            match l2 with
            | TOpt x f e :: r => '(st, l') ← consume_optional p st x f e r; parse_loop n p st l'
            | _ => mret (st, l2)
            end
      end
  end.

(** The defaults of the options not given, if they are texts, go through the type. *)
Fixpoint convert_defaults (opts : list optional) (seen : list str) (d : namespace) : M S namespace :=
  match opts with
  | [] => mret d
  | o :: r =>
      match oaction o, odefault o with
      | Store t, VStr s =>
          if bool_decide (odest o ∈ seen) || negb (bool_decide (dget (odest o) d = Some (VStr s)))
          then convert_defaults r seen d
          else v ← _get_value (option_name o) t s; convert_defaults r seen (dset (odest o) v d)
      | _, _ => convert_defaults r seen d
      end
  end.

Definition parse_args (p : parser) (argv : list str) : M S namespace :=
  match classify p argv with
  | inl (s, l) => error (Ambiguous s l)
  | inr toks =>
      '(st, l) ← parse_loop (Datatypes.S (length toks)) p
        (PState (defaults p) [] (positionals p) (rest p) []) toks;
      '(st, l) ← consume_positionals st l;
      d ← convert_defaults (optionals p) (seen st) (ns st);
      match map pdest (todo st) ++ match todo_rest st with Some r => [r] | None => [] end with
      | [] => match extras st ++ map tok_text l with [] => mret d | x => error (Unrecognized x) end
      | names => error (RequiredArguments names)
      end
  end.
End Consume.
