(* ===== verification/ArgFacts.v ===== *)
(** * What a command line is read as

    [parse_args_typed]: the values of a namespace have the types the parser
    declares.  [parse_args_items]: a line of well-formed options and arguments, in
    any order, is read as the assignments it spells, in its order.  Both are used
    for the parsers of the scripts. *)

From Stdlib Require Import ZArith Lia.
From stdpp Require Import base tactics list strings numbers.
From S2P Require Import Prelude PyStr PyExc PyRe PyDict PyFloat PyIO ArgParse.

Local Open Scope Z_scope.
Local Open Scope py_scope.

(** ** Post-conditions of computations that return *)

Definition yields {S A} (m : M S A) (Q : A -> Prop) : Prop :=
  forall s t a s' t', m s t = (Ok a, s', t') -> Q a.

Lemma yields_ret {S A} (a : A) (Q : A -> Prop) : Q a -> yields (S := S) (mret a) Q.
Proof. by intros HQ s t b s' t' [= <-]. Qed.

Lemma yields_bind {S A B} (m : M S A) (f : A -> M S B) P Q :
  yields m P -> (forall a, P a -> yields (f a) Q) -> yields (m ≫= f) Q.
Proof. intros Hm Hf s t b s' t' (a & s1 & t1 & Ha & Hb)%bind_Ok. eapply Hf; [by eapply Hm|done]. Qed.

Lemma yields_impl {S A} (m : M S A) (P Q : A -> Prop) :
  (forall a, P a -> Q a) -> yields m P -> yields m Q.
Proof. intros HPQ Hm s t a s' t' E. eapply HPQ, Hm, E. Qed.

Lemma yields_error {S A} `{Messages} e (Q : A -> Prop) : yields (S := S) (error e) Q.
Proof. by intros s t a s' t' E. Qed.

Lemma bind_ext {S A B} (m : M S A) (f g : A -> M S B) s t :
  (forall a s t, f a s t = g a s t) -> (m ≫= f) s t = (m ≫= g) s t.
Proof. intros H. unfold mbind, M_bind. by destruct (m s t) as [[[a|e] s'] t']. Qed.

Lemma bind_same {S A B} (m m' : M S A) (f : A -> M S B) s t : m s t = m' s t -> (m ≫= f) s t = (m' ≫= f) s t.
Proof. unfold mbind, M_bind. by intros ->. Qed.

(** ** Types *)

Definition has_type (t : arg_type) (v : value) : bool :=
  match t, v with TStr, VStr _ | TInt, VInt _ | TFileW, VFile _ => true | _, _ => false end.

(** The value of a destination: its default, or a value of its type.  [blank] says
    when the value of a [store] may be an empty list. *)
Definition dest_ok (blank : Prop) (k : dest_kind) (v : value) : Prop :=
  match k with
  | KOption o =>
      v = odefault o \/
      match oaction o with
      | Store t => has_type t v = true \/ (v = VList [] /\ blank)
      | StoreTrue => v = VBool true
      | Help => False
      end
  | KPositional t => has_type t v = true \/ (v = VList [] /\ blank)
  | KRest => exists l, v = VList l
  end.

(** The destinations of the parser are distinct. *)
Definition wf_parser (p : parser) : Prop := wf_dict (kinds p).

Definition typed (p : parser) (blank : Prop) (d : namespace) : Prop :=
  dkeys d = dkeys (kinds p) /\
  forall name k, dget name (kinds p) = Some k -> exists v, dget name d = Some v /\ dest_ok blank k v.

(** An argument that ends in "--". *)
Definition ends_dashed (argv : list str) : Prop := exists a, a ∈ argv /\ suffix $"--" a.

Section Typing.
Context {S : Type} {o : OS} {U : UCD} {msg : Messages} (p : parser) (blank : Prop).
Context (Hwf : wf_parser p).

Lemma option_kind x : x ∈ optionals p -> is_help x = false -> dget (odest x) (kinds p) = Some (KOption x).
Proof.
  intros Hx Hh. apply elem_of_dget; [done|]. unfold kinds. apply elem_of_app. left.
  apply list_elem_of_In, in_map_iff. exists x. split; [done|]. apply filter_In.
  rewrite <- list_elem_of_In. by rewrite Hh.
Qed.

Lemma positional_kind q : q ∈ positionals p -> dget (pdest q) (kinds p) = Some (KPositional (ptype q)).
Proof.
  intros Hq. apply elem_of_dget; [done|]. unfold kinds. apply elem_of_app. right. apply elem_of_app. left.
  apply list_elem_of_fmap. by exists q.
Qed.

Lemma rest_kind d : rest p = Some d -> dget d (kinds p) = Some KRest.
Proof.
  intros Hd. apply elem_of_dget; [done|]. unfold kinds. rewrite Hd, !elem_of_app, list_elem_of_singleton. auto.
Qed.

Lemma option_strings_elem f x : dget f (option_strings p) = Some x -> x ∈ optionals p.
Proof.
  intros E%dget_elem_of. unfold option_strings in E. apply list_elem_of_In, in_flat_map in E as (y & Hy & E).
  apply in_map_iff in E as (g & [= _ ->] & _). by apply list_elem_of_In.
Qed.

(** *** The namespace while arguments are read *)

(** All destinations are there, and those that are not pending have their type. *)
Definition filled (pending : list str) (d : namespace) : Prop :=
  dkeys d = dkeys (kinds p) /\
  forall name k v, dget name (kinds p) = Some k -> dget name d = Some v -> name ∉ pending -> dest_ok blank k v.

Lemma filled_set pending name k v d :
  filled (name :: pending) d -> dget name (kinds p) = Some k -> dest_ok blank k v ->
  filled pending (dset name v d).
Proof.
  intros [Hk Hd] Hn Hv. split.
  - rewrite dkeys_dset, decide_True; [done|]. rewrite Hk. by eapply dget_Some_key.
  - intros n k' v' Hn' Hv' Hp. rewrite dget_dset in Hv'. case_decide as E; simplify_eq; [done|].
    eapply Hd; [done|done|]. rewrite not_elem_of_cons. done.
Qed.

Lemma filled_weaken pending pending' d : (forall x, x ∈ pending -> x ∈ pending') -> filled pending d -> filled pending' d.
Proof. intros Hsub [Hk Hd]. split; [done|]. intros n k v H1 H2 H3. eapply Hd; [done|done|]. auto. Qed.

Lemma filled_defaults : filled (map pdest (positionals p) ++ option_list (rest p)) (defaults p).
Proof.
  assert (Hkeys : forall l : list (str * dest_kind), dkeys (map (fun dk => (dk.1, default_of dk.2)) l) = dkeys l).
  { intros l. unfold dkeys. by rewrite map_map. }
  split; [apply Hkeys|]. intros n k v Hk Hv Hn.
  assert (v = default_of k) as ->.
  { apply dget_elem_of in Hk. assert (E : dget n (defaults p) = Some (default_of k)); [|congruence].
    apply elem_of_dget; [unfold wf_dict, defaults; rewrite Hkeys; exact Hwf|]. apply list_elem_of_fmap. by exists (n, k). }
  apply dget_elem_of in Hk. unfold kinds in Hk. rewrite !elem_of_app in Hk. destruct Hk as [Hk|[Hk|Hk]].
  - apply list_elem_of_fmap in Hk as (x & [= -> ->] & _). by left.
  - exfalso. apply Hn. apply list_elem_of_fmap in Hk as (x & [= -> ->] & Hx). apply elem_of_app. left.
    apply list_elem_of_fmap. by exists x.
  - exfalso. apply Hn. apply elem_of_app. right. destruct (rest p); [|by apply elem_of_nil in Hk].
    apply list_elem_of_singleton in Hk as [= -> ->]. apply list_elem_of_singleton. done.
Qed.

(** *** Where arguments come from *)

(** A text that, alone, would leave an option without value. *)
Definition prov (s : str) : Prop := suffix $"--" s -> blank.

Definition tok_ok (t : tok) : Prop :=
  match t with
  | TArg s => prov s
  | TDashes => blank
  | TOpt x _ e => (forall y, x = Some y -> y ∈ optionals p) /\ (forall s, e = Some s -> prov s)
  end.

Definition args_ok (args : list str) : Prop := length (remove_dashes args) <> 1%nat -> blank.

Lemma single_ok a : prov a -> args_ok [a].
Proof. unfold args_ok, prov. cbn. case_bool_decide; subst; [by auto|done]. Qed.

Lemma dashes_ok l d r : dashes l = (d, r) -> Forall tok_ok l -> Forall tok_ok r /\ (d = [] \/ blank).
Proof.
  revert d r. induction l as [|t l IH]; intros d r E Hl; cbn in E; [simplify_eq; auto|].
  inversion Hl as [|? ? Ht Hl']; subst. destruct t; [simplify_eq; auto| |simplify_eq; auto].
  destruct (dashes l) as [d' r']. simplify_eq. split; [by eapply IH|by right].
Qed.

Lemma match_single_ok l args r : match_single l = Some (args, r) -> Forall tok_ok l -> Forall tok_ok r /\ args_ok args.
Proof.
  unfold match_single. intros E Hl. destruct (dashes l) as [d1 l1] eqn:E1.
  apply dashes_ok in E1 as (H1 & Hd1); [|done]. destruct l1 as [|[a| |] l2]; try done.
  destruct (dashes l2) as [d2 l3] eqn:E2. inversion H1 as [|? ? Ha H2]; subst.
  apply dashes_ok in E2 as (H3 & Hd2); [|done]. injection E as <- <-. split; [done|].
  destruct Hd1 as [->|Hb]; [|by intros _]. destruct Hd2 as [->|Hb]; [|by intros _]. by apply single_ok.
Qed.

Lemma match_partial_ok td l m left_ r :
  match_partial td l = (m, left_, r) -> Forall tok_ok l ->
  td = map fst m ++ left_ /\ Forall (fun x => args_ok x.2) m /\ Forall tok_ok r.
Proof.
  revert l m left_ r. induction td as [|q td IH]; intros l m left_ r E Hl; cbn in E; [by simplify_eq|].
  destruct (match_single l) as [[args l']|] eqn:Es; [|by simplify_eq].
  apply match_single_ok in Es as (Hl' & Ha); [|done].
  destruct (match_partial td l') as [[m' qs'] l''] eqn:Em. simplify_eq.
  apply IH in Em as (-> & Hm & Hr); [|done]. split_and!; [done|by constructor|done].
Qed.

Lemma match_rest_ok l a r : match_rest l = (a, r) -> Forall tok_ok l -> Forall tok_ok r.
Proof.
  revert a r. induction l as [|t l IH]; intros a r E Hl; cbn in E; [by simplify_eq|].
  inversion Hl; subst. destruct t; [|destruct (match_rest l) as [a' r'] eqn:Er; simplify_eq; by eapply IH|by simplify_eq].
  destruct (match_rest l) as [a' r'] eqn:Er; simplify_eq; by eapply IH.
Qed.

Lemma up_to_option_ok l a r : up_to_option l = (a, r) -> Forall tok_ok l -> Forall tok_ok r.
Proof.
  revert a r. induction l as [|t l IH]; intros a r E Hl; cbn in E; [by simplify_eq|].
  inversion Hl; subst. destruct t; [|destruct (up_to_option l) as [a' r'] eqn:Er; simplify_eq; by eapply IH|by simplify_eq].
  destruct (up_to_option l) as [a' r'] eqn:Er; simplify_eq; by eapply IH.
Qed.

Definition actions_ok (l : list (optional * list str)) : Prop :=
  Forall (fun x => x.1 ∈ optionals p /\ (stores x.1 = true -> args_ok x.2)) l.

Lemma actions_snoc l x args : actions_ok l -> x ∈ optionals p -> (stores x = true -> args_ok args) ->
  actions_ok (l ++ [(x, args)]).
Proof. intros Hl Hx Ha. apply Forall_app. split; [done|]. by constructor. Qed.

Lemma consume_next_ok x l acc r l' :
  consume_next x l acc = inr (r, l') -> x ∈ optionals p -> Forall tok_ok l -> actions_ok acc ->
  actions_ok r /\ Forall tok_ok l'.
Proof.
  unfold consume_next. intros E Hx Hl Hacc. destruct (stores x) eqn:Ex.
  - destruct l as [|[a| |] l0]; simplify_eq. inversion Hl as [|? ? Ha Hl0]; subst. split; [|done].
    apply actions_snoc; [done..|]. intros _. by apply single_ok.
  - simplify_eq. split; [|done]. apply actions_snoc; [done..|congruence].
Qed.

Lemma prov_tail c s : prov (c :: s) -> prov s.
Proof. intros H Hs. by apply H, suffix_cons_r. Qed.

Lemma consume_explicit_ok e x flag l acc r l' :
  consume_explicit p x flag e l acc = inr (r, l') -> x ∈ optionals p -> prov e -> Forall tok_ok l ->
  actions_ok acc -> actions_ok r /\ Forall tok_ok l'.
Proof.
  revert x flag acc. induction e as [|c e IH]; intros x flag acc E Hx He Hl Hacc; cbn [consume_explicit] in E;
    destruct (stores x) eqn:Ex.
  - simplify_eq. split; [|done]. apply actions_snoc; [done..|]. intros _. by apply single_ok.
  - done.
  - simplify_eq. split; [|done]. apply actions_snoc; [done..|]. intros _. by apply single_ok.
  - case_bool_decide; [done|]. destruct (dget [45%N; c] (option_strings p)) as [y|] eqn:Ey; [|done].
    apply option_strings_elem in Ey.
    assert (actions_ok (acc ++ [(x, [])])) by (apply actions_snoc; [done..|congruence]).
    destruct e as [|c' e]; [by eapply consume_next_ok|]. eapply IH; [done|done|by eapply prov_tail|done|done].
Qed.

(** *** The actions *)

Lemma get_value_typed name t a : yields (S := S) (_get_value name t a) (fun v => has_type t v = true).
Proof.
  unfold _get_value. destruct t; [by apply yields_ret| |].
  - destruct (parse_int a); [by apply yields_ret|apply yields_error].
  - case_bool_decide; [by apply yields_ret|]. intros s t v s' t' E. unfold try_except in E. m_run_in E.
    destruct (os_write t a $"w") as [[]|e]; [by simplify_eq|]. destruct e; try done.
Qed.

Lemma get_values_ok name t args : args_ok args ->
  yields (S := S) (_get_values name t args) (fun v => has_type t v = true \/ (v = VList [] /\ blank)).
Proof.
  unfold _get_values, args_ok. intros H. destruct (remove_dashes args) as [|a [|b l]].
  - apply yields_ret. right. auto.
  - eapply yields_impl; [|apply get_value_typed]. auto.
  - apply yields_ret. right. auto.
Qed.

(** The parser's state: the pending destinations are those of the positionals that
    are left. *)
Definition pending (st : pstate) : list str := map pdest (todo st) ++ option_list (todo_rest st).

Definition good (st : pstate) : Prop :=
  filled (pending st) (ns st) /\ (forall q, q ∈ todo st -> q ∈ positionals p) /\
  (forall d, todo_rest st = Some d -> rest p = Some d).

Lemma take_option_good st x args :
  good st -> x ∈ optionals p -> (stores x = true -> args_ok args) -> yields (S := S) (take_option st x args) good.
Proof.
  intros (Hf & Hq & Hr) Hx Ha. unfold take_option. unfold stores in Ha.
  assert (Hset : forall v, is_help x = false -> dest_ok blank (KOption x) v ->
                   good (set_ns (odest x) v (set_seen (odest x) st))).
  { intros v Hh Hv. split; [|done]. eapply filled_set; [|by apply option_kind|done].
    eapply filled_weaken; [|exact Hf]. intros y Hy. apply elem_of_cons. by right. }
  unfold is_help in Hset. destruct (oaction x) as [t| |] eqn:Ex.
  - eapply yields_bind; [by apply get_values_ok, Ha|]. intros v Hv. apply yields_ret, Hset; [done|].
    cbn. rewrite Ex. by right.
  - apply yields_ret, Hset; [done|]. cbn. rewrite Ex. by right.
  - intros s t a s' t' E. done.
Qed.

Lemma take_options_good l st : good st -> actions_ok l -> yields (S := S) (take_options st l) good.
Proof.
  revert st. induction l as [|[x args] l IH]; intros st Hg Hl; [by apply yields_ret|].
  inversion Hl as [|? ? [Hx Ha] Hl']; subst. cbn [take_options].
  eapply yields_bind; [by apply take_option_good|]. intros st' Hg'. by apply IH.
Qed.

Lemma take_positionals_good m st left_ :
  filled (map pdest (map fst m ++ left_) ++ option_list (todo_rest st)) (ns st) ->
  (forall q, q ∈ map fst m -> q ∈ positionals p) -> Forall (fun x => args_ok x.2) m ->
  yields (S := S) (take_positionals st m) (fun st' =>
    filled (map pdest left_ ++ option_list (todo_rest st')) (ns st') /\ todo_rest st' = todo_rest st).
Proof.
  revert st. induction m as [|[q args] m IH]; intros st Hf Hq Hm; [by apply yields_ret|].
  inversion Hm as [|? ? Ha Hm']; subst. cbn [take_positionals].
  eapply yields_bind; [by apply get_values_ok|]. intros v Hv. cbn [map app fst] in Hf.
  apply (IH (set_ns (pdest q) v st)); [|intros; apply Hq; by right|done].
  eapply filled_set; [exact Hf|apply positional_kind, Hq; by left|done].
Qed.

Lemma consume_positionals_good st l : good st -> Forall tok_ok l ->
  yields (S := S) (consume_positionals st l) (fun x => good x.1 /\ Forall tok_ok x.2).
Proof.
  intros (Hf & Hq & Hr) Hl. unfold consume_positionals.
  destruct (match_partial (todo st) l) as [[m left_] l1] eqn:Em.
  apply match_partial_ok in Em as (Etodo & Hm & Hl1); [|done].
  assert (Hpos : yields (S := S) (take_positionals st m) (fun st' =>
    filled (map pdest left_ ++ option_list (todo_rest st')) (ns st') /\ todo_rest st' = todo_rest st)).
  { apply take_positionals_good; [by rewrite <- Etodo| |done]. intros q Hin. apply Hq. rewrite Etodo, elem_of_app. by left. }
  assert (Hleft : forall q, q ∈ left_ -> q ∈ positionals p)
    by (intros q Hin; apply Hq; rewrite Etodo, elem_of_app; by right).
  assert (Hplain : forall r, r = todo_rest st ->
     yields (S := S) (st ← take_positionals st m; mret (set_todo left_ r st, l1)) (fun x => good x.1 /\ Forall tok_ok x.2)).
  { intros r ->. eapply yields_bind; [exact Hpos|]. intros st' [Hf' Hr']. apply yields_ret. split; [|done].
    split_and!; [cbn; by rewrite <- Hr'|done|done]. }
  destruct left_ as [|q0 left_]; [|by apply Hplain].
  destruct (todo_rest st) as [d|] eqn:Ed; [|by apply Hplain].
  destruct (match_rest l1) as [args l2] eqn:Er. eapply yields_bind; [exact Hpos|]. intros st' [Hf' Hr'].
  apply yields_ret. split; [|by eapply match_rest_ok]. split_and!; [|done|done].
  cbn. eapply filled_set; [|by apply rest_kind, Hr|by eexists]. rewrite Hr' in Hf'. exact Hf'.
Qed.

Lemma consume_optional_good st x f e l :
  good st -> tok_ok (TOpt x f e) -> Forall tok_ok l ->
  yields (S := S) (consume_optional p st x f e l) (fun x => good x.1 /\ Forall tok_ok x.2).
Proof.
  intros Hg [Hx He] Hl. unfold consume_optional. destruct x as [y|]; [|by apply yields_ret].
  destruct (match e with Some e => _ | None => _ end) as [err|[acts l']] eqn:E; [apply yields_error|].
  assert (actions_ok acts /\ Forall tok_ok l') as [Ha Hl'].
  { destruct e as [e|].
    - eapply consume_explicit_ok; [exact E|by apply Hx|by apply He|done|by constructor].
    - eapply consume_next_ok; [exact E|by apply Hx|done|by constructor]. }
  eapply yields_bind; [by apply take_options_good|]. intros st' Hg'. by apply yields_ret.
Qed.

Lemma parse_loop_good fuel st l : good st -> Forall tok_ok l ->
  yields (S := S) (parse_loop fuel p st l) (fun x => good x.1 /\ Forall tok_ok x.2).
Proof.
  revert st l. induction fuel as [|n IH]; intros st l Hg Hl; [by apply yields_ret|]. cbn [parse_loop].
  destruct (negb (existsb is_opt l)); [by apply yields_ret|].
  assert (Hturn : yields (S := S) ('(st, l1) ← consume_positionals st l;
            if (length l1 <? length l)%nat then parse_loop n p st l1
            else let '(unwanted, l2) := up_to_option l1 in
                 match l2 with
                 | TOpt x f e :: r => '(st, l') ← consume_optional p (add_extras unwanted st) x f e r; parse_loop n p st l'
                 | _ => mret (add_extras unwanted st, l2)
                 end) (fun x => good x.1 /\ Forall tok_ok x.2)).
  { eapply yields_bind; [by apply consume_positionals_good|]. intros [st1 l1] [Hg1 Hl1]. cbn in Hg1, Hl1.
    destruct (length l1 <? length l)%nat; [by apply IH|]. destruct (up_to_option l1) as [u l2] eqn:Eu.
    apply up_to_option_ok in Eu; [|done].
    destruct l2 as [|[a| |x f e] r]; try by apply yields_ret. inversion Eu as [|? ? Hx Hr]; subst.
    eapply yields_bind; [by apply consume_optional_good|]. intros [st2 l3] [Hg2 Hl3]. by apply IH. }
  destruct l as [|[a| |x f e] r]; try exact Hturn. inversion Hl as [|? ? Hx Hr]; subst.
  eapply yields_bind; [by apply consume_optional_good|]. intros [st2 l3] [Hg2 Hl3]. by apply IH.
Qed.

Lemma convert_defaults_filled opts sn d : (forall x, x ∈ opts -> x ∈ optionals p) ->
  filled [] d -> yields (S := S) (convert_defaults opts sn d) (filled []).
Proof.
  revert d. induction opts as [|x opts IH]; intros d Ho Hd; [by apply yields_ret|].
  assert (Ho' : forall y, y ∈ opts -> y ∈ optionals p) by (intros; apply Ho; by right).
  cbn [convert_defaults]. destruct (oaction x) as [t| |] eqn:Ex; [|by apply IH..].
  destruct (odefault x) as [|b|s|z|f|l] eqn:Ed; try by apply IH.
  destruct (_ || _); [by apply IH|]. eapply yields_bind; [apply get_value_typed|]. intros v Hv. apply IH; [done|].
  eapply filled_set; [|apply option_kind; [apply Ho; by left|unfold is_help; by rewrite Ex]|cbn; rewrite Ex; auto].
  eapply filled_weaken; [|exact Hd]. intros ? ?%elem_of_nil. done.
Qed.
End Typing.

(** *** Provenance of the classified arguments *)

Lemma split_eq_text s a b : split_eq s = Some (a, b) -> s = a ++ 61%N :: b.
Proof.
  revert a. induction s as [|c s IH]; intros a E; cbn in E; [done|].
  destruct (N.eqb_spec c 61) as [->|]; [by simplify_eq|].
  destruct (split_eq s) as [[a' b']|]; [|done]. simplify_eq. cbn. by rewrite (IH a').
Qed.

Section Provenance.
Context {U : UCD} (p : parser).

Definition tuple_ok (s : str) (x : option_tuple) : Prop :=
  (forall y, x.1.1 = Some y -> y ∈ optionals p) /\ (forall e, x.2 = Some e -> suffix e s).

Lemma elem_option_strings f x : (f, x) ∈ option_strings p -> x ∈ optionals p.
Proof.
  intros E. unfold option_strings in E. apply list_elem_of_In, in_flat_map in E as (y & Hy & E).
  apply in_map_iff in E as (g & [= _ ->] & _). by apply list_elem_of_In.
Qed.

Lemma get_option_tuples_ok s x : x ∈ _get_option_tuples p s -> tuple_ok s x.
Proof.
  unfold _get_option_tuples. intros Hx. destruct (startswith _ s).
  - assert (Hs : forall f e, match split_eq s with Some (a, b) => (a, Some b) | None => (s, None) end = (f, Some e) -> suffix e s).
    { intros f e E. destruct (split_eq s) as [[a b]|] eqn:Es; [|done]. simplify_eq. apply split_eq_text in Es.
      exists (f ++ [61%N]). by rewrite <- app_assoc. }
    destruct (match split_eq s with Some _ => _ | None => _ end) as [prefix e].
    apply list_elem_of_In, in_flat_map in Hx as ([f y] & Hy & Hx). destruct (startswith prefix f); [|done].
    destruct Hx as [<-|[]]. apply list_elem_of_In, elem_option_strings in Hy.
    split; cbn; [by intros ? [= <-]|]. intros e' ->. by eapply Hs.
  - apply list_elem_of_In, in_flat_map in Hx as ([f y] & Hy & Hx).
    apply list_elem_of_In, elem_option_strings in Hy. case_bool_decide.
    + destruct Hx as [<-|[]]. split; cbn; [by intros ? [= <-]|]. intros e [= <-].
      exists (take 2 s). symmetry. apply take_drop.
    + destruct (startswith s f); [|done]. destruct Hx as [<-|[]]. split; cbn; [by intros ? [= <-]|done].
Qed.

Lemma parse_optional_ok s x : _parse_optional p s = ROption x -> tuple_ok s x.
Proof.
  unfold _parse_optional. destruct s as [|c r]; [done|]. destruct (negb _); [done|].
  destruct (dget (c :: r) (option_strings p)) as [y|] eqn:Ey.
  { intros [= <-]. split; cbn; [|done]. intros z [= <-]. by eapply elem_option_strings, dget_elem_of. }
  case_bool_decide; [done|].
  destruct (split_eq (c :: r)) as [[a b]|] eqn:Es; cbn.
  1: destruct (dget a (option_strings p)) as [y|] eqn:Ea; cbn.
  1: { intros [= <-]. split; cbn; [intros z [= <-]; by eapply elem_option_strings, dget_elem_of|].
       intros e [= <-]. apply split_eq_text in Es. exists (a ++ [61%N]). by rewrite Es, <- app_assoc. }
  all: destruct (_get_option_tuples p (c :: r)) as [|z [|]] eqn:Et;
    [|intros [= <-]; apply get_option_tuples_ok; rewrite Et; by left|done].
  all: destruct (_ && _); [done|]; case_match; [done|]; intros [= <-]; split; cbn; congruence.
Qed.

Lemma classify_ok argv toks : classify p argv = inr toks -> Forall (tok_ok p (ends_dashed argv)) toks.
Proof.
  assert (Hgen : forall l, (forall a, a ∈ l -> a ∈ argv) -> forall toks,
            classify p l = inr toks -> Forall (tok_ok p (ends_dashed argv)) toks).
  2: { apply Hgen. done. }
  assert (Hprov : forall a e, a ∈ argv -> suffix e a -> prov (ends_dashed argv) e).
  { intros a e Ha He Hs. exists a. split; [done|]. by etrans. }
  induction l as [|s l IH]; intros Hl tk E; cbn [classify] in E; [by simplify_eq|].
  assert (Hs : s ∈ argv) by (apply Hl; by left).
  assert (Hl' : forall a, a ∈ l -> a ∈ argv) by (intros; apply Hl; by right). specialize (IH Hl').
  case_bool_decide as Ed.
  { simplify_eq. constructor; [by exists $"--"; split; [|exists []]|]. apply Forall_map, Forall_forall.
    intros a Ha%list_elem_of_In. apply (Hprov a); [by apply Hl'|done]. }
  destruct (_parse_optional p s) as [|[[x f] e]|] eqn:Ep; [| |done].
  - destruct (classify p l) as [|tk'] eqn:Ec; [done|]. simplify_eq. constructor; [|by apply IH]. by apply (Hprov s).
  - destruct (classify p l) as [|tk'] eqn:Ec; [done|]. simplify_eq. constructor; [|by apply IH].
    apply parse_optional_ok in Ep as [H1 H2]. cbn in *. split; [done|]. intros z ->. by apply (Hprov s); [|apply H2].
Qed.
End Provenance.

(** The namespace of a successful call has exactly the destinations of the parser,
    each with its default or a value of its type; only an argument that ends in
    "--" can leave an empty list instead. *)
Lemma parse_args_typed {S} {o : OS} {U : UCD} {msg : Messages} (p : parser) argv :
  wf_parser p -> yields (S := S) (parse_args p argv) (typed p (ends_dashed argv)).
Proof.
  intros Hwf. unfold parse_args. destruct (classify p argv) as [[s l]|toks] eqn:Ec; [apply yields_error|].
  apply classify_ok in Ec. eapply yields_bind.
  { apply (parse_loop_good p (ends_dashed argv) Hwf); [|exact Ec]. split_and!; [|done|done].
    by apply filled_defaults. }
  intros [st l] [Hg Hl]. eapply yields_bind; [by apply consume_positionals_good|].
  intros [st1 l1] [(Hf & _ & _) _]. cbn in Hf.
  destruct (map pdest (todo st1) ++ _) as [|n names] eqn:En.
  - assert (Hf' : filled p (ends_dashed argv) [] (ns st1)).
    { unfold pending in Hf. apply app_eq_nil in En as [E1 E2]. rewrite E1 in Hf. by destruct (todo_rest st1). }
    eapply yields_bind; [apply convert_defaults_filled; [done|done|exact Hf']|].
    intros d [Hk Hd]. destruct (extras st1 ++ _); [|apply yields_error]. apply yields_ret. split; [done|].
    intros n k Hn. destruct (dget_is_Some n d) as [v Hv]; [rewrite Hk; by eapply dget_Some_key|].
    exists v. split; [done|]. eapply Hd; [done|done|]. by intros ?%elem_of_nil.
  - apply (yields_bind _ _ (fun _ => True)); [intros ? ? ? ? ? _; exact I|]. intros d _. apply yields_error.
Qed.
