(* ===== verification/ArgLines.v ===== *)
(** * Well-formed command lines

    A command line made of options in any of their spellings and of positional
    arguments, in any order, is read as the assignments it spells, in its order
    ([parse_args_items]); for options that hold texts the last assignment of each
    wins ([parse_args_texts]). *)

From Stdlib Require Import ZArith Lia.
From stdpp Require Import base tactics list strings numbers.
From S2P Require Import Prelude PyStr PyExc PyRe PyDict PyFloat PyIO ArgParse ArgFacts.

Local Open Scope Z_scope.
Local Open Scope py_scope.

(** [flag a], [flag=a], [flag], [a] *)
Inductive item :=
| IFlag (o : optional) (flag a : str)
| IEq (o : optional) (flag a : str)
| ISwitch (o : optional) (flag : str)
| IPos (q : positional) (a : str).

Definition item_words (i : item) : list str :=
  match i with
  | IFlag _ f a => [f; a]
  | IEq _ f a => [f ++ 61%N :: a]
  | ISwitch _ f => [f]
  | IPos _ a => [a]
  end.

Definition item_toks (i : item) : list tok :=
  match i with
  | IFlag o f a => [TOpt (Some o) f None; TArg a]
  | IEq o f a => [TOpt (Some o) f (Some a)]
  | ISwitch o f => [TOpt (Some o) f None]
  | IPos _ a => [TArg a]
  end.

Definition line (l : list item) : list str := flat_map item_words l.
Definition toks_of (l : list item) : list tok := flat_map item_toks l.
Definition positionals_of (l : list item) : list positional :=
  flat_map (fun i => match i with IPos q _ => [q] | _ => [] end) l.

(** Flags start with a dash, are at least two characters long and not "--", and
    have no "=". *)
Definition wf_flag (f : str) : bool :=
  bool_decide (head f = Some 45%N) && (1 <? length f)%nat && negb (bool_decide (f = $"--"))
  && bool_decide (split_eq f = None).

Lemma wf_flag_inv f :
  wf_flag f = true -> exists c r, f = 45%N :: c :: r /\ split_eq f = None /\ f <> $"--".
Proof.
  unfold wf_flag. rewrite !andb_true_iff, negb_true_iff. intros [[[H1 H2] H3] H4].
  apply bool_decide_eq_true in H1, H4. apply bool_decide_eq_false in H3. apply Nat.ltb_lt in H2.
  destruct f as [|a [|c r]]; cbn in H1, H2; simplify_eq; [lia|]. by exists c, r.
Qed.

Definition wf_flags (p : parser) : bool := forallb (fun fo => wf_flag fo.1) (option_strings p).

Section Items.
Context {U : UCD} (p : parser).

(** An argument that does not look like an option. *)
Definition plain (a : str) : Prop := a <> $"--" /\ _parse_optional p a = RArgument.

Definition item_ok (i : item) : Prop :=
  match i with
  | IFlag o f a => dget f (option_strings p) = Some o /\ stores o = true /\ plain a
  | IEq o f a => dget f (option_strings p) = Some o /\ stores o = true /\ a <> $"--"
  | ISwitch o f => dget f (option_strings p) = Some o /\ oaction o = StoreTrue
  | IPos _ a => plain a
  end.

Context (Hflags : wf_flags p = true).

Lemma flag_wf f o : dget f (option_strings p) = Some o -> wf_flag f = true.
Proof.
  intros E%dget_elem_of%list_elem_of_In. unfold wf_flags in Hflags. rewrite forallb_forall in Hflags.
  by apply (Hflags (f, o)).
Qed.

Lemma flag_not_dashes f o : dget f (option_strings p) = Some o -> f <> $"--".
Proof. by intros (_ & _ & _ & _ & H)%flag_wf%wf_flag_inv. Qed.

Lemma flag_read f o : dget f (option_strings p) = Some o -> _parse_optional p f = ROption (Some o, f, None).
Proof.
  intros E. pose proof (flag_wf f o E) as (c & r & -> & _)%wf_flag_inv. unfold _parse_optional.
  cbn [negb N.eqb Pos.eqb]. by rewrite E.
Qed.

Lemma split_eq_app f a : split_eq f = None -> split_eq (f ++ 61%N :: a) = Some (f, a).
Proof.
  induction f as [|c f IH]; intros E; cbn in *; [done|]. destruct (c =? 61)%N; [done|].
  destruct (split_eq f) as [[? ?]|]; [done|]. by rewrite IH.
Qed.

Lemma flag_eq_read f o a : dget f (option_strings p) = Some o ->
  _parse_optional p (f ++ 61%N :: a) = ROption (Some o, f, Some a).
Proof.
  intros E. pose proof (flag_wf f o E) as Hw.
  assert (Hn : dget (f ++ 61%N :: a) (option_strings p) = None).
  { destruct (dget (f ++ 61%N :: a) (option_strings p)) as [y|] eqn:Ey; [|done]. apply flag_wf in Ey.
    apply wf_flag_inv in Ey as (? & ? & _ & Ey & _). apply wf_flag_inv in Hw as (? & ? & _ & Hw & _).
    by rewrite split_eq_app in Ey. }
  apply wf_flag_inv in Hw as (c & r & -> & Hs & _). cbn [app] in *. unfold _parse_optional. rewrite Hn. cbn [negb N.eqb Pos.eqb].
  change (45%N :: c :: r ++ 61%N :: a) with ((45%N :: c :: r) ++ 61%N :: a) in *.
  rewrite (split_eq_app _ a Hs). cbn [mbind option_bind fst snd]. by rewrite E.
Qed.

Lemma classify_items l : Forall item_ok l -> classify p (line l) = inr (toks_of l).
Proof.
  assert (Hcons : forall s r k tk, s <> $"--" -> _parse_optional p s = k ->
    classify p r = inr tk ->
    classify p (s :: r) = match k with RArgument => inr (TArg s :: tk) | ROption (o, f, e) => inr (TOpt o f e :: tk)
                          | RAmbiguous l => inl (s, l) end).
  { intros s r k tk Hs Hk Hr. cbn [classify]. rewrite bool_decide_eq_false_2 by done. rewrite Hk.
    destruct k as [|[[? ?] ?]|]; by rewrite ?Hr. }
  induction 1 as [|i l Hi Hl IH]; [done|]. unfold line, toks_of in *. cbn [flat_map].
  destruct i as [x f a|x f a|x f|q a]; cbn [item_words item_toks app]; cbn in Hi.
  - destruct Hi as (Hf & _ & Ha & Hp). rewrite (Hcons f _ (ROption (Some x, f, None)) (TArg a :: flat_map item_toks l)); [done| | |].
    + by eapply flag_not_dashes.
    + by apply flag_read.
    + by rewrite (Hcons a _ RArgument (flat_map item_toks l)).
  - destruct Hi as (Hf & _ & Ha). rewrite (Hcons _ _ (ROption (Some x, f, Some a)) (flat_map item_toks l)); [done| | |done].
    + intros E. pose proof (flag_wf f x Hf) as (c & r & -> & _)%wf_flag_inv. cbn in E. injection E as _ E. by destruct r.
    + by apply flag_eq_read.
  - destruct Hi as (Hf & _). rewrite (Hcons f _ (ROption (Some x, f, None)) (flat_map item_toks l)); [done| | |done].
    + by eapply flag_not_dashes.
    + by apply flag_read.
  - destruct Hi as (Ha & Hp). by rewrite (Hcons a _ RArgument (flat_map item_toks l)).
Qed.
End Items.

(** ** The assignments *)

Section Assignments.
Context {S : Type} {o : OS} {U : UCD} {msg : Messages}.

(** The values so far and the destinations of the options seen. *)
Definition assign (d : str) (v : value) (x : namespace * list str) : namespace * list str := (dset d v x.1, x.2).
Definition note (d : str) (x : namespace * list str) : namespace * list str := (x.1, x.2 ++ [d]).

Definition apply_item (x : namespace * list str) (i : item) : M S (namespace * list str) :=
  match i with
  | IFlag o _ a | IEq o _ a =>
      match oaction o with
      | Store t => v ← _get_value (option_name o) t a; mret (assign (odest o) v (note (odest o) x))
      | _ => mret x
      end
  | ISwitch o _ => mret (assign (odest o) (VBool true) (note (odest o) x))
  | IPos q a => v ← _get_value (pdest q) (ptype q) a; mret (assign (pdest q) v x)
  end.

Fixpoint apply_items (x : namespace * list str) (l : list item) : M S (namespace * list str) :=
  match l with [] => mret x | i :: r => x ← apply_item x i; apply_items x r end.

Lemma apply_items_app l1 l2 x s t :
  apply_items x (l1 ++ l2) s t = (y ← apply_items x l1; apply_items y l2) s t.
Proof.
  revert x s t. induction l1 as [|i l1 IH]; intros x s t; [done|]. cbn [app apply_items].
  rewrite bind_assoc. apply bind_ext. intros. apply IH.
Qed.

(** The parser's state, for a parser without a rest. *)
Definition mk (x : namespace * list str) (td : list positional) : pstate := PState x.1 x.2 td None [].

Lemma get_values_single name t a : a <> $"--" -> _get_values (S := S) name t [a] = _get_value name t a.
Proof. intros Ha. unfold _get_values. cbn [remove_dashes]. by rewrite bool_decide_eq_false_2. Qed.

Lemma take_positionals_items c x td s t : Forall (fun qa => qa.2 <> $"--") c ->
  take_positionals (mk x td) (map (fun qa => (qa.1, [qa.2])) c) s t
  = (y ← apply_items x (map (fun qa => IPos qa.1 qa.2) c); mret (mk y td)) s t.
Proof.
  intros Hc. revert x s t. induction Hc as [|[q a] c Ha Hc IH]; intros x s t; [done|].
  cbn [map take_positionals apply_items apply_item fst snd]. cbn in Ha. rewrite get_values_single by done.
  rewrite !bind_assoc. apply bind_ext. intros v s1 t1. apply (IH (assign (pdest q) v x)).
Qed.

(** *** Runs of positional arguments *)

Fixpoint chunk (l : list item) : list (positional * str) * list item :=
  match l with
  | IPos q a :: r => let '(c, r') := chunk r in ((q, a) :: c, r')
  | _ => ([], l)
  end.

Lemma chunk_split l c r : chunk l = (c, r) ->
  l = map (fun qa => IPos qa.1 qa.2) c ++ r /\ (forall q a r', r <> IPos q a :: r').
Proof.
  revert c r. induction l as [|i l IH]; intros c r E; cbn in E; [by simplify_eq|].
  destruct i; try by simplify_eq. destruct (chunk l) as [c' r'] eqn:Ec. simplify_eq.
  destruct (IH c' r eq_refl) as [-> H]. done.
Qed.

Lemma dashes_toks l : dashes (toks_of l) = ([], toks_of l).
Proof. destruct l as [|[] l]; done. Qed.

Lemma match_partial_items l c r : chunk l = (c, r) ->
  match_partial (positionals_of l) (toks_of l)
  = (map (fun qa => (qa.1, [qa.2])) c, positionals_of r, toks_of r).
Proof.
  revert c r. induction l as [|i l IH]; intros c r E; cbn in E; [by simplify_eq|].
  destruct i as [x f a|x f a|x f|q a].
  1-3: injection E as <- <-; by destruct (positionals_of (_ :: l)).
  destruct (chunk l) as [c' r'] eqn:Ec. simplify_eq. unfold toks_of, positionals_of. cbn [flat_map item_toks app].
  cbn [match_partial]. unfold match_single. cbn [dashes].
  change (flat_map item_toks l) with (toks_of l). rewrite dashes_toks. cbn [app].
  change (flat_map _ l) with (positionals_of l). by rewrite (IH c' r eq_refl).
Qed.
End Assignments.

Section Loop.
Context {S : Type} {o : OS} {U : UCD} {msg : Messages} (p : parser).

Lemma consume_positionals_items l c r x s t : chunk l = (c, r) -> Forall (item_ok p) l ->
  consume_positionals (mk x (positionals_of l)) (toks_of l) s t
  = (y ← apply_items (S := S) x (map (fun qa => IPos qa.1 qa.2) c); mret (mk y (positionals_of r), toks_of r)) s t.
Proof.
  intros Ec Hl. unfold consume_positionals. cbn [todo todo_rest mk]. rewrite (match_partial_items l c r Ec).
  assert (Hc : Forall (fun qa : positional * str => qa.2 <> $"--") c).
  { apply chunk_split in Ec as [-> _]. apply Forall_app in Hl as [Hl _]. clear - Hl.
    induction c as [|qa c IH]; [constructor|]. cbn in Hl. inversion Hl as [|? ? Hi Hl']; subst.
    constructor; [exact (proj1 Hi)|by apply IH]. }
  destruct (positionals_of r) as [|q0 td]; cbv iota; unfold mbind at 1, M_bind at 1;
    rewrite take_positionals_items by done; unfold mbind, M_bind;
    by destruct (apply_items x _ s t) as [[[y|e] s1] t1].
Qed.

(** One option of the line. *)
Lemma consume_option_items i l x td s t : item_ok p i -> (forall q a, i <> IPos q a) ->
  exists f e r, item_toks i ++ toks_of l = TOpt f e r :: (tail (item_toks i) ++ toks_of l) /\
  consume_optional p (mk x td) f e r (tail (item_toks i) ++ toks_of l) s t
  = (y ← apply_item (S := S) x i; mret (mk y td, toks_of l)) s t.
Proof.
  intros Hi Hp. destruct i as [y f a|y f a|y f|q a]; [| | |by destruct (Hp q a)];
    (eexists _, _, _; split; [reflexivity|]); cbn [item_toks tail app]; unfold consume_optional; cbn in Hi.
  - destruct Hi as (_ & Hs & Ha & _). unfold consume_next. rewrite Hs. cbn [app take_options].
    unfold take_option, apply_item. unfold stores in Hs. destruct (oaction y) as [ty| |]; [|done..].
    rewrite get_values_single by done. rewrite !bind_assoc. by apply bind_ext.
  - destruct Hi as (_ & Hs & Ha). destruct a as [|c a]; cbn [consume_explicit]; rewrite Hs; cbn [app take_options];
      unfold take_option, apply_item; unfold stores in Hs; (destruct (oaction y) as [ty| |]; [|done..]);
      (rewrite get_values_single by done); rewrite !bind_assoc; by apply bind_ext.
  - destruct Hi as (_ & Hs). unfold consume_next, stores. rewrite Hs. cbn [app take_options].
    unfold take_option, apply_item. by rewrite Hs.
Qed.

Lemma toks_of_cons i l : toks_of (i :: l) = item_toks i ++ toks_of l.
Proof. done. Qed.

Lemma no_option_left l : existsb is_opt (toks_of l) = false -> (chunk l).2 = [].
Proof.
  induction l as [|i l IH]; [done|]. rewrite toks_of_cons, existsb_app. intros [H1 H2]%orb_false_iff.
  destruct i; [done..|]. cbn [chunk]. specialize (IH H2). by destruct (chunk l).
Qed.

Lemma parse_loop_items n l x s t : (length (toks_of l) < n)%nat -> Forall (item_ok p) l ->
  ('(st, toks) ← parse_loop n p (mk x (positionals_of l)) (toks_of l); consume_positionals st toks) s t
  = (y ← apply_items (S := S) x l; mret (mk y [], [])) s t.
Proof.
  revert l x s t. induction n as [|n IH]; intros l x s t Hn Hl; [lia|]. cbn [parse_loop].
  destruct (existsb is_opt (toks_of l)) eqn:Ex; cbn [negb].
  - assert (Hopt : forall i l', l = i :: l' -> (forall q a, i <> IPos q a) -> forall y s t,
       ('(st, toks) ← match toks_of l with
                      | TOpt f e r :: rr => '(st, l') ← consume_optional p (mk y (positionals_of l)) f e r rr; parse_loop n p st l'
                      | _ => mret (mk y [], []) end; consume_positionals st toks) s t
       = (y ← apply_items (S := S) y l; mret (mk y [], [])) s t).
    { intros i l' -> Hp y s1 t1. inversion Hl as [|? ? Hi Hl']; subst.
      assert (Epos : positionals_of (i :: l') = positionals_of l') by (destruct i as [| | |q a]; [done..|by destruct (Hp q a)]).
      assert (Hlen : (0 < length (item_toks i))%nat) by (destruct i; cbn; lia).
      rewrite toks_of_cons, length_app in Hn. rewrite toks_of_cons, Epos.
      destruct (consume_option_items i l' y (positionals_of l') s1 t1 Hi Hp) as (f & e & r & -> & E).
      rewrite bind_assoc, (bind_same _ _ _ _ _ E). cbn [apply_items]. rewrite !bind_assoc.
      apply bind_ext. intros y' s2 t2. apply (IH l' y' s2 t2); [lia|done]. }
    destruct l as [|i l0]; [done|]. destruct i as [y f a|y f a|y f|q a].
    1-3: exact (Hopt _ l0 eq_refl ltac:(done) x s t).
    rewrite toks_of_cons. cbn [item_toks app]. change (TArg a :: toks_of l0) with (toks_of (IPos q a :: l0)).
    set (l := IPos q a :: l0) in *. destruct (chunk l) as [c r] eqn:Ec.
    pose proof (chunk_split l c r Ec) as [El Hr].
    assert (Hshort : (length (toks_of r) < length (toks_of l))%nat).
    { rewrite El. unfold toks_of. rewrite flat_map_app, length_app. fold (toks_of r).
      destruct c as [|qa c]; [|cbn; lia]. exfalso. cbn in El. subst r. by destruct (Hr q a l0). }
    assert (Hl2 : Forall (item_ok p) r) by (rewrite El in Hl; by apply Forall_app in Hl as [_ ?]).
    rewrite bind_assoc, (bind_same _ _ _ _ _ (consume_positionals_items l c r x s t Ec Hl)).
    rewrite (bind_same _ _ _ s t (eq_trans (f_equal (fun l => apply_items x l s t) El) (apply_items_app _ _ _ s t))).
    rewrite !bind_assoc. apply bind_ext. intros y s1 t1. cbn [mret M_ret mbind M_bind].
    unfold mbind at 1, M_bind at 1. cbn [mret M_ret].
    apply Nat.ltb_lt in Hshort as Hb. rewrite Hb. apply (IH r y s1 t1); [lia|done].
  - pose proof (no_option_left l Ex) as Er. destruct (chunk l) as [c r] eqn:Ec. cbn in Er. subst r.
    unfold mbind at 1, M_bind at 1. cbn [mret M_ret].
    rewrite (consume_positionals_items l c [] x s t Ec Hl). apply chunk_split in Ec as [-> _]. by rewrite app_nil_r.
Qed.

(** The line is read as its assignments, then the unused defaults are converted. *)
Lemma parse_args_items l s t :
  wf_flags p = true -> rest p = None -> positionals_of l = positionals p -> Forall (item_ok p) l ->
  parse_args p (line l) s t
  = (x ← apply_items (S := S) (defaults p, []) l; convert_defaults (optionals p) x.2 x.1) s t.
Proof.
  intros Hw Hr Hp Hl. unfold parse_args. rewrite (classify_items p Hw l Hl), Hr, <- Hp.
  assert (E := parse_loop_items (Datatypes.S (length (toks_of l))) l (defaults p, []) s t ltac:(lia) Hl).
  unfold mk in E at 1. cbn [fst snd] in E. revert E.
  unfold mbind, M_bind. destruct (parse_loop _ p _ _ s t) as [[[[st toks]|e] s1] t1]; intros E.
  - rewrite E. destruct (apply_items _ l s t) as [[[y|e] s2] t2]; [|done]. cbn.
    by destruct (convert_defaults _ _ _ s2 t2) as [[[d|e] s3] t3].
  - by destruct (apply_items _ l s t) as [[[y|e'] s2] t2]; simplify_eq.
Qed.
End Loop.

(** ** Parsers of texts *)

(** Every value is a text or a switch. *)
Definition text_parser (p : parser) : bool :=
  forallb (fun o => match oaction o with Store TStr | StoreTrue | Help => true | _ => false end) (optionals p)
  && forallb (fun q => match ptype q with TStr => true | _ => false end) (positionals p).

Definition item_value (i : item) : str * value :=
  match i with
  | IFlag o _ a | IEq o _ a => (odest o, VStr a)
  | ISwitch o _ => (odest o, VBool true)
  | IPos q a => (pdest q, VStr a)
  end.

(** The last value a line gives a destination. *)
Definition given (d : str) (l : list item) : option value :=
  fold_left (fun acc i => if decide (d = (item_value i).1) then Some (item_value i).2 else acc) l None.

Section Texts.
Context {S : Type} {o : OS} {U : UCD} {msg : Messages} (p : parser).
Context (Htext : text_parser p = true).

Lemma text_option x : x ∈ optionals p -> stores x = true -> oaction x = Store TStr.
Proof.
  intros Hx Hs. apply andb_true_iff in Htext as [H _]. rewrite forallb_forall in H.
  specialize (H x (proj1 (list_elem_of_In _ _) Hx)). unfold stores in Hs. by destruct (oaction x) as [[]| |].
Qed.

Lemma text_positional q : q ∈ positionals p -> ptype q = TStr.
Proof.
  intros Hq. apply andb_true_iff in Htext as [_ H]. rewrite forallb_forall in H.
  specialize (H q (proj1 (list_elem_of_In _ _) Hq)). by destruct (ptype q).
Qed.

Lemma apply_item_text x i s t : item_ok p i -> (forall q a, i = IPos q a -> q ∈ positionals p) ->
  exists sn, apply_item (S := S) x i s t = (Ok (dset (item_value i).1 (item_value i).2 x.1, sn), s, t).
Proof.
  intros Hi Hq. destruct i as [y f a|y f a|y f|q a]; cbn in Hi; unfold apply_item; cbn [item_value fst snd].
  - destruct Hi as (Hf & Hs & _). rewrite (text_option y) by (eauto using option_strings_elem). by eexists.
  - destruct Hi as (Hf & Hs & _). rewrite (text_option y) by (eauto using option_strings_elem). by eexists.
  - by eexists.
  - rewrite (text_positional q) by eauto. by eexists.
Qed.

Lemma apply_items_text l x s t : Forall (item_ok p) l -> (forall q, q ∈ positionals_of l -> q ∈ positionals p) ->
  exists y, apply_items (S := S) x l s t = (Ok y, s, t) /\
    y.1 = fold_left (fun d i => dset (item_value i).1 (item_value i).2 d) l x.1.
Proof.
  intros Hl. revert x s t. induction Hl as [|i l Hi Hl IH]; intros x s t Hq; [by exists x|]. cbn [apply_items fold_left].
  destruct (apply_item_text x i s t Hi) as (sn & E).
  { intros q a ->. apply Hq. by left. }
  destruct (IH (dset (item_value i).1 (item_value i).2 x.1, sn) s t) as (y & Ey & Hy).
  { intros q Hin. apply Hq. unfold positionals_of. cbn [flat_map]. apply elem_of_app. by right. }
  exists y. split; [|exact Hy]. unfold mbind, M_bind. by rewrite E.
Qed.

Lemma dget_assigned d l x :
  dget d (fold_left (fun d i => dset (item_value i).1 (item_value i).2 d) l x)
  = match given d l with Some v => Some v | None => dget d x end.
Proof.
  unfold given. induction l as [|i l IH] using rev_ind; [done|]. rewrite !fold_left_app. cbn [fold_left].
  rewrite dget_dset. case_decide; [done|]. exact IH.
Qed.

Lemma convert_defaults_text opts sn d s t : (forall x, x ∈ opts -> x ∈ optionals p) ->
  exists d', convert_defaults (S := S) opts sn d s t = (Ok d', s, t) /\ forall n, dget n d' = dget n d.
Proof.
  revert d s t. induction opts as [|x opts IH]; intros d s t Hx; [by exists d|].
  assert (Hx' : forall y, y ∈ opts -> y ∈ optionals p) by (intros; apply Hx; by right).
  cbn [convert_defaults]. destruct (oaction x) as [ty| |] eqn:Ea; [|by apply IH..].
  assert (ty = TStr) as ->.
  { assert (oaction x = Store TStr) by (apply text_option; [apply Hx; by left|unfold stores; by rewrite Ea]). congruence. }
  destruct (odefault x) as [|b|v|z|f|l]; try by apply IH.
  destruct (bool_decide (odest x ∈ sn)); cbn [orb]; [by apply IH|].
  case_bool_decide as E; cbn [negb]; [|by apply IH].
  destruct (IH (dset (odest x) (VStr v) d) s t Hx') as (d' & E' & H'). exists d'. split; [exact E'|].
  intros n. rewrite H', dget_dset. case_decide; by subst.
Qed.

(** The namespace has the last value given for each destination, else its default;
    the order of the options and arguments does not matter otherwise. *)
Lemma parse_args_texts l s t :
  wf_flags p = true -> rest p = None -> positionals_of l = positionals p -> Forall (item_ok p) l ->
  exists d, parse_args (S := S) p (line l) s t = (Ok d, s, t) /\
    forall n, dget n d = match given n l with Some v => Some v | None => dget n (defaults p) end.
Proof.
  intros Hw Hr Hp Hl. rewrite (parse_args_items p l s t Hw Hr Hp Hl).
  destruct (apply_items_text l (defaults p, []) s t Hl) as (x & Ex & Hx); [by rewrite Hp|].
  destruct (convert_defaults_text (optionals p) x.2 x.1 s t) as (d & Ed & Hd); [done|].
  exists d. split; [unfold mbind, M_bind; by rewrite Ex|]. intros n. by rewrite Hd, Hx, dget_assigned.
Qed.
End Texts.
