(* ===== verification/B58Prefix.v ===== *)
(** * Base58 version bytes (scripts/b58_prefix/b58_prefix.py)

    The script computes the version bytes that make every base58check encoding
    of payloads of a given length start with a given prefix ("tz1", "edpk",
    ...).  The base58 package is not part of the repository: its
    [b58encode_check] is an argument of the model, and what the script relies on
    is the documented behaviour [base58check_documented]. *)

From Stdlib Require Import ZArith Lia.
From stdpp Require Import base tactics list gmap strings numbers.
From S2P Require Import Prelude PyStr PyExc.

Local Open Scope Z_scope.
Local Open Scope py_scope.

(** ** The script *)

Definition ALPHABET : str := $"123456789ABCDEFGHJKLMNPQRSTUVWXYZabcdefghijkmnopqrstuvwxyz".

Definition b58dec (word : str) : Z :=
  fold_left (fun x c => x * 58 + find_char c ALPHABET) word 0.

(** The [while val > 0] loop appends base-256 digits; the fuel is the bit size
    of the value, each iteration drops eight bits. *)
Fixpoint asciidec_loop (fuel : nat) (val : Z) (word : list Z) : list Z :=
  match fuel with
  | O => word
  | S f => if 0 <? val then asciidec_loop f (val / 256) (word ++ [val mod 256]) else word
  end.

Definition asciidec (val : Z) : list Z := rev (asciidec_loop (digit_fuel val) val []).

(** [lo >> shift], before the adjustment. *)
Definition version_floor (target shift m : Z) : Z := Z.shiftr (target * 58 ^ m) shift.

Definition version_lo (target shift m : Z) : Z :=
  let lo := version_floor target shift m in
  lo + (if lo =? Z.shiftl (Z.shiftr lo shift) shift then 0 else 1).

Definition version_hi (target shift m : Z) : Z :=
  Z.shiftr ((target + 1) * 58 ^ m - Z.shiftl 1 shift + 1) shift.

(** [range(1, maximal_base58_size)] *)
Definition candidate_sizes (maximal_base58_size : Z) : list Z :=
  map Z.of_nat (seq 1 (Z.to_nat (maximal_base58_size - 1))).

Section Script.
Variable b58encode_check : bytes -> bytes.

(** One of the two pairs of assertions: the payload filled with [fill]. *)
Definition check_payload (prefix : str) (m lo fill len : Z) : res () :=
  let encoded := b58encode_check (asciidec lo ++ repeat fill (Z.to_nat len)) in
  _ ← assert_ (startswith (encode prefix) encoded);
  assert_ (Z.of_nat (length encoded) =? m + Z.of_nat (length prefix)).

(** The [for m in range(...)] loop; [last] holds the values [m] and [lo] have
    when the loop ends without [break]. *)
Fixpoint version_loop (prefix : str) (len target shift : Z) (ms : list Z)
    (last : option (Z * Z)) : res (Z * list Z) :=
  match ms with
  | [] =>
      match last with
      | Some (m, lo) => Ok (m + Z.of_nat (length prefix), asciidec lo)
      | None => Raise UnboundLocalError
      end
  | m :: ms' =>
      if shift <? 0 then Raise ValueError
      else
        let lo := version_lo target shift m in
        let hi := version_hi target shift m in
        if lo <=? hi then
          _ ← check_payload prefix m lo 0 len;
          _ ← check_payload prefix m lo 255 len;
          Ok (m + Z.of_nat (length prefix), asciidec lo)
        else version_loop prefix len target shift ms' (Some (m, lo))
  end.

Definition compute_version_bytes (prefix : str) (len maximal_base58_size : Z) :
    res (Z * list Z) :=
  let target := b58dec prefix in
  let shift := 8 * (len + 4) in
  version_loop prefix len target shift (candidate_sizes maximal_base58_size) None.
End Script.

(** ** The base58 package, as documented *)

Definition b58_char (d : Z) : Z := match ALPHABET !! Z.to_nat d with Some c => Z.of_N c | None => 0 end.

Definition leading_zeros (bs : bytes) : nat := length (take_while (Z.eqb 0) bs).

(** One '1' per leading zero byte, then the base-58 digits of the integer. *)
Definition b58_text (bs : bytes) : bytes :=
  repeat 49 (leading_zeros bs) ++ map b58_char (digits 58 (undigits 256 bs)).

(** base58check: a four-byte checksum of the payload is appended, and the
    result is written in base 58. *)
Definition base58check_documented (enc : bytes -> bytes) : Prop :=
  forall v, Forall is_byte v ->
  exists ck, length ck = 4%nat /\ Forall is_byte ck /\ enc v = b58_text (v ++ ck).

(** A prefix the script is meant for: base58 characters, not starting with the
    zero digit '1'. *)
Definition valid_prefix (prefix : str) : Prop :=
  Forall (fun c => c ∈ ALPHABET) prefix /\ hd 49%N prefix <> 49%N.

(** Every payload of [len] bytes, after the version bytes [vb], encodes to a
    text of length [size] that starts with the prefix. *)
Definition encodes_with_prefix (enc : bytes -> bytes) (prefix : str) (len size : Z)
    (vb : list Z) : Prop :=
  forall payload, Forall is_byte payload -> Z.of_nat (length payload) = len ->
    startswith (encode prefix) (enc (vb ++ payload)) = true
    /\ Z.of_nat (length (enc (vb ++ payload))) = size.

(** ** Lemmas *)

Lemma asciidec_loop_digits fuel : forall val word,
  asciidec_loop fuel val word = word ++ digits_le fuel 256 val.
Proof.
  induction fuel as [|f IH]; intros val word; cbn [asciidec_loop digits_le].
  - by rewrite app_nil_r.
  - destruct (0 <? val); [|by rewrite app_nil_r]. by rewrite IH, <- app_assoc.
Qed.

Lemma asciidec_digits val : asciidec val = digits 256 val.
Proof. unfold asciidec, digits. by rewrite asciidec_loop_digits. Qed.

Definition alphabet_entry_ok (c : N) : bool :=
  let i := find_char c ALPHABET in
  ((0 <=? i) && (i <? 58) && (b58_char i =? Z.of_N c) && (c <? 128)%N)%bool.

Lemma alphabet_ok : forallb alphabet_entry_ok ALPHABET = true.
Proof. vm_compute. reflexivity. Qed.

Lemma alphabet_entry_spec c : alphabet_entry_ok c = true ->
  is_digit 58 (find_char c ALPHABET) /\ b58_char (find_char c ALPHABET) = Z.of_N c /\ (c < 128)%N.
Proof.
  unfold alphabet_entry_ok, is_digit. generalize (find_char c ALPHABET) as i.
  intros i. generalize (b58_char i) as x. intros x H. bool_to_prop. lia.
Qed.

Lemma alphabet_char c : c ∈ ALPHABET ->
  is_digit 58 (find_char c ALPHABET) /\ b58_char (find_char c ALPHABET) = Z.of_N c /\ (c < 128)%N.
Proof.
  intros Hc. apply alphabet_entry_spec. apply (proj1 (forallb_forall _ _) alphabet_ok).
  by apply list_elem_of_In.
Qed.

Lemma length_ALPHABET : length ALPHABET = 58%nat.
Proof. vm_compute. reflexivity. Qed.

Lemma NoDup_ALPHABET : NoDup ALPHABET.
Proof. apply (bool_decide_unpack _). vm_compute. exact I. Qed.

Lemma b58_char_zero : b58_char 0 = 49.
Proof. vm_compute. reflexivity. Qed.

Lemma b58_char_inj d e :
  is_digit 58 d -> is_digit 58 e -> b58_char d = b58_char e -> d = e.
Proof.
  unfold is_digit, b58_char. intros Hd He H.
  destruct (lookup_lt_is_Some_2 ALPHABET (Z.to_nat d)) as [x Hx]; [rewrite length_ALPHABET; lia|].
  destruct (lookup_lt_is_Some_2 ALPHABET (Z.to_nat e)) as [y Hy]; [rewrite length_ALPHABET; lia|].
  rewrite Hx, Hy in H. apply N2Z.inj in H. subst y.
  pose proof (NoDup_lookup _ _ _ _ NoDup_ALPHABET Hx Hy). lia.
Qed.

Lemma map_b58_char_inj l1 : forall l2,
  Forall (is_digit 58) l1 -> Forall (is_digit 58) l2 ->
  map b58_char l1 = map b58_char l2 -> l1 = l2.
Proof.
  induction l1 as [|d l1 IH]; intros [|e l2] H1 H2 E; cbn in E; try done.
  inversion H1; inversion H2; subst. injection E as Ed El.
  f_equal; [by apply b58_char_inj|by apply IH].
Qed.

(** The digits of a prefix. *)
Definition prefix_digits (prefix : str) : list Z := map (fun c => find_char c ALPHABET) prefix.

Lemma b58dec_undigits prefix : b58dec prefix = undigits 58 (prefix_digits prefix).
Proof.
  unfold b58dec, undigits, prefix_digits. generalize 0.
  induction prefix as [|c p IH]; intros x; cbn; auto.
Qed.

Lemma prefix_digits_ok prefix : valid_prefix prefix ->
  Forall (is_digit 58) (prefix_digits prefix) /\ 0 < hd 0 (prefix_digits prefix)
  /\ encode prefix = map b58_char (prefix_digits prefix).
Proof.
  intros [Hall Hhd]. split_and!.
  - apply Forall_map. eapply List.Forall_impl; [|exact Hall]. intros c Hc. by apply alphabet_char.
  - destruct prefix as [|c p]; [done|]. inversion Hall as [|? ? Hc _]; subst. cbn in *.
    destruct (alphabet_char c Hc) as ([H0 _] & Hb & _).
    destruct (decide (find_char c ALPHABET = 0)) as [E|]; [|lia].
    rewrite E, b58_char_zero in Hb. lia.
  - rewrite encode_ascii.
    + unfold prefix_digits. rewrite map_map. apply map_ext_in. intros c Hc.
      rewrite Forall_forall in Hall. destruct (alphabet_char c (Hall c Hc)) as (_ & -> & _). done.
    + eapply List.Forall_impl; [|exact Hall]. intros c Hc. by apply alphabet_char.
Qed.

Lemma leading_zeros_pos d bs : 0 < d -> leading_zeros (d :: bs) = 0%nat.
Proof. intros Hd. unfold leading_zeros. cbn. by destruct d. Qed.

Lemma undigits_version lo rest :
  0 <= lo -> undigits 256 (digits 256 lo ++ rest)
             = lo * 256 ^ Z.of_nat (length rest) + undigits 256 rest.
Proof. intros. rewrite undigits_app, undigits_digits by lia. done. Qed.

(** The numbers the encoder sees for a payload: version bytes, payload and
    checksum; they differ from [lo * 2 ^ shift] by less than [2 ^ shift]. *)
Lemma encoded_number lo payload ck len :
  0 <= lo -> Forall is_byte payload -> Forall is_byte ck ->
  Z.of_nat (length payload) = len -> length ck = 4%nat ->
  exists r, undigits 256 ((digits 256 lo ++ payload) ++ ck) = lo * 2 ^ (8 * (len + 4)) + r
    /\ r = undigits 256 payload * 2 ^ 32 + undigits 256 ck
    /\ 0 <= undigits 256 ck < 2 ^ 32 /\ 0 <= r < 2 ^ (8 * (len + 4)).
Proof.
  intros Hlo Hp Hck <- Hc. exists (undigits 256 (payload ++ ck)).
  pose proof (undigits_bound 256 ck ltac:(lia) Hck) as Bck. rewrite Hc in Bck.
  change (256 ^ Z.of_nat 4) with (2 ^ 32) in Bck.
  pose proof (undigits_bound 256 (payload ++ ck) ltac:(lia) (proj2 (Forall_app _ _ _) (conj Hp Hck))) as B.
  assert (E : 256 ^ Z.of_nat (length (payload ++ ck)) = 2 ^ (8 * (Z.of_nat (length payload) + 4))).
  { rewrite length_app, Hc, Nat2Z.inj_add. change 256 with (2 ^ 8).
    rewrite <- Z.pow_mul_r by lia. f_equal; lia. }
  rewrite E in B. split_and!; try lia.
  - rewrite <- app_assoc, undigits_version by done. by rewrite E.
  - rewrite undigits_app, Hc. done.
Qed.

(** Any number of the interval the script looks for is written with the prefix
    and [m] more characters. *)
Lemma text_in_interval prefix m bs :
  valid_prefix prefix -> 0 <= m -> leading_zeros bs = 0%nat ->
  b58dec prefix * 58 ^ m <= undigits 256 bs < (b58dec prefix + 1) * 58 ^ m ->
  startswith (encode prefix) (b58_text bs) = true
  /\ Z.of_nat (length (b58_text bs)) = m + Z.of_nat (length prefix).
Proof.
  intros Hv Hm Hz Hin. destruct (prefix_digits_ok prefix Hv) as (Hd & Hhd & Henc).
  rewrite b58dec_undigits in Hin. replace m with (Z.of_nat (Z.to_nat m)) in Hin by lia.
  destruct (digits_with_prefix 58 _ (Z.to_nat m) _ ltac:(lia) Hd Hhd Hin) as (tail & E & Hl).
  unfold b58_text. rewrite Hz, E, Henc. cbn [repeat app]. rewrite map_app. split.
  - apply startswith_app.
  - rewrite length_app, !length_map, Hl. unfold prefix_digits. rewrite length_map. lia.
Qed.

(** Conversely, a text with the prefix and [m] more characters is the text of a
    number above the lower end of the interval. *)
Lemma text_lower_bound prefix m bs :
  valid_prefix prefix -> 0 <= m -> Forall is_byte bs ->
  startswith (encode prefix) (b58_text bs) = true ->
  Z.of_nat (length (b58_text bs)) = m + Z.of_nat (length prefix) ->
  leading_zeros bs = 0%nat /\ b58dec prefix * 58 ^ m <= undigits 256 bs.
Proof.
  intros Hv Hm Hb Hs Hl. destruct (prefix_digits_ok prefix Hv) as (Hd & Hhd & Henc).
  apply startswith_spec in Hs as [r Hr]. rewrite Henc in Hr. unfold b58_text in Hr, Hl.
  assert (Hz : leading_zeros bs = 0%nat).
  { destruct (leading_zeros bs); [done|]. destruct (prefix_digits prefix) as [|d p]; [cbn in Hhd; lia|].
    cbn in Hr, Hhd. injection Hr as H49 _. inversion Hd; subst.
    rewrite <- b58_char_zero in H49. apply b58_char_inj in H49; [lia| |done].
    unfold is_digit; lia. }
  split; [done|]. rewrite Hz in Hr, Hl. cbn [repeat app] in Hr, Hl.
  pose proof (undigits_bound 256 bs ltac:(lia) Hb) as B.
  set (n := undigits 256 bs) in *.
  assert (E : digits 58 n = prefix_digits prefix ++ drop (length prefix) (digits 58 n)).
  { assert (Hlen : length (prefix_digits prefix) = length prefix) by (unfold prefix_digits; by rewrite length_map).
    rewrite <- (take_drop (length prefix) (digits 58 n)) at 1. f_equal.
    apply map_b58_char_inj; [apply Forall_take; apply digits_digit; lia|done|].
    rewrite <- firstn_map, Hr, <- Hlen, <- (length_map b58_char (prefix_digits prefix)).
    apply take_app_length. }
  pose proof (digits_digit 58 n ltac:(lia)) as Hdn. rewrite E in Hdn.
  apply Forall_app in Hdn as [_ Hdn].
  pose proof (undigits_bound 58 _ ltac:(lia) Hdn) as Bt.
  rewrite length_map in Hl. rewrite <- (undigits_digits 58 n) by lia.
  rewrite E, undigits_app, <- b58dec_undigits, length_drop.
  replace (Z.of_nat (length (digits 58 n) - length prefix)) with m by lia. lia.
Qed.

(** Bounds on the interval ends, from the shifts. *)
Lemma version_hi_bound target shift m lo :
  0 <= shift -> lo <= version_hi target shift m ->
  lo * 2 ^ shift + 2 ^ shift - 1 <= (target + 1) * 58 ^ m.
Proof.
  unfold version_hi. intros Hs. rewrite Z.shiftr_div_pow2, Z.shiftl_1_l by done.
  pose proof (Z.pow_pos_nonneg 2 shift ltac:(lia) Hs) as Hp. intros Hlo.
  pose proof (Z.mul_div_le ((target + 1) * 58 ^ m - 2 ^ shift + 1) (2 ^ shift) Hp). nia.
Qed.

(** The upper end is even and the largest encoded number is odd, so the bound
    is strict. *)
Lemma version_hi_strict target shift m lo :
  0 < shift -> 0 < m -> lo <= version_hi target shift m ->
  lo * 2 ^ shift + 2 ^ shift - 1 < (target + 1) * 58 ^ m.
Proof.
  intros Hs Hm Hlo. pose proof (version_hi_bound target shift m lo ltac:(lia) Hlo) as B.
  assert (Heven : exists k, 58 ^ m = 2 * k).
  { exists (29 * 58 ^ (m - 1)). replace m with (Z.succ (m - 1)) at 1 by lia.
    rewrite Z.pow_succ_r by lia. lia. }
  assert (Heven2 : exists k, 2 ^ shift = 2 * k).
  { exists (2 ^ (shift - 1)). replace shift with (Z.succ (shift - 1)) at 1 by lia.
    by rewrite Z.pow_succ_r by lia. }
  destruct Heven as [k Hk], Heven2 as [j Hj]. rewrite Hk, Hj in *. lia.
Qed.

Lemma version_lo_cases target shift m :
  0 <= shift ->
  let f := version_floor target shift m in
  (f mod 2 ^ shift = 0 /\ version_lo target shift m = f)
  \/ (f mod 2 ^ shift <> 0 /\ version_lo target shift m = f + 1).
Proof.
  intros Hs f. unfold version_lo. fold f. rewrite Z.shiftr_div_pow2, Z.shiftl_mul_pow2 by done.
  pose proof (Z.pow_pos_nonneg 2 shift ltac:(lia) Hs) as Hp.
  pose proof (Z.div_mod f (2 ^ shift) ltac:(lia)) as E.
  destruct (f =? f / 2 ^ shift * 2 ^ shift) eqn:Q; bool_to_prop; [left|right]; split; lia.
Qed.

Lemma version_floor_bound target shift m :
  0 <= shift ->
  version_floor target shift m * 2 ^ shift <= target * 58 ^ m
    < (version_floor target shift m + 1) * 2 ^ shift.
Proof.
  intros Hs. unfold version_floor. rewrite Z.shiftr_div_pow2 by done.
  pose proof (Z.pow_pos_nonneg 2 shift ltac:(lia) Hs) as Hp.
  pose proof (Z.mul_div_le (target * 58 ^ m) (2 ^ shift) Hp).
  pose proof (Z.mul_succ_div_gt (target * 58 ^ m) (2 ^ shift) Hp). lia.
Qed.

(** [m] is the first size at which the loop breaks. *)
Definition first_size (target shift m : Z) : Prop :=
  1 <= m /\ version_lo target shift m <= version_hi target shift m
  /\ forall m', 1 <= m' < m -> version_hi target shift m' < version_lo target shift m'.

Lemma candidate_sizes_split maxi m :
  1 <= m < maxi ->
  exists l1 l2, candidate_sizes maxi = l1 ++ m :: l2 /\ Forall (fun k => 1 <= k < m) l1.
Proof.
  intros Hm. unfold candidate_sizes.
  exists (map Z.of_nat (seq 1 (Z.to_nat (m - 1)))),
         (map Z.of_nat (seq (S (Z.to_nat m)) (Z.to_nat (maxi - 1) - Z.to_nat m))).
  split.
  - change m with (id m) at 2. replace (id m) with (Z.of_nat (Z.to_nat m)) by (unfold id; lia).
    rewrite <- map_cons, <- map_app. f_equal.
    replace (Z.to_nat (maxi - 1))
      with (Z.to_nat (m - 1) + S (Z.to_nat (maxi - 1) - Z.to_nat m))%nat at 1 by lia.
    rewrite seq_app. f_equal. cbn. f_equal; [lia|]. f_equal. lia.
  - apply Forall_map, Forall_forall. intros k Hk%in_seq. lia.
Qed.

Lemma candidate_sizes_last maxi :
  2 <= maxi ->
  exists l, candidate_sizes maxi = l ++ [maxi - 1] /\ Forall (fun k => 1 <= k < maxi - 1) l.
Proof.
  intros Hm. destruct (candidate_sizes_split maxi (maxi - 1) ltac:(lia)) as (l1 & l2 & E & Hl1).
  exists l1. split; [|done]. rewrite E. do 2 f_equal.
  assert (Hlen : length (candidate_sizes maxi) = Z.to_nat (maxi - 1))
    by (unfold candidate_sizes; rewrite length_map, length_seq; done).
  assert (Hlen1 : nth_error (candidate_sizes maxi) (length l1) = Some (maxi - 1)).
  { rewrite E, nth_error_app2, Nat.sub_diag by lia. done. }
  unfold candidate_sizes in Hlen1. rewrite nth_error_map in Hlen1.
  destruct (nth_error (seq 1 (Z.to_nat (maxi - 1))) (length l1)) as [k|] eqn:Ek; [|done].
  cbn in Hlen1. injection Hlen1 as Hk.
  assert (Hi : (length l1 < Z.to_nat (maxi - 1))%nat).
  { rewrite <- (length_seq (Z.to_nat (maxi - 1)) 1). apply nth_error_Some. by rewrite Ek. }
  apply nth_error_nth with (d := 0%nat) in Ek. rewrite seq_nth in Ek by done.
  rewrite E, length_app in Hlen. destruct l2; [done|cbn in Hlen; lia].
Qed.

Lemma version_loop_skip enc prefix len target shift l1 l2 : forall last,
  0 <= shift ->
  Forall (fun k => version_hi target shift k < version_lo target shift k) l1 ->
  exists last', version_loop enc prefix len target shift (l1 ++ l2) last
                = version_loop enc prefix len target shift l2 last'.
Proof.
  induction l1 as [|k l1 IH]; intros last Hs Hl; [by exists last|].
  inversion Hl as [|? ? Hk Hl1]; subst. cbn [app version_loop].
  replace (shift <? 0) with false by (symmetry; apply Z.ltb_ge; lia).
  replace (version_lo target shift k <=? version_hi target shift k) with false
    by (symmetry; apply Z.leb_gt; lia).
  by apply IH.
Qed.

(** What the script computes once it has found its size. *)
Lemma compute_at_first_size enc prefix len maxi m :
  0 <= len -> m < maxi -> first_size (b58dec prefix) (8 * (len + 4)) m ->
  compute_version_bytes enc prefix len maxi =
    (_ ← check_payload enc prefix m (version_lo (b58dec prefix) (8 * (len + 4)) m) 0 len;
     _ ← check_payload enc prefix m (version_lo (b58dec prefix) (8 * (len + 4)) m) 255 len;
     Ok (m + Z.of_nat (length prefix), asciidec (version_lo (b58dec prefix) (8 * (len + 4)) m))).
Proof.
  intros Hlen Hmax (Hm & Hle & Hbefore). unfold compute_version_bytes.
  destruct (candidate_sizes_split maxi m ltac:(lia)) as (l1 & l2 & -> & Hl1).
  destruct (version_loop_skip enc prefix len (b58dec prefix) (8 * (len + 4)) l1 (m :: l2) None)
    as [last' ->]; [lia|by eapply Forall_impl; [|exact Hl1]; eauto|].
  cbn [version_loop]. replace (8 * (len + 4) <? 0) with false by (symmetry; apply Z.ltb_ge; lia).
  by apply Z.leb_le in Hle as ->.
Qed.

(** The first size exists as soon as some size fits. *)
Lemma first_size_or_none target shift (k : nat) :
  (exists m, m <= Z.of_nat k /\ first_size target shift m)
  \/ (forall m, 1 <= m <= Z.of_nat k -> version_hi target shift m < version_lo target shift m).
Proof.
  induction k as [|k [(m & Hm & Hf)|Hnone]]; [right; lia|left; exists m; split; [lia|done]|].
  destruct (Z_le_gt_dec (version_lo target shift (Z.of_nat (S k)))
                        (version_hi target shift (Z.of_nat (S k)))) as [Hle|Hgt].
  - left. exists (Z.of_nat (S k)). split; [lia|]. split_and!; [lia|done|].
    intros m' Hm'. apply Hnone. lia.
  - right. intros m Hm. destruct (decide (m = Z.of_nat (S k))) as [->|]; [lia|]. apply Hnone. lia.
Qed.

Lemma first_size_exists target shift n :
  1 <= n -> version_lo target shift n <= version_hi target shift n ->
  exists m, m <= n /\ first_size target shift m.
Proof.
  intros Hn Hle. destruct (first_size_or_none target shift (Z.to_nat n)) as [(m & Hm & Hf)|Hnone].
  - exists m. split; [lia|done].
  - specialize (Hnone n ltac:(lia)). lia.
Qed.

(** A size of [shift / 5 + 2] digits always fits, because [2 ^ 5 < 58]. *)
Lemma large_size_fits target shift m :
  0 <= shift -> shift + 1 <= 5 * m -> version_lo target shift m <= version_hi target shift m.
Proof.
  intros Hs Hm. pose proof (Z.pow_pos_nonneg 2 shift ltac:(lia) Hs) as Hp.
  assert (H58 : 2 * 2 ^ shift <= 58 ^ m).
  { rewrite <- Z.pow_succ_r by done. transitivity (2 ^ (5 * m)); [apply Z.pow_le_mono_r; lia|].
    rewrite Z.pow_mul_r by lia. apply Z.pow_le_mono_l. lia. }
  pose proof (version_floor_bound target shift m Hs) as B.
  pose proof (version_lo_cases target shift m Hs) as C. cbn in C.
  unfold version_hi. rewrite Z.shiftr_div_pow2, Z.shiftl_1_l by done.
  apply Z.div_le_lower_bound; [done|]. destruct C as [[_ ->]|[_ ->]]; nia.
Qed.

Lemma version_lo_nonneg target shift m : 0 <= target -> 0 <= m -> 0 <= shift ->
  0 <= version_lo target shift m.
Proof.
  intros Ht Hm Hs. pose proof (version_lo_cases target shift m Hs) as C. cbn in C.
  assert (0 <= version_floor target shift m).
  { unfold version_floor. apply Z.shiftr_nonneg. pose proof (Z.pow_nonneg 58 m). nia. }
  destruct C as [[_ ->]|[_ ->]]; lia.
Qed.

Lemma b58dec_pos prefix : valid_prefix prefix -> 0 < b58dec prefix.
Proof.
  intros Hv. destruct (prefix_digits_ok prefix Hv) as (Hd & Hhd & _). rewrite b58dec_undigits.
  destruct (prefix_digits prefix) as [|d p]; [cbn in Hhd; lia|]. inversion Hd; subst.
  cbn in Hhd. pose proof (undigits_lower 58 d p ltac:(lia) ltac:(done) ltac:(lia)).
  pose proof (Z.pow_pos_nonneg 58 (Z.of_nat (length p))). lia.
Qed.

Lemma check_payload_ok enc prefix m lo fill len :
  check_payload enc prefix m lo fill len = Ok () <->
  let e := enc (asciidec lo ++ repeat fill (Z.to_nat len)) in
  startswith (encode prefix) e = true /\ Z.of_nat (length e) = m + Z.of_nat (length prefix).
Proof.
  cbn. unfold check_payload, assert_. destruct (startswith _ _); cbn; [|naive_solver].
  destruct (_ =? _) eqn:E; bool_to_prop; naive_solver.
Qed.

Lemma check_payload_res enc prefix m lo fill len :
  check_payload enc prefix m lo fill len = Ok ()
  \/ check_payload enc prefix m lo fill len = Raise AssertionError.
Proof.
  unfold check_payload, assert_. cbn. destruct (startswith _ _); cbn; [|by right].
  destruct (_ =? _); auto.
Qed.

Lemma Forall_repeat {A} (P : A -> Prop) x n : P x -> Forall P (repeat x n).
Proof. intros. induction n; cbn; constructor; auto. Qed.

(** If the number encoded for the zero payload is not below the interval, every
    payload is encoded with the prefix. *)
Lemma all_payloads enc prefix len m lo :
  base58check_documented enc -> valid_prefix prefix -> 0 <= len -> 0 < m -> 0 < lo ->
  lo <= version_hi (b58dec prefix) (8 * (len + 4)) m ->
  (forall ck, enc (digits 256 lo ++ repeat 0 (Z.to_nat len))
              = b58_text ((digits 256 lo ++ repeat 0 (Z.to_nat len)) ++ ck) ->
     Forall is_byte ck -> length ck = 4%nat ->
     b58dec prefix * 58 ^ m <= undigits 256 ((digits 256 lo ++ repeat 0 (Z.to_nat len)) ++ ck)) ->
  encodes_with_prefix enc prefix len (m + Z.of_nat (length prefix)) (digits 256 lo).
Proof.
  intros Henc Hv Hlen Hm Hlo Hhi Hlow payload Hp Hpl.
  assert (Hdig : Forall is_byte (digits 256 lo)) by (apply (digits_digit 256); lia).
  destruct (Henc (digits 256 lo ++ payload)) as (ck & Hck4 & Hck & E); [by apply Forall_app|].
  rewrite E. apply text_in_interval; [done|lia| |].
  - pose proof (digits_no_leading_zero 256 lo ltac:(lia) ltac:(lia)) as Hn.
    pose proof (digits_nonempty 256 lo ltac:(lia) Hlo) as Hne.
    destruct (digits 256 lo) as [|d l]; [done|]. inversion Hdig; subst.
    unfold no_leading_zero, is_byte in *. cbn in Hn |- *. apply leading_zeros_pos. lia.
  - destruct (encoded_number lo payload ck len ltac:(lia) Hp Hck Hpl Hck4) as (r & Hr & Hrv & Bck & Br).
    pose proof (version_hi_strict (b58dec prefix) (8 * (len + 4)) m lo ltac:(lia) Hm Hhi) as Hup.
    rewrite Hr. split; [|lia].
    pose proof (undigits_bound 256 payload ltac:(lia) Hp) as Bp.
    assert (Hz : Forall is_byte (repeat 0 (Z.to_nat len))) by (apply Forall_repeat; unfold is_byte; lia).
    destruct (decide (undigits 256 payload = 0)) as [Hp0|Hp0].
    + assert (payload = repeat 0 (Z.to_nat len)) as ->.
      { apply (undigits_inj_length 256); auto; [lia|rewrite repeat_length; lia|].
        by rewrite undigits_repeat_zero. }
      rewrite <- Hr. by apply Hlow.
    + destruct (Henc (digits 256 lo ++ repeat 0 (Z.to_nat len))) as (ck0 & Hck04 & Hck0 & E0);
        [by apply Forall_app|].
      specialize (Hlow ck0 E0 Hck0 Hck04).
      destruct (encoded_number lo _ ck0 len ltac:(lia) Hz Hck0 ltac:(rewrite repeat_length; lia) Hck04)
        as (r0 & Hr0 & Hrv0 & Bck0 & Br0).
      rewrite Hr0, Hrv0, undigits_repeat_zero in Hlow. lia.
Qed.

(** The number encoded for the zero payload, when its text has the prefix, is
    not below the interval and has no leading zero byte. *)
Lemma zero_payload_text enc prefix len m lo ck :
  valid_prefix prefix -> 0 <= m -> 0 <= lo ->
  startswith (encode prefix) (enc (digits 256 lo ++ repeat 0 (Z.to_nat len))) = true ->
  Z.of_nat (length (enc (digits 256 lo ++ repeat 0 (Z.to_nat len)))) = m + Z.of_nat (length prefix) ->
  enc (digits 256 lo ++ repeat 0 (Z.to_nat len))
    = b58_text ((digits 256 lo ++ repeat 0 (Z.to_nat len)) ++ ck) ->
  Forall is_byte ck ->
  leading_zeros ((digits 256 lo ++ repeat 0 (Z.to_nat len)) ++ ck) = 0%nat
  /\ b58dec prefix * 58 ^ m <= undigits 256 ((digits 256 lo ++ repeat 0 (Z.to_nat len)) ++ ck).
Proof.
  intros Hv Hm Hlo Hs Hl E Hck. rewrite E in Hs, Hl. apply text_lower_bound; auto.
  apply Forall_app; split; [|done]. apply Forall_app; split; [apply (digits_digit 256); lia|].
  apply Forall_repeat; unfold is_byte; lia.
Qed.

(** The assertion on the zero payload implies the guarantee for every payload. *)
Lemma first_size_sound enc prefix len m :
  base58check_documented enc -> valid_prefix prefix -> 0 <= len ->
  first_size (b58dec prefix) (8 * (len + 4)) m ->
  check_payload enc prefix m (version_lo (b58dec prefix) (8 * (len + 4)) m) 0 len = Ok () ->
  encodes_with_prefix enc prefix len (m + Z.of_nat (length prefix))
    (asciidec (version_lo (b58dec prefix) (8 * (len + 4)) m)).
Proof.
  intros Henc Hv Hlen (Hm & Hle & _) Hck. set (lo := version_lo _ _ _) in *.
  rewrite check_payload_ok in Hck. cbv zeta in Hck. destruct Hck as [Hs Hl].
  rewrite asciidec_digits in Hs, Hl |- *.
  destruct (decide (len = 0)) as [->|Hne].
  { intros [|] _ Hpl; [by split|cbn in Hpl; lia]. }
  pose proof (b58dec_pos prefix Hv) as Hpos.
  pose proof (version_lo_nonneg (b58dec prefix) (8 * (len + 4)) m ltac:(lia) ltac:(lia) ltac:(lia)) as Hlo.
  fold lo in Hlo.
  apply all_payloads; auto; [lia| |].
  - destruct (decide (lo = 0)) as [E0|]; [exfalso|lia].
    destruct (Henc (digits 256 lo ++ repeat 0 (Z.to_nat len))) as (ck & H4 & Hck & E).
    { apply Forall_app; split; [apply (digits_digit 256); lia|].
      apply Forall_repeat; unfold is_byte; lia. }
    destruct (zero_payload_text enc prefix len m lo ck) as [Hz0 _]; auto; [lia|].
    rewrite E0 in Hz0. replace (Z.to_nat len) with (S (Z.to_nat (len - 1))) in Hz0 by lia. done.
  - intros ck E Hck _. apply (zero_payload_text enc prefix len m lo ck); auto; lia.
Qed.

(** Without a multiple of [2 ^ shift] in the way, the adjustment rounds up. *)
Lemma version_lo_rounds_up target shift m :
  0 <= shift -> version_floor target shift m mod 2 ^ shift <> 0 ->
  target * 58 ^ m <= version_lo target shift m * 2 ^ shift.
Proof.
  intros Hs Hmod. pose proof (version_floor_bound target shift m Hs).
  destruct (version_lo_cases target shift m Hs) as [[? _]|[_ ->]]; [done|lia].
Qed.

Lemma rounded_up_sound enc prefix len m :
  base58check_documented enc -> valid_prefix prefix -> 0 <= len ->
  1 <= m ->
  version_lo (b58dec prefix) (8 * (len + 4)) m <= version_hi (b58dec prefix) (8 * (len + 4)) m ->
  version_floor (b58dec prefix) (8 * (len + 4)) m mod 2 ^ (8 * (len + 4)) <> 0 ->
  encodes_with_prefix enc prefix len (m + Z.of_nat (length prefix))
    (asciidec (version_lo (b58dec prefix) (8 * (len + 4)) m)).
Proof.
  intros Henc Hv Hlen Hm Hle Hmod. rewrite asciidec_digits.
  pose proof (b58dec_pos prefix Hv) as Hpos.
  pose proof (version_lo_rounds_up (b58dec prefix) (8 * (len + 4)) m ltac:(lia) Hmod) as Hup.
  pose proof (Z.pow_pos_nonneg 58 m ltac:(lia) ltac:(lia)) as H58.
  pose proof (Z.pow_pos_nonneg 2 (8 * (len + 4)) ltac:(lia) ltac:(lia)) as H2.
  assert (Hlo : 0 < version_lo (b58dec prefix) (8 * (len + 4)) m) by nia.
  apply all_payloads; auto; [lia|]. intros ck _ Hck H4.
  destruct (encoded_number (version_lo (b58dec prefix) (8 * (len + 4)) m)
    (repeat 0 (Z.to_nat len)) ck len ltac:(lia)) as (r & -> & _ & _ & Br); auto; [|rewrite repeat_length; lia|lia].
  apply Forall_repeat; unfold is_byte; lia.
Qed.

Lemma checks_from_guarantee enc prefix len m lo fill :
  0 <= len -> is_byte fill ->
  encodes_with_prefix enc prefix len (m + Z.of_nat (length prefix)) (asciidec lo) ->
  check_payload enc prefix m lo fill len = Ok ().
Proof.
  intros Hlen Hf Hall. apply check_payload_ok. cbv zeta.
  apply Hall; [by apply Forall_repeat|rewrite repeat_length; lia].
Qed.

Lemma valid_prefix_b prefix :
  forallb (fun c => bool_decide (c ∈ ALPHABET)) prefix && negb (hd 49%N prefix =? 49)%N = true ->
  valid_prefix prefix.
Proof.
  intros H. bool_to_prop. split; [|done]. apply Forall_forall. intros c Hc.
  rewrite forallb_forall in H. specialize (H c Hc). by apply bool_decide_eq_true in H.
Qed.

Lemma valid_prefix_Q : valid_prefix $"Q".
Proof. apply valid_prefix_b. vm_compute. reflexivity. Qed.

(** Deciding [first_size], for concrete prefixes. *)
Definition first_size_b (target shift m : Z) : bool :=
  (1 <=? m) && (version_lo target shift m <=? version_hi target shift m)
  && forallb (fun k => version_hi target shift k <? version_lo target shift k) (candidate_sizes m).

Lemma first_size_b_sound target shift m : first_size_b target shift m = true -> first_size target shift m.
Proof.
  unfold first_size_b. intros H. bool_to_prop. split_and!; [done|done|].
  intros m' Hm'. destruct (candidate_sizes_split m m' Hm') as (l1 & l2 & E & _).
  rewrite forallb_forall in H0. specialize (H0 m'). rewrite E in H0.
  apply Z.ltb_lt, H0, in_elt.
Qed.

(** With no version bytes the text starts with the zero digit. *)
Lemma zero_version_text enc prefix m len :
  base58check_documented enc -> valid_prefix prefix -> 0 < len ->
  check_payload enc prefix m 0 0 len = Raise AssertionError.
Proof.
  intros Henc Hv Hlen. destruct (check_payload_res enc prefix m 0 0 len) as [H|]; [exfalso|done].
  apply check_payload_ok in H as [Hs _]. change (asciidec 0) with (@nil Z) in Hs. cbn [app] in Hs.
  destruct (Henc (repeat 0 (Z.to_nat len))) as (ck & _ & _ & E).
  { apply Forall_repeat; unfold is_byte; lia. }
  rewrite E in Hs. destruct (prefix_digits_ok prefix Hv) as (Hd & Hhd & Henc').
  rewrite Henc' in Hs. apply startswith_spec in Hs as [r Hr].
  replace (Z.to_nat len) with (S (Z.to_nat (len - 1))) in Hr by lia.
  destruct (prefix_digits prefix) as [|d p]; [cbn in Hhd; lia|].
  unfold b58_text, leading_zeros in Hr. cbn in Hr, Hhd. injection Hr as Hc _.
  inversion Hd; subst. rewrite <- b58_char_zero in Hc. apply b58_char_inj in Hc; [lia| |done].
  unfold is_digit; lia.
Qed.

(** ** Properties *)

(** C11. With the default bound of 1000 sizes and a payload of at most 620 bytes,
    the script always ends by its [break]: it either fails one of its own
    assertions or returns a size and version bytes for which EVERY payload of
    the given length (not only the two payloads it tests) is encoded to a text
    of that size starting with the prefix. *)
Theorem compute_version_bytes_correct enc prefix len :
  base58check_documented enc -> valid_prefix prefix -> 0 <= len <= 620 ->
  compute_version_bytes enc prefix len 1000 = Raise AssertionError
  \/ exists size vb, compute_version_bytes enc prefix len 1000 = Ok (size, vb)
       /\ encodes_with_prefix enc prefix len size vb.
Proof.
  intros Henc Hv Hlen.
  destruct (first_size_exists (b58dec prefix) (8 * (len + 4)) 999) as (m & Hm & Hf); [lia| |].
  { apply large_size_fits; lia. }
  rewrite (compute_at_first_size _ _ _ _ m) by (try done; lia).
  destruct (check_payload_res enc prefix m (version_lo (b58dec prefix) (8 * (len + 4)) m) 0 len)
    as [H0 | ->]; [|by left]. rewrite H0. cbn [mbind res_bind].
  destruct (check_payload_res enc prefix m (version_lo (b58dec prefix) (8 * (len + 4)) m) 255 len)
    as [-> | ->]; [right|by left]. cbn [mbind res_bind].
  eexists _, _. split; [done|]. apply first_size_sound; auto; lia.
Qed.

(** When the quotient the loop breaks at is not a multiple of [2 ^ shift] -
    the case the adjustment of [lo] is written for - the assertions hold and
    the result is exactly the first fitting size with its rounded-up version
    bytes, which encode every payload with the prefix. *)
Theorem compute_version_bytes_rounded enc prefix len maxi m :
  base58check_documented enc -> valid_prefix prefix -> 0 <= len -> m < maxi ->
  first_size (b58dec prefix) (8 * (len + 4)) m ->
  version_floor (b58dec prefix) (8 * (len + 4)) m mod 2 ^ (8 * (len + 4)) <> 0 ->
  compute_version_bytes enc prefix len maxi
    = Ok (m + Z.of_nat (length prefix), asciidec (version_lo (b58dec prefix) (8 * (len + 4)) m))
  /\ encodes_with_prefix enc prefix len (m + Z.of_nat (length prefix))
       (asciidec (version_lo (b58dec prefix) (8 * (len + 4)) m)).
Proof.
  intros Henc Hv Hlen Hmax Hf Hmod. pose proof Hf as (Hm & Hle & _).
  pose proof (rounded_up_sound enc prefix len m Henc Hv Hlen Hm Hle Hmod) as Hall.
  split; [|done]. rewrite (compute_at_first_size _ _ _ _ m) by done.
  by rewrite !checks_from_guarantee by (auto; unfold is_byte; lia).
Qed.

(** The adjustment tests the wrong number (the shifted [lo] instead of the
    product): when the quotient is 0 it is not rounded up, the version bytes are
    empty, and the script fails its own assertion although a valid answer
    exists at the next size.  The prefix "Q" for 20-byte payloads is such a
    case, whatever the base58 package computes as checksum. *)
Theorem compute_version_bytes_rejects_Q enc :
  base58check_documented enc ->
  compute_version_bytes enc $"Q" 20 1000 = Raise AssertionError
  /\ version_lo (b58dec $"Q") 192 33 <= version_hi (b58dec $"Q") 192 33
  /\ encodes_with_prefix enc $"Q" 20 34 (asciidec (version_lo (b58dec $"Q") 192 33)).
Proof.
  intros Henc. pose proof valid_prefix_Q as Hv. split_and!.
  - rewrite (compute_at_first_size _ _ _ _ 32);
      [|lia|lia|apply first_size_b_sound; vm_compute; reflexivity].
    assert (E : version_lo (b58dec $"Q") (8 * (20 + 4)) 32 = 0) by (vm_compute; reflexivity).
    rewrite E, zero_version_text by (done || lia). reflexivity.
  - vm_compute. discriminate.
  - pose proof (rounded_up_sound enc $"Q" 20 33 Henc Hv) as H.
    change (8 * (20 + 4)) with 192 in H. change (Z.of_nat (length $"Q")) with 1 in H.
    change (33 + 1) with 34 in H. apply H; [lia|lia| |]; vm_compute; discriminate.
Qed.

(** When no size below the bound fits, the loop ends without [break] and the
    script returns the last size it tried without checking anything. *)
Theorem compute_version_bytes_unchecked enc prefix len maxi :
  0 <= len -> 2 <= maxi ->
  (forall m, 1 <= m < maxi ->
     version_hi (b58dec prefix) (8 * (len + 4)) m < version_lo (b58dec prefix) (8 * (len + 4)) m) ->
  compute_version_bytes enc prefix len maxi
    = Ok (maxi - 1 + Z.of_nat (length prefix),
          asciidec (version_lo (b58dec prefix) (8 * (len + 4)) (maxi - 1))).
Proof.
  intros Hlen Hmax Hnone. unfold compute_version_bytes.
  destruct (candidate_sizes_last maxi ltac:(lia)) as (l & -> & Hl).
  destruct (version_loop_skip enc prefix len (b58dec prefix) (8 * (len + 4)) l [maxi - 1] None)
    as [last' ->]; [lia|by eapply Forall_impl; [|exact Hl]; cbn; intros; apply Hnone; lia|].
  cbn [version_loop]. replace (8 * (len + 4) <? 0) with false by (symmetry; apply Z.ltb_ge; lia).
  specialize (Hnone (maxi - 1) ltac:(lia)). by apply Z.leb_gt in Hnone as ->.
Qed.

(** [asciidec] is the big-endian base-256 notation without leading zeros: it
    reads back as the number, every element is a byte, and it is the only such
    list. *)
Theorem asciidec_base256 val :
  0 <= val ->
  undigits 256 (asciidec val) = val /\ Forall is_byte (asciidec val)
  /\ forall l, Forall is_byte l -> no_leading_zero l -> undigits 256 l = val -> l = asciidec val.
Proof.
  intros Hv. rewrite asciidec_digits. split_and!.
  - by apply undigits_digits.
  - apply (digits_digit 256). lia.
  - intros l Hl Hz E. apply (undigits_inj 256); auto with talent lia.
    by rewrite undigits_digits.
Qed.

(** ** Witnesses *)

(** A base58check encoder with a constant checksum. *)
Definition toy_b58encode_check (v : bytes) : bytes := b58_text (v ++ [1; 2; 3; 4]).

Lemma toy_documented : base58check_documented toy_b58encode_check.
Proof.
  intros v _. exists [1; 2; 3; 4]. split_and!; [done| |done].
  repeat constructor; unfold is_byte; lia.
Qed.

Lemma valid_prefix_tz1 : valid_prefix $"tz1".
Proof. apply valid_prefix_b. vm_compute. reflexivity. Qed.

Lemma compute_version_bytes_correct_witness :
  compute_version_bytes toy_b58encode_check $"tz1" 20 1000 = Raise AssertionError
  \/ exists size vb, compute_version_bytes toy_b58encode_check $"tz1" 20 1000 = Ok (size, vb)
       /\ encodes_with_prefix toy_b58encode_check $"tz1" 20 size vb.
Proof.
  apply compute_version_bytes_correct; [apply toy_documented|apply valid_prefix_tz1|lia].
Defined.

(** The test of the repository: "tz1" and 20 bytes give size 36 and the version
    bytes 6, 161, 159. *)
Lemma compute_version_bytes_rounded_witness :
  compute_version_bytes toy_b58encode_check $"tz1" 20 1000 = Ok (36, [6; 161; 159])
  /\ encodes_with_prefix toy_b58encode_check $"tz1" 20 36 [6; 161; 159].
Proof.
  pose proof (compute_version_bytes_rounded toy_b58encode_check $"tz1" 20 1000 33
    toy_documented valid_prefix_tz1) as H.
  assert (E1 : asciidec (version_lo (b58dec $"tz1") (8 * (20 + 4)) 33) = [6; 161; 159])
    by (vm_compute; reflexivity).
  assert (E2 : 33 + Z.of_nat (length $"tz1") = 36) by (vm_compute; reflexivity).
  rewrite E1, E2 in H. apply H; [lia|lia| |].
  - apply first_size_b_sound. vm_compute. reflexivity.
  - vm_compute. discriminate.
Defined.

Lemma compute_version_bytes_rejects_Q_witness :
  compute_version_bytes toy_b58encode_check $"Q" 20 1000 = Raise AssertionError.
Proof. apply (compute_version_bytes_rejects_Q toy_b58encode_check toy_documented). Defined.

(** Five sizes are not enough for "tz1". *)
Lemma compute_version_bytes_unchecked_witness :
  compute_version_bytes toy_b58encode_check $"tz1" 20 5 = Ok (7, []).
Proof.
  pose proof (compute_version_bytes_unchecked toy_b58encode_check $"tz1" 20 5) as H.
  assert (E1 : asciidec (version_lo (b58dec $"tz1") (8 * (20 + 4)) (5 - 1)) = [])
    by (vm_compute; reflexivity).
  assert (E2 : 5 - 1 + Z.of_nat (length $"tz1") = 7) by (vm_compute; reflexivity).
  rewrite E1, E2 in H. apply H; [lia|lia|]. clear. intros m Hm. assert (E : In m [1; 2; 3; 4]) by (cbn; lia).
  cbn in E. intuition subst; vm_compute; reflexivity.
Defined.

Lemma asciidec_base256_witness :
  undigits 256 (asciidec 434591) = 434591.
Proof. apply (asciidec_base256 434591). lia. Defined.
