(* ===== verification/JobSelection.v ===== *)
(** * Job selection (tests_python/pytest_plugins/job_selection.py)

    The pytest plugin that splits the collected tests into balanced batches:
    the greedy [knapsack] over the class timings of a previous run, the
    selection of the items of the current job, the option checks and the dry
    run's report.  The weights are floats; [knapsack] is written against the
    interface [Weight], which the code instantiates with binary64 and the
    balance theorems with exact integers. *)

From Stdlib Require Import ZArith Lia Permutation SpecFloat.
From stdpp Require Import base tactics list strings numbers sorting.
From S2P Require Import Prelude PyStr PyExc PyRe PyDict PyFloat PyIO.

Local Open Scope Z_scope.
Local Open Scope py_scope.

(** ** Knapsack *)

(** What [knapsack] needs of the numbers it adds up. *)
Class Weight (W : Type) := { wzero : W; wadd : W -> W -> W; wltb : W -> W -> bool }.

#[export] Instance float_weight : Weight float :=
  {| wzero := S754_zero false; wadd := fadd; wltb := fltb |}.

#[export] Instance Z_weight : Weight Z := {| wzero := 0; wadd := Z.add; wltb := Z.ltb |}.

Record Bag (A W : Type) := MkBag { total_weight : W; bag_items : list (A * W) }.
Arguments MkBag {A W} _ _.
Arguments total_weight {A W} _.
Arguments bag_items {A W} _.

Section Knapsack.
Context {A W : Type} `{Weight W}.

Definition empty_bag : Bag A W := MkBag wzero [].

(** [for (index, bag) in enumerate(knapsack[1:])] *)
Fixpoint min_scan (min_index : nat) (min_total_weight : W) (index : nat) (bags : list (Bag A W)) : nat :=
  match bags with
  | [] => min_index
  | bag :: rest =>
      if wltb (total_weight bag) min_total_weight
      then min_scan (index + 1) (total_weight bag) (S index) rest
      else min_scan min_index min_total_weight (S index) rest
  end.

Definition put_in (item : A) (weight : W) (bag : Bag A W) : Bag A W :=
  MkBag (wadd (total_weight bag) weight) (bag_items bag ++ [(item, weight)]).

(** One iteration of the loop over the items. *)
Definition knapsack_step (bags : list (Bag A W)) (iw : A * W) : res (list (Bag A W)) :=
  match bags with
  | [] => Raise IndexError
  | bag0 :: rest =>
      let min_index := min_scan 0 (total_weight bag0) 0 rest in
      Ok (alter (put_in iw.1 iw.2) min_index bags)
  end.

Fixpoint knapsack_loop (bags : list (Bag A W)) (items : list (A * W)) : res (list (Bag A W)) :=
  match items with
  | [] => Ok bags
  | iw :: rest => bags' ← knapsack_step bags iw; knapsack_loop bags' rest
  end.

Definition knapsack (items : list (A * W)) (bag_count : Z) : res (list (Bag A W)) :=
  knapsack_loop (replicate (Z.to_nat bag_count) empty_bag) items.
End Knapsack.

(** ** Timings of a previous run *)

(** An element of a JUnit XML report (xml.etree): tag, attributes, children. *)
Inductive Element := Elt (tag : str) (attrib : list (str * str)) (children : list Element).

Definition elt_tag (e : Element) : str := let 'Elt t _ _ := e in t.
Definition elt_get (k : str) (e : Element) : option str := let 'Elt _ a _ := e in dget k a.
Definition elt_findall (t : str) (e : Element) : list Element :=
  let 'Elt _ _ c := e in filter (fun x => elt_tag x = t) c.
Definition elt_find (t : str) (e : Element) : option Element := head (elt_findall t e).

Definition DEFAULT_TEST_TIME : float := float_of_Z 60.

Section Plugin.
Context {U : UCD} {o : OS}.

(** pytest and the XML parser: [mangle_test_address] of the junitxml plugin,
    [ET.parse(path).getroot()] and the printed form of an element. *)
Context (mangle_test_address : str -> list str) (et_parse : trace -> str -> res Element)
        (element_repr : Element -> str).

Definition classname_of_nodeid (nodeid : str) : str :=
  join $"." (slice None (Some (-1)) (mangle_test_address nodeid)).

Fixpoint group_loop {S} (timings : list (str * float)) (cases : list Element) :
    M S (list (str * float)) :=
  match cases with
  | [] => mret timings
  | testcase :: rest =>
      match elt_get $"classname" testcase with
      | None =>
          print_ ($"Skipping JUnit XML testcase lacking classname: " +:+ element_repr testcase);;
          group_loop timings rest
      | Some classname =>
          time ← match elt_get $"time" testcase with
                 | None => mret DEFAULT_TEST_TIME
                 | Some time_attr => lift (or_raise ValueError (parse_float time_attr))
                 end;
          let timings' := if dmem classname timings then timings
                          else dset classname (float_of_Z 0) timings in
          let old := default (float_of_Z 0) (dget classname timings') in
          group_loop (dset classname (fadd old time) timings') rest
      end
  end.

Definition group_prev_timings {S} (junit_report : Element) : M S (list (str * float)) :=
  match elt_find $"testsuite" junit_report with
  | None => raise AssertionError
  | Some suite => group_loop [] (elt_findall $"testcase" suite)
  end.

(** [ET.parse] returns a tree or raises, never [None]. *)
Definition read_prev_timings {S} (junit_report_path : str) : M S (list (str * float)) :=
  tree ← (fun s t => (et_parse t junit_report_path, s, t));
  group_prev_timings tree.

(** ** The report of the dry run *)

Definition ljust (w : nat) (s : str) : str := s ++ replicate (w - length s) 32%N.
Definition rjust (w : nat) (s : str) : str := replicate (w - length s) 32%N ++ s.

Definition max_length (l : list str) : nat := foldr Nat.max 0%nat (map length l).

Definition column (i : nat) (rows : list (list str)) : res (list str) :=
  mapM_res (fun row => or_raise IndexError (row !! i)) rows.

Fixpoint print_cells {S} (widths : list nat) (cells : list str) : M S () :=
  match cells with
  | [] => mret ()
  | col :: rest =>
      match widths with
      | [] => raise IndexError
      | width :: widths' => emit (EPrintEnd (rjust width col));; print_cells widths' rest
      end
  end.

Definition tabulate {S} (headers : list str) (rows : list (list str)) (padding : nat) : M S () :=
  cell_width ← lift (mapM_res (fun col_idx =>
      col ← column col_idx (headers :: rows); Ok (max_length col + padding)%nat)
      (seq 0 (length headers)));
  for_ (headers :: rows) (fun row =>
    match cell_width, row with
    | width :: widths, first :: others =>
        emit (EPrintEnd (ljust width first));; print_cells widths others;; print_ []
    | _, _ => raise IndexError
    end).

(** [str(timedelta(microseconds=us))] *)
Definition pad2 (n : Z) : str := if n <? 10 then 48%N :: str_int n else str_int n.

Definition str_timedelta (us : Z) : res str :=
  let days := us / 86400000000 in
  let seconds := us mod 86400000000 / 1000000 in
  let micro := us mod 1000000 in
  if 999999999 <? Z.abs days then Raise OverflowError
  else Ok ((if days =? 0 then []
            else str_int days +:+ $" day" +:+ (if Z.abs days =? 1 then [] else $"s") +:+ $", ")
           +:+ str_int (seconds / 3600) +:+ $":" +:+ pad2 (seconds / 60 mod 60)
           +:+ $":" +:+ pad2 (seconds mod 60)
           +:+ (if micro =? 0 then [] else $"." +:+ pad_digits 6 micro)).

Definition pp_time (seconds : float) : res str :=
  n ← trunc seconds; str_timedelta (n * 1000000).

(** The microseconds of [timedelta(seconds=x)]: the fractional part is rounded
    half to even. *)
Definition float_round (x : float) : Z :=
  match x with
  | S754_finite s m e =>
      let n := let '(a, b) := frac m e in round_half_even a b in if s then - n else n
  | _ => 0
  end.

Definition timedelta_us (x : float) : res Z :=
  n ← trunc x;
  Ok (n * 1000000 + float_round (fmul (fsub x (float_of_Z n)) (float_of_Z 1000000))).

Definition fsum (l : list float) : float := fold_left fadd l (float_of_Z 0).

Definition fmin (l : list float) : res float :=
  match l with
  | [] => Raise ValueError
  | x :: r => Ok (fold_left (fun m y => if fltb y m then y else m) r x)
  end.

Definition fmax (l : list float) : res float :=
  match l with
  | [] => Raise ValueError
  | x :: r => Ok (fold_left (fun m y => if fltb m y then y else m) r x)
  end.

Definition favg (l : list float) : res float :=
  if bool_decide (l = []) then Raise ZeroDivisionError
  else Ok (fdiv (fsum l) (float_of_Z (Z.of_nat (length l)))).

Definition enumerate {B} (l : list B) : list (nat * B) := imap pair l.

(** Lengths are printed as the integers they are; their average is a float. *)
Definition nat_min (l : list nat) : nat :=
  match l with [] => 0%nat | x :: r => fold_left Nat.min r x end.

Definition of_nat (n : nat) : float := float_of_Z (Z.of_nat n).
Definition str_nat (n : nat) : str := str_int (Z.of_nat n).

Definition job_selection_dry_run {S} (jobs_total job_current : Z) (jobs_bags : list (Bag str float))
    (timings_selected_items : list (str * float)) (prev_timings : list (str * float)) : M S () :=
  let weights := map total_weight jobs_bags in
  let lengths := map (fun bag => length (bag_items bag)) jobs_bags in
  print_ $"Jobs: weight and contents";;
  rows1 ← lift (mapM_res (fun '(job_idx, bag) =>
      w ← pp_time (total_weight bag);
      Ok [str_nat (job_idx + 1); w; str_nat (length (bag_items bag))]) (enumerate jobs_bags));
  tabulate [$"job"; $"weight"; $"#classes"] rows1 3;;
  print_ [];; print_ $"Jobs: weight and full contents";;
  rows2 ← lift (mapM_res (fun '(job_idx, classname, weight) =>
      w ← pp_time weight; Ok [str_nat (job_idx + 1); classname; w])
      (flat_map (fun '(job_idx, bag) => map (fun '(c, w) => (job_idx, c, w)) (bag_items bag))
        (enumerate jobs_bags)));
  tabulate [$"job"; $"class"; $"weight"] rows2 3;;
  print_ [];; print_ $"Jobs: statistics";;
  row ← lift (
    wavg ← favg weights; wavg_s ← pp_time wavg;
    wmin ← fmin weights; wmin_s ← pp_time wmin;
    wmax ← fmax weights; wmax_s ← pp_time wmax;
    lavg ← favg (map of_nat lengths);
    Ok [$"jobs_total=" +:+ str_int jobs_total; wavg_s; wmin_s; wmax_s;
        str_float lavg; str_nat (nat_min lengths); str_nat (foldr Nat.max 0%nat lengths)]);
  tabulate [$"jobs_total"; $"weight: avg"; $"min"; $"max"; $"#classes: avg"; $"min"; $"max"] [row] 3;;
  space ← lift (
    wmax ← fmax weights;
    us ← timedelta_us (fsub (fmul wmax (float_of_Z jobs_total)) (fsum weights));
    str_timedelta us);
  print_ ($"Can add " +:+ space +:+ $" without increasing wall-time.");;
  print_ [];; print_ $"Slowest classes (top 10):";;
  rows3 ← lift (mapM_res (fun '(c, w) => s ← pp_time w; Ok [s; c]) (take 10 timings_selected_items));
  tabulate [$"weight"; $"class"] rows3 3;;
  print_ [];;
  print_ ($"Would run test classes in job " +:+ str_int (job_current + 1) +:+ $"/"
          +:+ str_int jobs_total +:+ $":");;
  bag ← lift (or_raise IndexError (index jobs_bags job_current));
  let current_job_classes := map fst (bag_items bag) in
  rows4 ← lift (mapM_res (fun '(c, w) => s ← pp_time w; Ok [c; s])
      (filter (fun cw => cw.1 ∈ current_job_classes) timings_selected_items));
  tabulate [$"class"; $"weight"] rows4 3;;
  when (negb (bool_decide (prev_timings = []))) (
    let selected_classes := map fst timings_selected_items in
    print_ [];; print_ $"Orphaned classes from previous timings file:";;
    for_ (map fst (filter (fun cw => cw.1 ∉ selected_classes) prev_timings)) print_).

(** ** Selection *)

Context {Item : Type} (nodeid : Item -> str).

Definition item_class (item : Item) : str := classname_of_nodeid (nodeid item).

(** [sorted(..., key=itemgetter(1), reverse=True)]: stable, by descending
    weight. *)
Fixpoint insert_desc (x : str * float) (l : list (str * float)) : list (str * float) :=
  match l with
  | [] => [x]
  | y :: r => if fltb y.2 x.2 then x :: l else y :: insert_desc x r
  end.

Definition sort_desc (l : list (str * float)) : list (str * float) :=
  fold_left (fun acc x => insert_desc x acc) l [].

Definition timings_of (items : list Item) (prev_timings : list (str * float)) : list (str * float) :=
  dict_of (map (fun item =>
    let c := item_class item in (c, default DEFAULT_TEST_TIME (dget c prev_timings))) items).

(** The dictionary from a class to its job. *)
Definition bags_rev (jobs_bags : list (Bag str float)) : list (str * Z) :=
  dict_of (flat_map (fun '(index, bag) =>
    map (fun cw => (cw.1, Z.of_nat index)) (bag_items bag)) (enumerate jobs_bags)).

Definition select (jobs_bags_rev : list (str * Z)) (job_current : Z) (item : Item) : res bool :=
  match dget (item_class item) jobs_bags_rev with
  | None => Raise AssertionError
  | Some job_item => Ok (job_current =? job_item)
  end.

(** [[item for item in items if select(item)]] *)
Fixpoint filter_items (sel : Item -> res bool) (items : list Item) : res (list Item) :=
  match items with
  | [] => Ok []
  | x :: r => b ← sel x; l ← filter_items sel r; Ok (if (b : bool) then x :: l else l)
  end.

(** The state is the list object [items], which pytest reads afterwards. *)
Definition job_selection (prev_timings : list (str * float)) (jobs_total job_current : Z)
    (dry_run : bool) : M (list Item) () :=
  items ← get;
  let timings_selected_items := sort_desc (timings_of items prev_timings) in
  jobs_bags ← lift (knapsack timings_selected_items jobs_total);
  let jobs_bags_rev := bags_rev jobs_bags in
  if dry_run then
    print_ $"dry run";;
    job_selection_dry_run jobs_total job_current jobs_bags timings_selected_items prev_timings;;
    put []
  else
    items' ← lift (filter_items (select jobs_bags_rev job_current) items);
    put items';;
    when (bool_decide (items' = [])) (print_
      $"Warning: the current job is empty. Consider rebalancing or reducing the number of jobs").

(** ** Options *)

Definition job_pattern : regex :=
  rseqs [RGroup 1 (rplus rd); ch 47; RGroup 2 (rplus rd)].

(** The converter built by [regex_option_type]; the message has one [%s]. *)
Definition regex_option_type (pat : regex) (before_s after_s : str) (arg_value : str) : res mobj :=
  or_raise (ArgumentTypeError (before_s +:+ arg_value +:+ after_s)) (re_match pat arg_value).

(** The type of the [--job] option in [pytest_addoption]. *)
Definition job_option : str -> res mobj :=
  regex_option_type job_pattern $"The `--jobs` argument (value `"
    $"`) should be on the form JOB/JOBS_TOTAL where 1 <= JOB <= JOBS_TOTAL".

Definition int_group (i : nat) (m : mobj) : res Z :=
  s ← or_raise TypeError (group i m); or_raise ValueError (parse_int s).

Definition str_opt (x : option str) : str := default $"None" x.

Definition pytest_collection_modifyitems (job_config : option mobj) (prev_junit_xml : option str)
    (dry_run : bool) : M (list Item) () :=
  match job_config with
  | None =>
      if bool_decide (is_Some prev_junit_xml) then
        raise (PytestExit $"Cannot give the `--prev-junit-xml` flag without `--job`")
      else if dry_run then
        raise (PytestExit $"Cannot give the `--jobs-dry-run` flag without `--jobs`")
      else mret ()
  | Some m =>
      n1 ← lift (int_group 1 m);
      let job_current := n1 - 1 in
      jobs_total ← lift (int_group 2 m);
      if jobs_total <=? 0 then
        raise (PytestExit ($"Cannot run 0 jobs (--job-config " +:+ group0 m +:+ $")"))
      else if (job_current <? 0) || (jobs_total <=? job_current) then
        raise (PytestExit ($"Job index out of bounds (--job-config " +:+ group0 m +:+ $")"))
      else
        prev_timings ← match prev_junit_xml with
          | Some path =>
              ok ← isfile path;
              if negb ok then
                raise (PytestExit ($"The file " +:+ path +:+ $" given to --prev-junit-xml does not exist"))
              else read_prev_timings path
          | None => mret []
          end;
        print_ ($"(job selection: " +:+ str_int (job_current + 1) +:+ $"/" +:+ str_int jobs_total
                +:+ $" with " +:+ str_nat (length prev_timings) +:+ $" timings from "
                +:+ str_opt prev_junit_xml +:+ $")");;
        job_selection prev_timings jobs_total job_current dry_run
  end.
End Plugin.

(** ** Knapsack: partition and balance *)

Section KnapsackFacts.
Context {A W : Type} `{Weight W}.
Implicit Types bags : list (Bag A W).

(** The items of all bags. *)
Definition contents bags : list (A * W) := concat (map bag_items bags).

(** The weight a bag records is that of its items, added from the left. *)
Definition weighs (b : Bag A W) : Prop :=
  total_weight b = fold_left wadd (map snd (bag_items b)) wzero.

Lemma min_scan_range i w idx bags :
  (min_scan i w idx bags = i \/ idx < min_scan i w idx bags <= idx + length bags)%nat.
Proof.
  revert i w idx. induction bags as [|b bags IH]; intros i w idx; cbn; [by left|].
  case_match.
  - destruct (IH (idx + 1)%nat (total_weight b) (S idx)); lia.
  - destruct (IH i w (S idx)); lia.
Qed.

Lemma contents_alter (item : A) (w : W) bags i :
  (i < length bags)%nat ->
  Permutation (contents (alter (put_in item w) i bags)) ((item, w) :: contents bags).
Proof.
  unfold contents. revert i. induction bags as [|b bags IH]; intros [|i] Hi; cbn in *; [lia|lia| |].
  - rewrite <- app_assoc. apply Permutation_sym, Permutation_middle.
  - rewrite IH by lia. apply Permutation_sym, Permutation_middle.
Qed.

Lemma knapsack_step_ok bags iw : bags <> [] ->
  exists i b bags',
    bags !! i = Some b /\
    i = min_scan 0 (total_weight (default empty_bag (head bags))) 0 (tail bags) /\
    knapsack_step bags iw = Ok bags' /\ bags' = alter (put_in iw.1 iw.2) i bags.
Proof.
  destruct bags as [|b0 rest]; [done|]. intros _. cbn [knapsack_step head tail default].
  pose proof (min_scan_range 0 (total_weight b0) 0 rest) as Hr.
  assert (Hi : (min_scan 0 (total_weight b0) 0 rest < length (b0 :: rest))%nat) by (cbn; lia).
  apply lookup_lt_is_Some_2 in Hi as [b Hb]. eexists _, b, _. split_and!; [exact Hb|done..].
Qed.

Lemma weighs_alter item w bags i :
  Forall weighs bags -> Forall weighs (alter (put_in item w) i bags).
Proof.
  intros Hf. revert i. induction Hf as [|b bags Hb Hf IH]; intros [|i]; cbn; try constructor; auto.
  unfold weighs in *. cbn. rewrite map_app, fold_left_app, Hb. done.
Qed.

Lemma knapsack_loop_ok items : forall bags, bags <> [] -> Forall weighs bags ->
  exists bags', knapsack_loop bags items = Ok bags' /\ length bags' = length bags /\
    Permutation (contents bags') (contents bags ++ items) /\ Forall weighs bags'.
Proof.
  induction items as [|iw items IH]; intros bags Hne Hw; cbn [knapsack_loop].
  - exists bags. rewrite app_nil_r. auto.
  - destruct (knapsack_step_ok bags iw Hne) as (i & b & bags1 & Hi & _ & -> & ->). cbn.
    destruct (IH (alter (put_in iw.1 iw.2) i bags)) as (bags' & -> & Hl & Hp & Hw').
    + intros E. apply (f_equal length) in E. rewrite length_alter in E. by destruct bags.
    + by apply weighs_alter.
    + exists bags'. rewrite length_alter in Hl. split_and!; auto.
      rewrite Hp, contents_alter by (by eapply lookup_lt_Some).
      rewrite <- surjective_pairing. cbn. by rewrite <- Permutation_middle.
Qed.
End KnapsackFacts.

Lemma contents_empty {A W} `{Weight W} n : contents (replicate n (@empty_bag A W _)) = [].
Proof. unfold contents. by induction n. Qed.

Lemma knapsack_ok {A W} `{Weight W} (items : list (A * W)) n : 0 < n ->
  exists bags, knapsack items n = Ok bags /\ Z.of_nat (length bags) = n /\
    Permutation (contents bags) items /\ Forall weighs bags.
Proof.
  intros Hn. unfold knapsack. destruct (knapsack_loop_ok items (replicate (Z.to_nat n) empty_bag))
    as (bags & E & Hl & Hp & Hw).
  - destruct (Z.to_nat n) eqn:E; [lia|done].
  - by apply Forall_replicate.
  - exists bags. rewrite contents_empty in Hp. rewrite length_replicate in Hl.
    split_and!; auto. lia.
Qed.

(** C10. For a positive number of bags [knapsack] returns that many bags, their
    items together are the given items, each once, and the recorded weight of
    every bag is the sum of the weights of its items; with no bag to fill, a
    non-empty list of items raises IndexError. *)
Theorem knapsack_partition {A W} `{Weight W} (items : list (A * W)) (n : Z) :
  (0 < n -> exists bags, knapsack items n = Ok bags /\ Z.of_nat (length bags) = n /\
      Permutation (contents bags) items /\ Forall weighs bags) /\
  (n <= 0 -> items <> [] -> knapsack items n = Raise IndexError).
Proof.
  split; [apply knapsack_ok|]. intros Hn Hi. unfold knapsack.
  replace (Z.to_nat n) with 0%nat by lia. by destruct items.
Qed.

Lemma knapsack_partition_witness :
  exists bags, knapsack [($"foo", float_of_Z 1); ($"bar", float_of_Z 2)] 2 = Ok bags /\
    Z.of_nat (length bags) = 2 /\
    Permutation (contents bags) [($"foo", float_of_Z 1); ($"bar", float_of_Z 2)] /\
    Forall weighs bags.
Proof.
  apply (proj1 (knapsack_partition [($"foo", float_of_Z 1); ($"bar", float_of_Z 2)] 2)). lia.
Defined.

(** *** Balance, for exact weights *)

Section Balance.
Context {A : Type}.
Implicit Types bags : list (Bag A Z).

Definition load (b : Bag A Z) : Z := total_weight b.

Definition is_min (bags : list (Bag A Z)) (w : Z) : Prop := Forall (fun b => w <= load b) bags.

Lemma min_scan_min i w idx bags pre :
  (forall b, pre !! i = Some b -> load b = w) -> is_min pre w -> length pre = S idx ->
  (i < length pre)%nat ->
  exists b, (pre ++ bags) !! min_scan i w idx bags = Some b /\ is_min (pre ++ bags) (load b).
Proof.
  revert i w idx pre. induction bags as [|b bags IH]; intros i w idx pre Hi Hm Hl Hlt; cbn.
  - apply lookup_lt_is_Some_2 in Hlt as [b Hb]. exists b. rewrite app_nil_r. split; [done|].
    by rewrite (Hi b Hb).
  - replace (pre ++ b :: bags) with ((pre ++ [b]) ++ bags) by by rewrite <- app_assoc.
    destruct (Z.ltb_spec (total_weight b) w) as [Hb|Hb].
    + apply IH; rewrite ?length_app; cbn; try lia.
      * intros b'. rewrite lookup_app_r by lia. replace (idx + 1 - length pre)%nat with 0%nat by lia.
        by intros [= <-].
      * apply Forall_app. split; [|by repeat constructor].
        eapply Forall_impl; [exact Hm|]. cbn. intros x Hx. unfold load in *. lia.
    + apply IH; rewrite ?length_app; cbn; try lia.
      * intros b'. rewrite lookup_app_l by lia. auto.
      * apply Forall_app. split; [done|]. repeat constructor. done.
Qed.

(** Some item of the bag is what makes it heavier than the others. *)
Definition justified (bags : list (Bag A Z)) (b : Bag A Z) : Prop :=
  (bag_items b = [] /\ load b = 0) \/
  exists w, w ∈ map snd (bag_items b) /\ is_min bags (load b - w).

Lemma is_min_alter bags i item w m :
  0 <= w -> is_min bags m -> is_min (alter (put_in item w) i bags) m.
Proof.
  intros Hw Hm. revert i. induction Hm as [|b bags Hb Hm IH]; intros [|i]; cbn; constructor; auto.
  - unfold load in *. cbn. lia.
  - by apply IH.
Qed.

Lemma knapsack_step_justified bags iw bags' :
  0 <= iw.2 -> bags <> [] -> Forall (justified bags) bags -> knapsack_step bags iw = Ok bags' ->
  Forall (justified bags') bags'.
Proof.
  intros Hw Hne Hj E. destruct (knapsack_step_ok bags iw Hne) as (i & b & b1 & Hb & Hi & E' & ->).
  rewrite E' in E. injection E as <-.
  assert (Hmin : is_min bags (load b)).
  { destruct bags as [|b0 rest]; [done|]. cbn in Hi.
    destruct (min_scan_min 0 (total_weight b0) 0 rest [b0]) as (b2 & Hb2 & Hm); [..|cbn; lia|].
    - by intros b2 [= <-].
    - repeat constructor. unfold load. lia.
    - done.
    - cbn [app] in *. change Z.ltb with (@wltb Z _) in *. rewrite <- Hi, Hb in Hb2. by simplify_eq. }
  apply Forall_lookup. intros j c Hc. destruct (decide (i = j)) as [<-|Hij].
  - rewrite list_lookup_alter_eq, Hb in Hc. injection Hc as <-. right. exists iw.2. split.
    + cbn. rewrite map_app. apply elem_of_app. right. by apply list_elem_of_singleton.
    + unfold load at 1. cbn. replace (total_weight b + iw.2 - iw.2) with (load b) by (unfold load; lia).
      by apply is_min_alter.
  - rewrite list_lookup_alter_ne in Hc by done.
    pose proof (proj1 (Forall_lookup _ _) Hj j c Hc) as [?|(w & Hin & Hm)]; [by left|].
    right. exists w. split; [done|]. by apply is_min_alter.
Qed.

Lemma knapsack_loop_justified items : forall bags bags',
  Forall (fun iw => 0 <= iw.2) items -> bags <> [] -> Forall (justified bags) bags ->
  knapsack_loop bags items = Ok bags' -> Forall (justified bags') bags'.
Proof.
  induction items as [|iw items IH]; intros bags bags' Hf Hne Hj E; cbn in E; [by simplify_eq|].
  apply bind_ok in E as (b1 & E1 & E). apply (List.Forall_cons_iff) in Hf as [Hw Hf].
  eapply (IH b1); [done| |by eapply knapsack_step_justified|done].
  destruct (knapsack_step_ok bags iw Hne) as (i & ? & ? & ? & _ & E2 & ->).
  rewrite E2 in E1. injection E1 as <-. intros E3. apply (f_equal length) in E3.
  rewrite length_alter in E3. by destruct bags.
Qed.

Lemma knapsack_justified (items : list (A * Z)) n bags :
  Forall (fun iw => 0 <= iw.2) items -> 0 < n -> knapsack items n = Ok bags ->
  Forall (justified bags) bags.
Proof.
  intros Hf Hn. apply knapsack_loop_justified; [done| |].
  - destruct (Z.to_nat n) eqn:E; [lia|done].
  - apply Forall_replicate. by left.
Qed.

(** The sum of all weights. *)
Definition Zsum (l : list Z) : Z := foldr Z.add 0 l.

Lemma Zsum_app l1 l2 : Zsum (l1 ++ l2) = Zsum l1 + Zsum l2.
Proof. unfold Zsum. induction l1; cbn; lia. Qed.

Lemma Zsum_perm l1 l2 : Permutation l1 l2 -> Zsum l1 = Zsum l2.
Proof. unfold Zsum. induction 1; cbn; lia. Qed.

Lemma fold_left_Zsum l x : fold_left Z.add l x = x + Zsum l.
Proof. revert x. induction l as [|y l IH]; intros x; cbn; [lia|]. rewrite IH. unfold Zsum. lia. Qed.

Lemma Zsum_loads bags :
  Forall weighs bags -> Zsum (map load bags) = Zsum (map snd (contents bags)).
Proof.
  unfold contents. induction 1 as [|b bags Hb Hf IH]; cbn; [done|].
  rewrite map_app, Zsum_app, <- IH. f_equal. unfold load. rewrite Hb.
  exact (fold_left_Zsum (map snd (bag_items b)) 0).
Qed.

Lemma sum_lower bags m : is_min bags m -> Z.of_nat (length bags) * m <= Zsum (map load bags).
Proof. induction 1 as [|b bags Hb Hf IH]; cbn [length map Zsum foldr]; [lia|]. unfold Zsum in IH. lia. Qed.

Lemma sum_lower_one bags m i b :
  is_min bags m -> bags !! i = Some b ->
  load b + (Z.of_nat (length bags) - 1) * m <= Zsum (map load bags).
Proof.
  intros Hm. revert i. induction Hm as [|c bags Hc Hm IH]; intros [|i] Hi; cbn in Hi; simplify_eq.
  - pose proof (sum_lower bags m Hm) as Hl. cbn [length map Zsum foldr]. unfold Zsum in Hl. lia.
  - specialize (IH i Hi). cbn [length map Zsum foldr]. unfold Zsum in IH. lia.
Qed.

Lemma Zsum_nonneg l : Forall (fun w => 0 <= w) l -> 0 <= Zsum l.
Proof. unfold Zsum. induction 1; cbn; lia. Qed.

Lemma in_contents bags b x : b ∈ bags -> x ∈ bag_items b -> x ∈ contents bags.
Proof.
  rewrite !list_elem_of_In. intros Hb Hx. apply in_concat. exists (bag_items b).
  split; [by apply in_map|done].
Qed.

(** A bag is at most the largest weight above any other. *)
Lemma justified_max bags wmax b :
  Forall weighs bags -> Forall (justified bags) bags -> 0 <= wmax ->
  (forall x, x ∈ contents bags -> 0 <= x.2 <= wmax) -> b ∈ bags -> is_min bags (load b - wmax).
Proof.
  intros Hw Hj Hmax Hx Hb. pose proof (proj1 (List.Forall_forall _ _) Hj b (proj1 (list_elem_of_In _ _) Hb))
    as [[Hi H0]|(w & Hin & Hm)].
  - apply List.Forall_forall. intros c Hc. rewrite H0. apply Z.le_trans with 0; [lia|].
    unfold load. rewrite (proj1 (List.Forall_forall _ _) Hw c Hc).
    change (0 <= fold_left Z.add (map snd (bag_items c)) 0). rewrite fold_left_Zsum.
    apply Zsum_nonneg, List.Forall_forall. intros w (x & <- & Hin)%in_map_iff.
    apply Hx. eapply in_contents; apply list_elem_of_In; eauto.
  - eapply Forall_impl; [exact Hm|]. cbn. intros c Hc.
    apply list_elem_of_In, in_map_iff in Hin as (x & <- & Hin).
    assert (x.2 <= wmax); [|lia]. apply Hx. eapply in_contents; [done|]. by apply list_elem_of_In.
Qed.
End Balance.

(** C26. With exact non-negative weights the greedy distribution is balanced: the
    loads of two bags differ by at most the largest weight, and no bag exceeds
    the mean load by more than (1 - 1/n) of the largest weight (Graham's
    bound). *)
Theorem knapsack_balanced {A} (items : list (A * Z)) (n wmax : Z) (bags : list (Bag A Z)) :
  0 < n -> Forall (fun iw => 0 <= iw.2 <= wmax) items -> 0 <= wmax ->
  knapsack items n = Ok bags ->
  (forall b c, b ∈ bags -> c ∈ bags -> load b - load c <= wmax) /\
  (forall b, b ∈ bags -> n * load b <= Zsum (map snd items) + (n - 1) * wmax).
Proof.
  intros Hn Hf Hmax E.
  assert (Hj : Forall (justified bags) bags).
  { eapply knapsack_justified; [|done|done]. eapply Forall_impl; [exact Hf|]. cbn. lia. }
  destruct (knapsack_ok items n Hn) as (bags' & E' & Hl & Hp & Hw). rewrite E in E'.
  injection E' as <-.
  assert (Hb : forall b, b ∈ bags -> is_min bags (load b - wmax)).
  { intros b. apply justified_max; auto. intros x Hx. rewrite Hp in Hx.
    apply list_elem_of_In in Hx. by apply (proj1 (List.Forall_forall _ _) Hf). }
  split.
  - intros b c Hb1 Hc. pose proof (proj1 (List.Forall_forall _ _) (Hb b Hb1) c) as H1.
    cbn in H1. apply list_elem_of_In in Hc. specialize (H1 Hc). lia.
  - intros b Hb1. pose proof (Hb b Hb1) as Hm. apply list_elem_of_lookup in Hb1 as [i Hi].
    pose proof (sum_lower_one bags _ i b Hm Hi) as Hs.
    rewrite (Zsum_loads bags Hw), (Zsum_perm _ _ (Permutation_map snd Hp)), Hl in Hs. nia.
Qed.

Lemma knapsack_balanced_witness :
  exists bags, knapsack [($"foo", 3); ($"bar", 2); ($"baz", 2)] 2 = Ok bags /\
    forall b c, b ∈ bags -> c ∈ bags -> load b - load c <= 3.
Proof.
  eexists. split; [vm_compute; reflexivity|].
  apply (knapsack_balanced [($"foo", 3); ($"bar", 2); ($"baz", 2)] 2 3); [lia| |lia|vm_compute; reflexivity].
  repeat constructor; cbn; lia.
Defined.

(** ** The selection of the jobs partitions the tests *)

Lemma insert_desc_perm x l : Permutation (insert_desc x l) (x :: l).
Proof.
  induction l as [|y l IH]; cbn; [done|]. case_match; [done|]. rewrite IH. constructor.
Qed.

Lemma sort_desc_perm l : Permutation (sort_desc l) l.
Proof.
  unfold sort_desc. induction l as [|x l IH] using rev_ind; [done|].
  rewrite fold_left_app. cbn. rewrite insert_desc_perm, IH. apply Permutation_cons_append.
Qed.

Lemma bags_rev_values bags k j :
  dget k (bags_rev bags) = Some j -> 0 <= j < Z.of_nat (length bags).
Proof.
  intros H%dget_dict_of. apply list_elem_of_In, in_flat_map in H as ([i b] & Hi & Hj).
  apply list_elem_of_In, elem_of_lookup_imap in Hi as (i' & b' & [= <- <-] & Hb).
  apply in_map_iff in Hj as (cw & [= <- <-] & _). apply lookup_lt_Some in Hb. lia.
Qed.

Lemma bags_rev_keys bags k : k ∈ map fst (contents bags) -> k ∈ dkeys (bags_rev bags).
Proof.
  intros H. apply dkeys_dict_of. apply list_elem_of_In, in_map_iff in H as (cw & <- & Hc).
  apply in_concat in Hc as (l & Hl & Hc). apply in_map_iff in Hl as (b & <- & Hb).
  apply list_elem_of_In, list_elem_of_lookup in Hb as [i Hi].
  apply list_elem_of_In, in_map_iff. exists (cw.1, Z.of_nat i). split; [done|].
  apply in_flat_map. exists (i, b). split.
  - apply list_elem_of_In, elem_of_lookup_imap. eauto.
  - apply in_map_iff. by exists cw.
Qed.

(** Filtering by a value below [n], for each value below [n]. *)
Lemma filter_partition {B} (f : B -> Z) l n :
  (forall x, x ∈ l -> 0 <= f x < Z.of_nat n) ->
  Permutation (concat (map (fun j => filter (fun x => f x = Z.of_nat j) l) (seq 0 n))) l.
Proof.
  assert (Hnil : forall (ks : list nat), concat (map (fun j => filter (fun x => f x = Z.of_nat j) []) ks) = []).
  { intros ks. by induction ks. }
  assert (Hcons : forall x l (ks : list nat) i, f x = Z.of_nat i -> i ∈ ks -> base.NoDup ks ->
    Permutation (concat (map (fun j => filter (fun x => f x = Z.of_nat j) (x :: l)) ks))
                (x :: concat (map (fun j => filter (fun x => f x = Z.of_nat j) l) ks))).
  { clear. intros x l ks i Hx. induction ks as [|k ks IH]; [by intros ?%elem_of_nil|].
    intros Hin [Hk Hnd]%NoDup_cons. cbn [map concat].
    destruct (decide (i = k)) as [->|Hne].
    - rewrite filter_cons_True by done. cbn. constructor. apply Permutation_app_head.
      match goal with |- Permutation (concat ?a) (concat ?b) => replace b with a; [done|] end.
      apply map_ext_in. intros a Ha. cbv beta. rewrite decide_False; [done|].
      intros E. rewrite Hx in E. apply Hk. replace k with a by lia. by apply list_elem_of_In.
    - rewrite filter_cons_False by (rewrite Hx; intros E; apply Hne; lia).
      apply elem_of_cons in Hin as [Hin|Hin]; [done|].
      rewrite IH by done. apply Permutation_sym, Permutation_middle. }
  induction l as [|x l IH]; intros Hf; [by rewrite Hnil|].
  assert (Hx : 0 <= f x < Z.of_nat n) by (apply Hf, elem_of_cons; by left).
  rewrite (Hcons x l (seq 0 n) (Z.to_nat (f x))); [|lia| |apply NoDup_seq].
  - constructor. apply IH. intros y Hy. apply Hf, elem_of_cons; by right.
  - apply list_elem_of_In, in_seq. lia.
Qed.

Section Selection.
Context (mangle_test_address : str -> list str) {Item : Type} (nodeid : Item -> str).

Abbreviation class_of := (item_class mangle_test_address nodeid).
Abbreviation selection := (job_selection mangle_test_address nodeid).

(** The job of a class: what [jobs_bags_rev] holds for it. *)
Lemma filter_items_ok (rev_ : list (str * Z)) j items :
  (forall x, x ∈ items -> is_Some (dget (class_of x) rev_)) ->
  filter_items (select mangle_test_address nodeid rev_ j) items
  = Ok (filter (fun x => default (-1) (dget (class_of x) rev_) = j) items).
Proof.
  induction items as [|x items IH]; intros Hs; [done|]. cbn [filter_items].
  destruct (Hs x) as [v Hv]; [apply elem_of_cons; by left|].
  assert (Hx : select mangle_test_address nodeid rev_ j x = Ok (j =? v)) by (unfold select; by rewrite Hv).
  rewrite Hx. cbn [mbind res_bind]. rewrite IH by (intros y Hy; apply Hs, elem_of_cons; by right).
  cbn [mbind res_bind]. destruct (Z.eqb_spec j v) as [->|Hne].
  - by rewrite filter_cons_True by (by rewrite Hv).
  - rewrite filter_cons_False; [done|]. rewrite Hv. cbn. congruence.
Qed.

Lemma job_selection_ok prev items n : 0 < n ->
  exists assign : str -> Z,
    (forall x, x ∈ items -> 0 <= assign (class_of x) < n) /\
    forall j t, exists t', selection prev n j false items t
      = (Ok (), filter (fun x => assign (class_of x) = j) items, t').
Proof.
  intros Hn.
  destruct (knapsack_ok (sort_desc (timings_of mangle_test_address nodeid items prev)) n Hn)
    as (bags & E & Hl & Hp & _).
  assert (Hs : forall x, x ∈ items -> is_Some (dget (class_of x) (bags_rev bags))).
  { intros x Hx. apply dget_is_Some, bags_rev_keys. rewrite Hp, sort_desc_perm.
    apply (dkeys_dict_of _ (class_of x)). rewrite map_map. apply list_elem_of_In, in_map_iff.
    exists x. split; [done|]. by apply list_elem_of_In. }
  exists (fun c => default (-1) (dget c (bags_rev bags))). split.
  - intros x Hx. destruct (Hs x Hx) as [v Hv]. rewrite Hv. cbn.
    apply bags_rev_values in Hv. lia.
  - intros j t. unfold job_selection. m_run. rewrite E, filter_items_ok by done.
    case_match; eauto.
Qed.

(** C1. For a positive number of jobs the selection never fails: every job j
    keeps, in their order, the tests whose class the batching assigned to j;
    all tests of a class go to the same job and each test is run by exactly one
    of the jobs, whatever timings the previous report gave. *)
Theorem job_selection_partition (prev : list (str * float)) (items : list Item) (n : Z) (t : trace) :
  0 < n ->
  exists assign : str -> Z,
    (forall x, x ∈ items -> 0 <= assign (class_of x) < n) /\
    (forall j, (selection prev n j false items t).1
      = (Ok (), filter (fun x => assign (class_of x) = j) items)) /\
    Permutation
      (concat (map (fun j => (selection prev n (Z.of_nat j) false items t).1.2) (seq 0 (Z.to_nat n))))
      items.
Proof.
  intros Hn. destruct (job_selection_ok prev items n Hn) as (assign & Ha & Hj).
  exists assign. split; [done|]. split.
  - intros j. by destruct (Hj j t) as [t' ->].
  - etransitivity; [|apply (filter_partition (fun x => assign (class_of x)) items (Z.to_nat n));
      intros x Hx; specialize (Ha x Hx); lia].
    erewrite map_ext; [reflexivity|]. intros j. by destruct (Hj (Z.of_nat j) t) as [t' ->].
Qed.
End Selection.

Lemma job_selection_partition_witness :
  exists assign : str -> Z,
    (forall x, x ∈ [$"a.T.f"; $"b.U.g"] -> 0 <= assign (item_class (split_on 46) id x) < 2) /\
    (forall j, (job_selection (split_on 46) id [] 2 j false [$"a.T.f"; $"b.U.g"] []).1
      = (Ok (), filter (fun x => assign (item_class (split_on 46) id x) = j) [$"a.T.f"; $"b.U.g"])) /\
    Permutation
      (concat (map (fun j => (job_selection (split_on 46) id [] 2 (Z.of_nat j) false
         [$"a.T.f"; $"b.U.g"] []).1.2) (seq 0 2)))
      [$"a.T.f"; $"b.U.g"].
Proof.
  exact (job_selection_partition (split_on 46) id [] [$"a.T.f"; $"b.U.g"] 2 []
    (eq_refl : 0 < 2)).
Defined.

(** ** The [--job] option *)

Section Options.
Context {U : UCD} {o : OS} (mangle_test_address : str -> list str)
        (et_parse : trace -> str -> res Element) (element_repr : Element -> str)
        {Item : Type} (nodeid : Item -> str).

Abbreviation modifyitems :=
  (pytest_collection_modifyitems mangle_test_address et_parse element_repr nodeid).

(** [j/n] followed by anything matches, with the two numbers as groups. *)
Lemma job_option_match j n rest :
  0 <= j -> 0 <= n -> stops is_decimal rest ->
  exists m, job_option (str_int j +:+ $"/" +:+ str_int n +:+ rest) = Ok m /\
    int_group 1 m = Ok j /\ int_group 2 m = Ok n /\
    group0 m = str_int j +:+ $"/" +:+ str_int n.
Proof.
  intros Hj Hn Hr. unfold job_option, regex_option_type, re_match.
  set (s := str_int j +:+ $"/" +:+ str_int n +:+ rest).
  pose (s1 := skip (str_int j) ($"/" +:+ str_int n +:+ rest) (start s)).
  pose (s2 := advance 47 (str_int n +:+ rest) (capture 1 (start s) s1)).
  pose (s3 := skip (str_int n) rest s2).
  assert (E : match_here false job_pattern (start s) = Some (capture 2 s2 s3)).
  { unfold match_here, job_pattern. cbn [rseqs mt].
    eapply mt_plus_run; [reflexivity|apply str_int_nonempty|by apply str_int_decimal|done|].
    fold s1. change (after (capture 1 (start s) s1)) with ($"/" +:+ str_int n +:+ rest).
    change ($"/" +:+ str_int n +:+ rest) with (47%N :: str_int n +:+ rest).
    cbn [ch mt]. change (after (capture 1 (start s) s1)) with (47%N :: str_int n +:+ rest).
    cbv iota. fold s2. cbn [N.eqb Pos.eqb].
    eapply mt_plus_run; [reflexivity|apply str_int_nonempty|by apply str_int_decimal|done|].
    done. }
  rewrite E. eexists. split; [reflexivity|].
  assert (B1 : between (start s) s1 = str_int j) by (by apply between_consumes).
  assert (B2 : between s2 s3 = str_int n) by (by apply between_consumes).
  unfold int_group, group. cbn [m_end caps capture s3 s2 s1 skip advance start assoc_nat Nat.eqb].
  fold s1 s2 s3. rewrite B1, B2. cbn [or_raise mbind res_bind]. rewrite !parse_int_str_int.
  split_and!; [done..|]. unfold group0. apply between_consumes.
  cbn [m_start m_end after capture]. unfold s. rewrite <- !app_assoc. done.
Qed.

(** The [--job] argument j/n, for naturals written in decimal: the option is
    accepted; the plugin exits with "Cannot run 0 jobs" if n is 0 and with "Job
    index out of bounds" if j is 0 or exceeds n, leaving the tests alone;
    otherwise it selects job j - 1 of n.  What follows the second number in the
    argument is ignored. *)
Theorem job_option_range (j n : Z) (rest : str) (items : list Item) (t : trace) :
  0 <= j -> 0 <= n -> stops is_decimal rest ->
  exists m, job_option (str_int j +:+ $"/" +:+ str_int n +:+ rest) = Ok m /\
    let cfg := str_int j +:+ $"/" +:+ str_int n in
    (n = 0 -> modifyitems (Some m) None false items t
              = (Raise (PytestExit ($"Cannot run 0 jobs (--job-config " +:+ cfg +:+ $")")), items, t)) /\
    (0 < n -> ~ 1 <= j <= n -> modifyitems (Some m) None false items t
              = (Raise (PytestExit ($"Job index out of bounds (--job-config " +:+ cfg +:+ $")")), items, t)) /\
    (1 <= j <= n -> exists t', modifyitems (Some m) None false items t
              = job_selection mangle_test_address nodeid [] n (j - 1) false items (t ++ t')).
Proof.
  intros Hj Hn Hr. destruct (job_option_match j n rest Hj Hn Hr) as (m & E & E1 & E2 & E0).
  exists m. split; [done|]. cbv zeta. unfold pytest_collection_modifyitems.
  rewrite E1, E2, E0. m_run. split_and!.
  - intros ->. done.
  - intros Hn' Hjn. rewrite (proj2 (Z.leb_gt n 0)) by done.
    replace ((j - 1 <? 0) || (n <=? j - 1)) with true by lia. done.
  - intros Hjn. rewrite (proj2 (Z.leb_gt n 0)) by lia.
    replace ((j - 1 <? 0) || (n <=? j - 1)) with false by lia. eexists. reflexivity.
Qed.
End Options.

Lemma job_option_range_witness :
  exists m, job_option (U := ascii_only_ucd) (str_int 3 +:+ $"/" +:+ str_int 2 +:+ $"x") = Ok m /\
    pytest_collection_modifyitems (U := ascii_only_ucd) (o := no_os) (split_on 46)
      (fun _ _ => Raise OSError) (fun _ => []) id (Some m) None false [$"a.T.f"] []
    = (Raise (PytestExit $"Job index out of bounds (--job-config 3/2)"), [$"a.T.f"], []).
Proof.
  destruct (job_option_range (U := ascii_only_ucd) (o := no_os) (split_on 46)
      (fun _ _ => Raise OSError) (fun _ => []) id 3 2 $"x" [$"a.T.f"] [])
    as (m & E & _ & H & _); [lia|lia|reflexivity|].
  exists m. split; [exact E|]. apply H; lia.
Defined.
