(* ===== verification/ClientOutput.v ===== *)
(** * Structured client output (tests_python/client/client_output.py)

    The result classes that parse what tezos-client prints.  A class becomes a
    record of its attributes, its constructor the function [X_init] from the
    output to the record or the exception raised.  The patterns are those of the
    source, as [regex] values. *)

From Stdlib Require Import ZArith Lia.
From stdpp Require Import base tactics list strings numbers.
From S2P Require Import Prelude PyStr PyExc PyRe PyDict PyFloat PyJson.

Local Open Scope Z_scope.
Local Open Scope py_scope.

Definition sp : N := 32%N.
Definition quote : N := 39%N.

Section Parsers.
Context {U : UCD}.

(** [match = re.search(pattern, client_output)], the exception when there is no
    match, and [match.groups()[0]]: the first group of every pattern below takes
    part in each of its matches. *)
Definition first_group (m : mobj) : str := default [] (group 1 m).

Definition search_or_invalid (pattern : regex) (client_output : str) : res str :=
  match re_search pattern client_output with
  | None => Raise (InvalidClientOutput client_output)
  | Some m => Ok (first_group m)
  end.

Definition search_opt (pattern : regex) (client_output : str) : option str :=
  first_group <$> re_search pattern client_output.

(** A literal, an optional character and the run of word characters after it:
    the shape of most patterns. *)
Definition word_after (literal : str) (c : N) : regex :=
  RSeq (rlit literal) (RSeq (ropt (ch c)) (RGroup 1 (rstar rw))).

Definition operation_hash_pattern : regex := word_after $"Operation hash is " quote.
Definition branch_pattern : regex := word_after $"--branch" sp.
Definition fee_pattern : regex := RSeq (rlit $"Fee to the baker: ꜩ") (RGroup 1 (rstar dot)).

Definition to_float (s : str) : res float := or_raise ValueError (parse_float s).

Record EndorseResult := { EndorseResult_operation_hash : str }.

Definition EndorseResult_init (client_output : str) : res EndorseResult :=
  h ← search_or_invalid operation_hash_pattern client_output;
  Ok {| EndorseResult_operation_hash := h |}.

Record RevealResult := { RevealResult_operation_hash : str; RevealResult_fees : float }.

Definition RevealResult_init (client_output : str) : res RevealResult :=
  h ← search_or_invalid operation_hash_pattern client_output;
  f ← search_or_invalid fee_pattern client_output;
  fees ← to_float f;
  Ok {| RevealResult_operation_hash := h; RevealResult_fees := fees |}.

Record TransferResult := {
  TransferResult_client_output : str;
  TransferResult_operation_hash : str;
  TransferResult_branch_hash : option str;
  TransferResult_fees : float }.

Definition TransferResult_init (client_output : str) : res TransferResult :=
  h ← search_or_invalid operation_hash_pattern client_output;
  let branch_hash := search_opt branch_pattern client_output in
  f ← search_or_invalid fee_pattern client_output;
  fees ← to_float f;
  Ok {| TransferResult_client_output := client_output; TransferResult_operation_hash := h;
        TransferResult_branch_hash := branch_hash; TransferResult_fees := fees |}.

Definition found_in_block_pattern : regex :=
  RSeq (rlit $"Operation found in block:") (RSeq (ropt (ch sp)) (RSeq (RGroup 1 (rstar rw)) (ch sp))).

Record GetReceiptResult := { GetReceiptResult_block_hash : option str }.

Definition GetReceiptResult_init (client_output : str) : res GetReceiptResult :=
  if bool_decide (client_output = $"Couldn't find operation" +:+ [nl]) then
    Ok {| GetReceiptResult_block_hash := None |}
  else
    h ← search_or_invalid found_in_block_pattern client_output;
    Ok {| GetReceiptResult_block_hash := Some h |}.

Record GetAddressesResult := { GetAddressesResult_wallet : list (str * str) }.

Definition address_line_pattern : regex :=
  rseqs [RBol; RGroup 1 (rplus rw); ch 58; rstar rs; RGroup 2 (rplus rw); rstar dot; REol].

Definition GetAddressesResult_init (client_output : str) : res GetAddressesResult :=
  Ok {| GetAddressesResult_wallet :=
          dict_of (map (fun m => (first_group m, default [] (group 2 m)))
                     (re_finditer address_line_pattern client_output)) |}.

Record RunScriptResult := {
  RunScriptResult_storage : str;
  RunScriptResult_internal_operations : option str;
  RunScriptResult_big_map_diff : list (list str);
  RunScriptResult_client_output : str }.

Definition storage_pattern : regex :=
  rseqs [rlit ($"storage" +:+ [nl]); rstar rs; RGroup 1 (rstar anychar);
         rlit ([nl] +:+ $"emitted operations" +:+ [nl])].

Definition emitted_pattern : regex :=
  rseqs [rlit ($"emitted operations" +:+ [nl]); rstar rs; RGroup 1 (rstar anychar);
         rlit ([nl] +:+ $"  big_map diff")].

Definition big_map_pattern : regex := rlit ($"big_map diff" +:+ [nl]).

Definition diff_line_pattern : regex :=
  rseqs [rlit $"  ";
         RGroup 1 (RSeq (RGroup 2 (ralts [rlit $"New"; rlit $"Set"; rlit $"Del"; rlit $"Unset"])) (rlazy dot));
         ch nl].

Definition RunScriptResult_init (client_output : str) : res RunScriptResult :=
  storage ← search_or_invalid storage_pattern client_output;
  Ok {| RunScriptResult_storage := storage;
        RunScriptResult_internal_operations := search_opt emitted_pattern client_output;
        RunScriptResult_big_map_diff :=
          match re_search big_map_pattern client_output with
          | None => []
          | Some m => map (fun d => [first_group d])
                        (re_finditer_from diff_line_pattern (before (m_end m)) (after (m_end m)))
          end;
        RunScriptResult_client_output := client_output |}.

Record OriginationResult := {
  OriginationResult_contract : str;
  OriginationResult_operation_hash : str }.

Definition new_contract_pattern : regex :=
  rseqs [rlit $"New contract"; ropt (ch sp); RGroup 1 (rstar rw); rlit $" originated"].

(** The second [raise InvalidClientOutput] names the class, whose constructor
    needs an argument: what is raised is the TypeError of that call. *)
Definition OriginationResult_init (client_output : str) : res OriginationResult :=
  contract ← search_or_invalid new_contract_pattern client_output;
  match re_search operation_hash_pattern client_output with
  | None => Raise TypeError
  | Some m => Ok {| OriginationResult_contract := contract;
                    OriginationResult_operation_hash := first_group m |}
  end.

Record SubmitProposalsResult := { SubmitProposalsResult_operation_hash : str }.

Definition SubmitProposalsResult_init (client_output : str) : res SubmitProposalsResult :=
  h ← search_or_invalid operation_hash_pattern client_output;
  Ok {| SubmitProposalsResult_operation_hash := h |}.

Record BakeForResult := { BakeForResult_block_hash : str }.

Definition BakeForResult_init (client_output : str) : res BakeForResult :=
  h ← search_or_invalid (word_after $"Injected block" sp) client_output;
  Ok {| BakeForResult_block_hash := h |}.

(** No attribute is set, whether or not the pattern is found. *)
Definition ProposeForResult_init (client_output : str) : res () := Ok ().

Record ShowAddressResult := {
  ShowAddressResult_hash : str;
  ShowAddressResult_public_key : option str;
  ShowAddressResult_secret_key : option str }.

Definition words_after (literal : str) : regex :=
  rseqs [rlit literal; ropt (ch sp); RGroup 1 (rplus rw)].

Definition secret_key_pattern : regex :=
  rseqs [rlit $"Secret Key:"; ropt (ch sp); RGroup 1 (rseqs [rplus rw; ch 58; rplus rw])].

Definition ShowAddressResult_init (client_output : str) : res ShowAddressResult :=
  h ← search_or_invalid (words_after $"Hash:") client_output;
  Ok {| ShowAddressResult_hash := h;
        ShowAddressResult_public_key := search_opt (words_after $"Public Key:") client_output;
        ShowAddressResult_secret_key := search_opt secret_key_pattern client_output |}.

Record ActivationResult := { ActivationResult_block_hash : str }.

Definition ActivationResult_init (client_output : str) : res ActivationResult :=
  h ← search_or_invalid (word_after $"Injected" sp) client_output;
  Ok {| ActivationResult_block_hash := h |}.

Record WaitForResult := { WaitForResult_block_hash : str }.

Definition WaitForResult_init (client_output : str) : res WaitForResult :=
  h ← search_or_invalid found_in_block_pattern client_output;
  Ok {| WaitForResult_block_hash := h |}.

Record HashResult := {
  HashResult_packed : str; HashResult_hash : str; HashResult_blake2b : str;
  HashResult_sha256 : str; HashResult_sha512 : str }.

Definition hex_digit_class (c : N) : bool := ascii_digit c || in_range 97 102 c.

Definition hash_pattern : regex :=
  rseqs [rlit $"Raw packed data:"; ropt (ch sp); RGroup 1 (RSeq (rlit $"0x") (rstar (RChar hex_digit_class)));
         rlit ([nl] +:+ $"Script-expression-ID-Hash:"); ropt (ch sp); RGroup 2 (rstar rw);
         rlit ([nl] +:+ $"Raw Script-expression-ID-Hash:"); ropt (ch sp); RGroup 3 (rstar rw); ch nl;
         rstar dot;
         rlit ([nl] +:+ $"Raw Sha256 hash:"); ropt (ch sp); RGroup 4 (rstar rw);
         rlit ([nl] +:+ $"Raw Sha512 hash:"); ropt (ch sp); RGroup 5 (rstar rw)].

Definition HashResult_init (client_output : str) : res HashResult :=
  match re_search hash_pattern client_output with
  | None => Raise (InvalidClientOutput client_output)
  | Some m =>
      let g i := default [] (group i m) in
      Ok {| HashResult_packed := g 1%nat; HashResult_hash := g 2%nat; HashResult_blake2b := g 3%nat;
            HashResult_sha256 := g 4%nat; HashResult_sha512 := g 5%nat |}
  end.

Definition signature_pattern : regex :=
  rseqs [rlit $"Signature:"; ropt (ch sp); RGroup 1 (rstar rw); ch nl].

Record SignBytesResult := { SignBytesResult_signature : str }.

Definition SignBytesResult_init (client_output : str) : res SignBytesResult :=
  s ← search_or_invalid signature_pattern client_output;
  Ok {| SignBytesResult_signature := s |}.

Record SignMessageResult := { SignMessageResult_signature : str }.

Definition SignMessageResult_init (client_output : str) : res SignMessageResult :=
  s ← search_or_invalid signature_pattern client_output;
  Ok {| SignMessageResult_signature := s |}.

Record SetDelegateResult := {
  SetDelegateResult_operation_hash : str;
  SetDelegateResult_branch_hash : option str }.

Definition SetDelegateResult_init (client_output : str) : res SetDelegateResult :=
  h ← search_or_invalid operation_hash_pattern client_output;
  Ok {| SetDelegateResult_operation_hash := h;
        SetDelegateResult_branch_hash := search_opt branch_pattern client_output |}.

(** For the output [none] only [delegate] is set, the other attributes do not
    exist: [None] outside, the value of the attribute inside. *)
Record GetDelegateResult := {
  GetDelegateResult_delegate : option str;
  GetDelegateResult_address : option str;
  GetDelegateResult_alias : option (option str) }.

Definition delegate_pattern : regex :=
  RSeq (RGroup 1 (rplus rw))
       (rstar (RGroup 2 (rseqs [rlit $" (known as "; RGroup 3 (rplus rw); ch 41]))).

Definition GetDelegateResult_init (client_output : str) : res GetDelegateResult :=
  if bool_decide (client_output = $"none" +:+ [nl]) then
    Ok {| GetDelegateResult_delegate := None; GetDelegateResult_address := None;
          GetDelegateResult_alias := None |}
  else
    match re_search delegate_pattern client_output with
    | None => Raise (InvalidClientOutput client_output)
    | Some m =>
        Ok {| GetDelegateResult_delegate := Some (first_group m);
              GetDelegateResult_address := Some (first_group m);
              GetDelegateResult_alias := Some (group 3 m) |}
    end.

Record SaplingGenKeyResult := { SaplingGenKeyResult_mnemonic : list str }.

Definition mnemonic_pattern : regex :=
  rseqs [rlit ($"It is important to save this mnemonic in a secure place:" +:+ [nl; nl]);
         RGroup 1 (rplus (RChar (fun c => is_word c || is_space c)));
         rlit ([nl; nl] +:+ $"The mnemonic")].

Definition SaplingGenKeyResult_init (client_output : str) : res SaplingGenKeyResult :=
  s ← search_or_invalid mnemonic_pattern client_output;
  Ok {| SaplingGenKeyResult_mnemonic := split_ws s |}.

Record SaplingGenAddressResult := {
  SaplingGenAddressResult_address : str;
  SaplingGenAddressResult_index : Z }.

Definition address_pattern : regex :=
  rseqs [rlit ($"Generated address:" +:+ [nl]); RGroup 1 (rplus rw); ch nl].

Definition index_pattern : regex := RSeq (rlit $"at index ") (RGroup 1 (rplus rd)).

Definition SaplingGenAddressResult_init (client_output : str) : res SaplingGenAddressResult :=
  address ← search_or_invalid address_pattern client_output;
  i ← search_or_invalid index_pattern client_output;
  n ← or_raise ValueError (parse_int i);
  Ok {| SaplingGenAddressResult_address := address; SaplingGenAddressResult_index := n |}.

Record SaplingDeriveKeyResult := { SaplingDeriveKeyResult_path : str }.

Definition path_pattern : regex := RSeq (rlit $"with path ") (RGroup 1 (rplus rS)).

Definition SaplingDeriveKeyResult_init (client_output : str) : res SaplingDeriveKeyResult :=
  p ← search_or_invalid path_pattern client_output;
  Ok {| SaplingDeriveKeyResult_path := p |}.

Record SaplingGetBalanceResult := { SaplingGetBalanceResult_balance : float }.

Definition sapling_funds_pattern : regex :=
  RSeq (rlit $"Total Sapling funds ") (RGroup 1 (rplus (RChar (fun c => is_decimal c || (c =? 46)%N)))).

Definition SaplingGetBalanceResult_init (client_output : str) : res SaplingGetBalanceResult :=
  b ← search_or_invalid sapling_funds_pattern client_output;
  x ← to_float b;
  Ok {| SaplingGetBalanceResult_balance := x |}.

(** [except json.JSONDecodeError: raise InvalidClientOutput] *)
Definition extract_rpc_answer (client_output : str) : res json :=
  match loads client_output with
  | Raise JSONDecodeError => Raise (InvalidClientOutput client_output)
  | r => r
  end.

(** [except Exception: raise InvalidClientOutput] *)
Definition or_invalid {A} (client_output : str) (r : res A) : res A :=
  match r with
  | Ok a => Ok a
  | Raise _ => Raise (InvalidClientOutput client_output)
  end.

Definition word_dot (c : N) : bool := is_word c || (c =? 46)%N.

Definition balance_pattern : regex := RSeq (RGroup 1 (rstar (RChar word_dot))) (rlit $" ꜩ").

Definition extract_balance (client_output : str) : res float :=
  or_invalid client_output (
    b ← search_or_invalid balance_pattern client_output;
    to_float b).

Definition extract_protocols (client_output : str) : list str := split_ws client_output.

Definition environment_pattern : regex :=
  rseqs [rlit $"Protocol "; rstar rS; rlit $" uses environment "; RGroup 1 (RSeq (ch 86) rd)].

Definition extract_environment_protocol (client_output : str) : res str :=
  or_invalid client_output (search_or_invalid environment_pattern client_output).

(** ** p2p stat *)

Record PointInfo := {
  PointInfo_peer_id : option str;
  PointInfo_is_connected : bool;
  PointInfo_is_trusted : bool }.

Definition parse_peer (line : str) : res str := or_raise IndexError (split_ws line !! 2%nat).

Definition last_seen_or_id : regex :=
  RAlt (RSeq (rlit $"id") (rstar rw))
       (rseqs [rlit $"(last seen: id"; rstar rw; ch sp; rstar rS]).

Definition point_pattern : regex :=
  rseqs [RGroup 1 (RAlt (rlit $"⚏") (rlit $"⚌")); rlit $"  "; RGroup 2 (rstar rS); ropt rs;
         ropt (RGroup 3 last_seen_or_id); ch sp; ropt (RGroup 4 (rlit $"★"))].

Definition parse_point (line : str) : res (str * option str * bool * bool) :=
  match re_search point_pattern line with
  | None => Raise AssertionError
  | Some m =>
      let is_trusted := bool_decide (group 4 m = Some $"★") in
      let is_connected := bool_decide (group 1 m = Some $"⚌") in
      let point_id := default [] (group 2 m) in
      let peer_id :=
        match group 3 m with
        | Some p => if startswith $"(last seen: " p then Some (slice (Some 12) (Some 42) p) else Some p
        | None => None
        end in
      Ok (point_id, peer_id, is_connected, is_trusted)
  end.

(** [lines.index(x)] *)
Fixpoint list_index (x : str) (l : list str) : option Z :=
  match l with
  | [] => None
  | y :: r => if bool_decide (y = x) then Some 0 else Z.succ <$> list_index x r
  end.

Record P2pStatResult := {
  P2pStatResult_peers : list str;
  P2pStatResult_points : list (str * PointInfo) }.

Definition P2pStatResult_init (client_output : str) : res P2pStatResult :=
  let lines := splitlines client_output in
  j ← or_raise ValueError (list_index $"KNOWN PEERS" lines);
  k ← or_raise ValueError (list_index $"KNOWN POINTS" lines);
  peers ← mapM_res parse_peer (slice (Some (j + 1)) (Some k) lines);
  points ← mapM_res parse_point (slice (Some (k + 1)) None lines);
  Ok {| P2pStatResult_peers := peers;
        P2pStatResult_points :=
          dict_of (map (fun '(addr, peer_id, is_connected, is_trusted) =>
            (addr, {| PointInfo_peer_id := peer_id; PointInfo_is_connected := is_connected;
                      PointInfo_is_trusted := is_trusted |})) points) |}.

Record GetContractEntrypointTypeResult := { GetContractEntrypointTypeResult_entrypoint_type : str }.

Definition entrypoint_pattern : regex :=
  rseqs [rlit $"Entrypoint "; rlazy dot; rlit $": "; RGroup 1 (rstar dot); ch nl].

Definition GetContractEntrypointTypeResult_init (client_output : str) :
    res GetContractEntrypointTypeResult :=
  t ← search_or_invalid entrypoint_pattern client_output;
  Ok {| GetContractEntrypointTypeResult_entrypoint_type := t |}.

Record ListMockupProtocols := { ListMockupProtocols_mockup_protocols : list str }.

Definition word_line_pattern : regex := rseqs [RBol; RGroup 1 (rplus rw); REol].

Definition ListMockupProtocols_init (client_output : str) : res ListMockupProtocols :=
  Ok {| ListMockupProtocols_mockup_protocols :=
          map first_group (re_finditer word_line_pattern client_output) |}.

Inductive CreateMockupResult := ALREADY_INITIALIZED | DIR_NOT_EMPTY | OK.

Definition to_return_code (r : CreateMockupResult) : Z := match r with OK => 0 | _ => 1 end.

Record CreateMockup := {
  CreateMockup_client_stdout : str;
  CreateMockup_exit_code : Z;
  CreateMockup_create_mockup_result : option CreateMockupResult;
  CreateMockup_chain_id : option str }.

Definition chain_id_pattern : regex := RSeq (rlit $"Chain id is ") (RGroup 1 (rstar dot)).

Definition mockup_outputs (client_stdout client_stderr : str) : list (regex * str * CreateMockupResult) :=
  [ (rseqs [RBol; rlit $"  "; rplus rS; rlit $" is not empty, please specify a fresh base directory"; REol],
     client_stderr, DIR_NOT_EMPTY);
    (rseqs [RBol; rlit $"  "; rplus rS; rlit $" is already initialized as a mockup directory"; REol],
     client_stderr, ALREADY_INITIALIZED);
    (rseqs [RBol; rlit $"Created mockup client base dir in "; rplus rS; REol],
     client_stdout, OK) ].

Fixpoint mockup_loop (exit_code : Z) (outputs : list (regex * str * CreateMockupResult)) :
    res (option CreateMockupResult) :=
  match outputs with
  | [] => Ok None
  | (pattern, out_channel, result) :: rest =>
      match re_search pattern out_channel with
      | Some _ =>
          if negb (exit_code =? to_return_code result) then Raise (InvalidExitCode exit_code)
          else Ok (Some result)
      | None => mockup_loop exit_code rest
      end
  end.

Definition CreateMockup_init (client_stdout client_stderr : str) (exit_code : Z) : res CreateMockup :=
  r ← mockup_loop exit_code (mockup_outputs client_stdout client_stderr);
  Ok {| CreateMockup_client_stdout := client_stdout; CreateMockup_exit_code := exit_code;
        CreateMockup_create_mockup_result := r;
        CreateMockup_chain_id := search_opt chain_id_pattern client_stdout |}.

Record CheckSignMessageResult := { CheckSignMessageResult_check : bool }.

Definition check_pattern : regex :=
  rseqs [rlit $"Signature check successful"; rstar (ch sp); ch nl].

Definition CheckSignMessageResult_init (client_output : str) : res CheckSignMessageResult :=
  match re_search check_pattern client_output with
  | None => Raise (InvalidClientOutput client_output)
  | Some _ => Ok {| CheckSignMessageResult_check := true |}
  end.

Record ViewResult := { ViewResult_result : str }.

Definition ViewResult_init (client_output : str) : res ViewResult :=
  Ok {| ViewResult_result := client_output |}.

Record FA12CheckResult := { FA12CheckResult_check : bool }.

Definition fa12_yes_pattern : regex :=
  rseqs [rlit $"has an FA1"; dot; rlit $"2 interface"; dot].
Definition fa12_no_pattern : regex :=
  rseqs [rlit $"Not a supported FA1"; dot; rlit $"2 contract"; dot].

Definition FA12CheckResult_init (client_output : str) : res FA12CheckResult :=
  match re_search fa12_yes_pattern client_output with
  | None =>
      match re_search fa12_no_pattern client_output with
      | None => Raise (InvalidClientOutput client_output)
      | Some _ => Ok {| FA12CheckResult_check := false |}
      end
  | Some _ => Ok {| FA12CheckResult_check := true |}
  end.

Record FA12ViewResult := { FA12ViewResult_amount : Z }.

Definition FA12ViewResult_init (client_output : str) : res FA12ViewResult :=
  or_invalid client_output (
    s ← search_or_invalid (RGroup 1 (rstar (RChar word_dot))) client_output;
    n ← or_raise ValueError (parse_int s);
    Ok {| FA12ViewResult_amount := n |}).
End Parsers.

(** ** What the parsers read *)

Section Facts.
Context {U : UCD}.

(** The output shows the word [h] after the first occurrence of [w], separated
    from it by the character [c]. *)
Definition shows (w : str) (c : N) (h s : str) : Prop :=
  exists u v, s = u ++ w ++ c :: h ++ v /\ no_earlier w u (w ++ c :: h ++ v) = true /\
    Forall (fun x => is_word x = true) h /\ stops is_word v.

(** The output shows the rest [f] of the line after the first occurrence of [w]. *)
Definition shows_line (w f s : str) : Prop :=
  exists u v, s = u ++ w ++ f ++ v /\ no_earlier w u (w ++ f ++ v) = true /\
    Forall (fun x => negb (x =? nl)%N = true) f /\ stops (fun x => negb (x =? nl)%N) v.

Lemma first_group_capture s0 s s' :
  first_group (MObj s0 (capture 1 s s')) = between s s'.
Proof. done. Qed.

Lemma search_word_after w c h s : shows w c h s ->
  exists m, re_search (word_after w c) s = Some m /\ first_group m = h.
Proof.
  intros (u & v & -> & Hu & Hh & Hv).
  pose (s1 := St (rev w ++ rev u) (c :: h ++ v) []). pose (s2 := advance c (h ++ v) s1).
  eexists. split.
  - apply re_search_at_literal; [done|]. fold s1. unfold ropt, ch. cbn [mt].
    change (after s1) with (c :: h ++ v). cbv iota. rewrite N.eqb_refl. fold s2.
    assert (E : mt (rstar rw) s2 (fun s' => Some (capture 1 s2 s')) = Some (capture 1 s2 (skip h v s2))).
    { by apply (mt_star_run is_word s2 h v). }
    rewrite E. reflexivity.
  - rewrite first_group_capture. by apply between_consumes.
Qed.

Lemma search_line_after w f s : shows_line w f s ->
  exists m, re_search (RSeq (rlit w) (RGroup 1 (rstar dot))) s = Some m /\ first_group m = f.
Proof.
  intros (u & v & -> & Hu & Hf & Hv). pose (s1 := St (rev w ++ rev u) (f ++ v) []).
  eexists. split.
  - apply re_search_at_literal; [done|]. fold s1. cbn [mt].
    by apply (mt_star_run (fun x => negb (x =? nl)%N) s1 f v).
  - rewrite first_group_capture. by apply between_consumes.
Qed.

Lemma word_after_matches_empty c x : exists y, den (RSeq (ropt (ch c)) (RGroup 1 (rstar rw))) x y.
Proof.
  eexists. exists x. split; [by right|]. exists x. split; [constructor|reflexivity].
Qed.

Lemma word_after_None w c s : re_search (word_after w c) s = None <-> contains w s = false.
Proof. apply re_search_literal_iff. apply word_after_matches_empty. Qed.

Lemma fee_pattern_None s : re_search fee_pattern s = None <-> contains $"Fee to the baker: ꜩ" s = false.
Proof.
  apply re_search_literal_iff. intros x. eexists. exists x. split; [constructor|reflexivity].
Qed.

(** Reading a transfer back: if the client's output shows, at the first
    occurrence of their labels, an operation hash, a branch and a fee that is a
    decimal number, then the result object holds exactly these. *)
Theorem TransferResult_reads (s h b f : str) (x : float) :
  shows $"Operation hash is " quote h s -> shows $"--branch" sp b s ->
  shows_line $"Fee to the baker: ꜩ" f s -> parse_float f = Some x ->
  TransferResult_init s = Ok {| TransferResult_client_output := s; TransferResult_operation_hash := h;
    TransferResult_branch_hash := Some b; TransferResult_fees := x |}.
Proof.
  intros H1 H2 H3 Hx. apply search_word_after in H1 as (m1 & E1 & G1).
  apply search_word_after in H2 as (m2 & E2 & G2). apply search_line_after in H3 as (m3 & E3 & G3).
  unfold TransferResult_init, search_or_invalid, search_opt, to_float.
  unfold operation_hash_pattern, branch_pattern, fee_pattern. rewrite E1, E2, E3.
  cbn [mbind res_bind fmap option_fmap option_map]. rewrite G1, G2, G3, Hx. done.
Qed.

(** TransferResult raises InvalidClientOutput exactly for the outputs that
    lack the label of the operation hash or of the fee; in the others only the
    conversion of the fee can fail, with ValueError. *)
Theorem TransferResult_invalid (s : str) :
  (TransferResult_init s = Raise (InvalidClientOutput s) <->
    contains $"Operation hash is " s = false \/ contains $"Fee to the baker: ꜩ" s = false) /\
  (forall e, TransferResult_init s = Raise e -> e = InvalidClientOutput s \/ e = ValueError).
Proof.
  rewrite <- fee_pattern_None, <- (word_after_None _ quote).
  unfold TransferResult_init, search_or_invalid, operation_hash_pattern, to_float.
  destruct (re_search (word_after $"Operation hash is " quote) s) as [m1|];
    destruct (re_search fee_pattern s) as [m2|]; cbn [mbind res_bind].
  2-4: split; [split; auto|intros e [= <-]; auto].
  destruct (parse_float (first_group m2)); cbn [or_raise mbind res_bind];
    (split; [split; [done|intros [?|?]; done]|intros e [= <-]; auto]) || (split; [split; [done|intros [?|?]; done]|done]).
Qed.

(** When the output of an origination has the contract address but no
    operation hash, the constructor raises TypeError instead of the
    InvalidClientOutput its callers expect: the exception class is raised
    without its argument. *)
Theorem OriginationResult_missing_hash (s : str) :
  occurs new_contract_pattern s -> contains $"Operation hash is " s = false ->
  OriginationResult_init s = Raise TypeError.
Proof.
  intros Ho Hc. unfold OriginationResult_init, search_or_invalid.
  destruct (re_search new_contract_pattern s) as [m|] eqn:E; [|by apply re_search_None in E].
  apply (word_after_None _ quote) in Hc. cbn [mbind res_bind].
  unfold operation_hash_pattern. by rewrite Hc.
Qed.

Lemma loads_error s e : loads s = Raise e -> e = JSONDecodeError.
Proof. unfold loads. repeat case_match; congruence. Qed.

Lemma or_invalid_error {A} s (r : res A) e : or_invalid s r = Raise e -> e = InvalidClientOutput s.
Proof. destruct r; cbn; congruence. Qed.

(** The extraction functions signal unreadable output in one way only: with
    the InvalidClientOutput that carries the output. *)
Theorem extract_errors (s : str) (e : exc) :
  extract_rpc_answer s = Raise e \/ extract_balance s = Raise e \/
  extract_environment_protocol s = Raise e \/ FA12ViewResult_init s = Raise e ->
  e = InvalidClientOutput s.
Proof.
  intros [H|[H|[H|H]]]; [|by eapply or_invalid_error..].
  unfold extract_rpc_answer in H. destruct (loads s) as [j|e'] eqn:E; [done|].
  apply loads_error in E as ->. congruence.
Qed.

(** A mockup result and the exit code agree: whenever the constructor
    returns a result, the exit code is the one of that result, and it raises
    only InvalidExitCode with the exit code it was given. *)
Theorem CreateMockup_exit_code_agrees (out err : str) (code : Z) :
  (forall r k, CreateMockup_init out err code = Ok r ->
     CreateMockup_create_mockup_result r = Some k -> code = to_return_code k) /\
  (forall e, CreateMockup_init out err code = Raise e -> e = InvalidExitCode code).
Proof.
  assert (H : forall l, match mockup_loop code l with
    | Ok (Some k) => code = to_return_code k | Ok None => True | Raise e => e = InvalidExitCode code end).
  { induction l as [|[[p ch_] k] l IH]; cbn [mockup_loop]; [done|].
    destruct (re_search p ch_); [|done]. destruct (Z.eqb_spec code (to_return_code k)); done. }
  specialize (H (mockup_outputs out err)). unfold CreateMockup_init.
  destruct (mockup_loop code (mockup_outputs out err)) as [[k|]|e]; cbn [mbind res_bind];
    split; intros; simplify_eq/=; done.
Qed.

(** Reading a balance printed as a number followed by the symbol. *)
Lemma extract_balance_reads b x rest :
  Forall (fun c => word_dot c = true) b -> parse_float b = Some x ->
  extract_balance (b +:+ $" ꜩ" +:+ rest) = Ok x.
Proof.
  intros Hb Hx. unfold extract_balance, search_or_invalid.
  set (s := b +:+ $" ꜩ" +:+ rest). pose (s1 := skip b ($" ꜩ" +:+ rest) (start s)).
  assert (E : match_here false balance_pattern (start s)
    = Some (skip $" ꜩ" rest (capture 1 (start s) s1))).
  { unfold match_here, balance_pattern. cbn [mt].
    apply (mt_star_run word_dot (start s) b ($" ꜩ" +:+ rest)); [done|done|done|].
    cbn [andb]. by rewrite (mt_rlit $" ꜩ" _ rest). }
  assert (Es : re_search balance_pattern s
    = Some (MObj (start s) (skip $" ꜩ" rest (capture 1 (start s) s1)))).
  { unfold re_search, start in *. destruct s; cbn [search_at]; by rewrite E. }
  rewrite Es. cbn [mbind res_bind].
  assert (G : first_group (MObj (start s) (skip $" ꜩ" rest (capture 1 (start s) s1))) = b).
  { change (between (start s) s1 = b). by apply between_consumes. }
  rewrite G. unfold to_float. by rewrite Hx.
Qed.
End Facts.

(** ** Concrete outputs *)

Definition sample_transfer : str :=
  $"Node is bootstrapped." +:+ [nl] +:+ $"Operation hash is 'ooXyz12'" +:+ [nl]
  +:+ $"  tezos-client wait for ooXyz12 to be included --confirmations 5 --branch BLabc" +:+ [nl]
  +:+ $"    Fee to the baker: ꜩ0.5" +:+ [nl] +:+ $"    Storage limit: 0 bytes" +:+ [nl].

Lemma sample_shows :
  shows (U := ascii_only_ucd) $"Operation hash is " quote $"ooXyz12" sample_transfer /\
  shows (U := ascii_only_ucd) $"--branch" sp $"BLabc" sample_transfer /\
  shows_line $"Fee to the baker: ꜩ" $"0.5" sample_transfer.
Proof.
  split; [|split].
  - exists ($"Node is bootstrapped." +:+ [nl]), (drop 48 sample_transfer).
    split_and!; [vm_compute; reflexivity|vm_compute; reflexivity|repeat constructor|vm_compute; reflexivity].
  - exists (take 115 sample_transfer), (drop 129 sample_transfer).
    split_and!; [vm_compute; reflexivity|vm_compute; reflexivity|repeat constructor|vm_compute; reflexivity].
  - exists (take 134 sample_transfer), (drop 156 sample_transfer).
    split_and!; [vm_compute; reflexivity|vm_compute; reflexivity|repeat constructor|vm_compute; reflexivity].
Qed.

Lemma TransferResult_reads_witness :
  TransferResult_init (U := ascii_only_ucd) sample_transfer
  = Ok {| TransferResult_client_output := sample_transfer; TransferResult_operation_hash := $"ooXyz12";
          TransferResult_branch_hash := Some $"BLabc";
          TransferResult_fees := float_of_decimal 5 (-1) |}.
Proof.
  apply (TransferResult_reads (U := ascii_only_ucd) sample_transfer $"ooXyz12" $"BLabc" $"0.5");
    [apply sample_shows..|vm_compute; reflexivity].
Defined.

Lemma TransferResult_invalid_witness :
  TransferResult_init (U := ascii_only_ucd) $"Error" = Raise (InvalidClientOutput $"Error").
Proof.
  apply (proj1 (TransferResult_invalid (U := ascii_only_ucd) $"Error")). left. vm_compute. reflexivity.
Defined.

Lemma OriginationResult_missing_hash_witness :
  OriginationResult_init (U := ascii_only_ucd) $"New contract KT1 originated." = Raise TypeError.
Proof.
  apply (OriginationResult_missing_hash (U := ascii_only_ucd)); [|vm_compute; reflexivity].
  apply found_occurs. vm_compute. reflexivity.
Defined.

Lemma extract_errors_witness :
  exists e, extract_balance (U := ascii_only_ucd) $"x ꜩ" = Raise e /\ e = InvalidClientOutput $"x ꜩ".
Proof.
  eexists. split; [vm_compute; reflexivity|].
  apply (extract_errors (U := ascii_only_ucd) $"x ꜩ"). right. left. vm_compute. reflexivity.
Defined.

Lemma CreateMockup_exit_code_agrees_witness :
  CreateMockup_init (U := ascii_only_ucd) $"Created mockup client base dir in /tmp/m" [] 1
    = Raise (InvalidExitCode 1) /\ InvalidExitCode 1 = InvalidExitCode 1.
Proof.
  split; [vm_compute; reflexivity|].
  apply (proj2 (CreateMockup_exit_code_agrees (U := ascii_only_ucd)
    $"Created mockup client base dir in /tmp/m" [] 1)). vm_compute. reflexivity.
Defined.
