(* ===== verification/Daemons.v ===== *)
(** * Processes and daemons

    tests_python/process/process_utils.py and tests_python/daemons/: the wrapper
    of tezos-node, whose object keeps the state of the node directory and of the
    running process, and the baker, endorser and accuser, which are subclasses of
    Popen: the object is the process, here its pid. *)

From Stdlib Require Import ZArith Lia.
From stdpp Require Import base tactics list strings numbers.
From S2P Require Import Prelude PyStr PyExc PyDict PyFloat PyJson PyIO.

Local Open Scope Z_scope.
Local Open Scope py_scope.

(** ** process_utils *)

Definition esc : N := 27%N.

Definition format_command (cmd : list str) (color : bool) : str :=
  let color_code := esc :: $"[34m" in
  let endc := esc :: $"[0m" in
  let cmd_str := join $" " cmd in
  if color then color_code +:+ $"# " +:+ cmd_str +:+ endc else $"# " +:+ cmd_str.

Section ProcessUtils.
Context {S : Type} {o : OS}.

(** [if x:] on an optional string. *)
Definition truthy (x : option str) : option str :=
  match x with Some [] => None | _ => x end.

(** The pair (stdout, stderr) is determined by stdout: both go to the log, or
    both to DEVNULL. *)
Definition prepare_log (cmd : list str) (log_file : option str) (overwrite : bool) : M S target :=
  let cmd_str := format_command cmd false in
  match truthy log_file with
  | Some f =>
      let flag := if overwrite then $"w" else $"a+" in
      write_file f flag (cmd_str +:+ [nl]);;
      mret (LogFile f)
  | None => mret DevNull
  end.

Definition TERM_TIMEOUT : Z := 10.

(** [";".join(f'{key} -> {values}' for key, values in log_levels.items())] *)
Definition lwt_log (log_levels : list (str * str)) : str :=
  join $";" (map (fun '(key, values) => key +:+ $" -> " +:+ values) log_levels).

(** [subprocess.run(cmd, capture_output=True, text=True)]: output decoded with
    universal newlines. *)
Definition run_text (cmd : list str) : M S (str * str * Z) :=
  p ← communicate cmd None None;
  out ← lift (decode_utf8 (p_stdout p));
  err ← lift (decode_utf8 (p_stderr p));
  mret (universal_newlines out, universal_newlines err, p_returncode p).

Definition print_nonempty (s : str) (e : str -> event) : M S () :=
  when (negb (bool_decide (s = []))) (emit (e s)).

Definition _run_and_print (cmd : list str) : M S () :=
  print_ (format_command cmd true);;
  '(out, err, rc) ← run_text cmd;
  print_nonempty out EPrint;;
  print_nonempty err EPrintErr;;
  if negb (rc =? 0) then raise (CalledProcessError rc cmd out err) else mret ().
End ProcessUtils.

(** ** Node *)

Module Node.
Record Node := MkNode {
  config : option (list (str * json));
  log_file : option str;
  _temp_dir : bool;
  node_dir : str;
  p2p_port : Z;
  rpc_port : Z;
  expected_pow : float;
  node : str;
  _params : option (list str);
  _run_called_before : bool;
  use_tls : option (str * str);
  _new_env : option environ;
  _node_run : list str;
  _process : option Z }.

Section Node.
Context {o : OS}.

Definition sandbox_params (config : option (list (str * json))) (params : option (list str)) :
    option (list str) :=
  let has_network := match config with Some c => dmem $"network" c | None => false end in
  if has_network then params
  else match params with
       | None => Some [$"--network"; $"sandbox"]
       | Some ps => if bool_decide ($"--network" ∈ ps) then params
                    else Some (ps ++ [$"--network"; $"sandbox"])
       end.

Definition peer_args (peers : option (list Z)) : list str :=
  flat_map (fun peer => [$"--peer"; $"127.0.0.1:" +:+ str_int peer]) (default [] peers).

(** The arguments of the constructor. *)
Record args := MkArgs {
  a_node : str;
  a_config : option (list (str * json));
  a_expected_pow : float;
  a_node_dir : option str;
  a_use_tls : option (str * str);
  a_params : option (list str);
  a_log_file : option str;
  a_p2p_port : Z;
  a_rpc_port : Z;
  a_peers : option (list Z);
  a_log_levels : option (list (str * str));
  a_singleprocess : bool;
  a_env : option (list (str * str)) }.

Definition Node_init {S} (a : args) : M S Node :=
  is_file ← isfile (a_node a);
  massert is_file;;
  is_dir ← match a_node_dir a with None => mret true | Some d => isdir d end;
  massert is_dir;;
  let params := sandbox_params (a_config a) (a_params a) in
  node_dir ← match a_node_dir a with
             | None => mkdtemp $"tezos-node."
             | Some d => mret d
             end;
  let singleprocess_opt := if a_singleprocess a then [$"--singleprocess"] else [] in
  let node_run := [a_node a; $"run"; $"--data-dir"; node_dir; $"--no-bootstrap-peers"]
                  ++ singleprocess_opt ++ default [] params ++ peer_args (a_peers a) in
  new_env ← match a_env a with
            | None => mret None
            | Some e => base ← environ_copy; mret (Some (dupdate base e))
            end;
  new_env ← match a_log_levels a with
            | None => mret new_env
            | Some ll =>
                base ← match new_env with None => environ_copy | Some e => mret e end;
                mret (Some (dset $"TEZOS_LOG" (lwt_log ll) base))
            end;
  mret {| config := a_config a; log_file := a_log_file a;
          _temp_dir := bool_decide (a_node_dir a = None); node_dir := node_dir;
          p2p_port := a_p2p_port a; rpc_port := a_rpc_port a; expected_pow := a_expected_pow a;
          node := a_node a; _params := params; _run_called_before := false;
          use_tls := a_use_tls a; _new_env := new_env; _node_run := node_run; _process := None |}.

Definition set_process (pid : Z) (n : Node) : Node :=
  MkNode (config n) (log_file n) (_temp_dir n) (node_dir n) (p2p_port n) (rpc_port n)
    (expected_pow n) (node n) (_params n) true (use_tls n) (_new_env n) (_node_run n) (Some pid).

(** [self._process] is assigned before [self._run_called_before]; nothing can
    fail between the two. *)
Definition run : M Node () :=
  self ← get;
  print_ (format_command (_node_run self) true);;
  let overwrite_log := negb (_run_called_before self) in
  out ← prepare_log (_node_run self) (log_file self) overwrite_log;
  pid ← popen (_node_run self) out (_new_env self);
  modify (set_process pid).

(** [dict(json.loads(text))] of a configuration file, which holds an object. *)
Definition dict_of_json (j : json) : res (list (str * json)) :=
  match j with JDict d => Ok d | _ => Raise TypeError end.

Definition init_config : M Node () :=
  self ← get;
  let node_config :=
    [node self; $"config"; $"init"; $"--data-dir"; node_dir self;
     $"--net-addr"; $"127.0.0.1:" +:+ str_int (p2p_port self);
     $"--rpc-addr"; $"127.0.0.1:" +:+ str_int (rpc_port self);
     $"--expected-pow"; str_float (expected_pow self)]
    ++ default [] (_params self)
    ++ (match use_tls self with
        | Some _ => [$"--rpc-tls"; node_dir self +:+ $"/tezos.crt," +:+ node_dir self +:+ $"/tezos.key"]
        | None => []
        end) in
  _run_and_print node_config;;
  match config self with
  | None => mret ()
  | Some c =>
      let config_file := path_join2 (node_dir self) $"config.json" in
      text ← read_file config_file;
      j ← lift (loads text);
      d ← lift (dict_of_json j);
      write_file config_file $"r+" (dumps (JDict (dupdate d c)))
  end.

Definition init_id : M Node () :=
  self ← get;
  _run_and_print [node self; $"identity"; $"generate"; str_float (expected_pow self);
                  $"--data-dir"; node_dir self];;
  match use_tls self with
  | None => mret ()
  | Some (crt, key) =>
      write_file (node_dir self +:+ $"/tezos.crt") $"w+" crt;;
      write_file (node_dir self +:+ $"/tezos.key") $"w+" key
  end.

Definition upgrade_storage : M Node () :=
  self ← get;
  _run_and_print [node self; $"upgrade"; $"storage"; $"--data-dir"; node_dir self].

Definition snapshot_export (file : str) (params : option (list str)) : M Node () :=
  self ← get;
  let params := [$"--data-dir"; node_dir self] ++ default [] params in
  _run_and_print ([node self; $"snapshot"; $"export"] ++ params ++ [file]).

Definition snapshot_import (file : str) (params : option (list str)) : M Node () :=
  self ← get;
  let params := [$"--data-dir"; node_dir self] ++ default [] params in
  _run_and_print ([node self; $"snapshot"; $"import"] ++ params ++ [file]).

Definition reconstruct (params : option (list str)) : M Node () :=
  self ← get;
  let params := [$"--data-dir"; node_dir self] ++ default [] params in
  _run_and_print ([node self; $"reconstruct"] ++ params).

Definition cleanup : M Node () :=
  self ← get;
  when (_temp_dir self) (rmtree (node_dir self)).

Definition terminate : M Node () :=
  self ← get;
  match _process self with Some pid => terminate pid | None => mret () end.

Definition kill : M Node () :=
  self ← get;
  match _process self with Some pid => kill pid | None => mret () end.

Definition catch_timeout {A} {S} (h : M S A) (e : exc) : option (M S A) :=
  match e with TimeoutExpired => Some h | _ => None end.

Definition terminate_or_kill : M Node () :=
  self ← get;
  match _process self with
  | None => mret ()
  | Some pid =>
      PyIO.terminate pid;;
      try_except (wait pid TERM_TIMEOUT;; mret ()) (catch_timeout (PyIO.kill pid))
  end.

Definition poll : M Node (option Z) :=
  self ← get;
  match _process self with
  | None => raise AssertionError
  | Some pid => PyIO.poll pid
  end.
End Node.
End Node.

(** ** Baker, endorser, accuser *)

Section Daemons.
Context {S : Type} {o : OS}.

Definition endpoint_of (rpc_port : Z) : str := $"http://127.0.0.1:" +:+ str_int rpc_port.

Definition Baker_init (baker : str) (rpc_port : Z) (base_dir node_dir : str) (accounts : list str)
    (params : option (list str)) (log_levels : option (list (str * str))) (log_file : option str)
    (run_params : option (list str)) : M S Z :=
  f ← isfile baker; massert f;;
  d ← isdir node_dir; massert d;;
  d ← isdir base_dir; massert d;;
  let cmd := [baker; $"-base-dir"; base_dir; $"-endpoint"; endpoint_of rpc_port]
             ++ default [] params
             ++ [$"run"; $"with"; $"local"; $"node"; node_dir] ++ accounts
             ++ default [] run_params in
  env ← environ_copy;
  let env := match log_levels with Some ll => dset $"TEZOS_LOG" (lwt_log ll) env | None => env end in
  print_ (format_command cmd true);;
  out ← prepare_log cmd log_file true;
  popen cmd out (Some env).

Definition Endorser_init (endorser : str) (rpc_port : Z) (base_dir : str)
    (params : option (list str)) (log_file : option str) : M S Z :=
  f ← isfile endorser; massert f;;
  d ← isdir base_dir; massert d;;
  let cmd := [endorser; $"-base-dir"; base_dir; $"-endpoint"; endpoint_of rpc_port]
             ++ default [] params in
  print_ (format_command cmd true);;
  out ← prepare_log cmd log_file true;
  popen cmd out None.

Definition Accuser_init (accuser : str) (rpc_port : Z) (base_dir : str)
    (params : option (list str)) (log_file : option str) : M S Z :=
  f ← isfile accuser; massert f;;
  d ← isdir base_dir; massert d;;
  let cmd := [accuser; $"-base-dir"; base_dir; $"-endpoint"; endpoint_of rpc_port]
             ++ default [] params in
  print_ (format_command cmd true);;
  out ← prepare_log cmd log_file true;
  popen cmd out None.

(** The three classes define the same method; it returns the exit code, or the
    [None] of [kill()]. *)
Definition daemon_terminate_or_kill (pid : Z) : M S (option Z) :=
  terminate pid;;
  try_except (Some <$> wait pid TERM_TIMEOUT) (Node.catch_timeout (kill pid;; mret None)).
End Daemons.

(** ** Stopping a process *)

Section Stopping.
Context {o : OS}.

(** What terminating a process adds to the trace: SIGTERM, a wait of ten
    seconds and, if that times out, SIGKILL. *)
Definition stop_events (t : trace) (pid : Z) : trace :=
  [ETerminate pid; EWait pid TERM_TIMEOUT]
  ++ match os_wait (t ++ [ETerminate pid]) pid TERM_TIMEOUT with Some _ => [] | None => [EKill pid] end.

Lemma daemon_stop_spec {S} pid (s : S) t :
  daemon_terminate_or_kill pid s t
  = (Ok (os_wait (t ++ [ETerminate pid]) pid TERM_TIMEOUT), s, t ++ stop_events t pid).
Proof.
  unfold daemon_terminate_or_kill, stop_events. m_run.
  destruct (os_wait (t ++ [ETerminate pid]) pid TERM_TIMEOUT); cbn [Node.catch_timeout];
    by rewrite <- !app_assoc.
Qed.

Lemma node_stop_spec n t :
  Node.terminate_or_kill n t
  = (Ok (), n, t ++ match Node._process n with None => [] | Some pid => stop_events t pid end).
Proof.
  unfold Node.terminate_or_kill, stop_events. m_run.
  destruct (Node._process n) as [pid|]; [|by rewrite app_nil_r].
  destruct (os_wait (t ++ [ETerminate pid]) pid TERM_TIMEOUT); cbn [Node.catch_timeout];
    by rewrite <- !app_assoc.
Qed.

(** Stopping a node or a daemon never raises: a node that was not run is
    left alone; a running process gets SIGTERM first, is waited for, and gets
    SIGKILL exactly when the wait times out. *)
Theorem terminate_or_kill_stops (n : Node.Node) (pid : Z) (t : trace) :
  (Node._process n = None -> Node.terminate_or_kill n t = (Ok (), n, t)) /\
  (Node._process n = Some pid -> Node.terminate_or_kill n t = (Ok (), n, t ++ stop_events t pid)) /\
  (daemon_terminate_or_kill pid n t).2 = t ++ stop_events t pid /\
  (EKill pid ∈ stop_events t pid <-> os_wait (t ++ [ETerminate pid]) pid TERM_TIMEOUT = None).
Proof.
  rewrite node_stop_spec, daemon_stop_spec. split_and!.
  - intros ->. by rewrite app_nil_r.
  - by intros ->.
  - done.
  - unfold stop_events. rewrite list_elem_of_In. destruct (os_wait _ _ _); cbn;
      intuition (try discriminate; auto).
Qed.
End Stopping.

(** ** The life of a node object *)

Section Lifecycle.
Context {o : OS}.

(** The methods of Node. *)
Inductive node_op :=
| ORun | OInitConfig | OInitId | OUpgradeStorage
| OSnapshotExport (file : str) (params : option (list str))
| OSnapshotImport (file : str) (params : option (list str))
| OReconstruct (params : option (list str))
| OCleanup | OTerminate | OKill | OTerminateOrKill | OPoll.

#[export] Instance node_op_eq_dec : EqDecision node_op.
Proof. solve_decision. Defined.

Definition exec_op (op : node_op) : M Node.Node () :=
  match op with
  | ORun => Node.run
  | OInitConfig => Node.init_config
  | OInitId => Node.init_id
  | OUpgradeStorage => Node.upgrade_storage
  | OSnapshotExport f p => Node.snapshot_export f p
  | OSnapshotImport f p => Node.snapshot_import f p
  | OReconstruct p => Node.reconstruct p
  | OCleanup => Node.cleanup
  | OTerminate => Node.terminate
  | OKill => Node.kill
  | OTerminateOrKill => Node.terminate_or_kill
  | OPoll => Node.poll;; mret ()
  end.

(** Calls in sequence; the caller goes on after an exception. *)
Fixpoint exec_ops (ops : list node_op) (n : Node.Node) (t : trace) : Node.Node * trace :=
  match ops with
  | [] => (n, t)
  | op :: r => let '(_, n', t') := exec_op op n t in exec_ops r n' t'
  end.

Definition is_spawn (e : event) : bool := match e with ESpawn _ _ _ _ => true | _ => false end.

(** An event that neither starts a process nor truncates a log, and deletes
    nothing but [dir], when that is allowed. *)
Definition quiet (temp : bool) (dir : str) (e : event) : Prop :=
  match e with
  | ESpawn _ _ _ _ => False
  | EWrite _ mode _ => mode <> $"w"
  | ERmtree p => temp = true /\ p = dir
  | _ => True
  end.

Lemma run_and_print_quiet temp dir cmd : emits (S := Node.Node) (quiet temp dir) (_run_and_print cmd).
Proof. unfold _run_and_print, print_nonempty, run_text. solve_emits; done. Qed.

(** A method other than [run], on a node whose directory and flag are given. *)
Definition quiet_on (n : Node.Node) (m : M Node.Node ()) : Prop :=
  forall t, exists l, (m n t).2 = t ++ l /\ Forall (quiet (Node._temp_dir n) (Node.node_dir n)) l /\
    (m n t).1.2 = n.

Lemma quiet_on_emits n m :
  emits (quiet (Node._temp_dir n) (Node.node_dir n)) m -> quiet_on n m.
Proof. intros H t. apply H. Qed.

Lemma quiet_on_get n (f : Node.Node -> M Node.Node ()) :
  quiet_on n (f n) -> quiet_on n (get ≫= f).
Proof. intros H t. apply H. Qed.

Lemma w_plus_ne : $"w+" <> $"w".
Proof. done. Qed.

Lemma other_ops_quiet n op : op <> ORun -> quiet_on n (exec_op op).
Proof.
  intros Hop. destruct op; [done|..]; cbn [exec_op];
    try (apply quiet_on_get, quiet_on_emits, run_and_print_quiet).
  - apply quiet_on_get, quiet_on_emits, emits_bind; [apply run_and_print_quiet|].
    solve_emits; cbn; done.
  - apply quiet_on_get, quiet_on_emits, emits_bind; [apply run_and_print_quiet|].
    solve_emits; cbn; try done; apply w_plus_ne.
  - apply quiet_on_get. destruct (Node._temp_dir n) eqn:E.
    + apply quiet_on_emits. rewrite E. apply emits_request. done.
    + apply quiet_on_emits, emits_ret.
  - apply quiet_on_get, quiet_on_emits. solve_emits; cbn; done.
  - apply quiet_on_get, quiet_on_emits. solve_emits; cbn; done.
  - intros t. rewrite node_stop_spec. eexists. split; [reflexivity|]. split; [|done].
    unfold stop_events. destruct (Node._process n); [|constructor].
    destruct (os_wait _ _ _); repeat constructor.
  - apply quiet_on_emits, emits_bind; [|solve_emits]. unfold Node.poll. solve_emits; cbn; done.
Qed.

(** A node seen from outside: what [run] changes. *)
Definition same_node (n n' : Node.Node) : Prop :=
  Node.rpc_port n' = Node.rpc_port n /\ Node.p2p_port n' = Node.p2p_port n /\
  Node.node_dir n' = Node.node_dir n /\ Node._temp_dir n' = Node._temp_dir n /\
  Node._node_run n' = Node._node_run n.

(** Reads the events in order: the log may be truncated only while no process
    has been started. *)
Fixpoint log_ok (started : bool) (l : trace) : bool :=
  match l with
  | [] => true
  | ESpawn _ _ _ _ :: r => log_ok true r
  | EWrite _ mode _ :: r => (negb (bool_decide (mode = $"w")) || negb started) && log_ok started r
  | _ :: r => log_ok started r
  end.

Lemma log_ok_app b l1 l2 :
  log_ok b (l1 ++ l2) = log_ok b l1 && log_ok (b || existsb is_spawn l1) l2.
Proof.
  revert b. induction l1 as [|e l1 IH]; intros b; [by rewrite orb_false_r|].
  destruct e; cbn [app log_ok existsb is_spawn orb]; rewrite IH, ?orb_true_r, ?andb_assoc; done.
Qed.

(** No truncation after a start. *)
Lemma log_ok_spec l l1 f x l2 :
  log_ok false l = true -> l = l1 ++ EWrite f $"w" x :: l2 -> existsb is_spawn l1 = false.
Proof.
  intros H ->. rewrite log_ok_app in H. apply andb_true_iff in H as [_ H].
  cbn [orb log_ok] in H. apply andb_true_iff in H as [H _].
  rewrite bool_decide_eq_true_2 in H by done. by destruct (existsb is_spawn l1).
Qed.

(** [run]: at most one spawn, of the node command; the log is truncated only on
    a node that has not run yet. *)
Lemma run_events n t : exists l, (Node.run n t).2 = t ++ l /\ same_node n (Node.run n t).1.2 /\
  Forall (fun e => match e with
    | ESpawn _ cmd _ _ => cmd = Node._node_run n | EWrite _ _ _ | EPrint _ => True | _ => False end) l /\
  log_ok (Node._run_called_before n) l = true /\
  Node._run_called_before (Node.run n t).1.2 = Node._run_called_before n || existsb is_spawn l.
Proof.
  unfold Node.run, prepare_log. m_run. set (pr := EPrint _).
  assert (Hok : forall f x, log_ok (Node._run_called_before n)
    [EWrite f (if negb (Node._run_called_before n) then $"w" else $"a+") x] = true)
    by (intros; by destruct (Node._run_called_before n)).
  destruct (truthy (Node.log_file n)) as [f|]; cbv iota beta.
  - set (mode := if negb _ then _ else _) in *. set (txt := format_command _ _ +:+ _).
    specialize (Hok f txt). cbn [log_ok] in Hok. rewrite andb_true_r in Hok.
    destruct (os_write _ f _) as [[]|e]; [destruct (os_spawn _ _ _ _) as [pid|e]|].
    + exists [pr; EWrite f mode txt; ESpawn pid (Node._node_run n) (LogFile f) (Node._new_env n)].
      rewrite <- !app_assoc. cbn. rewrite Hok, orb_true_r. by repeat constructor.
    + exists [pr; EWrite f mode txt]. rewrite <- !app_assoc. cbn.
      rewrite Hok, orb_false_r. by repeat constructor.
    + exists [pr; EWrite f mode txt]. rewrite <- !app_assoc. cbn.
      rewrite Hok, orb_false_r. by repeat constructor.
  - destruct (os_spawn _ _ _ _) as [pid|e].
    + exists [pr; ESpawn pid (Node._node_run n) DevNull (Node._new_env n)].
      rewrite <- !app_assoc. cbn. rewrite orb_true_r. by repeat constructor.
    + exists [pr]. cbn. rewrite orb_false_r. by repeat constructor.
Qed.

Definition allowed (n : Node.Node) (e : event) : Prop :=
  match e with
  | ESpawn _ cmd _ _ => cmd = Node._node_run n
  | ERmtree p => Node._temp_dir n = true /\ p = Node.node_dir n
  | _ => True
  end.

(** What a sequence of calls did to the node, and the events it caused. *)
Definition behaves (n n' : Node.Node) (l : trace) : Prop :=
  same_node n n' /\ Forall (allowed n) l /\ log_ok (Node._run_called_before n) l = true /\
  Node._run_called_before n' = Node._run_called_before n || existsb is_spawn l.

Lemma quiet_behaves n l :
  Forall (quiet (Node._temp_dir n) (Node.node_dir n)) l -> behaves n n l.
Proof.
  intros Hl. unfold behaves. split; [done|].
  assert (H : Forall (allowed n) l /\ log_ok (Node._run_called_before n) l = true /\
              existsb is_spawn l = false).
  { induction Hl as [|e l He Hl (IH1 & IH2 & IH3)]; [done|].
    split; [constructor; [by destruct e|done]|].
    destruct e; cbn in He |- *; try done. by rewrite bool_decide_eq_false_2. }
  destruct H as (? & ? & ->). by rewrite orb_false_r.
Qed.

Lemma exec_op_behaves n op t : exists l, (exec_op op n t).2 = t ++ l /\ behaves n (exec_op op n t).1.2 l.
Proof.
  destruct (decide (op = ORun)) as [->|Hop].
  - destruct (run_events n t) as (l & E & Hs & Hf & Hok & Hr). exists l.
    split; [done|]. split_and!; try done. eapply List.Forall_impl; [|exact Hf]. by intros [].
  - destruct (other_ops_quiet n op Hop t) as (l & E & Hq & ->). exists l.
    split; [done|]. by apply quiet_behaves.
Qed.

Lemma behaves_trans n1 n2 n3 l1 l2 :
  behaves n1 n2 l1 -> behaves n2 n3 l2 -> behaves n1 n3 (l1 ++ l2).
Proof.
  intros (S1 & F1 & L1 & R1) (S2 & F2 & L2 & R2). unfold behaves, same_node in *.
  destruct S1 as (? & ? & D1 & T1 & C1), S2 as (? & ? & D2 & T2 & C2).
  split_and!; [congruence..| | |].
  - apply Forall_app. split; [done|]. eapply List.Forall_impl; [|exact F2].
    intros e. destruct e; cbn; rewrite ?D1, ?T1, ?C1; done.
  - rewrite log_ok_app, L1, <- R1. done.
  - rewrite R2, R1, existsb_app, orb_assoc. done.
Qed.

Lemma exec_ops_behaves ops : forall n t, exists l,
  (exec_ops ops n t).2 = t ++ l /\ behaves n (exec_ops ops n t).1 l.
Proof.
  induction ops as [|op ops IH]; intros n t; cbn [exec_ops].
  - exists []. rewrite app_nil_r. split; [done|]. by apply quiet_behaves.
  - destruct (exec_op_behaves n op t) as (l1 & E1 & B1).
    destruct (exec_op op n t) as [[r n'] t']. cbn in E1, B1. subst t'.
    destruct (IH n' (t ++ l1)) as (l2 & E2 & B2). exists (l1 ++ l2).
    rewrite E2, app_assoc. split; [done|]. by eapply behaves_trans.
Qed.

Lemma Node_init_fields {S} (a : Node.args) (s : S) t n s' t' :
  Node.Node_init a s t = (Ok n, s', t') ->
  Node._run_called_before n = false /\ Node._process n = None /\
  Node._temp_dir n = bool_decide (Node.a_node_dir a = None) /\
  Node.rpc_port n = Node.a_rpc_port a /\ Node.p2p_port n = Node.a_p2p_port a /\ s' = s /\
  Node._node_run n = [Node.a_node a; $"run"; $"--data-dir"; Node.node_dir n; $"--no-bootstrap-peers"]
    ++ (if Node.a_singleprocess a then [$"--singleprocess"] else [])
    ++ default [] (Node.sandbox_params (Node.a_config a) (Node.a_params a))
    ++ Node.peer_args (Node.a_peers a).
Proof.
  unfold Node.Node_init. intros H. m_run_in H. repeat case_match; simplify_eq; split_and!; done.
Qed.
End Lifecycle.

(** ** The commands of a node *)

(** The network: the sandbox, unless the caller names one in the configuration
    or in the arguments. *)
Definition network_args (a : Node.args) : list str :=
  let given := default [] (Node.a_params a) in
  let named := bool_decide ($"--network" ∈ given)
               || match Node.a_config a with Some c => dmem $"network" c | None => false end in
  given ++ (if named then [] else [$"--network"; $"sandbox"]).

Definition run_command (a : Node.args) (dir : str) : list str :=
  [Node.a_node a; $"run"; $"--data-dir"; dir; $"--no-bootstrap-peers"]
  ++ (if Node.a_singleprocess a then [$"--singleprocess"] else [])
  ++ network_args a
  ++ flat_map (fun peer => [$"--peer"; $"127.0.0.1:" +:+ str_int peer]) (default [] (Node.a_peers a)).

(** The command that each method other than [run] has to run to completion. *)
Definition tool_command (a : Node.args) (dir : str) (op : node_op) : option (list str) :=
  let node := Node.a_node a in
  match op with
  | OInitId => Some [node; $"identity"; $"generate"; str_float (Node.a_expected_pow a);
                     $"--data-dir"; dir]
  | OInitConfig => Some ([node; $"config"; $"init"; $"--data-dir"; dir;
      $"--net-addr"; $"127.0.0.1:" +:+ str_int (Node.a_p2p_port a);
      $"--rpc-addr"; $"127.0.0.1:" +:+ str_int (Node.a_rpc_port a);
      $"--expected-pow"; str_float (Node.a_expected_pow a)]
      ++ network_args a
      ++ match Node.a_use_tls a with
         | Some _ => [$"--rpc-tls"; dir +:+ $"/tezos.crt," +:+ dir +:+ $"/tezos.key"]
         | None => []
         end)
  | OUpgradeStorage => Some [node; $"upgrade"; $"storage"; $"--data-dir"; dir]
  | OSnapshotExport f p =>
      Some ([node; $"snapshot"; $"export"; $"--data-dir"; dir] ++ default [] p ++ [f])
  | OSnapshotImport f p =>
      Some ([node; $"snapshot"; $"import"; $"--data-dir"; dir] ++ default [] p ++ [f])
  | OReconstruct p => Some ([node; $"reconstruct"; $"--data-dir"; dir] ++ default [] p)
  | ORun | OCleanup | OTerminate | OKill | OTerminateOrKill | OPoll => None
  end.

Definition run_event (c : list str) : event := ERun c None None.

(** The processes run to completion in the course of the events. *)
Definition is_tool (e : event) : bool :=
  match e with ERun _ _ _ | EExec _ _ _ => true | _ => false end.

Section Commands.
Context {o : OS}.

(** What a node object keeps of the arguments of its constructor. *)
Definition built (a : Node.args) (n : Node.Node) : Prop :=
  Node.node n = Node.a_node a /\ Node.log_file n = Node.a_log_file a /\
  Node.p2p_port n = Node.a_p2p_port a /\ Node.rpc_port n = Node.a_rpc_port a /\
  Node.expected_pow n = Node.a_expected_pow a /\ Node.use_tls n = Node.a_use_tls a /\
  default [] (Node._params n) = network_args a /\
  Node._node_run n = run_command a (Node.node_dir n).

Lemma sandbox_params_network a :
  default [] (Node.sandbox_params (Node.a_config a) (Node.a_params a)) = network_args a.
Proof.
  unfold Node.sandbox_params, network_args.
  destruct (match Node.a_config a with Some c => dmem $"network" c | None => false end).
  - by rewrite orb_true_r, app_nil_r.
  - rewrite orb_false_r. destruct (Node.a_params a) as [ps|]; [|done].
    change (default [] (Some ps)) with ps.
    destruct (bool_decide ($"--network" ∈ ps)); [symmetry; apply app_nil_r|done].
Qed.

Lemma Node_init_built {S} (a : Node.args) (s : S) t n s' t' :
  Node.Node_init a s t = (Ok n, s', t') -> built a n.
Proof.
  intros H. pose proof (Node_init_fields a s t n s' t' H) as (_ & _ & _ & _ & _ & _ & Hrun).
  unfold built, run_command. rewrite <- (sandbox_params_network a).
  unfold Node.Node_init in H. m_run_in H. repeat case_match; simplify_eq; done.
Qed.

(** Exactly these tool runs, and the object left alone. *)
Definition tools_of {A} (m : M Node.Node A) (n : Node.Node) (es : list event) : Prop :=
  forall t, exists l, (m n t).2 = t ++ l /\ List.filter is_tool l = es /\ (m n t).1.2 = n.

Lemma no_tool_filter l : Forall (fun e => is_tool e = false) l -> List.filter is_tool l = [].
Proof. induction 1 as [|e l He _ IH]; [done|]. cbn. by rewrite He. Qed.

Lemma no_tool_emits {A} (m : M Node.Node A) n :
  emits (fun e => is_tool e = false) m -> tools_of m n [].
Proof. intros H t. destruct (H n t) as (l & E & Hl & E'). eauto using no_tool_filter. Qed.

Lemma run_and_print_tools cmd n : tools_of (_run_and_print cmd) n [run_event cmd].
Proof.
  intros t. unfold _run_and_print, run_text, print_nonempty. m_run.
  repeat case_match; simplify_eq; cbn; rewrite <- ?app_assoc; eexists; (split; [reflexivity|done]).
Qed.

Lemma tools_then {A B} (m : M Node.Node A) (k : A -> M Node.Node B) n es :
  tools_of m n es -> (forall x, emits (fun e => is_tool e = false) (k x)) ->
  tools_of (m ≫= k) n es.
Proof.
  intros Ht Hk t. destruct (Ht t) as (l & E & F & E'). unfold mbind, M_bind.
  destruct (m n t) as [[[x|e] n'] t']; cbn in E, E'; subst; [|by exists l].
  destruct (Hk x n (t ++ l)) as (l2 & -> & F2 & ->). exists (l ++ l2).
  rewrite app_assoc, List.filter_app, (no_tool_filter _ F2). by rewrite app_nil_r.
Qed.

Lemma tools_get n (f : Node.Node -> M Node.Node ()) es :
  tools_of (f n) n es -> tools_of (get ≫= f) n es.
Proof. intros H t. apply H. Qed.

Lemma tools_run_and_print cmd cmd' n :
  cmd' = cmd -> tools_of (_run_and_print cmd) n [run_event cmd'].
Proof. intros ->. apply run_and_print_tools. Qed.

Definition tool_events (a : Node.args) (dir : str) (op : node_op) : list event :=
  match tool_command a dir op with Some c => [run_event c] | None => [] end.

Lemma exec_op_tools a n op :
  built a n -> op <> ORun -> tools_of (exec_op op) n (tool_events a (Node.node_dir n) op).
Proof.
  intros (Hn & _ & Hp & Hr & He & Ht & Hs & _) Hop.
  destruct op; [done|..]; cbn [exec_op tool_events tool_command].
  - apply tools_get, tools_then; [|intros; solve_emits; done].
    apply tools_run_and_print. unfold Node.init_config. rewrite Hn, Hp, Hr, He, Ht, Hs. done.
  - apply tools_get, tools_then; [|intros; solve_emits; done].
    apply tools_run_and_print. by rewrite Hn, He.
  - apply tools_get, tools_run_and_print. by rewrite Hn.
  - apply tools_get, tools_run_and_print. by rewrite Hn, <- app_assoc.
  - apply tools_get, tools_run_and_print. by rewrite Hn, <- app_assoc.
  - apply tools_get, tools_run_and_print. by rewrite Hn.
  - apply tools_get, no_tool_emits. solve_emits; done.
  - apply tools_get, no_tool_emits. solve_emits; done.
  - apply tools_get, no_tool_emits. solve_emits; done.
  - intros t. rewrite node_stop_spec. eexists. split; [reflexivity|]. split; [|done].
    unfold stop_events. destruct (Node._process n); [|done]. by destruct (os_wait _ _ _).
  - apply no_tool_emits, emits_bind; [|solve_emits]. unfold Node.poll. solve_emits; done.
Qed.

(** The log of the process, or nothing. *)
Definition log_target (f : option str) : target :=
  match f with None | Some [] => DevNull | Some p => LogFile p end.

(** What a call does beside the tools: only [run] starts the process of the
    node, at most once, and it changes nothing else that is kept. *)
Definition spawns_of (a : Node.args) (n : Node.Node) (op : node_op) (n' : Node.Node) (l : trace) : Prop :=
  built a n' /\ Node.node_dir n' = Node.node_dir n /\ Node._new_env n' = Node._new_env n /\
  (length (List.filter is_spawn l) <= if decide (op = ORun) then 1 else 0)%nat /\
  Forall (fun e => match e with
    | ESpawn _ cmd out env => cmd = run_command a (Node.node_dir n) /\
        out = log_target (Node.a_log_file a) /\ env = Node._new_env n
    | _ => True end) l.

Lemma run_spawns a n t : built a n -> exists l,
  (Node.run n t).2 = t ++ l /\ List.filter is_tool l = [] /\ spawns_of a n ORun (Node.run n t).1.2 l.
Proof.
  intros Hb. pose proof Hb as (_ & Hlog & _ & _ & _ & _ & _ & Hcmd).
  unfold spawns_of, Node.run, prepare_log. m_run. rewrite Hlog, Hcmd.
  rewrite (decide_True (P := ORun = ORun)) by done.
  destruct (Node.a_log_file a) as [[|c f]|]; cbn [truthy log_target]; cbv iota beta;
    repeat match goal with |- context [os_write ?x ?y ?z] => destruct (os_write x y z) as [[]|] end;
    repeat match goal with |- context [os_spawn ?x ?y ?z ?u] => destruct (os_spawn x y z u) end;
    rewrite <- ?app_assoc; eexists; (split; [reflexivity|]); (split; [reflexivity|]);
    (split; [exact Hb|]); (split; [reflexivity|]); (split; [reflexivity|]);
    (split; [cbn; lia|]); cbn [app]; by repeat constructor.
Qed.

Lemma other_spawns a n op n' l :
  built a n -> op <> ORun -> Forall (quiet (Node._temp_dir n) (Node.node_dir n)) l -> n' = n ->
  spawns_of a n op n' l.
Proof.
  intros Hb Hop Hl ->. unfold spawns_of. rewrite decide_False by done.
  split_and!; [done..| |].
  - induction Hl as [|e l He _ IH]; [done|]. by destruct e.
  - eapply List.Forall_impl; [|exact Hl]. by intros [].
Qed.

Lemma exec_op_starts a n op t : built a n -> exists l,
  (exec_op op n t).2 = t ++ l /\
  List.filter is_tool l = tool_events a (Node.node_dir n) op /\
  spawns_of a n op (exec_op op n t).1.2 l.
Proof.
  intros Hb. destruct (decide (op = ORun)) as [->|Hop].
  - apply (run_spawns a n t Hb).
  - destruct (exec_op_tools a n op Hb Hop t) as (l & E & F & En).
    destruct (other_ops_quiet n op Hop t) as (l' & E' & Hq & _).
    rewrite E in E'. apply app_inv_head in E' as <-.
    exists l. split_and!; [done..|]. by apply other_spawns.
Qed.

Lemma exec_ops_starts a ops : forall n t, built a n -> exists l,
  (exec_ops ops n t).2 = t ++ l /\
  List.filter is_tool l = flat_map (tool_events a (Node.node_dir n)) ops /\
  (length (List.filter is_spawn l) <= length (filter (.= ORun) ops))%nat /\
  Forall (fun e => match e with
    | ESpawn _ cmd out env => cmd = run_command a (Node.node_dir n) /\
        out = log_target (Node.a_log_file a) /\ env = Node._new_env n
    | _ => True end) l.
Proof.
  induction ops as [|op ops IH]; intros n t Hb; cbn [exec_ops flat_map].
  - exists []. rewrite app_nil_r. by repeat constructor.
  - destruct (exec_op_starts a n op t Hb) as (l1 & E1 & F1 & Hb1 & Hd & He & Hc & Hs).
    destruct (exec_op op n t) as [[r n'] t']. cbn [fst snd] in *. subst t'.
    destruct (IH n' (t ++ l1) Hb1) as (l2 & E2 & F2 & Hc2 & Hs2). exists (l1 ++ l2).
    rewrite Hd, ?He in *. rewrite E2, app_assoc, !List.filter_app, length_app, F1, F2.
    split_and!; [done..| |by apply Forall_app].
    rewrite filter_cons. destruct (decide (op = ORun)); cbn [length]; lia.
Qed.
End Commands.

(** C4. Whatever sequence of methods is called on a node object, failing calls
    included: a log is truncated only before the first process of the node is
    started (later runs append); the tools run to completion are, in the order of
    the calls, one for each call of [init_id], [init_config], [upgrade_storage],
    [snapshot_export], [snapshot_import] and [reconstruct], with the command line
    of that method and nothing else; every other process is started by a call of
    [run], at most one by each, and has the command line the constructor was
    asked for, its log and its environment; and a directory is deleted only if
    the constructor created it, so that a node directory given by the caller
    survives [cleanup]. *)
Theorem node_lifecycle {o : OS} {S} (a : Node.args) (s s' : S) (t t1 : trace) (n : Node.Node)
    (ops : list node_op) :
  Node.Node_init a s t = (Ok n, s', t1) ->
  exists l, (exec_ops ops n t1).2 = t1 ++ l /\
    (forall l1 f x l2, l = l1 ++ EWrite f $"w" x :: l2 -> existsb is_spawn l1 = false) /\
    List.filter is_tool l
    = map (fun cmd => ERun cmd None None) (omap (tool_command a (Node.node_dir n)) ops) /\
    (length (List.filter is_spawn l) <= length (filter (.= ORun) ops))%nat /\
    (forall pid cmd out env, ESpawn pid cmd out env ∈ l ->
      cmd = run_command a (Node.node_dir n) /\ out = log_target (Node.a_log_file a) /\
      env = Node._new_env n) /\
    (forall p, ERmtree p ∈ l -> Node.a_node_dir a = None /\ p = Node.node_dir n).
Proof.
  intros H. pose proof (Node_init_built _ _ _ _ _ _ H) as Hb.
  apply Node_init_fields in H as (Hr & _ & Ht & _).
  destruct (exec_ops_behaves ops n t1) as (l & E & _ & Hf & Hok & _).
  destruct (exec_ops_starts a ops n t1 Hb) as (l' & E' & Htools & Hcount & Hspawn).
  rewrite E in E'. apply app_inv_head in E' as <-. exists l.
  rewrite Hr in Hok. split_and!; [done| | |done| |].
  - intros l1 f x l2. by apply log_ok_spec.
  - rewrite Htools. clear. induction ops as [|op ops IH]; [done|].
    cbn [flat_map omap list_omap]. rewrite IH. unfold tool_events.
    by destruct (tool_command _ _ op).
  - intros pid cmd out env Hin%list_elem_of_In.
    apply (proj1 (List.Forall_forall _ _) Hspawn _ Hin).
  - intros p Hin%list_elem_of_In. destruct (proj1 (List.Forall_forall _ _) Hf _ Hin) as [Hd Hp].
    rewrite Ht in Hd. by apply bool_decide_eq_true in Hd.
Qed.

(** A system where every path is a file and a directory and every call succeeds. *)
Definition calm_os : OS :=
  {| os_isfile _ _ := true; os_isdir _ _ := true; os_environ _ := [];
     os_run _ _ _ _ := Ok (ProcResult [] [] 0); os_spawn t _ _ _ := Ok (Z.of_nat (length t));
     os_poll _ _ := None; os_wait _ _ _ := Some 0; os_mkdtemp t p := Ok (p +:+ str_int (Z.of_nat (length t)));
     os_tempfile _ := Ok $"/tmp/params"; os_rmtree _ _ := Ok ();
     os_read _ _ := Ok $"{}"; os_write _ _ _ := Ok ();
     os_http _ _ _ _ := Raise OSError; os_utcnow _ := 0; os_getcwd _ := $"/";
     os_listdir _ _ := Ok []; os_exec _ _ _ _ := Ok 0 |}.

Definition sample_args : Node.args :=
  Node.MkArgs $"tezos-node" None (float_of_Z 0) None None None (Some $"node.log") 19730 18730
    (Some [19731]) None false None.

Lemma terminate_or_kill_stops_witness :
  exists n, Node.Node_init (o := no_os) sample_args () [] = (Raise AssertionError, (), []) /\
    Node._process n = None /\ Node.terminate_or_kill (o := no_os) n [] = (Ok (), n, []).
Proof.
  exists (Node.MkNode None None false [] 0 0 (float_of_Z 0) [] None false None None [] None).
  split; [reflexivity|]. split; [reflexivity|].
  apply (proj1 (terminate_or_kill_stops (o := no_os) _ 1 [])). reflexivity.
Defined.

Lemma node_lifecycle_witness :
  exists n t1, Node.Node_init (o := calm_os) sample_args () [] = (Ok n, (), t1) /\
  exists l, (exec_ops (o := calm_os) [OInitId; ORun; OTerminateOrKill; ORun; OCleanup] n t1).2 = t1 ++ l /\
    (forall l1 f x l2, l = l1 ++ EWrite f $"w" x :: l2 -> existsb is_spawn l1 = false) /\
    List.filter is_tool l
    = [ERun [$"tezos-node"; $"identity"; $"generate"; $"0.0"; $"--data-dir"; Node.node_dir n] None None] /\
    (length (List.filter is_spawn l) <= 2)%nat /\
    (forall pid cmd out env, ESpawn pid cmd out env ∈ l ->
      cmd = [$"tezos-node"; $"run"; $"--data-dir"; Node.node_dir n; $"--no-bootstrap-peers";
             $"--network"; $"sandbox"; $"--peer"; $"127.0.0.1:19731"] /\
      out = LogFile $"node.log" /\ env = Node._new_env n) /\
    (forall p, ERmtree p ∈ l -> Node.a_node_dir sample_args = None /\ p = Node.node_dir n).
Proof.
  assert (H : exists n t1, Node.Node_init (o := calm_os) sample_args () [] = (Ok n, (), t1))
    by (eexists _, _; vm_compute; reflexivity).
  destruct H as (n & t1 & H). exists n, t1. split; [exact H|].
  exact (node_lifecycle (o := calm_os) sample_args () () [] t1 n
    [OInitId; ORun; OTerminateOrKill; ORun; OCleanup] H).
Defined.
