(* ===== verification/Client.v ===== *)
(** * The client wrapper: running tezos-client

    tests_python/client/client.py (constructor, [run_generic], [run], [rpc],
    [rpc_raw], [cleanup]) and tests_python/tools/client_regression.py.  Every
    command method of Client ends in [self.run_generic], which the subclass
    ClientRegression overrides; [Runner] is that interface, the command methods
    are written against it (ClientCommands.v), and both classes are instances. *)

From Stdlib Require Import ZArith Lia.
From stdpp Require Import base tactics list strings numbers.
From S2P Require Import Prelude PyStr PyExc PyRe PyDict PyFloat PyJson PyTime PyIO ClientOutput Daemons.

Local Open Scope Z_scope.
Local Open Scope py_scope.

Record Client := MkClient {
  host : option str;
  _disable_disclaimer : bool;
  _is_tmp_dir : bool;
  base_dir : str;
  _client : list str;
  _admin_client : list str;
  c_rpc_port : option Z;
  endpoint : str }.

Section ClientInit.
Context {S : Type} {o : OS}.

Definition connectivity_options (host : option str) (rpc_port : option Z) (use_tls : option bool)
    (endpoint : option str) : list str :=
  match host with Some h => [$"-addr"; h] | None => [] end
  ++ match rpc_port with Some p => [$"-port"; str_int p] | None => [] end
  ++ (if bool_decide (use_tls = Some true) then [$"-S"] else [])
  ++ match endpoint with Some e => [$"-endpoint"; e] | None => [] end.

(** The part of the command line that depends on the mode; [None] is the
    unexpected mode. *)
Definition mode_options (mode : option str) (connectivity : list str) : option (list str) :=
  match mode with
  | None => Some connectivity
  | Some m =>
      if bool_decide (m = $"client") then Some connectivity
      else if bool_decide (m = $"mockup") then Some [$"-mode"; m]
      else if bool_decide (m = $"proxy") then Some ([$"-mode"; m] ++ connectivity)
      else None
  end.

Definition default_endpoint (host : option str) (rpc_port : option Z) (use_tls : option bool) : str :=
  let protocol := match use_tls with Some true => $"https" | _ => $"http" end in
  let host := default $"127.0.0.1" (truthy host) in
  let rpc_port := match rpc_port with Some p => if p =? 0 then 8732 else p | None => 8732 end in
  protocol +:+ $"://" +:+ host +:+ $":" +:+ str_int rpc_port.

Definition Client_init (client_path admin_client_path : str) (host base_dir : option str)
    (rpc_port : option Z) (use_tls : option bool) (endpoint : option str)
    (disable_disclaimer : bool) (mode : option str) : M S Client :=
  f ← isfile client_path; massert f;;
  f ← isfile admin_client_path; massert f;;
  d ← match base_dir with None => mret true | Some d => isdir d end; massert d;;
  let is_tmp_dir := bool_decide (base_dir = None) in
  base_dir ← match base_dir with
             | None => d ← mkdtemp $"tezos-client."; massert (negb (bool_decide (d = [])));; mret d
             | Some d => mret d
             end;
  let connectivity := connectivity_options host rpc_port use_tls endpoint in
  mode_opts ← lift (or_raise AssertionError (mode_options mode connectivity));
  mret {| host := host; _disable_disclaimer := disable_disclaimer; _is_tmp_dir := is_tmp_dir;
          base_dir := base_dir;
          _client := [client_path; $"-base-dir"; base_dir] ++ mode_opts;
          _admin_client := [admin_client_path; $"-base-dir"; base_dir] ++ connectivity;
          c_rpc_port := rpc_port;
          endpoint := match endpoint with
                      | Some e => e
                      | None => default_endpoint host rpc_port use_tls
                      end |}.
End ClientInit.

(** The optional arguments of [run_generic]. *)
Record run_opts := RunOpts {
  admin : bool;
  check : bool;
  trace_rpcs : bool;
  stdin : str;
  env_change : option environ }.

Definition default_opts : run_opts := RunOpts false true false [] None.
Definition with_stdin (s : str) : run_opts := RunOpts false true false s None.

Section RunGeneric.
Context {S : Type} {o : OS}.

(** The command line and environment of a call. *)
Definition full_command (self : Client) (params : list str) (opts : run_opts) : list str :=
  (if admin opts then _admin_client self else _client self)
  ++ (if trace_rpcs opts then [$"-l"] else []) ++ params.

Definition call_environ (self : Client) (opts : run_opts) (base : environ) : environ :=
  let new_env := match env_change opts with Some e => dupdate base e | None => base end in
  if _disable_disclaimer self then dset $"TEZOS_CLIENT_UNSAFE_DISABLE_DISCLAIMER" $"Y" new_env
  else new_env.

Definition Client_run_generic (self : Client) (params : list str) (opts : run_opts) :
    M S (str * str * Z) :=
  let cmd := full_command self params opts in
  print_ (format_command cmd true);;
  base ← environ_copy;
  let new_env := call_environ self opts base in
  p ← communicate cmd (Some (encode (stdin opts))) (Some new_env);
  stdout ← lift (decode_utf8 (p_stdout p));
  stderr ← lift (decode_utf8 (p_stderr p));
  print_nonempty stdout EPrint;;
  print_nonempty stderr EPrintErr;;
  if check opts && negb (p_returncode p =? 0) then
    raise (CalledProcessError (p_returncode p) cmd stdout stderr)
  else mret (stdout, stderr, p_returncode p).
End RunGeneric.

(** ** ClientRegression *)

Record ClientRegression := MkRegression { super : Client; regtest : option Z }.

Definition ClientRegression_init {S} {o : OS} (client_path admin_client_path : str)
    (host base_dir : option str) (rpc_port : option Z) (use_tls : option bool) (endpoint : option str)
    (mode : option str) (disable_disclaimer : bool) : M S ClientRegression :=
  c ← Client_init client_path admin_client_path host base_dir rpc_port use_tls endpoint
        disable_disclaimer mode;
  mret (MkRegression c None).

Definition set_regtest (self : ClientRegression) (regtest : option Z) : ClientRegression :=
  MkRegression (super self) regtest.

Definition write_regtest {S} (self : ClientRegression) (output stderr_output : str) : M S () :=
  match regtest self with
  | Some r => emit (ERegtest r output);; emit (ERegtest r stderr_output)
  | None => mret ()
  end.

(** The overriding method: [stdin] and [env_change] are not passed on. *)
Definition ClientRegression_run_generic {S} {o : OS} (self : ClientRegression) (params : list str)
    (opts : run_opts) : M S (str * str * Z) :=
  let passed := RunOpts (admin opts) (check opts) (trace_rpcs opts) [] None in
  r ← try_except
        (x ← Client_run_generic (super self) params passed; mret (inl x))
        (fun e => match e with
                  | CalledProcessError rc cmd out err => Some (mret (inr (rc, cmd, out, err)))
                  | _ => None
                  end);
  match r with
  | inl (output, stderr, retcode) =>
      write_regtest self output [];; mret (output, stderr, retcode)
  | inr (rc, cmd, out, err) =>
      write_regtest self out err;; raise (CalledProcessError rc cmd out err)
  end.

(** ** The interface *)

(** A class of clients: its part that is a Client, and its [run_generic]. *)
Class Runner (C : Type) := {
  client_of : C -> Client;
  run_generic : forall {S : Type} {o : OS}, C -> list str -> run_opts -> M S (str * str * Z) }.

#[export] Instance client_runner : Runner Client :=
  {| client_of c := c; run_generic S o := Client_run_generic |}.

#[export] Instance regression_runner : Runner ClientRegression :=
  {| client_of := super; run_generic S o := ClientRegression_run_generic |}.

Section Generic.
Context {C : Type} {R : Runner C} {S : Type} {o : OS} {U : UCD}.

Definition run (self : C) (params : list str) (admin check trace : bool) : M S str :=
  '(stdout, _, _) ← run_generic self params (RunOpts admin check trace [] None);
  mret stdout.

Definition run_ (self : C) (params : list str) : M S str := run self params false true false.
Definition run_admin (self : C) (params : list str) : M S str := run self params true true false.

Definition verbs : list str := [$"put"; $"get"; $"post"; $"delete"; $"patch"].

Definition rpc_params (verb path : str) (data : option json) (params : option (list str)) : list str :=
  default [] params ++ [$"rpc"; verb; path]
  ++ match data with Some d => [$"with"; dumps d] | None => [] end.

Definition rpc (self : C) (verb path : str) (data : option json) (params : option (list str)) : M S json :=
  massert (bool_decide (verb ∈ verbs));;
  compl_pr ← run_ self (rpc_params verb path data params);
  lift (extract_rpc_answer compl_pr).

(** The printed body is the printed form of the bytes. *)
Definition rpc_raw (self : C) (verb path : str) (data : option bytes) : M S json :=
  let url := endpoint (client_of self) +:+ path in
  print_ (format_command [$"raw rpc"; verb; url] true);;
  body ← http (upper_ascii verb) url data;
  print_ (bytes_repr body);;
  text ← lift (decode_utf8 body);
  lift (loads text).

Definition Client_cleanup (self : C) : M S () :=
  when (_is_tmp_dir (client_of self)) (rmtree (base_dir (client_of self))).
End Generic.

(** ** What a call does *)

Section Facts.
Context {S : Type} {o : OS}.

(** The command printed and the process run. *)
Definition call_events (cmd : list str) (stdin : str) (env : environ) : trace :=
  [EPrint (format_command cmd true); ERun cmd (Some (encode stdin)) (Some env)].

(** The process run by the call answers with these texts and return code. *)
Definition answers (t : trace) (cmd : list str) (stdin : str) (env : environ) (out err : str) (rc : Z) : Prop :=
  exists p, os_run (t ++ [EPrint (format_command cmd true)]) cmd (Some (encode stdin)) (Some env) = Ok p /\
    decode_utf8 (p_stdout p) = Ok out /\ decode_utf8 (p_stderr p) = Ok err /\ p_returncode p = rc.

Definition output_events (out err : str) : trace :=
  (if bool_decide (out = []) then [] else [EPrint out]) ++
  (if bool_decide (err = []) then [] else [EPrintErr err]).

Lemma Client_run_generic_spec (self : Client) params opts (s : S) t out err rc :
  let cmd := full_command self params opts in
  let env := call_environ self opts (os_environ (t ++ [EPrint (format_command cmd true)])) in
  answers t cmd (stdin opts) env out err rc ->
  Client_run_generic self params opts s t
  = (if check opts && negb (rc =? 0) then Raise (CalledProcessError rc cmd out err)
     else Ok (out, err, rc),
     s, t ++ call_events cmd (stdin opts) env ++ output_events out err).
Proof.
  intros cmd env (p & Hp & Ho & He & <-). unfold Client_run_generic, print_nonempty, output_events, call_events.
  fold cmd. m_run. fold env. rewrite Hp, Ho, He. m_run.
  destruct (bool_decide (out = [])), (bool_decide (err = [])); cbn [negb];
    destruct (check opts && negb (p_returncode p =? 0)); rewrite <- ?app_assoc; done.
Qed.

Lemma decode_utf8_error bs e : decode_utf8 bs = Raise e -> e = ValueError.
Proof. unfold decode_utf8. case_match; congruence. Qed.

(** The command line of a call, from the arguments of the constructor and of the
    call: the binary and the base directory; the mode, which only tezos-client gets
    and "client" needs not be said; where the node is, which the mockup mode of
    tezos-client does not need; the tracing option; the parameters. *)
Definition command_line (client_path admin_path dir : str) (host : option str) (port : option Z)
    (tls : option bool) (endpoint mode : option str) (admin trace : bool) (params : list str) : list str :=
  let option name v := match v with Some x => [name; x] | None => [] end in
  let mockup := negb admin && bool_decide (mode = Some $"mockup") in
  [if admin then admin_path else client_path; $"-base-dir"; dir]
  ++ (if admin || bool_decide (mode = Some $"client") then [] else option $"-mode" mode)
  ++ (if mockup then [] else
        option $"-addr" host ++ option $"-port" (str_int <$> port)
        ++ (if bool_decide (tls = Some true) then [$"-S"] else []) ++ option $"-endpoint" endpoint)
  ++ (if trace then [$"-l"] else []) ++ params.

Lemma full_command_line {S0} p a host dir port tls e disc mode (s0 s1 : S0) t0 t1 self params opts :
  Client_init p a host dir port tls e disc mode s0 t0 = (Ok self, s1, t1) ->
  _disable_disclaimer self = disc /\
  full_command self params opts
  = command_line p a (default (base_dir self) dir) host port tls e mode (admin opts) (trace_rpcs opts) params.
Proof.
  unfold Client_init. intros H. m_run_in H.
  assert (Hd : exists l, mode_options mode (connectivity_options host port tls e) = Some l /\
    _client self = [p; $"-base-dir"; default (base_dir self) dir] ++ l /\
    _admin_client self = [a; $"-base-dir"; default (base_dir self) dir] ++ connectivity_options host port tls e /\
    _disable_disclaimer self = disc) by (repeat case_match; simplify_eq; eexists; split_and!; done).
  destruct Hd as (l & Hl & Hc & Ha & Hdisc). split; [done|].
  unfold full_command, command_line. rewrite Hc, Ha. destruct (admin opts); cbn [orb negb andb].
  - unfold connectivity_options. rewrite <- !app_assoc. by destruct port.
  - assert (HS : forall m x : str, bool_decide (Some m = Some x) = bool_decide (m = x))
      by (intros; apply bool_decide_ext; naive_solver).
    unfold mode_options, connectivity_options in Hl. destruct mode as [m|]; [rewrite !HS|].
    + destruct (bool_decide_reflect (m = $"client")) as [->|H1].
      { change (bool_decide ($"client" = $"mockup")) with false.
        injection Hl as <-. rewrite <- !app_assoc. by destruct port. }
      destruct (bool_decide_reflect (m = $"mockup")) as [->|H2]; [injection Hl as <-; done|].
      destruct (bool_decide_reflect (m = $"proxy")) as [->|H3]; [|done].
      injection Hl as <-. cbn [app]. rewrite <- !app_assoc.
      by destruct port; cbn [fmap option_fmap option_map app]; rewrite <- ?app_assoc.
    + rewrite !(bool_decide_eq_false_2 (None = Some _)) by done.
      injection Hl as <-. rewrite <- !app_assoc. by destruct port.
Qed.

Lemma dget_call_environ (self : Client) opts base k :
  (forall e, env_change opts = Some e -> wf_dict e) ->
  dget k (call_environ self opts base)
  = if _disable_disclaimer self && bool_decide (k = $"TEZOS_CLIENT_UNSAFE_DISABLE_DISCLAIMER") then Some $"Y"
    else match env_change opts ≫= dget k with Some v => Some v | None => dget k base end.
Proof.
  intros Hw. assert (H : dget k (match env_change opts with Some e => dupdate base e | None => base end)
    = match env_change opts ≫= dget k with Some v => Some v | None => dget k base end).
  { destruct (env_change opts) as [e|]; [|done]. cbn [mbind option_bind]. apply dget_dupdate. by apply Hw. }
  unfold call_environ. rewrite <- H. destruct (_disable_disclaimer self); [|done].
  rewrite dget_dset. cbn [andb]. by case_decide; case_bool_decide.
Qed.


(** The regression client hides the difference from its callers except for
    the input: on a process that answers, it gives the result of the plain call
    with an empty standard input and no change of environment, and writes the
    output, and the error output of a failed call, to the regression log. *)
Theorem regression_run_generic (self : ClientRegression) (r : Z) (params : list str) (opts : run_opts)
    (s : S) (t : trace) (out err : str) (rc : Z) :
  let passed := RunOpts (admin opts) (check opts) (trace_rpcs opts) [] None in
  let cmd := full_command (super self) params passed in
  let env := call_environ (super self) passed (os_environ (t ++ [EPrint (format_command cmd true)])) in
  regtest self = Some r -> answers t cmd [] env out err rc ->
  let failed := check opts && negb (rc =? 0) in
  ClientRegression_run_generic self params opts s t
  = ((Client_run_generic (super self) params passed s t).1.1, s,
     (Client_run_generic (super self) params passed s t).2
       ++ [ERegtest r out; ERegtest r (if failed then err else [])]).
Proof.
  intros passed cmd env Hr Ha failed.
  pose proof (Client_run_generic_spec (super self) params passed s t out err rc Ha) as E.
  unfold ClientRegression_run_generic, write_regtest. fold passed. m_run. rewrite E.
  change (check passed) with (check opts). fold failed. rewrite Hr.
  destruct failed; m_run; cbn [fst snd]; by rewrite <- !app_assoc.
Qed.
End Facts.
