(* ===== verification/ClientCommands.v ===== *)
(** * The commands of the client (tests_python/client/client.py)

    The methods of Client other than those of Client.v, in the order of the
    source and for any class of clients with a [run_generic] ([Runner]): each
    builds the command line of one tezos-client or tezos-admin-client command and
    parses its output.  Optional arguments are explicit; an argument that the
    source defaults to [None] is an [option]. *)

From Stdlib Require Import ZArith Lia.
From stdpp Require Import base tactics list strings numbers.
From S2P Require Import Prelude PyStr PyExc PyRe PyDict PyFloat PyJson PyTime.
From S2P Require Import PyIO ClientOutput Daemons Client.

Local Open Scope Z_scope.
Local Open Scope py_scope.

Section Commands.
Context {C : Type} {R : Runner C} {S : Type} {o : OS} {U : UCD}.
#[local] Abbreviation run_ := (Client.run_ (S := S)).
#[local] Abbreviation run_admin := (Client.run_admin (S := S)).
#[local] Abbreviation run_generic := (Client.run_generic (S := S)).
#[local] Abbreviation rpc := (Client.rpc (S := S)).

Definition remember_contract (self : C) (alias : str) (contract_address : str) (force : bool) :=
  let params := [$"remember"; $"contract"; alias; contract_address] in
  let params := params ++ (if force then [$"--force"] else []) in
  run_ self params.

Definition remember (self : C) (alias contract : str) :=
  f ← isfile contract; massert f;;
  run_ self [$"remember"; $"script"; alias; $"file:" +:+ contract].

Definition typecheck (self : C) (contract : str) (file legacy details : bool) :=
  (if file then f ← isfile contract; massert f else mret ());;
  let params := [$"typecheck"; $"script"; contract] in
  let params := params ++ (if legacy then [$"--legacy"] else []) in
  let params := params ++ (if details then [$"--details"] else []) in
  run_ self params.

Definition typecheck_data (self : C) (data : str) (typ : str) (legacy : bool) :=
  let params := [$"typecheck"; $"data"; data; $"against"; $"type"; typ] in
  let params := params ++ (if legacy then [$"--legacy"] else []) in
  run_ self params.

Definition get_script (self : C) (contract : str) :=
  run_ self ([$"get"; $"contract"; $"code"; $"for"; contract]).

Definition run_script (self : C) (contract storage inp : str) (amount balance : option num)
    (now : option str) (level : option Z) (trace_stack : bool) (gas : option Z) (file : bool) :=
  (if file then f ← isfile contract; massert f else mret ());;
  let cmd := [$"run"; $"script"; contract; $"on"; $"storage"; storage; $"and"; $"input"; inp] in
  let cmd := cmd ++ match amount with Some x => [$"-z"; format_6f (num_float x)] | None => [] end in
  let cmd := cmd ++ match balance with Some x => [$"--balance";
      format_6f (num_float x)] | None => [] end in
  let cmd := cmd ++ match now with Some n => [$"--now"; n] | None => [] end in
  let cmd := cmd ++ match level with Some n => [$"--level"; str_int n] | None => [] end in
  let cmd := cmd ++ (if trace_stack then [$"--trace-stack"] else []) in
  let cmd := cmd ++ match gas with Some n => [$"--gas"; str_int n] | None => [] end in
  out ← run_ self cmd; lift (RunScriptResult_init out).

Definition hash_script (self : C) (contracts : list str) (display_names : bool)
    (for_script : option str) :
    M S (list (str * option str)) :=
  let params := [$"hash"; $"script"] in
  let params := params ++ (if display_names then [$"--display-names"] else []) in
  let params := params ++ match for_script with Some f => [$"--for-script"; f] | None => [] end in
  let params := params ++ contracts in
  output ← run_ self params;
  let lines := slice None (Some (-1)) (split_on nl output) in
  let delimiter := if bool_decide (for_script = Some $"csv") then 44%N else 9%N in
  lift (rows ← csv_reader lines delimiter;
        mapM_res (fun row =>
          h ← or_raise IndexError (row !! 0%nat);
          n ← (if display_names then Some <$> or_raise IndexError (row !! 1%nat) else Ok None);
          Ok (h, n)) rows).

Definition get_script_hash (self : C) (contract : str) :=
  let params := [$"get"; $"contract"; $"script"; $"hash"; $"for"; contract] in
  out ← run_ self params; mret (strip out).

Definition convert_script (self : C) (inp : str) (input_fmt : str) (output_fmt : str) :=
  let params := [$"convert"; $"script"; inp; $"from"; input_fmt; $"to"; output_fmt] in
  run_ self params.

Definition gen_key (self : C) (alias : str) (args : option (list str)) (stdin : str) :=
  let cmd := [$"gen"; $"keys"; alias] in
  let args := default [] args in
  let cmd := cmd ++ args in
  '(stdout, _, _) ← run_generic self cmd (with_stdin stdin);
  mret stdout.

Definition import_secret_key (self : C) (name secret : str) (password : option str) :=
  let prms := [$"import"; $"secret"; $"key"; name; secret] in
  '(stdout, _, _) ← run_generic self prms (with_stdin (default [] password));
  mret stdout.

Definition add_address (self : C) (name address : str) (force : bool) : M S () :=
  let cmd := [$"add"; $"address"; name; address] in
  let cmd := cmd ++ (if force then [$"--force"] else []) in
  output ← run_ self cmd;
  massert (bool_decide (output = [])).

Definition show_address (self : C) (name : str) (show_secret : bool) :=
  let cmd := [$"show"; $"address"; name] in
  let cmd := cmd ++ (if show_secret then [$"--show-secret"] else []) in
  out ← run_ self cmd; lift (ShowAddressResult_init out).

(** [delay] is a number of seconds. *)
Definition activate_protocol (self : C) (protocol parameter_file fitness key : str)
    (timestamp : option str) (delay : option Z) :=
  f ← isfile parameter_file; massert f;;
  timestamp ← match timestamp with
              | Some ts => mret ts
              | None => now ← ask os_utcnow; mret (iso_utc (now - default 0 delay))
              end;
  let cmd := [$"-block"; $"genesis"; $"activate"; $"protocol"; protocol; $"with"; $"fitness"; fitness;
              $"and"; $"key"; key; $"and"; $"parameters"; parameter_file; $"--timestamp"; timestamp] in
  out ← run_ self cmd; lift (ActivationResult_init out).

Definition activate_protocol_json (self : C) (protocol : str) (parameters : json) (fitness key : str)
    (timestamp : option str) (delay : option Z) :=
  let delay := default 0 delay in
  name ← tempfile_name;
  write_file name $"w+" (dumps parameters);;
  activate_protocol self protocol name fitness key timestamp (Some delay).

Definition show_voting_period (self : C) :=
  run_ self ([$"show"; $"voting"; $"period"]).

Definition ban_peer (self : C) (port : Z) :=
  rpc self $"get" ($"/network/points/127.0.0.1:" +:+ str_int port +:+ $"/ban") None None.

Definition unban_peer (self : C) (port : Z) :=
  rpc self $"get" ($"/network/points/127.0.0.1:" +:+ str_int port +:+ $"/unban") None None.

Definition trust_peer (self : C) (port : Z) :=
  rpc self $"get" ($"/network/points/127.0.0.1:" +:+ str_int port +:+ $"/trust") None None.

Definition untrust_peer (self : C) (port : Z) :=
  rpc self $"get" ($"/network/points/127.0.0.1:" +:+ str_int port +:+ $"/untrust") None None.

Definition get_expected_peer_id (self : C) (port : Z) :=
  r ← rpc self $"get" ($"/network/points/127.0.0.1:" +:+ str_int port) None None;
  lift (jkey $"expected_peer_id" r).

Definition set_expected_peer_id (self : C) (port : Z) (peer_id : json) :=
  rpc self $"patch" ($"/network/points/127.0.0.1:" +:+ str_int port)
    (Some (JDict [($"peer_id", peer_id)])) None.

Definition endorse (self : C) (account : str) :=
  res ← run_ self ([$"endorse"; $"for"; account]);
  lift (EndorseResult_init res).

Definition bake (self : C) (account : str) (args : option (list str)) :=
  let cmd := [$"bake"; $"for"; account] in
  let args := default [] args in
  let cmd := cmd ++ args in
  out ← run_ self cmd; lift (BakeForResult_init out).

Definition multibake (self : C) (delegates : option (list str)) (args : option (list str)) :=
  let cmd := [$"bake"; $"for"] in
  let delegates := default [] delegates in
  let cmd := cmd ++ delegates in
  let args := default [] args in
  let cmd := cmd ++ args in
  out ← run_ self cmd; lift (BakeForResult_init out).

Definition propose (self : C) (delegates : option (list str)) (args : option (list str)) :=
  let cmd := [$"propose"; $"for"] in
  let delegates := default [] delegates in
  let cmd := cmd ++ delegates in
  let args := default [] args in
  let cmd := cmd ++ args in
  out ← run_ self cmd; lift (ProposeForResult_init out).

Definition originate (self : C) (contract_name : str) (amount : num) (sender : str) (contract : str)
    (args : option (list str)) :=
  let cmd := [$"originate"; $"contract"; contract_name; $"transferring"; str_num amount; $"from";
      sender; $"running"; contract] in
  let args := default [] args in
  let cmd := cmd ++ args in
  out ← run_ self cmd; lift (OriginationResult_init out).

Definition hash (self : C) (data typ : str) :=
  let cmd := [$"hash"; $"data"; data; $"of"; $"type"; typ] in
  out ← run_ self cmd; lift (HashResult_init out).

Definition pack (self : C) (data typ : str) :=
  r ← hash self data typ; mret (HashResult_packed r).

Definition normalize (self : C) (data : str) (typ : str) (mode : option str) (legacy : bool) :=
  let cmd := [$"normalize"; $"data"; data; $"of"; $"type"; typ] in
  let cmd := cmd ++ match mode with Some mode => [$"--unparsing-mode"; mode] | None => [] end in
  let cmd := cmd ++ (if legacy then [$"--legacy"] else []) in
  run_ self cmd.

Definition normalize_script (self : C) (script : str) (mode : option str) (file : bool) :=
  (if file then f ← isfile script; massert f else mret ());;
  let cmd := [$"normalize"; $"script"; script] in
  let cmd := cmd ++ match mode with Some m => [$"--unparsing-mode"; m] | None => [] end in
  run_ self cmd.

Definition normalize_type (self : C) (typ : str) :=
  let cmd := [$"normalize"; $"type"; typ] in
  run_ self cmd.

Definition activate_account (self : C) (manager : str) (contract : str) :=
  let cmd := [$"activate"; $"account"; manager; $"with"; contract] in
  run_ self cmd.

Definition cmd_batch (self : C) (source json_ops : str) : list str :=
  [$"multiple"; $"transfers"; $"from"; source; $"using"; json_ops].

Definition sign_message (self : C) (data : str) (identity : str) (block : option str) :=
  let cmd := [$"sign"; $"message"; data; $"for"; identity] in
  let cmd := cmd ++ match block with Some block => [$"--branch"; block] | None => [] end in
  out ← run_ self cmd; r ← lift (SignMessageResult_init out); mret (SignMessageResult_signature r).

Definition check_message (self : C) (data : str) (identity : str) (signature : str) :=
  let cmd := [$"check"; $"that"; $"message"; data; $"was"; $"signed"; $"by"; identity; $"to";
      $"produce"; signature] in
  out ← run_ self cmd; r ← lift (CheckSignMessageResult_init out);
      mret (CheckSignMessageResult_check r).

Definition reveal (self : C) (account : str) (args : option (list str)) :=
  let cmd := [$"reveal"; $"key"; $"for"; account] in
  let args := default [] args in
  let cmd := cmd ++ args in
  res ← run_ self cmd;
  lift (RevealResult_init res).

Definition transfer (self : C) (amount : num) (giver : str) (receiver : str)
    (args : option (list str)) (stdin : str) (chain : option str) :=
  let cmd := [$"transfer"; str_num amount; $"from"; giver; $"to"; receiver] in
  let cmd := match chain with Some chain => [$"--chain"; chain] ++ cmd | None => cmd end in
  let args := default [] args in
  let cmd := cmd ++ args in
  '(stdout, _, _) ← run_generic self cmd (with_stdin stdin);
  lift (TransferResult_init stdout).

Definition transfer_json (self : C) (amount : num) (giver receiver : str) (args : option (list str)) :=
  let json_obj := JList [JDict [($"destination", JStr receiver); ($"amount", JStr (str_num amount))]] in
  let json_ops := dumps_compact json_obj in
  let cmd := cmd_batch self giver json_ops ++ default [] args in
  out ← run_ self cmd; lift (TransferResult_init out).

Definition call (self : C) (source : str) (destination : str) (args : option (list str)) :=
  let cmd := [$"call"; destination; $"from"; source] in
  let args := default [] args in
  let cmd := cmd ++ args in
  res ← run_ self cmd;
  lift (TransferResult_init res).

Definition set_delegate (self : C) (account1 : str) (account2 : str) (args : option (list str)) :=
  let cmd := [$"set"; $"delegate"; $"for"; account1; $"to"; account2] in
  let args := default [] args in
  let cmd := cmd ++ args in
  res ← run_ self cmd;
  lift (SetDelegateResult_init res).

Definition get_delegate (self : C) (account1 : str) (args : option (list str)) :=
  let cmd := [$"get"; $"delegate"; $"for"; account1] in
  let args := default [] args in
  let cmd := cmd ++ args in
  res ← run_ self cmd;
  lift (GetDelegateResult_init res).

Definition get_contract_entrypoint_type (self : C) (entrypoint : str) (contract_name : str) :=
  let cmd := [$"get"; $"contract"; $"entrypoint"; $"type"; $"of"; entrypoint; $"for"; contract_name] in
  out ← run_ self cmd; lift (GetContractEntrypointTypeResult_init out).

Definition withdraw_delegate (self : C) (account1 : str) (args : option (list str)) :=
  let cmd := [$"withdraw"; $"delegate"; $"from"; account1] in
  let args := default [] args in
  let cmd := cmd ++ args in
  res ← run_ self cmd;
  mret res.

Definition register_delegate (self : C) (delegate : str) :=
  run_ self ([$"register"; $"key"; delegate; $"as"; $"delegate"]).

Definition p2p_stat (self : C) :=
  res ← run_admin self ([$"p2p"; $"stat"]);
  lift (P2pStatResult_init res).

Definition get_balance (self : C) (account : str) :=
  out ← run_ self [$"get"; $"balance"; $"for"; account]; lift (extract_balance out).

Definition get_mutez_balance (self : C) (account : str) :=
  out ← run_ self [$"get"; $"balance"; $"for"; account];
  lift (x ← extract_balance out; trunc (fmul x (float_of_Z 1000000))).

Definition get_timestamp (self : C) :=
  res ← run_ self ([$"get"; $"timestamp"]);
  mret (chop res).

(** The result is the time in seconds. *)
Definition get_block_timestamp (self : C) (params : option (list str)) (chain block : str) : M S Z :=
  massert (bool_decide (chain ∈ [$"main"; $"test"]));;
  rpc_res ← rpc self $"get" ($"/chains/" +:+ chain +:+ $"/blocks/" +:+ block +:+ $"/header/shell") None
      params;
  lift (timestamp ← jkey $"timestamp" rpc_res;
        match timestamp with JStr s => strptime_iso s | _ => Raise TypeError end).

Definition get_receipt (self : C) (operation : str) (args : option (list str)) :=
  let cmd := [$"get"; $"receipt"; $"for"; operation] in
  let args := default [] args in
  let cmd := cmd ++ args in
  out ← run_ self cmd; lift (GetReceiptResult_init out).

Definition get_storage (self : C) (contract : str) :=
  let cmd := [$"get"; $"contract"; $"storage"; $"for"; contract] in
  res ← run_ self cmd;
  mret (rstrip res).

Definition get_prevalidator (self : C) :=
  rpc self $"get" $"/workers/prevalidators" None None.

Definition get_mempool (self : C) :=
  rpc self $"get" $"/chains/main/mempool/pending_operations" None None.

Definition mempool_fields : list str :=
  [$"applied"; $"refused"; $"branch_refused"; $"branch_delayed"; $"unprocessed"].

(** [rpc_res[f1] == [] and rpc_res[f2] == [] and ...] *)
Fixpoint all_empty (fields : list str) (j : json) : res bool :=
  match fields with
  | [] => Ok true
  | f :: r => v ← jkey f j; if jeqb v (JList []) then all_empty r j else Ok false
  end.

Definition mempool_is_empty (self : C) : M S bool :=
  rpc_res ← rpc self $"get" $"/chains/main/mempool/pending_operations" None None;
  lift (all_empty mempool_fields rpc_res).

Definition get_head (self : C) :=
  rpc self $"get" $"/chains/main/blocks/head" None None.

Definition get_header (self : C) (block : str) :=
  rpc self $"get" ($"/chains/main/blocks/" +:+ block +:+ $"/header") None None.

Definition get_block (self : C) (block_hash : str) :=
  rpc self $"get" ($"/chains/main/blocks/" +:+ block_hash) None None.

Definition get_operations (self : C) (block_hash : str) :=
  rpc self $"get" ($"/chains/main/blocks/" +:+ block_hash +:+ $"/operations") None None.

Definition get_ballot_list (self : C) :=
  rpc self $"get" $"/chains/main/blocks/head/votes/ballot_list" None None.

Definition get_ballots (self : C) :=
  rpc self $"get" $"/chains/main/blocks/head/votes/ballots" None None.

Definition get_contract_address (self : C) (contract : str) :=
  out ← run_ self ([$"show"; $"known"; $"contract"; contract]); mret (strip out).

Definition get_known_addresses (self : C) :=
  out ← run_ self ([$"list"; $"known"; $"addresses"]); lift (GetAddressesResult_init out).

Definition get_current_period (self : C) :=
  rpc self $"get" $"chains/main/blocks/head/votes/current_period" None None.

Definition get_current_period_kind (self : C) :=
  rpc self $"get" $"chains/main/blocks/head/votes/current_period_kind" None None.

Definition get_succ_period (self : C) :=
  rpc self $"get" $"chains/main/blocks/head/votes/successor_period" None None.

Definition get_current_proposal (self : C) :=
  rpc self $"get" $"/chains/main/blocks/head/votes/current_proposal" None None.

Definition get_current_quorum (self : C) :=
  rpc self $"get" $"/chains/main/blocks/head/votes/current_quorum" None None.

Definition get_listings (self : C) :=
  rpc self $"get" $"/chains/main/blocks/head/votes/listings" None None.

Definition get_proposals (self : C) :=
  rpc self $"get" $"/chains/main/blocks/head/votes/proposals" None None.

Definition get_metadata (self : C) (params : option (list str)) (chain : str) (block : str) :=
  rpc self $"get" ($"/chains/" +:+ chain +:+ $"/blocks/" +:+ block +:+ $"/metadata") None params.

Definition get_protocol (self : C) (params : option (list str)) :=
  metadata ← get_metadata self params $"main" $"head";
  lift (jkey $"protocol" metadata).

Definition get_next_protocol (self : C) (params : option (list str)) :=
  metadata ← get_metadata self params $"main" $"head";
  lift (jkey $"next_protocol" metadata).

Definition get_current_level (self : C) (block : str) (offset : Z) :=
  rpc self $"get" ($"/chains/main/blocks/" +:+ block +:+ $"/helpers/current_level?offset=" +:+ str_int
      offset) None None.

Definition get_period_position (self : C) :=
  rpc_res ← get_current_level self $"head" 1;
  lift (jkey $"voting_period_position" rpc_res).

(** [int(j)] *)
Definition int_of_json (j : json) : res Z :=
  match j with
  | JInt n => Ok n
  | JBool b => Ok (if b then 1 else 0)
  | JFloat x => trunc x
  | JStr s => or_raise ValueError (parse_int s)
  | _ => Raise TypeError
  end.

Definition get_level (self : C) (params : option (list str)) (chain block : str) : M S Z :=
  massert (bool_decide (chain ∈ [$"main"; $"test"]));;
  rpc_res ← rpc self $"get" ($"/chains/" +:+ chain +:+ $"/blocks/" +:+ block +:+ $"/header/shell") None
      params;
  lift (l ← jkey $"level" rpc_res; int_of_json l).

Definition get_tenderbake_round (self : C) (params : option (list str)) (chain level : str) : M S Z :=
  massert (bool_decide (chain ∈ [$"main"; $"test"]));;
  rpc_res ← rpc self $"get" ($"/chains/" +:+ chain +:+ $"/blocks/" +:+ level +:+ $"/helpers/round")
      None params;
  lift (int_of_json rpc_res).

Definition get_checkpoint (self : C) :=
  rpc_res ← rpc self $"get" $"/chains/main/checkpoint" None None;
  mret rpc_res.

Definition get_savepoint (self : C) :=
  rpc_res ← get_checkpoint self;
  lift (jkey $"savepoint" rpc_res).

Definition get_caboose (self : C) :=
  rpc_res ← get_checkpoint self;
  lift (jkey $"caboose" rpc_res).

Definition wait_for_inclusion (self : C) (operation_hash : str) (branch : option str)
    (check_previous : option Z) (args : option (list str)) :=
  let cmd := [$"wait"; $"for"; operation_hash; $"to"; $"be"; $"included"] in
  let cmd := cmd ++ match check_previous with Some check_previous => [$"--check-previous";
      str_int check_previous] | None => [] end in
  let cmd := cmd ++ match branch with Some branch => [$"--branch"; branch] | None => [] end in
  let args := default [] args in
  let cmd := cmd ++ args in
  out ← run_ self cmd; lift (WaitForResult_init out).

Definition inject_protocol (self : C) (proto : str) :=
  run_admin self ([$"inject"; $"protocol"; proto]).

Definition list_protocols (self : C) :=
  out ← run_admin self [$"list"; $"protocols"]; mret (extract_protocols out).

Definition environment_protocol (self : C) (proto : str) :=
  out ← run_admin self [$"protocol"; $"environment"; proto]; lift (extract_environment_protocol out).

Definition list_understood_protocols (self : C) :=
  out ← run_admin self [$"list"; $"understood"; $"protocols"]; mret (extract_protocols out).

Definition submit_proposals (self : C) (account : str) (protos : list str) :=
  let cmd := [$"submit"; $"proposals"; $"for"; account] ++ protos in
  out ← run_ self cmd; lift (SubmitProposalsResult_init out).

Definition submit_ballot (self : C) (account : str) (proto : str) (vote : str) :=
  run_ self ([$"submit"; $"ballot"; $"for"; account; proto; vote]).

Definition bootstrapped (self : C) :=
  run_ self [$"bootstrapped"].

Definition sync_state (self : C) :=
  r ← rpc self $"get" $"chains/main/is_bootstrapped" None None;
  lift (jkey $"sync_state" r).

Definition is_bootstrapped (self : C) (chain : str) :=
  massert (bool_decide (chain ∈ [$"main"; $"test"]));;
  r ← rpc self $"get" ($"chains/" +:+ chain +:+ $"/is_bootstrapped") None None;
  lift (jkey $"bootstrapped" r).

Definition deploy_msig (self : C) (msig_name : str) (amount : num) (src : str) (threshold : Z)
    (keys : list str) (args : option (list str)) :=
  let cmd := [$"deploy"; $"multisig"; msig_name; $"transferring"; str_num amount; $"from"; src;
      $"with"; $"threshold"; str_int threshold; $"on"; $"public"; $"keys"] in
  let cmd := cmd ++ keys in
  let args := default [] args in
  let cmd := cmd ++ args in
  out ← run_ self cmd; lift (OriginationResult_init out).

Definition msig_sign_transfer (self : C) (msig_name : str) (amount : num) (dest : str)
    (secret_key : str) (args : option (list str)) (expected_warning : str) :=
  let cmd := [$"sign"; $"multisig"; $"transaction"; $"on"; msig_name; $"transferring"; str_num amount;
      $"to"; dest; $"using"; $"secret"; $"key"; secret_key] in
  let args := default [] args in
  let cmd := cmd ++ args in
  '(res, err, _) ← run_generic self cmd default_opts;
  massert (bool_decide (err = expected_warning));;
  mret (chop res).

Definition msig_sign_lambda (self : C) (msig_name : str) (lam : str) (secret_key : str)
    (args : option (list str)) :=
  let cmd := [$"sign"; $"multisig"; $"transaction"; $"on"; msig_name; $"running"; $"lambda"; lam;
      $"using"; $"secret"; $"key"; secret_key] in
  let args := default [] args in
  let cmd := cmd ++ args in
  res ← run_ self cmd;
  mret (chop res).

Definition msig_sign_withdraw (self : C) (msig_name : str) (amount : num) (dest : str)
    (secret_key : str) :=
  let cmd := [$"sign"; $"multisig"; $"transaction"; $"on"; msig_name; $"transferring"; str_num amount;
      $"to"; dest; $"using"; $"secret"; $"key"; secret_key] in
  run_ self cmd.

Definition msig_sign_set_delegate (self : C) (msig_name : str) (delegate : str) (secret_key : str) :=
  let cmd := [$"sign"; $"multisig"; $"transaction"; $"on"; msig_name; $"setting"; $"delegate"; $"to";
      delegate; $"using"; $"secret"; $"key"; secret_key] in
  res ← run_ self cmd;
  mret (chop res).

Definition msig_sign_withdrawing_delegate (self : C) (msig_name : str) (secret_key : str) :=
  let cmd := [$"sign"; $"multisig"; $"transaction"; $"on"; msig_name; $"withdrawing"; $"delegate";
      $"using"; $"secret"; $"key"; secret_key] in
  res ← run_ self cmd;
  mret (chop res).

Definition msig_sign_setting_threshold (self : C) (msig_name : str) (secret_key : str) (threshold : Z)
    (public_keys : list str) :=
  let cmd := [$"sign"; $"multisig"; $"transaction"; $"on"; msig_name; $"using"; $"secret"; $"key";
      secret_key; $"setting"; $"threshold"; $"to"; str_int threshold; $"and"; $"public"; $"keys";
      $"to"] in
  let cmd := cmd ++ public_keys in
  res ← run_ self cmd;
  mret (chop res).

Definition sign_bytes_of_string (self : C) (data : str) (identity : str) :=
  let cmd := [$"sign"; $"bytes"; data; $"for"; identity] in
  out ← run_ self cmd; r ← lift (SignBytesResult_init out); mret (SignBytesResult_signature r).

Definition msig_prepare_transfer (self : C) (msig_name : str) (amount : num) (dest : str)
    (args : option (list str)) (expected_warning : str) :=
  let cmd := [$"prepare"; $"multisig"; $"transaction"; $"on"; msig_name; $"transferring";
      str_num amount; $"to"; dest] in
  let args := default [] args in
  let cmd := cmd ++ args in
  '(res, err, _) ← run_generic self cmd default_opts;
  massert (bool_decide (err = expected_warning));;
  mret (chop res).

Definition msig_prepare_lambda (self : C) (msig_name : str) (lam : str) (args : option (list str)) :=
  let cmd := [$"prepare"; $"multisig"; $"transaction"; $"on"; msig_name; $"running"; $"lambda"; lam] in
  let args := default [] args in
  let cmd := cmd ++ args in
  out ← run_ self cmd; mret (chop out).

Definition msig_prepare_set_delegate (self : C) (msig_name : str) (delegate : str)
    (args : option (list str)) :=
  let cmd := [$"prepare"; $"multisig"; $"transaction"; $"on"; msig_name; $"setting"; $"delegate";
      $"to"; delegate] in
  let args := default [] args in
  let cmd := cmd ++ args in
  out ← run_ self cmd; mret (chop out).

Definition msig_prepare_withdrawing_delegate (self : C) (msig_name : str) (args : option (list str)) :=
  let cmd := [$"prepare"; $"multisig"; $"transaction"; $"on"; msig_name; $"withdrawing"; $"delegate"] in
  let args := default [] args in
  let cmd := cmd ++ args in
  out ← run_ self cmd; mret (chop out).

Definition msig_prepare_setting_threshold (self : C) (msig_name : str) (threshold : Z)
    (public_keys : list str) (args : option (list str)) :=
  let cmd := [$"prepare"; $"multisig"; $"transaction"; $"on"; msig_name; $"setting"; $"threshold";
      $"to"; str_int threshold; $"and"; $"public"; $"keys"; $"to"] in
  let cmd := cmd ++ public_keys in
  let args := default [] args in
  let cmd := cmd ++ args in
  out ← run_ self cmd; mret (chop out).

Definition msig_transfer (self : C) (msig_name : str) (amount : num) (dest : str) (src : str)
    (signatures : list str) (args : option (list str)) (expected_warning : str) :=
  let cmd := [$"from"; $"multisig"; $"contract"; msig_name; $"transfer"; str_num amount; $"to"; dest;
      $"on"; $"behalf"; $"of"; src; $"with"; $"signatures"] ++ signatures in
  let args := default [] args in
  let cmd := cmd ++ args in
  '(res, err, _) ← run_generic self cmd default_opts;
  massert (bool_decide (err = expected_warning));;
  mret (chop res).

Definition msig_run_lambda (self : C) (msig_name : str) (lam : str) (src : str)
    (signatures : list str) (args : option (list str)) :=
  let cmd := [$"from"; $"multisig"; $"contract"; msig_name; $"run"; $"lambda"; lam; $"on"; $"behalf";
      $"of"; src; $"with"; $"signatures"] ++ signatures in
  let args := default [] args in
  let cmd := cmd ++ args in
  run_ self cmd.

Definition msig_set_delegate (self : C) (msig_name : str) (delegate : str) (src : str)
    (signatures : list str) (args : option (list str)) :=
  let cmd := [$"set"; $"delegate"; $"of"; $"multisig"; $"contract"; msig_name; $"to"; delegate; $"on";
      $"behalf"; $"of"; src; $"with"; $"signatures"] ++ signatures in
  let args := default [] args in
  let cmd := cmd ++ args in
  run_ self cmd.

Definition msig_withdrawing_delegate (self : C) (msig_name : str) (src : str) (signatures : list str)
    (args : option (list str)) :=
  let cmd := [$"withdraw"; $"delegate"; $"of"; $"multisig"; $"contract"; msig_name; $"on"; $"behalf";
      $"of"; src; $"with"; $"signatures"] ++ signatures in
  let args := default [] args in
  let cmd := cmd ++ args in
  run_ self cmd.

(** [transaction] is a bytes object; the command line has its printed form. *)
Definition msig_run_transaction (self : C) (msig_name : str) (transaction : bytes) (src : str)
    (signatures : list str) (args : option (list str)) (expected_warning : str) :=
  let cmd := [$"run"; $"transaction"; bytes_repr transaction; $"on"; $"multisig"; $"contract";
      msig_name;
              $"on"; $"behalf"; $"of"; src; $"with"; $"signatures"] ++ signatures in
  let args := default [] args in
  let cmd := cmd ++ args in
  '(res, err, _) ← run_generic self cmd default_opts;
  massert (bool_decide (err = expected_warning));;
  mret (chop res).

Definition msig_set_threshold (self : C) (msig_name : str) (threshold : Z) (public_keys : list str)
    (src : str) (signatures : list str) (args : option (list str)) :=
  let cmd := [$"set"; $"threshold"; $"of"; $"multisig"; $"contract"; msig_name; $"to";
      str_int threshold; $"and"; $"public"; $"keys"; $"to"] in
  let cmd := cmd ++ public_keys in
  let cmd := cmd ++ [$"on"; $"behalf"; $"of"; src; $"with"; $"signatures"] in
  let cmd := cmd ++ signatures in
  let args := default [] args in
  let cmd := cmd ++ args in
  run_ self cmd.

Definition fa12_check (self : C) (fa_name : str) :=
  let cmd := [$"check"; $"contract"; fa_name; $"implements"; $"fa1.2"] in
  try_except (output ← run_ self cmd; lift (FA12CheckResult_init output))
    (fun e => match e with
              | CalledProcessError _ _ _ err => Some (lift (FA12CheckResult_init err))
              | _ => None
              end).

Definition fa12_transfer (self : C) (contract_name : str) (amount : Z) (src : str) (dst : str)
    (args : list str) :=
  let cmd := [$"from"; $"fa1.2"; $"contract"; contract_name; $"transfer"; str_int amount; $"from"; src;
      $"to"; dst] ++ args in
  run_ self cmd.

Definition fa12_transfer_as (self : C) (contract_name : str) (amount : Z) (src : str) (dst : str)
    (as_ : str) (args : list str) :=
  let args := [$"--as"; as_] ++ args in
  fa12_transfer self contract_name amount src dst args.

Definition fa12_approve (self : C) (contract_name : str) (amount : Z) (src : str) (dst : str)
    (args : list str) :=
  let cmd := [$"from"; $"fa1.2"; $"contract"; contract_name; $"as"; src; $"approve"; str_int amount;
      $"from"; dst] ++ args in
  run_ self cmd.

Definition fa12_get_balance_offchain (self : C) (contract_name : str) (src : str) (args : list str) :=
  let cmd := [$"from"; $"fa1.2"; $"contract"; contract_name; $"get"; $"balance"; $"for"; src] ++ args in
  out ← run_ self cmd; lift (FA12ViewResult_init out).

Definition fa12_get_allowance_offchain (self : C) (contract_name : str) (src : str) (dst : str)
    (args : list str) :=
  let cmd := [$"from"; $"fa1.2"; $"contract"; contract_name; $"get"; $"allowance"; $"on"; src; $"as";
      dst] ++ args in
  out ← run_ self cmd; lift (FA12ViewResult_init out).

Definition fa12_get_total_supply_offchain (self : C) (contract_name : str) (args : list str) :=
  let cmd := [$"from"; $"fa1.2"; $"contract"; contract_name; $"get"; $"total"; $"supply"] ++ args in
  out ← run_ self cmd; lift (FA12ViewResult_init out).

Definition fa12_get_balance_callback (self : C) (contract_name : str) (src : str) (callback : str)
    (args : list str) :=
  let cmd := [$"from"; $"fa1.2"; $"contract"; contract_name; $"get"; $"balance"; $"for"; src;
      $"callback"; $"on"; callback] ++ args in
  run_ self cmd.

Definition fa12_get_allowance_callback (self : C) (contract_name : str) (src : str) (dst : str)
    (callback : str) (args : list str) :=
  let cmd := [$"from"; $"fa1.2"; $"contract"; contract_name; $"get"; $"allowance"; $"on"; src; $"as";
      dst; $"callback"; $"on"; callback] ++ args in
  run_ self cmd.

Definition fa12_get_total_supply_callback (self : C) (contract_name : str) (src : str)
    (callback : str) (args : list str) :=
  let cmd := [$"from"; $"fa1.2"; $"contract"; contract_name; $"get"; $"total"; $"supply"; $"as"; src;
      $"callback"; $"on"; callback] ++ args in
  run_ self cmd.

Definition fa12_deploy_viewer (self : C) (viewer_name : str) (typ : str) (src : str)
    (args : list str) :=
  let cmd := [$"deploy"; $"viewer"; $"contract"; viewer_name; $"of"; $"type"; typ; $"from";
      src] ++ args in
  run_ self cmd.

Definition fa12_mk_batch_transfer (self : C) (dst token : str) (amount : Z) : json :=
  JList [JDict [($"destination", JStr dst); ($"amount", JStr (str_int amount));
                ($"token_contract", JStr token)]].

Definition fa12_multiple_tokens_transfers (self : C) (src : str) (ops : str) (args : list str) :=
  let cmd := [$"multiple"; $"fa1.2"; $"transfers"; $"from"; src; $"using"; ops] ++ args in
  res ← run_ self cmd;
  mret res.

Definition fa12_multiple_tokens_transfers_as (self : C) (src : str) (as_ : str) (ops : str)
    (args : list str) :=
  let args := [$"--as"; as_] ++ args in
  res ← fa12_multiple_tokens_transfers self src ops args;
  mret res.

(** [except Exception]: the exceptions that are not derived from Exception are
    those that end the program. *)
Definition is_Exception (e : exc) : bool :=
  match e with SystemExit _ | PytestExit _ | XFailed _ | Skipped _ => false | _ => true end.

(** The loop, with the number of attempts left. *)
Fixpoint listening_loop (self : C) (timeout : float) (attempts : nat) : M S bool :=
  match attempts with
  | O => mret false
  | Datatypes.S n =>
      r ← try_except
            (sleep timeout;; rpc self $"get" $"/network/version" None None;; mret true)
            (fun e => if is_Exception e then Some (mret false) else None);
      if (r : bool) then mret true else listening_loop self timeout n
  end.

Definition check_node_listening (self : C) (timeout : float) (attempts : Z) : M S bool :=
  listening_loop self timeout (Z.to_nat attempts).

Definition expand_macros (self : C) (src : str) :=
  let cmd := [$"expand"; $"macros"; $"in"; src] in
  run_ self cmd.

Definition list_mockup_protocols (self : C) :=
  let cmd := [$"list"; $"mockup"; $"protocols"] in
  out ← run_ self cmd; lift (ListMockupProtocols_init out).

Definition create_mockup (self : C) (protocol : str) (check : bool)
    (protocol_constants_file bootstrap_accounts_file : option str) :=
  let cmd := [$"--protocol"; protocol; $"create"; $"mockup"] in
  let cmd := cmd ++ match protocol_constants_file with Some f => [$"--protocol-constants";
      f] | None => [] end in
  let cmd := cmd ++ match bootstrap_accounts_file with Some f => [$"--bootstrap-accounts";
      f] | None => [] end in
  '(stdout, stderr, exit_code) ← run_generic self cmd (RunOpts false check false [] None);
  lift (CreateMockup_init stdout stderr exit_code).

Definition get_block_metadata_hash (self : C) :=
  rpc self $"get" $"/chains/main/blocks/head/metadata_hash" None None.

Definition get_operations_metadata_hash (self : C) :=
  rpc self $"get" $"/chains/main/blocks/head/operations_metadata_hash" None None.

(** [args = args or []] keeps a non-empty list of the caller, which
    [args += ['--force']] then extends: the second component is the caller's
    list after the call. *)
Definition gen_key_args (force : bool) (args : option (list str)) : list str * option (list str) :=
  let extra := if force then [$"--force"] else [] in
  match args with
  | Some (a :: r) => ((a :: r) ++ extra, Some ((a :: r) ++ extra))
  | _ => (extra, args)
  end.

Definition sapling_gen_key (self : C) (key_name : str) (force : bool) (args : option (list str)) :
    M S (SaplingGenKeyResult * option (list str)) :=
  let '(args, caller_args) := gen_key_args force args in
  let cmd := [$"sapling"; $"gen"; $"key"; key_name; $"--unencrypted"] ++ args in
  out ← run_ self cmd;
  r ← lift (SaplingGenKeyResult_init out);
  mret (r, caller_args).

Definition sapling_use_key_for_contract (self : C) (key_name : str) (contract_name : str)
    (memo_size : option Z) :=
  let cmd := [$"sapling"; $"use"; $"key"; key_name; $"for"; $"contract"; contract_name] in
  let cmd := cmd ++ match memo_size with Some memo_size => [$"--memo-size";
      str_int memo_size] | None => [] end in
  run_ self cmd;; mret ().

Definition sapling_gen_address (self : C) (key_name : str) (index : option Z)
    (args : option (list str)) :=
  let args := default [] args in
  let cmd := [$"sapling"; $"gen"; $"address"; key_name] in
  let cmd := cmd ++ match index with Some index => [$"--address-index";
      str_int index] | None => [] end in
  let cmd := cmd ++ args in
  out ← run_ self cmd; lift (SaplingGenAddressResult_init out).

Definition sapling_import_key (self : C) (key_name : str) (mnemonic : list str) (force : bool)
    (args : option (list str)) :=
  let mnemonic_str := join $" " mnemonic in
  let cmd := [$"sapling"; $"import"; $"key"; key_name; $"--unencrypted"; $"--mnemonic"; mnemonic_str] in
  let args := default [] args in
  let cmd := cmd ++ (if force then [$"--force"] else []) in
  let cmd := cmd ++ args in
  run_ self cmd;; mret ().

Definition sapling_derive_key (self : C) (source_key_name : str) (target_key_name : str)
    (contract_name : str) (index : Z) (force : bool) :=
  let cmd := [$"sapling"; $"derive"; $"key"; target_key_name; $"from"; source_key_name; $"at";
      $"index"; str_int index; $"--for-contract"; contract_name; $"--unencrypted"] in
  let cmd := cmd ++ (if force then [$"--force"] else []) in
  out ← run_ self cmd; lift (SaplingDeriveKeyResult_init out).

Definition sapling_get_balance (self : C) (key_name : str) (contract_name : str)
    (args : option (list str)) :=
  let cmd := [$"sapling"; $"get"; $"balance"; $"for"; key_name; $"in"; $"contract"; contract_name] in
  let args := default [] args in
  let cmd := cmd ++ args in
  out ← run_ self cmd; lift (SaplingGetBalanceResult_init out).

Definition sapling_shield (self : C) (amount : num) (src : str) (dest : str) (contract : str)
    (args : option (list str)) :=
  let cmd := [$"sapling"; $"shield"; str_num amount; $"from"; src; $"to"; dest; $"using"; contract] in
  let args := default [] args in
  let cmd := cmd ++ args in
  run_ self cmd;; mret ().

Definition sapling_unshield (self : C) (amount : num) (src : str) (dest : str) (contract : str)
    (args : option (list str)) :=
  let cmd := [$"sapling"; $"unshield"; str_num amount; $"from"; src; $"to"; dest; $"using"; contract] in
  let args := default [] args in
  let cmd := cmd ++ args in
  run_ self cmd;; mret ().

Definition sapling_forge_transaction (self : C) (amount : num) (src : str) (dest : str)
    (contract : str) (file : str) (args : option (list str)) :=
  let cmd := [$"sapling"; $"forge"; $"transaction"; str_num amount; $"from"; src; $"to"; dest;
      $"using"; contract; $"--file"; file] in
  let args := default [] args in
  let cmd := cmd ++ args in
  run_ self cmd;; mret ().

Definition sapling_submit (self : C) (file : str) (fee_payer : str) (contract : str)
    (args : option (list str)) :=
  let cmd := [$"sapling"; $"submit"; file; $"from"; fee_payer; $"using"; contract] in
  let args := default [] args in
  let cmd := cmd ++ args in
  run_ self cmd;; mret ().

Definition sapling_list_keys (self : C) : M S (list str) :=
  out ← run_ self [$"sapling"; $"list"; $"keys"]; mret (split_on nl (strip out)).

Definition run_view (self : C) (entrypoint : str) (contract : str) (parameter : str)
    (args : option (list str)) :=
  let cmd := [$"run"; $"tzip4"; $"view"; entrypoint; $"on"; $"contract"; contract; $"with"; $"input";
      parameter] in
  let args := default [] args in
  let cmd := cmd ++ args in
  out ← run_ self cmd; lift (ViewResult_init out).

Definition frozen_deposits (self : C) (delegate : str) (level : option str) : M S Z :=
  let level_arg := match truthy level with Some l => $"/?level=" +:+ l | None => [] end in
  r ← rpc self $"get" ($"/chains/main/blocks/head/context/delegates/" +:+ delegate
                       +:+ $"/frozen_deposits" +:+ level_arg) None None;
  lift (int_of_json r).
End Commands.

(** The optional arguments given to [sapling_gen_key] are extended in place:
    a caller that passes a non-empty list and [force] finds "--force" appended
    to its own list, once per call; in all other cases its list is unchanged. *)
Theorem sapling_gen_key_extends_args (force : bool) (args : list str) (n : nat) :
  (args <> [] -> force = true ->
    Nat.iter n (fun a => (gen_key_args force a).2) (Some args)
    = Some (args ++ replicate n $"--force")) /\
  (args = [] \/ force = false -> (gen_key_args force (Some args)).2 = Some args).
Proof.
  split.
  - intros Hne ->. induction n as [|n IH]; [cbn; by rewrite app_nil_r|].
    cbn [Nat.iter nat_rect]. unfold Nat.iter in IH. rewrite IH.
    destruct args as [|a args]; [done|]. cbn [gen_key_args app snd].
    rewrite replicate_S_end. cbn. by rewrite <- app_assoc.
  - intros [->| ->]; [done|]. destruct args; [done|]. cbn. by rewrite app_nil_r.
Qed.

Lemma sapling_gen_key_extends_args_witness :
  Nat.iter 2 (fun a => (gen_key_args true a).2) (Some [$"-q"])
  = Some [$"-q"; $"--force"; $"--force"].
Proof. apply (proj1 (sapling_gen_key_extends_args true [$"-q"] 2)); [discriminate|reflexivity]. Defined.
