(* ===== verification/ClientFacts.v ===== *)
(** * What the client promises

    [RunnerSpec] states what the command methods rely on in a class of clients:
    what [run_generic] returns for a process that answers, and which exceptions
    it raises.  Client and ClientRegression satisfy it; the theorems on the
    commands are proved for every class that does. *)

From Stdlib Require Import ZArith Lia.
From stdpp Require Import base tactics list strings numbers.
From S2P Require Import Prelude PyStr PyExc PyRe PyDict PyFloat PyJson PyTime.
From S2P Require Import PyIO ClientOutput Daemons Client ClientCommands.

Local Open Scope Z_scope.
Local Open Scope py_scope.

(** The system raises errors, it does not end the program. *)
Definition ordinary_os (o : OS) : Prop :=
  forall t cmd i env e, os_run t cmd i env = Raise e -> is_Exception e = true.

(** The process started by this call answers. *)
Definition call_answers {C} {R : Runner C} {o : OS} (self : C) (params : list str) (opts : run_opts)
    (t : trace) (out err : str) (rc : Z) : Prop :=
  let cmd := full_command (client_of self) params opts in
  answers t cmd [] (call_environ (client_of self) opts
    (os_environ (t ++ [EPrint (format_command cmd true)]))) out err rc.

Class RunnerSpec (C : Type) {R : Runner C} : Prop := {
  run_generic_result {S : Type} {o : OS} (self : C) params opts (s : S) t out err rc :
    stdin opts = [] -> env_change opts = None -> call_answers self params opts t out err rc ->
    (run_generic self params opts s t).1
    = (if check opts && negb (rc =? 0)
       then Raise (CalledProcessError rc (full_command (client_of self) params opts) out err)
       else Ok (out, err, rc), s);
  run_generic_ordinary {S : Type} {o : OS} (self : C) params opts (s : S) t e :
    ordinary_os o -> (run_generic self params opts s t).1.1 = Raise e -> is_Exception e = true;
  run_generic_state {S : Type} {o : OS} (self : C) params opts (s : S) t :
    (run_generic self params opts s t).1.2 = s }.

Lemma Client_run_generic_state {S} {o : OS} self params opts (s : S) t :
  (Client_run_generic self params opts s t).1.2 = s.
Proof. unfold Client_run_generic, print_nonempty. m_run. repeat (case_match; simplify_eq/=); done. Qed.

Lemma Client_run_generic_ordinary {S} {o : OS} self params opts (s : S) t e :
  ordinary_os o -> (Client_run_generic self params opts s t).1.1 = Raise e -> is_Exception e = true.
Proof.
  intros Ho. unfold Client_run_generic, print_nonempty. m_run.
  destruct (os_run _ _ _ _) as [p|e'] eqn:E; [|cbn; intros [= <-]; by eapply Ho].
  destruct (decode_utf8 (p_stdout p)) as [out|e1] eqn:E1;
    [|apply decode_utf8_error in E1 as ->; cbn; by intros [= <-]].
  destruct (decode_utf8 (p_stderr p)) as [err|e2] eqn:E2;
    [|apply decode_utf8_error in E2 as ->; cbn; by intros [= <-]].
  destruct (bool_decide (out = [])), (bool_decide (err = [])); cbn [negb];
    destruct (check opts && _); cbn; intros; simplify_eq; done.
Qed.

#[export] Instance client_spec : RunnerSpec Client.
Proof.
  constructor.
  - intros S o self params opts s t out err rc Hs He Ha. unfold call_answers in Ha. cbn in Ha.
    rewrite <- Hs in Ha. cbn. by rewrite (Client_run_generic_spec self params opts s t out err rc Ha).
  - intros. eapply Client_run_generic_ordinary; eauto.
  - intros. apply Client_run_generic_state.
Qed.

#[export] Instance regression_spec : RunnerSpec ClientRegression.
Proof.
  constructor.
  - intros S o self params opts s t out err rc Hs He Ha.
    destruct opts as [a c tr si ev]. cbn in Hs, He. subst si ev.
    cbn [run_generic regression_runner]. unfold ClientRegression_run_generic, write_regtest. m_run.
    cbn [admin check trace_rpcs].
    rewrite (Client_run_generic_spec (super self) params _ s t out err rc Ha). cbn [check].
    destruct (c && negb (rc =? 0)); m_run; destruct (regtest self); done.
  - intros S o self params opts s t e Ho. cbn [run_generic regression_runner].
    unfold ClientRegression_run_generic, write_regtest. m_run.
    set (passed := RunOpts _ _ _ _ _).
    pose proof (Client_run_generic_ordinary (super self) params passed s t) as H.
    destruct (Client_run_generic (super self) params passed s t) as [[[[[out err] rc]|e'] s'] t'] eqn:E.
    + destruct (regtest self); cbn; intros; simplify_eq.
    + specialize (H e' Ho eq_refl). destruct e'; m_run; destruct (regtest self); cbn;
        intros; simplify_eq; done.
  - intros S o self params opts s t. cbn [run_generic regression_runner].
    unfold ClientRegression_run_generic, write_regtest. m_run.
    set (passed := RunOpts _ _ _ _ _).
    pose proof (Client_run_generic_state (super self) params passed s t) as H.
    destruct (Client_run_generic (super self) params passed s t) as [[[[[out err] rc]|e'] s'] t'] eqn:E;
      cbn in H; subst s'.
    + destruct (regtest self); done.
    + destruct e'; m_run; destruct (regtest self); done.
Qed.

Section Commands.
Context {C : Type} {R : Runner C} {RS : RunnerSpec C} {S : Type} {o : OS} {U : UCD}.

Lemma bind_result {A B} (m : M S A) (f : A -> M S B) s t r :
  (m s t).1 = (r, s) -> (forall a t', r = Ok a -> (f a s t').1 = ((f a s []).1.1, s)) ->
  ((m ≫= f) s t).1 = (match r with Ok a => (f a s []).1.1 | Raise e => Raise e end, s).
Proof.
  intros Hm Hf. unfold mbind, M_bind. destruct (m s t) as [[r' s'] t']. cbn in Hm. simplify_eq.
  destruct r as [a|e]; [|done]. by apply Hf.
Qed.

(** [run]: the output of a process that succeeded, or CalledProcessError. *)
Lemma run_result (self : C) params (a : bool) (s : S) t out err rc :
  let opts := RunOpts a true false [] None in
  call_answers self params opts t out err rc ->
  (run self params a true false s t).1
  = (if rc =? 0 then Ok out
     else Raise (CalledProcessError rc (full_command (client_of self) params opts) out err), s).
Proof.
  intros opts Ha. unfold run. unfold mbind, M_bind.
  pose proof (run_generic_result self params opts s t out err rc eq_refl eq_refl Ha) as H.
  fold opts. destruct (run_generic self params opts s t) as [[r s'] t'].
  cbn in H. simplify_eq. destruct (rc =? 0); done.
Qed.

(** The environment of the processes of a client: that of the caller, with the
    disclaimer disabled if the client was asked to. *)
Definition client_environ (self : Client) (base : environ) : environ :=
  if _disable_disclaimer self then dset $"TEZOS_CLIENT_UNSAFE_DISABLE_DISCLAIMER" $"Y" base else base.

(** C29. An RPC through the client: a verb that is not one of the five raises
    AssertionError and runs nothing.  Otherwise the process run is the client with
    the given parameters, then "rpc", the verb and the path and, for data, "with"
    and its JSON text; the answer is decoded, output that is not JSON raises
    InvalidClientOutput with that output, and a failing process raises
    CalledProcessError with the command and the output. *)
Theorem rpc_decodes (self : C) (verb path : str) (data : option json) (params : option (list str))
    (s : S) (t : trace) (out err : str) (rc : Z) :
  let known := [$"put"; $"get"; $"post"; $"delete"; $"patch"] in
  let cmd := _client (client_of self) ++ default [] params ++ [$"rpc"; verb; path]
    ++ match data with None => [] | Some d => [$"with"; dumps d] end in
  let env := client_environ (client_of self) (os_environ (t ++ [EPrint (format_command cmd true)])) in
  (verb ∉ known -> rpc self verb path data params s t = (Raise AssertionError, s, t)) /\
  (verb ∈ known -> answers t cmd [] env out err rc ->
   (rpc self verb path data params s t).1
   = (if rc =? 0 then
        match loads out with Ok j => Ok j | Raise _ => Raise (InvalidClientOutput out) end
      else Raise (CalledProcessError rc cmd out err), s)).
Proof.
  intros known cmd env. unfold rpc. split.
  - intros Hv. rewrite bool_decide_eq_false_2 by done. reflexivity.
  - intros Hv Ha. rewrite bool_decide_eq_true_2 by done. m_run. unfold run_.
    assert (Ec : full_command (client_of self) (rpc_params verb path data params) default_opts = cmd).
    { unfold full_command, rpc_params, cmd. cbn [admin trace_rpcs default_opts]. by destruct data. }
    pose proof (run_result self (rpc_params verb path data params) false s t out err rc) as H.
    unfold call_answers in H. cbv zeta in H. fold default_opts in H. rewrite Ec in H. specialize (H Ha).
    destruct (run self _ false true false s t) as [[r s'] t']. cbn in H. simplify_eq.
    destruct (rc =? 0); [|done]. cbn. unfold extract_rpc_answer.
    destruct (loads out) as [j|e] eqn:E; [done|]. apply loads_error in E as ->. done.
Qed.

Definition is_sleep (e : event) : bool := match e with ESleep _ => true | _ => false end.

(** One round of the loop. *)
Definition attempt (self : C) (timeout : float) : M S json :=
  sleep timeout;; rpc self $"get" $"/network/version" None None.

(** The trace before round [i], if all rounds before it failed. *)
Fixpoint after_rounds (self : C) (timeout : float) (i : nat) (s : S) (t : trace) : trace :=
  match i with
  | O => t
  | Datatypes.S k => after_rounds self timeout k s (attempt self timeout s t).2
  end.

Definition round_ok (self : C) (timeout : float) (i : nat) (s : S) (t : trace) : bool :=
  is_ok (attempt self timeout s (after_rounds self timeout i s t)).1.1.

Lemma rpc_state (self : C) verb path data params (s : S) t : (rpc self verb path data params s t).1.2 = s.
Proof.
  unfold rpc, run_, run. m_run. destruct (bool_decide _); [|done].
  pose proof (run_generic_state self (rpc_params verb path data params) (RunOpts false true false [] None) s t) as H.
  destruct (run_generic self _ _ s t) as [[[[[x y] z]|e] s'] t']; done.
Qed.

Lemma rpc_ordinary (self : C) verb path data params (s : S) t e :
  ordinary_os o -> (rpc self verb path data params s t).1.1 = Raise e -> is_Exception e = true.
Proof.
  intros Ho. unfold rpc, run_, run. m_run. destruct (bool_decide _); [|cbn; by intros [= <-]].
  pose proof (run_generic_ordinary self (rpc_params verb path data params)
    (RunOpts false true false [] None) s t) as H.
  destruct (run_generic self _ _ s t) as [[[[[x y] z]|e'] s'] t']; cbn.
  - intros E. assert (E' : e = InvalidClientOutput x); [|by subst].
    unfold extract_rpc_answer in E. destruct (loads x) as [j|e1] eqn:E1; [done|].
    apply loads_error in E1 as ->. congruence.
  - intros [= <-]. by apply (H e').
Qed.

(** Waiting for a node always ends and never raises: the result is True
    exactly when one of the given number of attempts, made one after the other,
    gets an answer to the version RPC. *)
Theorem check_node_listening_total (self : C) (timeout : float) (attempts : Z) (s : S) (t : trace) :
  ordinary_os o ->
  exists b, (check_node_listening self timeout attempts s t).1 = (Ok b, s) /\
    (b = true <-> exists i, (i < Z.to_nat attempts)%nat /\ round_ok self timeout i s t = true).
Proof.
  intros Ho. unfold check_node_listening. generalize (Z.to_nat attempts) as n. clear attempts.
  intros n. revert t. induction n as [|n IH]; intros t; cbn [listening_loop].
  { exists false. split; [done|]. split; [done|]. by intros (i & Hi & _); lia. }
  pose proof (rpc_state self $"get" $"/network/version" None None s (t ++ [ESleep timeout])) as Hst.
  pose proof (rpc_ordinary self $"get" $"/network/version" None None s (t ++ [ESleep timeout])) as Hex.
  assert (E0 : attempt self timeout s t
    = rpc self $"get" $"/network/version" None None s (t ++ [ESleep timeout])) by reflexivity.
  unfold mbind at 1, M_bind at 1, try_except. unfold sleep at 1, emit at 1. unfold mbind, M_bind.
  destruct (rpc self $"get" $"/network/version" None None s (t ++ [ESleep timeout]))
    as [[[j|e] s'] t'] eqn:E; cbn in Hst; subst s'; cbn.
  - exists true. split; [done|]. split; [|done]. intros _. exists 0%nat. split; [lia|].
    unfold round_ok. cbn [after_rounds]. by rewrite E0.
  - rewrite (Hex e Ho eq_refl). cbn. destruct (IH t') as (b & Hb & Hi). exists b. split; [done|].
    rewrite Hi. split.
    + intros (i & Hlt & Hr). exists (Datatypes.S i). split; [lia|].
      unfold round_ok in *. cbn [after_rounds]. by rewrite E0.
    + intros ([|i] & Hlt & Hr).
      * unfold round_ok in Hr. cbn [after_rounds] in Hr. by rewrite E0 in Hr.
      * exists i. split; [lia|]. unfold round_ok in *. cbn [after_rounds] in Hr. by rewrite E0 in Hr.
Qed.

(** The balance in mutez is the float balance times 1000000, truncated; for
    balances whose product falls below the integer it is one mutez short, such
    as 2009999 for 2.01. *)
Theorem get_mutez_balance_truncates (self : C) (account b rest : str) (x : float) (n : Z)
    (s : S) (t : trace) (err : str) :
  Forall (fun c => word_dot c = true) b -> parse_float b = Some x ->
  trunc (fmul x (float_of_Z 1000000)) = Ok n ->
  call_answers self [$"get"; $"balance"; $"for"; account] default_opts t (b +:+ $" ꜩ" +:+ rest) err 0 ->
  (get_mutez_balance self account s t).1 = (Ok n, s) /\
  (b = $"2.01" -> n = 2009999).
Proof.
  intros Hb Hx Hn Ha. split.
  - unfold get_mutez_balance, run_. unfold mbind, M_bind.
    pose proof (run_result self [$"get"; $"balance"; $"for"; account] false s t _ err 0 Ha) as H.
    destruct (run self _ false true false s t) as [[r s'] t']. cbn in H. simplify_eq.
    change (Z.eqb 0 0) with true. unfold lift.
    rewrite (extract_balance_reads b x rest Hb Hx). cbn [res_bind]. by rewrite Hn.
  - intros ->. assert (E : parse_float $"2.01" = Some (float_of_decimal 201 (-2))) by (vm_compute; reflexivity).
    assert (Hx' : x = float_of_decimal 201 (-2)) by congruence. rewrite Hx' in Hn.
    assert (E2 : trunc (fmul (float_of_decimal 201 (-2)) (float_of_Z 1000000)) = Ok 2009999)
      by (vm_compute; reflexivity).
    rewrite E2 in Hn. congruence.
Qed.
End Commands.

Section Transfers.
Context {S : Type} {o : OS} {U : UCD}.

End Transfers.

(** ** Concrete calls *)

(** A system whose processes all answer with the same text and code. *)
Definition answering (out : str) (rc : Z) : OS :=
  {| os_isfile _ _ := true; os_isdir _ _ := true; os_environ _ := [];
     os_run _ _ _ _ := Ok (ProcResult (encode out) [] rc); os_spawn t _ _ _ := Ok (Z.of_nat (length t));
     os_poll _ _ := None; os_wait _ _ _ := Some 0; os_mkdtemp _ p := Ok p;
     os_tempfile _ := Ok $"/tmp/params"; os_rmtree _ _ := Ok ();
     os_read _ _ := Ok $"{}"; os_write _ _ _ := Ok ();
     os_http _ _ _ _ := Raise OSError; os_utcnow _ := 0; os_getcwd _ := $"/";
     os_listdir _ _ := Ok []; os_exec _ _ _ _ := Ok 0 |}.

Definition sample_client : Client :=
  MkClient None true true $"/tmp/c" [$"tezos-client"] [$"tezos-admin-client"] None $"http://127.0.0.1:8732".

Lemma answering_answers out rc t cmd i env :
  decode_utf8 (encode out) = Ok out -> answers (o := answering out rc) t cmd i env out [] rc.
Proof. intros H. exists (ProcResult (encode out) [] rc). split_and!; done. Defined.


Lemma regression_run_generic_witness :
  (ClientRegression_run_generic (o := answering $"ok" 0) (MkRegression sample_client (Some 7))
     [$"gen"; $"keys"; $"k"] (with_stdin $"secret") () []).1.1 = Ok ($"ok", [], 0).
Proof.
  rewrite (regression_run_generic (o := answering $"ok" 0) (MkRegression sample_client (Some 7)) 7
     [$"gen"; $"keys"; $"k"] (with_stdin $"secret") () [] $"ok" [] 0).
  - vm_compute. reflexivity.
  - reflexivity.
  - apply answering_answers. vm_compute. reflexivity.
Defined.

Lemma rpc_decodes_witness :
  (rpc (o := answering $"[1, 2]" 0) sample_client $"get" $"/chains" None None () []).1
  = (Ok (JList [JInt 1; JInt 2]), ()).
Proof.
  rewrite (proj2 (rpc_decodes (o := answering $"[1, 2]" 0) sample_client $"get" $"/chains" None None () []
    $"[1, 2]" [] 0)).
  - vm_compute. reflexivity.
  - apply (bool_decide_unpack _). vm_compute. exact I.
  - apply answering_answers. vm_compute. reflexivity.
Defined.


Lemma check_node_listening_total_witness :
  exists b, (check_node_listening (o := answering $"{}" 0) sample_client (float_of_Z 1) 20 () []).1 = (Ok b, ()) /\
    (b = true <-> exists i, (i < 20)%nat /\
      round_ok (o := answering $"{}" 0) sample_client (float_of_Z 1) i () [] = true).
Proof.
  apply (check_node_listening_total (o := answering $"{}" 0) sample_client (float_of_Z 1) 20 () []).
  intros t cmd i env e H. discriminate H.
Defined.

Lemma get_mutez_balance_truncates_witness :
  (get_mutez_balance (U := ascii_only_ucd) (o := answering ($"2.01 ꜩ" +:+ [nl]) 0) sample_client $"b1" () []).1
  = (Ok 2009999, ()).
Proof.
  apply (get_mutez_balance_truncates (U := ascii_only_ucd) (o := answering ($"2.01 ꜩ" +:+ [nl]) 0)
    sample_client $"b1" $"2.01" [nl] (float_of_decimal 201 (-2)) 2009999 () [] []).
  - repeat constructor.
  - vm_compute. reflexivity.
  - vm_compute. reflexivity.
  - apply (answering_answers ($"2.01 ꜩ" +:+ [nl])). vm_compute. reflexivity.
Defined.
