(* ===== verification/Sandbox.v ===== *)
(** * The sandbox (tests_python/launchers/sandbox.py)

    A Sandbox manages nodes, clients and daemons, registered by a node number and,
    for the daemons, a protocol.  Node objects are shared between the registry
    and the methods that work on them: they live in a heap and the registry
    holds references.  Clients are not changed after their construction and
    daemons are processes, so both are kept by value. *)

From Stdlib Require Import ZArith Lia.
From stdpp Require Import base tactics list strings numbers.
From S2P Require Import Prelude PyStr PyExc PyRe PyDict PyFloat PyJson PyTime.
From S2P Require Import PyIO ClientOutput Daemons Client ClientCommands ClientFacts.

Local Open Scope Z_scope.
Local Open Scope py_scope.

Definition NODE : str := $"tezos-node".
Definition CLIENT : str := $"tezos-client".
Definition CLIENT_ADMIN : str := $"tezos-admin-client".
Definition BAKER : str := $"tezos-baker".
Definition ENDORSER : str := $"tezos-endorser".
Definition ACCUSER : str := $"tezos-accuser".

Abbreviation identities_t := (list (str * list (str * str))).
(** Processes by protocol and node number. *)
Abbreviation daemons_t := (list (str * list (Z * Z))).

Record Sandbox (C : Type) := MkSandbox {
  binaries_path : str;
  log_dir : option str;
  identities : identities_t;
  rpc_base : Z;
  p2p_base : Z;
  num_peers : Z;
  singleprocess : bool;
  heap : list Node.Node;
  clients : list (Z * C);
  nodes : list (Z * nat);
  bakers : daemons_t;
  endorsers : daemons_t;
  accusers : daemons_t;
  counter : Z;
  logs : list str }.

Arguments MkSandbox {C}.
Arguments binaries_path {C}.
Arguments log_dir {C}.
Arguments identities {C}.
Arguments rpc_base {C}.
Arguments p2p_base {C}.
Arguments num_peers {C}.
Arguments singleprocess {C}.
Arguments heap {C}.
Arguments clients {C}.
Arguments nodes {C}.
Arguments bakers {C}.
Arguments endorsers {C}.
Arguments accusers {C}.
Arguments counter {C}.
Arguments logs {C}.

Section Setters.
Context {C : Type}.
Implicit Types s : Sandbox C.

(** The same sandbox with other registries. *)
Definition update s heap clients nodes bakers endorsers accusers counter logs : Sandbox C :=
  MkSandbox (binaries_path s) (log_dir s) (identities s) (rpc_base s) (p2p_base s) (num_peers s)
    (singleprocess s) heap clients nodes bakers endorsers accusers counter logs.

Definition set_heap h s := update s h (clients s) (nodes s) (bakers s) (endorsers s) (accusers s) (counter s) (logs s).
Definition set_clients c s := update s (heap s) c (nodes s) (bakers s) (endorsers s) (accusers s) (counter s) (logs s).
Definition set_nodes n s := update s (heap s) (clients s) n (bakers s) (endorsers s) (accusers s) (counter s) (logs s).
Definition set_bakers b s := update s (heap s) (clients s) (nodes s) b (endorsers s) (accusers s) (counter s) (logs s).
Definition set_endorsers e s := update s (heap s) (clients s) (nodes s) (bakers s) e (accusers s) (counter s) (logs s).
Definition set_accusers a s := update s (heap s) (clients s) (nodes s) (bakers s) (endorsers s) a (counter s) (logs s).
Definition push_log f s :=
  update s (heap s) (clients s) (nodes s) (bakers s) (endorsers s) (accusers s) (counter s + 1) (logs s ++ [f]).
End Setters.

(** The three registries of daemons. *)
Inductive kind := KBaker | KEndorser | KAccuser.

Definition registry {C} (k : kind) : Sandbox C -> daemons_t :=
  match k with KBaker => bakers | KEndorser => endorsers | KAccuser => accusers end.

Definition set_registry {C} (k : kind) : daemons_t -> Sandbox C -> Sandbox C :=
  match k with KBaker => set_bakers | KEndorser => set_endorsers | KAccuser => set_accusers end.

Definition kind_name (k : kind) : str :=
  match k with KBaker => $"baker" | KEndorser => $"endorser" | KAccuser => $"accuser" end.

Section Methods.
Context {C : Type} {R : Runner C} {o : OS} {U : UCD}.
Abbreviation SM := (M (Sandbox C)).

(** A constructor of clients: the paths of the client and of the admin client,
    the mode, the endpoint if given. *)
Abbreviation factory := (str -> str -> option str -> option str -> SM C).

Definition _wrap_path (binary branch proto : str) : SM str :=
  self ← get;
  let binary := if bool_decide (proto = []) then binary else binary +:+ $"-" +:+ proto in
  let res := path_join (binaries_path self) [branch; binary] in
  f ← isfile res; massert f;;
  mret res.

Definition Sandbox_init {S} (binaries_path : str) (identities : identities_t) (rpc p2p num_peers : Z)
    (log_dir : option str) (singleprocess : bool) : M S (Sandbox C) :=
  massert ((1 <=? num_peers) && (num_peers <=? 100));;
  d ← isdir binaries_path; massert d;;
  mret (MkSandbox binaries_path log_dir identities rpc p2p num_peers singleprocess
          [] [] [] [] [] [] 0 []).

(** A method of a node object of the heap. *)
Definition on_node {A} (ref : nat) (m : M Node.Node A) : SM A :=
  zoom (fun s => heap s !! ref) (fun n s => set_heap (<[ref := n]> (heap s)) s) m.

(** [if self.log_dir: ...]: the log file of a new process, which is recorded. *)
Definition new_log (name : Z -> str) : SM (option str) :=
  self ← get;
  match truthy (log_dir self) with
  | None => mret None
  | Some dir =>
      let log_file := dir +:+ $"/" +:+ name (counter self) +:+ $".txt" in
      modify (push_log log_file);;
      mret (Some log_file)
  end.

Definition node_log (node_id : Z) (counter : Z) : str :=
  $"node" +:+ str_int node_id +:+ $"_" +:+ str_int counter.

Definition daemon_log (k : kind) (proto : str) (node_id : Z) (counter : Z) : str :=
  kind_name k +:+ $"-" +:+ proto +:+ $"_" +:+ str_int node_id +:+ $"_#" +:+ str_int counter.

Definition range (n : Z) : list Z := map Z.of_nat (seq 0 (Z.to_nat n)).

Definition register_node (node_id : Z) (node_dir : option str) (peers : option (list Z))
    (params : option (list str)) (log_levels : option (list (str * str))) (private : bool)
    (use_tls : option (str * str)) (branch : str) (node_config : option (list (str * json))) : SM nat :=
  self ← get;
  massert (negb (dmem node_id (nodes self)));;
  let rpc_node := rpc_base self + node_id in
  let p2p_node := p2p_base self + node_id in
  massert ((0 <=? node_id) && (node_id <? num_peers self));;
  let peers := default (range (num_peers self)) peers in
  massert (forallb (fun peer => (0 <=? peer) && (peer <? num_peers self)) peers);;
  log_file ← new_log (node_log node_id);
  let params := default [] params ++ (if private then [$"--private-mode"] else []) in
  let peers_rpc := map (fun p => p2p_base self + p) peers in
  node_bin ← _wrap_path NODE branch [];
  node ← Node.Node_init (Node.MkArgs node_bin node_config (float_of_Z 0) node_dir use_tls (Some params)
           log_file p2p_node rpc_node (Some peers_rpc) log_levels (singleprocess self) None);
  self ← get;
  let ref := length (heap self) in
  modify (set_heap (heap self ++ [node]));;
  modify (fun s => set_nodes (dset node_id ref (nodes s)) s);;
  mret ref.

Definition create_client (branch : str) (mode : option str) (client_factory : factory)
    (endpoint : option str) : SM C :=
  local_admin_client ← _wrap_path CLIENT_ADMIN branch [];
  local_client ← _wrap_path CLIENT branch [];
  client_factory local_client local_admin_client mode endpoint.

Definition instanciate_client (rpc_port : Z) (use_tls : option (str * str)) (branch : str)
    (mode : option str) (client_factory : factory) : SM C :=
  let scheme := match use_tls with Some _ => $"https" | None => $"http" end in
  let endpoint := scheme +:+ $"://localhost:" +:+ str_int rpc_port in
  create_client branch mode client_factory (Some endpoint).

Definition register_client (node_id rpc_port : Z) (use_tls : option (str * str)) (branch : str)
    (mode : option str) (client_factory : factory) : SM C :=
  self ← get;
  massert (negb (dmem node_id (clients self)));;
  client ← instanciate_client rpc_port use_tls branch mode client_factory;
  modify (fun s => set_clients (dset node_id client (clients s)) s);;
  mret client.

Definition init_node (node : nat) (snapshot : option str) (reconstruct : bool) : SM () :=
  on_node node Node.init_id;;
  on_node node Node.init_config;;
  match snapshot with
  | None => mret ()
  | Some file =>
      let params := if reconstruct then [$"--reconstruct"] else [] in
      on_node node (Node.snapshot_import file (Some params))
  end.

(** A node that does not answer: it must still be running, is killed, and the
    method fails in any case. *)
Definition check_responsive (client : C) (node : option nat) : SM () :=
  match node with
  | None => mret ()
  | Some ref =>
      listening ← check_node_listening client (float_of_Z 1) 20;
      if (listening : bool) then mret ()
      else
        code ← on_node ref Node.poll;
        massert (bool_decide (code = None));;
        on_node ref Node.kill;;
        raise AssertionError
  end.

Definition init_client (client : C) (node : option nat) (config_client : bool) : SM () :=
  check_responsive client node;;
  run_ client [$"-w"; $"none"; $"config"; $"update"];;
  self ← get;
  when config_client (for_ (identities self) (fun '(name, iden) =>
    secret ← lift (or_raise KeyError (dget $"secret" iden));
    import_secret_key client name secret None;; mret ())).

Definition node_rpc_port (ref : nat) : SM Z :=
  on_node ref (n ← get; mret (Node.rpc_port n)).

Definition get_new_client (node : nat) (use_tls : option (str * str)) (branch : str)
    (client_factory : factory) (config_client : bool) : SM C :=
  port ← node_rpc_port node;
  client ← instanciate_client port use_tls branch None client_factory;
  init_client client (Some node) config_client;;
  mret client.

Definition add_node (node_id : Z) (node_dir : option str) (peers : option (list Z))
    (params : option (list str)) (log_levels : option (list (str * str))) (private config_client : bool)
    (use_tls : option (str * str)) (snapshot : option str) (reconstruct : bool) (branch : str)
    (node_config : option (list (str * json))) (mode : option str) (client_factory : factory) : SM () :=
  node ← register_node node_id node_dir peers params log_levels private use_tls branch node_config;
  init_node node snapshot reconstruct;;
  on_node node Node.run;;
  rpc_port ← node_rpc_port node;
  client ← register_client node_id rpc_port use_tls branch mode client_factory;
  init_client client (Some node) config_client.

(** The common part of [add_baker], [add_endorser] and [add_accuser]: the checks,
    the paths, the log, the process given by [start] from the path, the RPC port,
    the client and node directories and the log, and its registration. *)
Definition add_daemon (k : kind) (binary : str) (node_id : Z) (proto branch : str)
    (start : str -> Z -> str -> str -> option str -> SM Z) : SM () :=
  self ← get;
  massert (dmem node_id (nodes self));;
  modify (fun s => if dmem proto (registry k s) then s else set_registry k (dset proto [] (registry k s)) s);;
  self ← get;
  massert (negb (dmem node_id (default [] (dget proto (registry k self)))));;
  path ← _wrap_path binary branch proto;
  node ← lift (or_raise KeyError (dget node_id (nodes self)));
  client ← lift (or_raise KeyError (dget node_id (clients self)));
  rpc_node ← node_rpc_port node;
  log_file ← new_log (daemon_log k proto node_id);
  node_dir ← on_node node (n ← get; mret (Node.node_dir n));
  pid ← start path rpc_node (base_dir (client_of client)) node_dir log_file;
  sleep (float_of_decimal 1 (-1));;
  code ← poll pid;
  massert (bool_decide (code = None));;
  modify (fun s => set_registry k
    (dset proto (dset node_id pid (default [] (dget proto (registry k s)))) (registry k s)) s).

Definition add_baker (node_id : Z) (accounts : list str) (proto : str) (params : option (list str))
    (log_levels : option (list (str * str))) (branch : str) (run_params : option (list str)) : SM () :=
  add_daemon KBaker BAKER node_id proto branch (fun path rpc_node base_dir node_dir log_file =>
    Baker_init path rpc_node base_dir node_dir accounts params log_levels log_file run_params).

Definition add_endorser (node_id : Z) (account : option str) (proto : str) (endorsement_delay : Z)
    (branch : str) : SM () :=
  let account_param := match account with Some a => [a] | None => [] end in
  let params := [$"run"] ++ account_param ++ [$"--endorsement-delay"; str_int endorsement_delay] in
  add_daemon KEndorser ENDORSER node_id proto branch (fun path rpc_node base_dir _ log_file =>
    Endorser_init path rpc_node base_dir (Some params) log_file).

Definition add_accuser (node_id : Z) (proto branch : str) : SM () :=
  add_daemon KAccuser ACCUSER node_id proto branch (fun path rpc_node base_dir _ log_file =>
    Accuser_init path rpc_node base_dir (Some [$"run"]) log_file).

(** [self.bakers[proto][node_id]] *)
Definition lookup_daemon (k : kind) (proto : str) (node_id : Z) : SM Z :=
  self ← get;
  lift (d ← or_raise KeyError (dget proto (registry k self)); or_raise KeyError (dget node_id d)).

(** [del self.bakers[proto][node_id]] *)
Definition del_daemon (k : kind) (proto : str) (node_id : Z) : SM () :=
  lookup_daemon k proto node_id;;
  modify (fun s => set_registry k
    (dset proto (ddel node_id (default [] (dget proto (registry k s)))) (registry k s)) s).

Definition rm_baker (node_id : Z) (proto : str) : SM () :=
  baker ← lookup_daemon KBaker proto node_id;
  del_daemon KBaker proto node_id;;
  daemon_terminate_or_kill baker;; mret ().

(** The process is looked up among the bakers. *)
Definition rm_endorser (node_id : Z) (proto : str) : SM () :=
  endorser ← lookup_daemon KBaker proto node_id;
  del_daemon KEndorser proto node_id;;
  daemon_terminate_or_kill endorser;; mret ().

Definition rm_client (client_id : Z) : SM () :=
  self ← get;
  massert (dmem client_id (clients self));;
  c ← lift (or_raise KeyError (dget client_id (clients self)));
  Client_cleanup c;;
  modify (fun s => set_clients (ddel client_id (clients s)) s).

Definition rm_node (node_id : Z) : SM () :=
  self ← get;
  node ← lift (or_raise KeyError (dget node_id (nodes self)));
  modify (fun s => set_nodes (ddel node_id (nodes s)) s);;
  self ← get;
  when (dmem node_id (clients self)) (rm_client node_id);;
  on_node node Node.terminate_or_kill;;
  on_node node Node.cleanup.

Definition client (node_id : Z) : SM C :=
  self ← get; lift (or_raise KeyError (dget node_id (clients self))).

Definition node (node_id : Z) : SM nat :=
  self ← get; lift (or_raise KeyError (dget node_id (nodes self))).

Definition baker (node_id : Z) (proto : str) : SM Z := lookup_daemon KBaker proto node_id.

Definition all_clients (self : Sandbox C) : list C := dvalues (clients self).
Definition all_nodes (self : Sandbox C) : list nat := dvalues (nodes self).

(** The processes of a registry, in the order of the loops over it. *)
Definition pids (d : daemons_t) : list Z := flat_map (fun p => dvalues p.2) d.

Definition cleanup : SM () :=
  self ← get;
  for_ (all_nodes self) (fun node =>
    on_node node Node.terminate_or_kill;; on_node node Node.cleanup);;
  for_ (pids (bakers self)) (fun pid => daemon_terminate_or_kill pid;; mret ());;
  for_ (pids (endorsers self)) (fun pid => daemon_terminate_or_kill pid;; mret ());;
  for_ (all_clients self) Client_cleanup.

Definition __exit__ : SM () := cleanup.

(** The [with] statement: [__exit__] is called however the body ends. *)
Definition with_sandbox {A} (m : SM A) : SM A := fun s t =>
  match m s t with
  | (r, s1, t1) =>
      match __exit__ s1 t1 with
      | (Ok _, s2, t2) => (r, s2, t2)
      | (Raise e, s2, t2) => (Raise e, s2, t2)
      end
  end.

(** One poll of the loops below: [false] and a message if the process ended. *)
Definition alive (m : SM (option Z)) (message : str) : SM bool :=
  code ← m;
  match code with
  | None => mret true
  | Some _ => print_ message;; mret false
  end.

Fixpoint all_alive {A} (l : list A) (f : A -> SM bool) : SM bool :=
  match l with
  | [] => mret true
  | x :: r => b ← f x; c ← all_alive r f; mret (b && c)
  end.

(** (protocol, number, process) triples of a registry. *)
Definition entries (d : daemons_t) : list (str * Z * Z) :=
  flat_map (fun p => map (fun e => (p.1, e.1, e.2)) p.2) d.

Definition are_daemons_alive : SM bool :=
  self ← get;
  a ← all_alive (nodes self) (fun '(node_id, ref) =>
        alive (on_node ref Node.poll) ($"# node " +:+ str_int node_id +:+ $" has failed"));
  b ← all_alive (entries (bakers self)) (fun '(proto, i, pid) =>
        alive (poll pid) ($"# baker " +:+ str_int i +:+ $" for proto " +:+ proto +:+ $" has failed"));
  c ← all_alive (entries (endorsers self)) (fun '(proto, i, pid) =>
        alive (poll pid) ($"# endorser " +:+ str_int i +:+ $" for proto " +:+ proto +:+ $" has failed"));
  mret (a && b && c).

(** ** SandboxMultiBranch: the branch of a node number comes from a map *)

Abbreviation branch_map := (list (Z * str)).

Definition MultiBranch_init (binaries_path : str) (identities : identities_t) (branches : branch_map)
    (rpc p2p num_peers : Z) (log_dir : option str) (singleprocess : bool) :
    M (Sandbox C) (Sandbox C * branch_map) :=
  s ← Sandbox_init binaries_path identities rpc p2p num_peers log_dir singleprocess;
  for_ (dvalues branches) (fun branch =>
    d ← isdir (binaries_path +:+ $"/" +:+ branch); massert d);;
  mret (s, branches).

Definition MultiBranch_add_baker (branches : branch_map) (node_id : Z) (accounts : list str) (proto : str)
    (params : option (list str)) (log_levels : option (list (str * str)))
    (run_params : option (list str)) : SM () :=
  branch ← lift (or_raise KeyError (dget node_id branches));
  add_baker node_id accounts proto params log_levels branch run_params.

Definition MultiBranch_add_endorser (branches : branch_map) (node_id : Z) (account : option str)
    (proto : str) (endorsement_delay : Z) : SM () :=
  branch ← lift (or_raise KeyError (dget node_id branches));
  add_endorser node_id account proto endorsement_delay branch.

Definition MultiBranch_add_node (branches : branch_map) (node_id : Z) (node_dir : option str)
    (peers : option (list Z)) (params : option (list str)) (log_levels : option (list (str * str)))
    (private config_client : bool) (use_tls : option (str * str)) (snapshot : option str)
    (reconstruct : bool) (branch : str) (node_config : option (list (str * json))) (mode : option str)
    (client_factory : factory) : SM () :=
  massert (bool_decide (branch = []));;
  branch ← lift (or_raise KeyError (dget node_id branches));
  add_node node_id node_dir peers params log_levels private config_client use_tls snapshot reconstruct
    branch node_config mode client_factory.
End Methods.

(** The default factory: the class Client with its default arguments. *)
Definition Client_factory {S} {o : OS} (path admin_path : str) (mode endpoint : option str) : M S Client :=
  Client_init path admin_path None None None None
    (Some (default $"http://127.0.0.1:8732" endpoint)) true mode.
