(* ===== verification/SandboxFacts.v ===== *)
(** * Invariants of the sandbox

    The methods of Sandbox as steps of a state machine ([step]), the invariant of
    the states it reaches, and what [cleanup], [rm_endorser] and
    [are_daemons_alive] do with the processes. *)

From Stdlib Require Import ZArith Lia.
From stdpp Require Import base tactics list strings numbers relations.
From S2P Require Import Prelude PyStr PyExc PyRe PyDict PyFloat PyJson PyTime.
From S2P Require Import PyIO ClientOutput Daemons Client ClientCommands ClientFacts Sandbox.

Local Open Scope Z_scope.
Local Open Scope py_scope.

(** ** Log names *)

(** A log name ends with a separator, a number and ".txt". *)
Definition numbered (f : str) (n : Z) : Prop :=
  exists p sep, ascii_digit sep = false /\ f = p +:+ sep :: str_int n +:+ $".txt".

Lemma digits_then_sep (d1 d2 r1 r2 : str) c1 c2 :
  Forall (fun c => ascii_digit c = true) d1 -> Forall (fun c => ascii_digit c = true) d2 ->
  ascii_digit c1 = false -> ascii_digit c2 = false ->
  d1 ++ c1 :: r1 = d2 ++ c2 :: r2 -> d1 = d2.
Proof.
  intros H1. revert d2. induction H1 as [|x d1 Hx H1 IH]; intros [|y d2] H2 Hc1 Hc2 E; cbn in E;
    simplify_eq; [done| | |].
  - inversion H2; subst; congruence.
  - congruence.
  - inversion H2; subst. f_equal. eauto.
Qed.

Lemma numbered_inj f n1 n2 : 0 <= n1 -> 0 <= n2 -> numbered f n1 -> numbered f n2 -> n1 = n2.
Proof.
  intros Hn1 Hn2 (p1 & c1 & Hc1 & ->) (p2 & c2 & Hc2 & E). apply str_int_inj.
  assert (E' : rev (p1 ++ c1 :: str_int n1 ++ $".txt") = rev (p2 ++ c2 :: str_int n2 ++ $".txt"))
    by (by rewrite E).
  rewrite !rev_app_distr in E'. cbn [rev] in E'. rewrite !rev_app_distr, <- !app_assoc in E'.
  apply app_inv_head in E'. cbn [app] in E'.
  apply digits_then_sep in E'; [|by apply Forall_rev, str_int_ascii_digit..|done|done].
  apply (f_equal (@rev N)) in E'. by rewrite !rev_involutive in E'.
Qed.

(** ** The invariant *)

Section Invariant.
Context {C : Type} {R : Runner C} {RS : RunnerSpec C} {o : OS} {U : UCD}.
Implicit Types s : Sandbox C.

Definition node_at s (i : Z) (r : nat) : Prop :=
  0 <= i < num_peers s /\
  exists n, heap s !! r = Some n /\ Node.rpc_port n = rpc_base s + i /\ Node.p2p_port n = p2p_base s + i.

Definition wf_registry (d : daemons_t) : Prop :=
  wf_dict d /\ forall p e, dget p d = Some e -> wf_dict e.

Record inv (s : Sandbox C) : Prop := MkInv {
  inv_nodes : wf_dict (nodes s);
  inv_refs : NoDup (dvalues (nodes s));
  inv_node_at : forall i r, dget i (nodes s) = Some r -> node_at s i r;
  inv_clients : wf_dict (clients s);
  inv_daemons : forall k, wf_registry (registry k s);
  inv_counter : counter s = Z.of_nat (length (logs s));
  inv_logs : forall i f, logs s !! i = Some f -> numbered f (Z.of_nat i) }.

(** What distinguishes two states for the invariant of the nodes. *)
Lemma inv_set_heap s h :
  inv s ->
  (forall i r, dget i (nodes s) = Some r -> node_at (set_heap h s) i r) -> inv (set_heap h s).
Proof.
  intros [H1 H2 H3 H4 H5 H6 H7] Hn. constructor; try done. intros k. specialize (H5 k). by destruct k.
Qed.

Lemma on_node_inv {A} r (m : M Node.Node A) :
  (forall n t, same_node n (m n t).1.2) -> triple inv (on_node r m) (fun _ => inv) inv.
Proof.
  intros Hm s t Hi. unfold on_node, zoom. destruct (heap s !! r) as [n|] eqn:E; [|done].
  specialize (Hm n t). destruct (m n t) as [[x n'] t']. cbn in Hm.
  assert (Hi' : inv (set_heap (<[r:=n']> (heap s)) s)).
  { apply inv_set_heap; [done|]. intros i r' Hr'.
    destruct (inv_node_at s Hi i r' Hr') as (Hr & n0 & Hn0 & Hp1 & Hp2). split; [done|].
    destruct (decide (r = r')) as [<-|Hne].
    - exists n'. cbn. rewrite list_lookup_insert_eq by (by eapply lookup_lt_Some).
      destruct Hm as (H1 & H2 & _). simplify_eq. split_and!; [done|congruence..].
    - exists n0. cbn. by rewrite list_lookup_insert_ne. }
  by destruct x.
Qed.

Lemma on_node_op r op : triple inv (on_node r (exec_op op)) (fun _ => inv) inv.
Proof.
  apply on_node_inv. intros n t. by destruct (exec_op_behaves n op t) as (l & _ & Hs & _).
Qed.

Lemma on_node_read {A} r (f : Node.Node -> A) : triple inv (on_node r (n ← get; mret (f n))) (fun _ => inv) inv.
Proof. by apply on_node_inv. Qed.

Lemma on_node_poll r : triple inv (on_node r Node.poll) (fun _ => inv) inv.
Proof.
  apply on_node_inv. intros n t. unfold Node.poll. m_run. destruct (Node._process n); done.
Qed.

(** *** Computations that leave the sandbox alone *)

Lemma wrap_path_keeps b br p : keeps (S := Sandbox C) (_wrap_path b br p).
Proof. unfold _wrap_path. solve_keeps. Qed.

Lemma run_generic_keeps {S} (c : C) params opts : keeps (S := S) (run_generic c params opts).
Proof. intros s t. apply run_generic_state. Qed.

Lemma run_keeps {S} (c : C) params : keeps (S := S) (run_ c params).
Proof.
  unfold run_, run. apply keeps_bind; [apply run_generic_keeps|]. intros [[x y] z]. by intros s t.
Qed.

Lemma import_keeps {S} (c : C) n k p : keeps (S := S) (import_secret_key c n k p).
Proof.
  unfold import_secret_key. apply keeps_bind; [apply run_generic_keeps|]. intros [[x y] z]. by intros s t.
Qed.

Lemma listening_keeps {S} (c : C) timeout n : keeps (S := S) (check_node_listening c timeout n).
Proof.
  unfold check_node_listening. induction (Z.to_nat n) as [|k IH]; cbn [listening_loop]; [by intros s t|].
  apply keeps_bind.
  - apply keeps_try.
    + apply keeps_bind; [by intros s t|]. intros _. apply keeps_bind; [|by intros _ s t].
      intros s t. apply rpc_state.
    + intros e m. destruct (is_Exception e); [|done]. intros [= <-]. by intros s t.
  - intros b. destruct b; [by intros s t|done].
Qed.

(** *** The methods *)

Abbreviation ok m := (triple inv m (fun _ => inv) inv).

Lemma keeps_ok {A} (m : M (Sandbox C) A) : keeps m -> ok m.
Proof. intros H. by apply triple_frame. Qed.

Lemma new_log_ok name : (forall n, exists p sep, ascii_digit sep = false /\ name n = p +:+ sep :: str_int n) ->
  ok (new_log (C := C) name).
Proof.
  intros Hname s t Hi. unfold new_log. m_run. destruct (truthy (log_dir s)) as [dir|]; [|done].
  cbn. destruct Hi as [H1 H2 H3 H4 H5 H6 H7]. constructor; try done.
  - intros k. specialize (H5 k). by destruct k.
  - cbn. rewrite length_app. cbn. lia.
  - intros i f Hf. cbn in Hf. apply lookup_app_Some in Hf as [Hf|[Hl Hf]]; [by apply H7|].
    destruct (i - length (logs s))%nat as [|j] eqn:Ej; [|by destruct j]. cbn in Hf. injection Hf as <-.
    replace (Z.of_nat i) with (counter s) by lia.
    destruct (Hname (counter s)) as (p & sep & Hs & Hn). exists (dir +:+ $"/" +:+ p), sep.
    split; [done|]. rewrite Hn, <- !app_assoc. done.
Qed.

Lemma node_log_numbered i n : exists p sep, ascii_digit sep = false /\ node_log i n = p +:+ sep :: str_int n.
Proof. exists ($"node" +:+ str_int i), 95%N. split; [done|]. unfold node_log. by rewrite <- app_assoc. Qed.

Lemma daemon_log_numbered k p i n :
  exists q sep, ascii_digit sep = false /\ daemon_log k p i n = q +:+ sep :: str_int n.
Proof.
  exists (kind_name k +:+ $"-" +:+ p +:+ $"_" +:+ str_int i +:+ $"_"), 35%N. split; [done|].
  unfold daemon_log. rewrite <- !app_assoc. done.
Qed.

Lemma Node_init_keeps {S} a : keeps (S := S) (Node.Node_init a).
Proof. unfold Node.Node_init. solve_keeps. Qed.

(** The parts of the sandbox that a new log does not change. *)
Lemma new_log_rest name s t :
  let s' := (new_log name s t).1.2 in
  nodes s' = nodes s /\ heap s' = heap s /\ clients s' = clients s /\ (forall k, registry k s' = registry k s) /\
  rpc_base s' = rpc_base s /\ p2p_base s' = p2p_base s /\ num_peers s' = num_peers s.
Proof.
  unfold new_log. m_run. destruct (truthy (log_dir s)); cbn; split_and!; try done; by intros [].
Qed.

(** A new node object, registered under a free number. *)
Lemma inv_new_node s i n :
  inv s -> dmem i (nodes s) = false -> 0 <= i < num_peers s ->
  Node.rpc_port n = rpc_base s + i -> Node.p2p_port n = p2p_base s + i ->
  inv (set_nodes (dset i (length (heap s)) (nodes s)) (set_heap (heap s ++ [n]) s)).
Proof.
  intros [H1 H2 H3 H4 H5 H6 H7] Hi Hr Hp1 Hp2.
  assert (Hn : dget i (nodes s) = None) by (unfold dmem in Hi; by destruct (dget i (nodes s))).
  constructor; try done.
  - by apply wf_dset.
  - cbn. rewrite dset_snoc by done. unfold dvalues. rewrite map_app. cbn. apply NoDup_app.
    split_and!; [done| |apply NoDup_singleton]. intros r Hr' ->%list_elem_of_singleton.
    apply list_elem_of_In, in_map_iff in Hr' as ([j r'] & E & Hin). cbn in E. subst r'.
    apply list_elem_of_In in Hin. apply elem_of_dget in Hin; [|done].
    destruct (H3 j (length (heap s)) Hin) as (_ & n' & Hl & _). apply lookup_lt_Some in Hl. lia.
  - intros j r Hj. cbn in Hj. rewrite dget_dset in Hj. case_decide.
    + simplify_eq. split; [done|]. exists n. cbn. rewrite lookup_app_r, Nat.sub_diag by lia. done.
    + destruct (H3 j r Hj) as (Hr' & n' & Hl & ?). split; [done|]. exists n'. cbn.
      by rewrite (lookup_app_l_Some _ _ _ _ Hl).
  - intros k. specialize (H5 k). by destruct k.
Qed.

Lemma register_node_ok i dir peers params ll pr tls br cfg :
  ok (register_node (C := C) i dir peers params ll pr tls br cfg).
Proof.
  intros s t Hi. unfold register_node. unfold mbind, M_bind, get, massert, lift, assert_.
  destruct (dmem i (nodes s)) eqn:Ed; [done|]. cbn [negb].
  destruct ((0 <=? i) && (i <? num_peers s)) eqn:Er; [|done].
  destruct (forallb _ _); [|done].
  pose proof (new_log_ok (node_log i) (node_log_numbered i) s t Hi) as Hl.
  pose proof (new_log_rest (node_log i) s t) as Hk. cbv zeta in Hk.
  destruct (new_log (node_log i) s t) as [[[lf|e] s1] t1]; [|done]. cbn in Hk.
  destruct Hk as (Kn & Kh & _ & _ & Kr & Kp & Km).
  pose proof (wrap_path_keeps NODE br [] s1 t1) as Hw.
  destruct (_wrap_path NODE br [] s1 t1) as [[[bin|e] s2] t2]; cbn in Hw; subst s2; [|done].
  set (a := Node.MkArgs _ _ _ _ _ _ _ _ _ _ _ _ _).
  pose proof (Node_init_keeps a s1 t2) as Hni.
  destruct (Node.Node_init a s1 t2) as [[[n|e] s2] t3] eqn:En; cbn in Hni; subst s2; [|done].
  apply Node_init_fields in En as (_ & _ & _ & P1 & P2 & _). cbn.
  apply andb_true_iff in Er as [Er1%Z.leb_le Er2%Z.ltb_lt].
  apply inv_new_node; [done|by rewrite Kn|lia|by rewrite P1, Kr|by rewrite P2, Kp].
Qed.

Lemma inv_set_clients s c : inv s -> wf_dict c -> inv (set_clients c s).
Proof.
  intros [H1 H2 H3 H4 H5 H6 H7] Hc. constructor; try done. intros k. specialize (H5 k). by destruct k.
Qed.

Lemma inv_del_node s i : inv s -> inv (set_nodes (ddel i (nodes s)) s).
Proof.
  intros [H1 H2 H3 H4 H5 H6 H7]. constructor; try done.
  - by apply wf_ddel.
  - cbn. eapply sublist_NoDup; [exact H2|]. clear. unfold dvalues.
    induction (nodes s) as [|[j r] d IH]; cbn; [constructor|]. destruct (decide (i = j)); cbn; by constructor.
  - intros j r Hj. cbn in Hj. rewrite dget_ddel in Hj by done. case_decide; [done|]. by apply H3.
  - intros k. specialize (H5 k). by destruct k.
Qed.

Lemma wf_registry_dset d p e : wf_registry d -> wf_dict e -> wf_registry (dset p e d).
Proof.
  intros [Hw Hd] He. split; [by apply wf_dset|]. intros q f. rewrite dget_dset. case_decide; [|by apply Hd].
  by intros [= <-].
Qed.

Lemma wf_registry_entry d p : wf_registry d -> wf_dict (default [] (dget p d)).
Proof. intros [_ Hd]. destruct (dget p d) eqn:E; [by eapply Hd|apply wf_nil]. Qed.

Lemma inv_set_registry s k d : inv s -> wf_registry d -> inv (set_registry k d s).
Proof.
  intros [H1 H2 H3 H4 H5 H6 H7] Hd.
  destruct k; (constructor; try done; intros k'; specialize (H5 k'); by destruct k').
Qed.

Section Factory.
Context (client_factory : str -> str -> option str -> option str -> M (Sandbox C) C)
        (factory_keeps : forall p a m e, keeps (client_factory p a m e)).

Lemma instanciate_keeps port tls br mode : keeps (instanciate_client port tls br mode client_factory).
Proof.
  unfold instanciate_client, create_client. apply keeps_bind; [apply wrap_path_keeps|]. intros p.
  apply keeps_bind; [apply wrap_path_keeps|]. intros q. apply factory_keeps.
Qed.

Lemma register_client_ok i port tls br mode : ok (register_client i port tls br mode client_factory).
Proof.
  unfold register_client. eapply triple_bind; [apply keeps_ok; by intros s t|]. intros self.
  eapply triple_bind; [apply keeps_ok; solve_keeps|]. intros ?.
  eapply triple_bind; [apply keeps_ok, instanciate_keeps|]. intros c.
  eapply triple_bind; [|intros ?; apply (triple_ret c (fun _ => inv))].
  apply triple_modify. intros s Hi. apply inv_set_clients; [done|]. by apply wf_dset, (inv_clients s).
Qed.

Lemma init_client_ok (c : C) node cfg : ok (init_client c node cfg).
Proof.
  unfold init_client. eapply triple_bind.
  - unfold check_responsive. destruct node as [r|]; [|apply keeps_ok; by intros s t].
    eapply triple_bind; [apply keeps_ok, listening_keeps|]. intros b.
    destruct b; [apply keeps_ok; by intros s t|].
    eapply triple_bind; [apply on_node_poll|]. intros code.
    eapply triple_bind; [apply keeps_ok; solve_keeps|]. intros ?.
    eapply triple_bind; [apply (on_node_op r OKill)|]. intros ?.
    apply keeps_ok. by intros s t.
  - intros ?. eapply triple_bind; [apply keeps_ok, run_keeps|]. intros ?. apply keeps_ok.
    apply keeps_bind; [by intros s t|]. intros self. apply keeps_when, keeps_for. intros [name iden].
    apply keeps_bind; [by intros s t|]. intros k. apply keeps_bind; [apply import_keeps|].
    intros x s t. done.
Qed.

Lemma init_node_ok r snap rec : ok (init_node (C := C) r snap rec).
Proof.
  unfold init_node. eapply triple_bind; [apply (on_node_op r OInitId)|]. intros ?.
  eapply triple_bind; [apply (on_node_op r OInitConfig)|]. intros ?.
  destruct snap as [f|]; [|apply keeps_ok; by intros s t].
  apply (on_node_op r (OSnapshotImport f _)).
Qed.

Lemma add_node_ok i dir peers params ll pr cc tls snap rec br cfg mode :
  ok (add_node i dir peers params ll pr cc tls snap rec br cfg mode client_factory).
Proof.
  unfold add_node. eapply triple_bind; [apply register_node_ok|]. intros r.
  eapply triple_bind; [apply init_node_ok|]. intros ?.
  eapply triple_bind; [apply (on_node_op r ORun)|]. intros ?.
  eapply triple_bind; [apply on_node_read|]. intros port.
  eapply triple_bind; [apply register_client_ok|]. intros c. apply init_client_ok.
Qed.
End Factory.

Lemma add_daemon_ok k b i proto br start :
  (forall p port bd nd lf, keeps (start p port bd nd lf)) -> ok (add_daemon (C := C) k b i proto br start).
Proof.
  intros Hst. unfold add_daemon. eapply triple_bind; [apply keeps_ok; by intros s t|]. intros self0.
  eapply triple_bind; [apply keeps_ok; solve_keeps|]. intros ?.
  eapply triple_bind.
  { apply (triple_modify inv inv). intros s Hi. destruct (dmem proto (registry k s)); [done|].
    apply inv_set_registry; [done|]. apply wf_registry_dset; [by apply inv_daemons|apply wf_nil]. }
  intros ?. eapply triple_bind; [apply keeps_ok; by intros s t|]. intros self.
  eapply triple_bind; [apply keeps_ok; solve_keeps|]. intros ?.
  eapply triple_bind; [apply keeps_ok, wrap_path_keeps|]. intros path.
  eapply triple_bind; [apply keeps_ok; solve_keeps|]. intros r.
  eapply triple_bind; [apply keeps_ok; solve_keeps|]. intros c.
  eapply triple_bind; [apply on_node_read|]. intros port.
  eapply triple_bind; [apply new_log_ok, daemon_log_numbered|]. intros lf.
  eapply triple_bind; [apply on_node_read|]. intros nd.
  eapply triple_bind; [apply keeps_ok, Hst|]. intros pid.
  eapply triple_bind; [apply keeps_ok; solve_keeps|]. intros ?.
  eapply triple_bind; [apply keeps_ok; solve_keeps|]. intros code.
  eapply triple_bind; [apply keeps_ok; solve_keeps|]. intros ?.
  apply triple_modify. intros s Hi. apply inv_set_registry; [done|].
  apply wf_registry_dset; [by apply inv_daemons|]. apply wf_dset, wf_registry_entry, inv_daemons, Hi.
Qed.

Lemma del_daemon_ok k p i : ok (del_daemon (C := C) k p i).
Proof.
  unfold del_daemon, lookup_daemon. eapply triple_bind; [apply keeps_ok; solve_keeps|]. intros ?.
  apply triple_modify. intros s Hi. apply inv_set_registry; [done|].
  apply wf_registry_dset; [by apply inv_daemons|]. apply wf_ddel, wf_registry_entry, inv_daemons, Hi.
Qed.

Lemma daemon_stop_keeps pid : keeps (S := Sandbox C) (daemon_terminate_or_kill pid;; mret ()).
Proof. intros s t. unfold mbind, M_bind. by rewrite daemon_stop_spec. Qed.

Lemma rm_client_ok i : ok (rm_client (C := C) i).
Proof.
  unfold rm_client, Client_cleanup. eapply triple_bind; [apply keeps_ok; by intros s t|]. intros self.
  eapply triple_bind; [apply keeps_ok; solve_keeps|]. intros ?.
  eapply triple_bind; [apply keeps_ok; solve_keeps|]. intros c.
  eapply triple_bind; [apply keeps_ok; solve_keeps|]. intros ?.
  apply triple_modify. intros s Hi. apply inv_set_clients; [done|]. by apply wf_ddel, (inv_clients s).
Qed.

Lemma rm_node_ok i : ok (rm_node (C := C) i).
Proof.
  unfold rm_node. eapply triple_bind; [apply keeps_ok; by intros s t|]. intros self.
  eapply triple_bind; [apply keeps_ok; solve_keeps|]. intros r.
  eapply triple_bind; [apply (triple_modify inv inv); intros s Hi; by apply inv_del_node|]. intros ?.
  eapply triple_bind; [apply keeps_ok; by intros s t|]. intros self'.
  eapply triple_bind.
  - unfold when. destruct (dmem i (clients self')); [apply rm_client_ok|apply keeps_ok; by intros s t].
  - intros ?. eapply triple_bind; [apply (on_node_op r OTerminateOrKill)|]. intros ?.
    apply (on_node_op r OCleanup).
Qed.

Lemma cleanup_ok : ok (cleanup (C := C)).
Proof.
  unfold cleanup. eapply triple_bind; [apply keeps_ok; by intros s t|]. intros self.
  eapply triple_bind.
  { apply triple_for. intros r _. eapply triple_bind; [apply (on_node_op r OTerminateOrKill)|].
    intros ?. apply (on_node_op r OCleanup). }
  intros ?. eapply triple_bind; [apply keeps_ok, keeps_for; intros pid; apply daemon_stop_keeps|].
  intros ?. eapply triple_bind; [apply keeps_ok, keeps_for; intros pid; apply daemon_stop_keeps|].
  intros ?. apply keeps_ok, keeps_for. intros c. unfold Client_cleanup. solve_keeps.
Qed.

(** *** The state machine *)

(** One call of a public method, successful or not. *)
Inductive step : Sandbox C -> Sandbox C -> Prop :=
| step_register_node s t i dir peers params ll pr tls br cfg :
    step s (register_node i dir peers params ll pr tls br cfg s t).1.2
| step_register_client s t i port tls br mode f (Hf : forall p a m e, keeps (f p a m e)) :
    step s (register_client i port tls br mode f s t).1.2
| step_add_node s t i dir peers params ll pr cc tls snap rec br cfg mode f
    (Hf : forall p a m e, keeps (f p a m e)) :
    step s (add_node i dir peers params ll pr cc tls snap rec br cfg mode f s t).1.2
| step_init_client s t c r cc : step s (init_client c r cc s t).1.2
| step_add_baker s t i accounts proto params ll br rp :
    step s (add_baker i accounts proto params ll br rp s t).1.2
| step_add_endorser s t i account proto delay br : step s (add_endorser i account proto delay br s t).1.2
| step_add_accuser s t i proto br : step s (add_accuser i proto br s t).1.2
| step_rm_baker s t i proto : step s (rm_baker i proto s t).1.2
| step_rm_endorser s t i proto : step s (rm_endorser i proto s t).1.2
| step_rm_client s t i : step s (rm_client i s t).1.2
| step_rm_node s t i : step s (rm_node i s t).1.2
| step_node_method s t r op : step s (on_node r (exec_op op) s t).1.2
| step_cleanup s t : step s (cleanup s t).1.2.

Lemma ok_state {A} (m : M (Sandbox C) A) s t : ok m -> inv s -> inv (m s t).1.2.
Proof. intros Hm Hi. specialize (Hm s t Hi). by destruct (m s t) as [[[a|e] s'] t']. Qed.

Lemma step_inv s s' : step s s' -> inv s -> inv s'.
Proof.
  intros Hs Hi. destruct Hs; apply ok_state; try done.
  - apply register_node_ok.
  - by apply register_client_ok.
  - by apply add_node_ok.
  - apply init_client_ok.
  - apply add_daemon_ok. intros. unfold Baker_init, prepare_log. solve_keeps.
  - apply add_daemon_ok. intros. unfold Endorser_init, prepare_log. solve_keeps.
  - apply add_daemon_ok. intros. unfold Accuser_init, prepare_log. solve_keeps.
  - unfold rm_baker, lookup_daemon. eapply triple_bind; [apply keeps_ok; solve_keeps|]. intros pid.
    eapply triple_bind; [apply del_daemon_ok|]. intros ?. apply keeps_ok, daemon_stop_keeps.
  - unfold rm_endorser, lookup_daemon. eapply triple_bind; [apply keeps_ok; solve_keeps|]. intros pid.
    eapply triple_bind; [apply del_daemon_ok|]. intros ?. apply keeps_ok, daemon_stop_keeps.
  - apply rm_client_ok.
  - apply rm_node_ok.
  - apply on_node_op.
  - apply cleanup_ok.
Qed.

End Invariant.

Section Properties.
Context {C : Type} {R : Runner C} {RS : RunnerSpec C} {o : OS} {U : UCD}.
Implicit Types s : Sandbox C.

Lemma inv_NoDup_logs s : inv s -> NoDup (logs s).
Proof.
  intros Hi. apply NoDup_alt. intros i j f Hf1 Hf2.
  apply (inv_logs s Hi) in Hf1, Hf2. assert (Z.of_nat i = Z.of_nat j); [|lia].
  eapply numbered_inj; [lia|lia|done|done].
Qed.

Lemma init_inv {S} bin ids rpc p2p n dir sp (x : S) t s x' t' :
  Sandbox_init bin ids rpc p2p n dir sp x t = (Ok s, x', t') -> inv s.
Proof.
  unfold Sandbox_init. intros H. m_run_in H. repeat (case_match; simplify_eq/=).
  constructor; try done; [apply wf_nil|constructor|apply wf_nil|].
  intros k. destruct k; (split; [apply wf_nil|done]).
Qed.

(** C3. In every state that calls of the sandbox's methods reach, failing calls
    included: node numbers are within bounds; two registered nodes are distinct
    objects with distinct RPC ports and distinct P2P ports, each the base port
    plus the number; and no two processes were given the same log file. *)
Theorem sandbox_invariant {S} (bin : str) (ids : identities_t) (rpc p2p n : Z) (dir : option str)
    (sp : bool) (x x' : S) (t t' : trace) (s0 s : Sandbox C) :
  Sandbox_init bin ids rpc p2p n dir sp x t = (Ok s0, x', t') -> rtc step s0 s ->
  (forall i r, dget i (nodes s) = Some r -> node_at s i r) /\
  (forall i j ri rj ni nj, i <> j -> dget i (nodes s) = Some ri -> dget j (nodes s) = Some rj ->
     heap s !! ri = Some ni -> heap s !! rj = Some nj ->
     ri <> rj /\ Node.rpc_port ni <> Node.rpc_port nj /\ Node.p2p_port ni <> Node.p2p_port nj) /\
  NoDup (logs s).
Proof.
  intros H0 Hr. apply init_inv in H0.
  assert (Hi : inv s). { induction Hr; [done|]. apply IHHr. by eapply step_inv. }
  split_and!; [by apply inv_node_at| |by apply inv_NoDup_logs].
  intros i j ri rj ni nj Hij Hi1 Hj1 Hn1 Hn2.
  destruct (inv_node_at s Hi i ri Hi1) as (_ & n1 & E1 & A1 & A2).
  destruct (inv_node_at s Hi j rj Hj1) as (_ & n2 & E2 & B1 & B2). simplify_eq.
  split_and!; [|lia..]. intros ->. simplify_eq. lia.
Qed.

(** *** Removing an endorser *)

(** [rm_endorser] looks for the process among the bakers.  Without a baker
    for the same node and protocol it raises KeyError and changes nothing, the
    endorser keeps running; with one it unregisters the endorser but stops the
    baker, which stays registered. *)
Theorem rm_endorser_stops_baker (s : Sandbox C) (t : trace) (i : Z) (proto : str) (e : Z) :
  (dget proto (endorsers s) ≫= dget i) = Some e ->
  ((dget proto (bakers s) ≫= dget i) = None ->
     rm_endorser i proto s t = (Raise KeyError, s, t)) /\
  (forall b, (dget proto (bakers s) ≫= dget i) = Some b ->
     exists s', rm_endorser i proto s t = (Ok (), s', t ++ stop_events t b) /\
       bakers s' = bakers s /\
       endorsers s' = dset proto (ddel i (default [] (dget proto (endorsers s)))) (endorsers s)).
Proof.
  intros He. unfold rm_endorser, del_daemon, lookup_daemon, registry.
  destruct (dget proto (endorsers s)) as [de|] eqn:E1; cbn in He; [|done].
  destruct (dget proto (bakers s)) as [db|] eqn:E2; split.
  - cbn. intros Hb. m_run. rewrite E2. cbn. by rewrite Hb.
  - cbn. intros b Hb. m_run. rewrite E2. cbn. rewrite Hb, E1. cbn. rewrite He. cbn.
    rewrite daemon_stop_spec. eexists. done.
  - cbn. intros _. m_run. by rewrite E2.
  - done.
Qed.

Lemma on_node_same {A} s r n (m : M Node.Node A) t :
  heap s !! r = Some n -> (m n t).1.2 = n ->
  on_node r m s t = ((m n t).1.1, s, (m n t).2).
Proof.
  intros Hr Hm. unfold on_node, zoom. rewrite Hr. destruct (m n t) as [[x n'] t']. cbn in *. subst n'.
  rewrite list_insert_id by done. by destruct s.
Qed.
End Properties.

(** ** A concrete sandbox *)

Definition sample_sandbox : Sandbox Client :=
  MkSandbox $"/bin" (Some $"/logs") [] 18730 19730 45 false [] [] []
    [($"alpha", [(0, 101)])] [($"alpha", [(0, 202)])] [($"alpha", [(0, 303)])] 0 [].

Lemma sample_inv : inv sample_sandbox.
Proof.
  constructor; try done; [apply wf_nil|constructor|apply wf_nil|].
  assert (H1 : forall x : Z, wf_dict [(0, x)]) by (intros x; apply NoDup_singleton).
  intros k. destruct k; (split; [apply NoDup_singleton|]); intros p e; cbn; case_decide; try done;
    intros [= <-]; apply H1.
Qed.

Lemma sandbox_invariant_witness :
  exists s0 s : Sandbox Client,
    Sandbox_init (o := calm_os) $"/bin" [] 18730 19730 45 (Some $"/logs") false () [] = (Ok s0, (), []) /\
    rtc (step (o := calm_os)) s0 s /\ length (logs s) = 2%nat /\ NoDup (logs s).
Proof.
  set (reg i s := (register_node (o := calm_os) (C := Client) i None None None None true None [] None s []).1.2).
  pose (s0 := MkSandbox (C := Client) $"/bin" (Some $"/logs") [] 18730 19730 45 false [] [] [] [] [] [] 0 []).
  exists s0, (reg 1 (reg 0 s0)).
  assert (H0 : Sandbox_init (o := calm_os) $"/bin" [] 18730 19730 45 (Some $"/logs") false () [] = (Ok s0, (), []))
    by reflexivity.
  assert (Hr : rtc (step (o := calm_os)) s0 (reg 1 (reg 0 s0))).
  { eapply rtc_l; [apply step_register_node|]. eapply rtc_once, step_register_node. }
  split; [exact H0|]. split; [exact Hr|]. split; [vm_compute; reflexivity|].
  exact (proj2 (proj2 (sandbox_invariant (o := calm_os)
    $"/bin" [] 18730 19730 45 (Some $"/logs") false () () [] [] s0 (reg 1 (reg 0 s0)) H0 Hr))).
Defined.

Lemma rm_endorser_stops_baker_witness :
  exists s', rm_endorser (o := calm_os) 0 $"alpha" sample_sandbox [] = (Ok (), s', stop_events (o := calm_os) [] 101) /\
    bakers s' = bakers sample_sandbox.
Proof.
  destruct (proj2 (rm_endorser_stops_baker (o := calm_os) sample_sandbox [] 0 $"alpha" 202 eq_refl) 101 eq_refl)
    as (s' & E & Hb & _).
  exists s'. exact (conj E Hb).
Defined.
