(* ===== verification/SandboxStops.v ===== *)
(** * How a sandbox ends

    [are_daemons_alive] polls the processes of the registered nodes, bakers and
    endorsers, in this order; [cleanup] stops them and deletes the temporary
    directories.  Both are described by lists: the processes polled, and the steps
    of the clean-up, which end at the first directory that cannot be deleted. *)

From Stdlib Require Import ZArith Lia.
From stdpp Require Import base tactics list strings numbers.
From S2P Require Import Prelude PyStr PyExc PyRe PyDict PyFloat PyJson PyTime.
From S2P Require Import PyIO ClientOutput Daemons Client ClientCommands ClientFacts Sandbox SandboxFacts.

Local Open Scope Z_scope.
Local Open Scope py_scope.

(** ** The steps of the clean-up *)

Inductive ending := Stop (pid : Z) | Delete (dir : str).

Definition stops (l : list ending) : list Z := omap (fun a => match a with Stop p => Some p | Delete _ => None end) l.
Definition deletes (l : list ending) : list str := omap (fun a => match a with Delete d => Some d | Stop _ => None end) l.

(** The processes that got SIGTERM and the directories whose deletion was tried *)
Definition stopped (l : trace) : list Z := omap (fun e => match e with ETerminate p => Some p | _ => None end) l.
Definition deleted (l : trace) : list str := omap (fun e => match e with ERmtree d => Some d | _ => None end) l.

Section Plan.
Context {C : Type} {R : Runner C} {RS : RunnerSpec C} {o : OS} {U : UCD}.
Implicit Types s : Sandbox C.

(** The steps one after the other, until a deletion fails. *)
Fixpoint carry_out (t : trace) (l : list ending) : res () * trace :=
  match l with
  | [] => (Ok (), [])
  | Stop p :: l => let '(x, l') := carry_out (t ++ stop_events t p) l in (x, stop_events t p ++ l')
  | Delete d :: l =>
      match os_rmtree t d with
      | Ok _ => let '(x, l') := carry_out (t ++ [ERmtree d]) l in (x, ERmtree d :: l')
      | Raise e => (Raise e, [ERmtree d])
      end
  end.

Lemma carry_out_app t l1 l2 : carry_out t (l1 ++ l2) =
  match carry_out t l1 with
  | (Ok _, k1) => let '(x, k2) := carry_out (t ++ k1) l2 in (x, k1 ++ k2)
  | (Raise e, k1) => (Raise e, k1)
  end.
Proof.
  revert t. induction l1 as [|[p|d] l1 IH]; intros t; cbn [carry_out app].
  - rewrite app_nil_r. by destruct (carry_out t l2).
  - rewrite IH. destruct (carry_out _ l1) as [[[]|e] k1]; [|done].
    rewrite (app_assoc t). destruct (carry_out _ l2). by rewrite app_assoc.
  - destruct (os_rmtree t d); [|done]. rewrite IH. destruct (carry_out _ l1) as [[[]|e] k1]; [|done].
    rewrite <- (app_assoc t). by destruct (carry_out _ l2).
Qed.

Lemma stopped_stop_events t p : stopped (stop_events t p) = [p].
Proof. unfold stop_events. by destruct (os_wait _ _ _). Qed.

Lemma deleted_stop_events t p : deleted (stop_events t p) = [].
Proof. unfold stop_events. by destruct (os_wait _ _ _). Qed.

(** All steps are done, or all before a deletion that fails. *)
Definition ended (t : trace) (l : list ending) (x : res ()) (k : trace) : Prop :=
  (x = Ok () /\ stopped k = stops l /\ deleted k = deletes l) \/
  exists n dir e k1, l !! n = Some (Delete dir) /\ k = k1 ++ [ERmtree dir] /\
    os_rmtree (t ++ k1) dir = Raise e /\ x = Raise e /\
    stopped k = stops (take n l) /\ deleted k1 = deletes (take n l).

Lemma carry_out_ended l : forall t, ended t l (carry_out t l).1 (carry_out t l).2.
Proof.
  unfold ended, stopped, deleted, stops, deletes.
  induction l as [|[p|d] l IH]; intros t; cbn [carry_out]; [by left| |].
  - specialize (IH (t ++ stop_events t p)). pose proof (stopped_stop_events t p) as E1.
    pose proof (deleted_stop_events t p) as E2. unfold stopped, deleted in E1, E2.
    destruct (carry_out _ l) as [x k]. cbn [fst snd] in *.
    destruct IH as [(-> & Hs & Hd)|(n & dir & e & k1 & Hn & -> & He & -> & Hs & Hd)].
    + left. by rewrite !omap_app, E1, E2, Hs, Hd.
    + right. exists (Datatypes.S n), dir, e, (stop_events t p ++ k1). rewrite <- (app_assoc t) in He.
      split_and!; [done|by rewrite app_assoc|done|done| |].
      * rewrite omap_app, E1, Hs. done.
      * rewrite omap_app, E2, Hd. done.
  - destruct (os_rmtree t d) as [[]|e] eqn:Ed.
    + specialize (IH (t ++ [ERmtree d])). destruct (carry_out _ l) as [x k]. cbn [fst snd] in *.
      destruct IH as [(-> & Hs & Hd)|(n & dir & e & k1 & Hn & -> & He & -> & Hs & Hd)].
      * left. cbn [omap list_omap]. by rewrite Hs, Hd.
      * right. exists (Datatypes.S n), dir, e, (ERmtree d :: k1). rewrite <- (app_assoc t) in He.
        split_and!; try done. cbn [take omap list_omap]. by rewrite Hd.
    + right. exists 0%nat, d, e, []. rewrite app_nil_r. by split_and!.
Qed.

(** From [s] the computation carries out the steps and leaves the state alone. *)
Definition carries s (m : M (Sandbox C) ()) (l : list ending) : Prop :=
  forall t, m s t = ((carry_out t l).1, s, t ++ (carry_out t l).2).

Lemma carries_bind s m1 m2 l1 l2 : carries s m1 l1 -> carries s m2 l2 -> carries s (m1;; m2) (l1 ++ l2).
Proof.
  intros H1 H2 t. unfold mbind, M_bind. rewrite H1, carry_out_app.
  destruct (carry_out t l1) as [[[]|e] k1]; [|done]. cbn [fst snd]. rewrite H2.
  destruct (carry_out _ l2). cbn [fst snd]. by rewrite app_assoc.
Qed.

Lemma carries_for {A} s (l : list A) f (g : A -> list ending) :
  (forall a, a ∈ l -> carries s (f a) (g a)) -> carries s (for_ l f) (flat_map g l).
Proof.
  induction l as [|a l IH]; intros Hf; cbn [for_ flat_map].
  - intros t. cbn. by rewrite app_nil_r.
  - apply carries_bind; [apply Hf, elem_of_cons; by left|]. apply IH. intros b Hb. apply Hf, elem_of_cons. by right.
Qed.

Lemma daemon_carries s pid : carries s (daemon_terminate_or_kill pid;; mret ()) [Stop pid].
Proof. intros t. unfold mbind, M_bind. rewrite daemon_stop_spec. cbn. by rewrite app_nil_r. Qed.

Definition client_ends (c : C) : list ending :=
  if _is_tmp_dir (client_of c) then [Delete (base_dir (client_of c))] else [].

Lemma client_carries s c : carries s (Client_cleanup c) (client_ends c).
Proof.
  intros t. unfold Client_cleanup, client_ends. m_run. destruct (_is_tmp_dir _); cbn; [|by rewrite app_nil_r].
  by destruct (os_rmtree t _) as [[]|].
Qed.

(** The process of a node, if it was started, and its directory, if it is a
    temporary one *)
Definition node_ends (n : Node.Node) : list ending :=
  match Node._process n with Some pid => [Stop pid] | None => [] end
  ++ (if Node._temp_dir n then [Delete (Node.node_dir n)] else []).

Lemma node_carries s r n : heap s !! r = Some n ->
  carries s (on_node r Node.terminate_or_kill;; on_node r Node.cleanup) (node_ends n).
Proof.
  intros Hr. unfold node_ends. apply carries_bind.
  - intros t. rewrite (on_node_same s r n _ t Hr) by (by rewrite node_stop_spec). rewrite node_stop_spec.
    destruct (Node._process n); cbn; by rewrite ?app_nil_r.
  - intros t. rewrite (on_node_same s r n _ t Hr) by (unfold Node.cleanup; m_run; by destruct (Node._temp_dir n)).
    unfold Node.cleanup. m_run. destruct (Node._temp_dir n); cbn; [|by rewrite app_nil_r].
    by destruct (os_rmtree t _) as [[]|].
Qed.

(** The registered nodes, in the order of the registry *)
Definition node_objects s : list Node.Node := omap (fun r => heap s !! r) (all_nodes s).

(** The steps of [cleanup]: nodes, bakers, endorsers, and the directories of the
    clients.  Accusers do not appear. *)
Definition plan s : list ending :=
  flat_map node_ends (node_objects s) ++ map Stop (pids (bakers s)) ++ map Stop (pids (endorsers s))
  ++ flat_map client_ends (all_clients s).

Lemma registered_node s r : inv s -> r ∈ all_nodes s -> exists n, heap s !! r = Some n.
Proof.
  intros Hi Hr. unfold all_nodes, dvalues in Hr.
  apply list_elem_of_In, in_map_iff in Hr as ([i r'] & E & Hin). cbn in E. subst r'.
  apply list_elem_of_In, elem_of_dget in Hin; [|apply Hi].
  destruct (inv_node_at s Hi i r Hin) as (_ & n & Hn & _). by exists n.
Qed.

Lemma flat_map_single {A} (f : A -> ending) l : flat_map (fun a => [f a]) l = map f l.
Proof. induction l as [|a l IH]; [done|]. cbn. by rewrite IH. Qed.

Lemma cleanup_carries s : inv s -> carries s cleanup (plan s).
Proof.
  intros Hi. unfold plan.
  assert (Hn : carries s (for_ (all_nodes s) (fun node =>
      on_node node Node.terminate_or_kill;; on_node node Node.cleanup)) (flat_map node_ends (node_objects s))).
  { replace (flat_map node_ends (node_objects s))
      with (flat_map (fun r => match heap s !! r with Some n => node_ends n | None => [] end) (all_nodes s))
      by (unfold node_objects; clear; induction (all_nodes s) as [|r l IH]; [done|];
          cbn; rewrite IH; by destruct (heap s !! r)).
    apply carries_for. intros r Hr. destruct (registered_node s r Hi Hr) as (n & Hn). rewrite Hn.
    by apply node_carries. }
  rewrite <- !flat_map_single. intros t.
  apply (carries_bind s _ _ _ _ Hn (carries_bind s _ _ _ _ (carries_for s (pids (bakers s)) _ _ (fun p _ => daemon_carries s p))
    (carries_bind s _ _ _ _ (carries_for s (pids (endorsers s)) _ _ (fun p _ => daemon_carries s p))
      (carries_for s (all_clients s) _ _ (fun c _ => client_carries s c)))) t).
Qed.

(** ** The check *)

(** The processes of the registered nodes, [None] for a node that was not started,
    of the bakers and of the endorsers *)
Definition processes s : list (option Z) :=
  map Node._process (node_objects s) ++ map Some (pids (bakers s)) ++ map Some (pids (endorsers s)).

Lemma stops_app l1 l2 : stops (l1 ++ l2) = stops l1 ++ stops l2.
Proof. unfold stops. by rewrite omap_app. Qed.

Lemma stops_plan s : stops (plan s) = omap id (processes s).
Proof.
  assert (Hm : forall l, stops (map Stop l) = omap id (map Some l)).
  { induction l as [|p l IH]; [done|]. cbn. f_equal. exact IH. }
  assert (Hn : forall l, stops (flat_map node_ends l) = omap id (map Node._process l)).
  { unfold node_ends. induction l as [|n l IH]; [done|]. cbn [flat_map map]. rewrite stops_app, IH.
    cbn [omap list_omap]. by destruct (Node._process n), (Node._temp_dir n). }
  assert (Hc : forall l, stops (flat_map client_ends l) = []).
  { unfold client_ends. induction l as [|c l IH]; [done|]. cbn [flat_map]. rewrite stops_app, IH.
    by destruct (_is_tmp_dir _). }
  unfold plan, processes. by rewrite !stops_app, Hn, !Hm, Hc, app_nil_r, !omap_app.
Qed.

(** Each is running when it is polled, one after the other. *)
Fixpoint running (t : trace) (l : list (option Z)) : bool :=
  match l with
  | [] => true
  | None :: _ => false
  | Some pid :: r => bool_decide (os_poll t pid = None) && running (t ++ [EPoll pid]) r
  end.

Definition polls (l : list (option Z)) : trace := map EPoll (omap id l).

Lemma running_app t l1 l2 : running t (l1 ++ l2) = running t l1 && running (t ++ polls l1) l2.
Proof.
  revert t. induction l1 as [|[pid|] l1 IH]; intros t; cbn [running app]; [by rewrite app_nil_r| |done].
  rewrite IH, <- (app_assoc t), andb_assoc. done.
Qed.

Lemma running_spec t l : running t l = true <->
  forall k x, l !! k = Some x -> exists pid, x = Some pid /\ os_poll (t ++ polls (take k l)) pid = None.
Proof.
  revert t. induction l as [|[pid|] l IH]; intros t; cbn [running].
  - split; [by intros _ k x|done].
  - rewrite andb_true_iff, bool_decide_eq_true, IH. split.
    + intros [Hp Hl] [|k] x Hk; [exists pid; injection Hk as <-; by rewrite app_nil_r|].
      destruct (Hl k x Hk) as (q & -> & Hq). exists q. split; [done|]. by rewrite <- (app_assoc t) in Hq.
    + intros H. split.
      * destruct (H 0%nat _ eq_refl) as (q & [= <-] & Hq). by rewrite app_nil_r in Hq.
      * intros k x Hk. destruct (H (Datatypes.S k) x Hk) as (q & -> & Hq). exists q. split; [done|].
        by rewrite <- (app_assoc t).
  - split; [done|]. intros H. by destruct (H 0%nat _ eq_refl) as (q & ? & _).
Qed.

(** From [s] the computation polls the processes, leaves the state alone, and finds
    out whether all are running; when they are not it may also raise. *)
Definition finds s (m : M (Sandbox C) bool) (l : list (option Z)) : Prop :=
  forall t, exists k,
    (m s t = (Ok (running t l), s, t ++ k) /\ (running t l = true -> k = polls l) \/
     running t l = false /\ m s t = (Raise AssertionError, s, t ++ k))
    /\ stopped k = [] /\ deleted k = [].

Lemma finds_and s m1 l1 m2 l2 : finds s m1 l1 -> finds s m2 l2 ->
  finds s (x ← m1; y ← m2; mret (x && y)) (l1 ++ l2).
Proof.
  intros H1 H2 t. destruct (H1 t) as (k1 & E1 & S1 & D1). unfold mbind, M_bind. rewrite running_app.
  destruct E1 as [[-> Hk]|[-> ->]]; [|by exists k1; split; [right|]].
  destruct (H2 (t ++ k1)) as (k2 & E2 & S2 & D2). exists (k1 ++ k2). rewrite app_assoc.
  unfold stopped, deleted in *. rewrite !omap_app, S1, D1, S2, D2. split; [|done].
  destruct (running t l1) eqn:El; cbn [andb]; [rewrite Hk in E2 |- * by done|].
  - destruct E2 as [[-> Hk2]|[-> ->]]; [|by right].
    left. split; [done|]. intros Hr. unfold polls. by rewrite (Hk2 Hr), omap_app, map_app.
  - destruct E2 as [[-> Hk2]|[_ ->]]; [by left|by right].
Qed.

Lemma finds_all {A} s (l : list A) f (g : A -> option Z) :
  (forall a, a ∈ l -> finds s (f a) [g a]) -> finds s (all_alive l f) (map g l).
Proof.
  induction l as [|a l IH]; intros Hf.
  - intros t. exists []. rewrite app_nil_r. split; [by left|done].
  - apply (finds_and s (f a) [g a] (all_alive l f)).
    + apply Hf, elem_of_cons. by left.
    + apply IH. intros b Hb. apply Hf, elem_of_cons. by right.
Qed.

Lemma finds_pid s pid msg : finds s (alive (C := C) (poll pid) msg) [Some pid].
Proof.
  intros t. unfold alive. m_run. cbn [running]. rewrite andb_true_r. destruct (os_poll t pid) as [c|].
  - exists [EPoll pid; EPrint msg]. rewrite <- app_assoc. split; [by left|done].
  - exists [EPoll pid]. split; [by left|done].
Qed.

Lemma finds_node s r n msg : heap s !! r = Some n -> finds s (alive (on_node r Node.poll) msg) [Node._process n].
Proof.
  intros Hr t. unfold alive, mbind, M_bind.
  rewrite (on_node_same s r n Node.poll t Hr) by (unfold Node.poll; m_run; by destruct (Node._process n)).
  unfold Node.poll. m_run. destruct (Node._process n) as [pid|]; cbn [fst snd running].
  - rewrite andb_true_r. destruct (os_poll t pid) as [c|].
    + exists [EPoll pid; EPrint msg]. rewrite <- app_assoc. split; [by left|done].
    + exists [EPoll pid]. split; [by left|done].
  - exists []. rewrite app_nil_r. split; [by right|done].
Qed.

Lemma map_entries {A} (d : daemons_t) (p : Z -> A) : map (fun e => p e.2) (entries d) = map p (pids d).
Proof.
  unfold entries, pids, dvalues. induction d as [|[k e] d IH]; [done|]. cbn. rewrite !map_app, IH. f_equal.
  induction e as [|[i pid] e IHe]; [done|]. cbn. by rewrite IHe.
Qed.

Lemma finds_daemons s (d : daemons_t) msg :
  finds s (all_alive (entries d) (fun '(proto, i, pid) => alive (C := C) (poll pid) (msg proto i)))
    (map Some (pids d)).
Proof.
  rewrite <- map_entries. apply (finds_all s (entries d)). intros [[proto i] pid] _. apply finds_pid.
Qed.

Lemma finds_running s : inv s -> finds s are_daemons_alive (processes s).
Proof.
  intros Hi. unfold are_daemons_alive, processes.
  assert (Hn : finds s (all_alive (nodes s) (fun '(node_id, ref) =>
      alive (on_node ref Node.poll) ($"# node " +:+ str_int node_id +:+ $" has failed")))
      (map Node._process (node_objects s))).
  { assert (E : map Node._process (node_objects s) = map (fun x => heap s !! x.2 ≫= Node._process) (nodes s)).
    { unfold node_objects. assert (H : forall r, r ∈ all_nodes s -> exists n, heap s !! r = Some n)
        by (intros r; by apply registered_node). revert H. unfold all_nodes, dvalues.
      induction (nodes s) as [|x l IH]; intros H; [done|]. cbn.
      destruct (H x.2) as (n & ->); [by left|]. cbn. rewrite IH; [done|]. intros r Hr. apply H. by right. }
    rewrite E. apply finds_all. intros [i r] Hin. apply elem_of_dget in Hin; [|apply Hi].
    destruct (inv_node_at s Hi i r Hin) as (_ & n & Hh & _). cbn [snd]. rewrite Hh. by apply (finds_node s r n). }
  rewrite app_assoc.
  pose proof (finds_and s _ _ _ _ (finds_and s _ _ _ _ Hn (finds_daemons s (bakers s) (fun proto i =>
    $"# baker " +:+ str_int i +:+ $" for proto " +:+ proto +:+ $" has failed")))
    (finds_daemons s (endorsers s) (fun proto i =>
    $"# endorser " +:+ str_int i +:+ $" for proto " +:+ proto +:+ $" has failed"))) as H.
  intros t. destruct (H t) as (l & E & N). exists l. split; [|done]. revert E. clear.
  unfold mbind, M_bind, get. destruct (all_alive (nodes s) _ s t) as [[[a|e] s1] t1]; [|done].
  destruct (all_alive (entries (bakers s)) _ s1 t1) as [[[b|e] s2] t2]; done.
Qed.
End Plan.
