(* ===== verification/SandboxSpec.v ===== *)
(** * What the sandbox promises

    Seen from outside, a sandbox is a registry: the numbers with a node, the
    numbers with a client, and the daemons by kind, protocol and number.  Each
    method has a precondition and an effect on the registry; the methods of
    Sandbox.v implement them, and a call that fails changes nothing, or has done
    the first part of its effect.  The simulation is lifted to sequences of calls,
    from a new sandbox on. *)

From Stdlib Require Import ZArith Lia.
From stdpp Require Import base tactics list gmap sets strings numbers countable.
From S2P Require Import Prelude PyStr PyExc PyRe PyDict PyFloat PyJson PyTime.
From S2P Require Import PyIO ClientOutput Daemons Client ClientCommands ClientFacts Sandbox SandboxFacts.

Local Open Scope Z_scope.
Local Open Scope py_scope.

#[export] Instance kind_eq_dec : EqDecision kind.
Proof. solve_decision. Defined.

#[export] Instance kind_countable : Countable kind.
Proof.
  refine (inj_countable' (fun k => match k with KBaker => 0%nat | KEndorser => 1%nat | KAccuser => 2%nat end)
    (fun n => match n with O => KBaker | S O => KEndorser | _ => KAccuser end) _).
  by intros [].
Defined.

(** ** The registry *)

Record reg := Reg {
  r_nodes : gset Z;
  r_clients : gset Z;
  r_daemons : gset (kind * str * Z) }.

Definition empty_reg : reg := Reg ∅ ∅ ∅.

(** The methods, with the arguments that matter for the registry. *)
Inductive op :=
| OpRegisterNode (i : Z)
| OpRegisterClient (i : Z)
| OpAddNode (i : Z)
| OpAddDaemon (k : kind) (proto : str) (i : Z)
| OpRmBaker (proto : str) (i : Z)
| OpRmEndorser (proto : str) (i : Z)
| OpRmClient (i : Z)
| OpRmNode (i : Z)
| OpOther.

(** When a call may succeed; [n] is the number of peers. *)
Definition enabled (n : Z) (c : op) (r : reg) : Prop :=
  match c with
  | OpRegisterNode i => (i ∉ r_nodes r) /\ 0 <= i < n
  | OpRegisterClient i => (i ∉ r_clients r)
  | OpAddNode i => (i ∉ r_nodes r) /\ (i ∉ r_clients r) /\ 0 <= i < n
  | OpAddDaemon k p i => (i ∈ r_nodes r) /\ (i ∈ r_clients r) /\ ((k, p, i) ∉ r_daemons r)
  | OpRmBaker p i => ((KBaker, p, i) ∈ r_daemons r)
  | OpRmEndorser p i => ((KBaker, p, i) ∈ r_daemons r) /\ ((KEndorser, p, i) ∈ r_daemons r)
  | OpRmClient i => (i ∈ r_clients r)
  | OpRmNode i => (i ∈ r_nodes r)
  | OpOther => True
  end.

#[export] Instance enabled_dec n c r : Decision (enabled n c r).
Proof. destruct c; cbn; apply _. Defined.

Definition effect (c : op) (r : reg) : reg :=
  match c with
  | OpRegisterNode i => Reg ({[i]} ∪ r_nodes r) (r_clients r) (r_daemons r)
  | OpRegisterClient i => Reg (r_nodes r) ({[i]} ∪ r_clients r) (r_daemons r)
  | OpAddNode i => Reg ({[i]} ∪ r_nodes r) ({[i]} ∪ r_clients r) (r_daemons r)
  | OpAddDaemon k p i => Reg (r_nodes r) (r_clients r) ({[(k, p, i)]} ∪ r_daemons r)
  | OpRmBaker p i => Reg (r_nodes r) (r_clients r) (r_daemons r ∖ {[(KBaker, p, i)]})
  | OpRmEndorser p i => Reg (r_nodes r) (r_clients r) (r_daemons r ∖ {[(KEndorser, p, i)]})
  | OpRmClient i => Reg (r_nodes r) (r_clients r ∖ {[i]}) (r_daemons r)
  | OpRmNode i => Reg (r_nodes r ∖ {[i]}) (r_clients r ∖ {[i]}) (r_daemons r)
  | OpOther => r
  end.

(** A failed call leaves the registry alone, except that adding a node may stop
    when the node, or the node and its client, are registered already, and removing
    a node when the node, or both, are gone already. *)
Definition failed (c : op) (r r' : reg) : Prop :=
  r' = r \/
  match c with
  | OpAddNode i => (i ∉ r_nodes r) /\ (r' = effect (OpRegisterNode i) r \/ r' = effect c r)
  | OpRmNode i => (i ∈ r_nodes r) /\ (r' = Reg (r_nodes r ∖ {[i]}) (r_clients r) (r_daemons r) \/ r' = effect c r)
  | _ => False
  end.

(** One call, with whether it returns. *)
Definition spec_step (n : Z) (c : op) (ok : bool) (r r' : reg) : Prop :=
  if ok then enabled n c r /\ r' = effect c r else failed c r r'.

Fixpoint spec_run (n : Z) (l : list (op * bool)) (r r' : reg) : Prop :=
  match l with
  | [] => r' = r
  | (c, ok) :: l => exists r1, spec_step n c ok r r1 /\ spec_run n l r1 r'
  end.

(** ** The calls of the class *)

Section Calls.
Context {C : Type} {R : Runner C} {RS : RunnerSpec C} {o : OS} {U : UCD}.
Implicit Types s : Sandbox C.

Abbreviation factory_t := (str -> str -> option str -> option str -> M (Sandbox C) C).

Inductive call :=
| CRegisterNode (i : Z) (dir : option str) (peers : option (list Z)) (params : option (list str))
    (ll : option (list (str * str))) (private : bool) (tls : option (str * str)) (branch : str)
    (cfg : option (list (str * json)))
| CRegisterClient (i port : Z) (tls : option (str * str)) (branch : str) (mode : option str) (f : factory_t)
| CAddNode (i : Z) (dir : option str) (peers : option (list Z)) (params : option (list str))
    (ll : option (list (str * str))) (private cc : bool) (tls : option (str * str)) (snap : option str)
    (rec : bool) (branch : str) (cfg : option (list (str * json))) (mode : option str) (f : factory_t)
| CInitClient (c : C) (node : option nat) (cc : bool)
| CAddBaker (i : Z) (accounts : list str) (proto : str) (params : option (list str))
    (ll : option (list (str * str))) (branch : str) (run_params : option (list str))
| CAddEndorser (i : Z) (account : option str) (proto : str) (delay : Z) (branch : str)
| CAddAccuser (i : Z) (proto branch : str)
| CRmBaker (i : Z) (proto : str)
| CRmEndorser (i : Z) (proto : str)
| CRmClient (i : Z)
| CRmNode (i : Z)
| CNodeMethod (node : nat) (m : node_op)
| CCleanup.

Definition exec_call (c : call) : M (Sandbox C) () :=
  match c with
  | CRegisterNode i dir peers params ll pr tls br cfg => register_node i dir peers params ll pr tls br cfg;; mret ()
  | CRegisterClient i port tls br mode f => register_client i port tls br mode f;; mret ()
  | CAddNode i dir peers params ll pr cc tls snap rec br cfg mode f =>
      add_node i dir peers params ll pr cc tls snap rec br cfg mode f
  | CInitClient c node cc => init_client c node cc
  | CAddBaker i accounts proto params ll br rp => add_baker i accounts proto params ll br rp
  | CAddEndorser i account proto delay br => add_endorser i account proto delay br
  | CAddAccuser i proto br => add_accuser i proto br
  | CRmBaker i proto => rm_baker i proto
  | CRmEndorser i proto => rm_endorser i proto
  | CRmClient i => rm_client i
  | CRmNode i => rm_node i
  | CNodeMethod r m => on_node r (exec_op m)
  | CCleanup => cleanup
  end.

Definition op_of (c : call) : op :=
  match c with
  | CRegisterNode i _ _ _ _ _ _ _ _ => OpRegisterNode i
  | CRegisterClient i _ _ _ _ _ => OpRegisterClient i
  | CAddNode i _ _ _ _ _ _ _ _ _ _ _ _ _ => OpAddNode i
  | CAddBaker i _ proto _ _ _ _ => OpAddDaemon KBaker proto i
  | CAddEndorser i _ proto _ _ => OpAddDaemon KEndorser proto i
  | CAddAccuser i proto _ => OpAddDaemon KAccuser proto i
  | CRmBaker i proto => OpRmBaker proto i
  | CRmEndorser i proto => OpRmEndorser proto i
  | CRmClient i => OpRmClient i
  | CRmNode i => OpRmNode i
  | CInitClient _ _ _ | CNodeMethod _ _ | CCleanup => OpOther
  end.

(** The factory of a call makes a client and does nothing else to the sandbox. *)
Definition factory_of (c : call) : option factory_t :=
  match c with
  | CRegisterClient _ _ _ _ _ f | CAddNode _ _ _ _ _ _ _ _ _ _ _ _ _ f => Some f
  | _ => None
  end.

Definition proper_call (c : call) : Prop := forall f, factory_of c = Some f -> forall p a m e, keeps (f p a m e).

(** Calls in sequence; the caller goes on after a failure. *)
Fixpoint run_calls (l : list call) s (t : trace) : list bool * Sandbox C * trace :=
  match l with
  | [] => ([], s, t)
  | c :: r =>
      let '(x, s1, t1) := exec_call c s t in
      let '(b, s2, t2) := run_calls r s1 t1 in
      (is_ok x :: b, s2, t2)
  end.

(** ** The registry of a sandbox *)

Definition all_daemons s : list (kind * str * Z) :=
  flat_map (fun k => map (fun e => (k, e.1.1, e.1.2)) (entries (registry k s))) [KBaker; KEndorser; KAccuser].

Definition registered s : reg :=
  Reg (list_to_set (dkeys (nodes s))) (list_to_set (dkeys (clients s))) (list_to_set (all_daemons s)).
(** *** Computations that leave the registry alone *)

Definition reg_is (r : reg) (n : Z) s : Prop := registered s = r /\ num_peers s = n.

Lemma reg_keeps {A} r n (m : M (Sandbox C) A) : keeps m -> triple (reg_is r n) m (fun _ => reg_is r n) (reg_is r n).
Proof. intros Hm. by apply triple_frame. Qed.

Lemma registered_eq s s' : nodes s' = nodes s -> clients s' = clients s -> (forall k, registry k s' = registry k s) ->
  registered s' = registered s.
Proof. intros Hn Hc Hd. unfold registered, all_daemons. by rewrite Hn, Hc; cbn [flat_map]; rewrite !Hd. Qed.

Lemma reg_on_node {A} r n ref (m : M Node.Node A) :
  triple (reg_is r n) (on_node ref m) (fun _ => reg_is r n) (reg_is r n).
Proof.
  intros s t Hs. unfold on_node, zoom. destruct (heap s !! ref) as [x|]; [|done].
  destruct (m x t) as [[[a|e] x'] t']; exact Hs.
Qed.

Lemma reg_new_log r n name : triple (reg_is r n) (new_log (C := C) name) (fun _ => reg_is r n) (reg_is r n).
Proof.
  intros s t [Hs Hn]. pose proof (new_log_rest name s t) as H. cbv zeta in H.
  destruct H as (H1 & _ & H3 & H4 & _ & _ & H7).
  assert (reg_is r n (new_log name s t).1.2) by (split; [by rewrite (registered_eq s)|congruence]).
  by destruct (new_log name s t) as [[[a|e] s'] t'].
Qed.

(** *** Methods that add nodes and clients *)

Lemma reg_register_node r n i dir peers params ll pr tls br cfg :
  triple (reg_is r n) (register_node (C := C) i dir peers params ll pr tls br cfg)
    (fun _ s => enabled n (OpRegisterNode i) r /\ reg_is (effect (OpRegisterNode i) r) n s) (reg_is r n).
Proof.
  unfold register_node. cbv zeta. apply get_then. intros self [Hs Hn].
  apply assert_then; [done|]. intros Hm. apply assert_then; [done|]. intros Hb.
  apply assert_then; [done|]. intros _. eapply frame_then; [apply reg_new_log|done|]. intros lf.
  apply keeps_then; [apply wrap_path_keeps|done|]. intros bin.
  apply keeps_then; [apply Node_init_keeps|done|]. intros node. apply get_then. intros self2 _.
  eapply (modify_then _ (reg_is r n)); [intros s Hs2; exact Hs2|].
  eapply modify_then; [|intros s t Hs3; exact Hs3]. intros s [Hs2 Hn2].
  apply negb_true_iff in Hm. apply andb_true_iff in Hb as [Hb1%Z.leb_le Hb2%Z.ltb_lt]. split.
  - cbn. split; [|lia]. rewrite <- Hs. cbn. rewrite elem_of_list_to_set, <- dmem_keys. congruence.
  - split; [|done]. rewrite <- Hs2. unfold registered. cbn. f_equal. apply set_eq. intros j.
    rewrite elem_of_union, elem_of_singleton, !elem_of_list_to_set. apply elem_of_dkeys_dset.
Qed.

Section Factory.
Context (f : factory_t) (Hf : forall p a m e, keeps (f p a m e)).

Lemma reg_register_client r n i port tls br mode :
  triple (reg_is r n) (register_client i port tls br mode f)
    (fun _ s => enabled n (OpRegisterClient i) r /\ reg_is (effect (OpRegisterClient i) r) n s) (reg_is r n).
Proof.
  unfold register_client. apply get_then. intros self [Hs Hn]. apply assert_then; [done|]. intros Hm.
  apply keeps_then; [by apply instanciate_keeps|done|]. intros c.
  eapply modify_then; [|intros s t Hs3; exact Hs3]. intros s [Hs2 Hn2]. apply negb_true_iff in Hm. split.
  - cbn. rewrite <- Hs. cbn. rewrite elem_of_list_to_set, <- dmem_keys. congruence.
  - split; [|done]. rewrite <- Hs2. unfold registered. cbn. f_equal. apply set_eq. intros j.
    rewrite elem_of_union, elem_of_singleton, !elem_of_list_to_set. apply elem_of_dkeys_dset.
Qed.

Lemma reg_init_client r n (c : C) node cc :
  triple (reg_is r n) (init_client c node cc) (fun _ => reg_is r n) (reg_is r n).
Proof.
  unfold init_client. eapply triple_bind.
  - unfold check_responsive. destruct node as [ref|]; [|apply reg_keeps; by intros s t].
    apply keeps_then; [apply listening_keeps|done|]. intros b.
    destruct b; [apply reg_keeps; by intros s t|].
    eapply frame_then; [apply reg_on_node|done|]. intros code.
    apply assert_then; [done|]. intros _.
    eapply frame_then; [apply reg_on_node|done|]. intros ?. apply reg_keeps. by intros s t.
  - intros ?. apply keeps_then; [apply run_keeps|done|]. intros ?. apply reg_keeps.
    apply keeps_bind; [by intros s t|]. intros self. apply keeps_when, keeps_for. intros [name iden].
    apply keeps_bind; [by intros s t|]. intros k. apply keeps_bind; [apply import_keeps|].
    intros x s t. done.
Qed.

Lemma reg_add_node r n i dir peers params ll pr cc tls snap rec br cfg mode :
  triple (reg_is r n) (add_node i dir peers params ll pr cc tls snap rec br cfg mode f)
    (fun _ s => enabled n (OpAddNode i) r /\ reg_is (effect (OpAddNode i) r) n s)
    (fun s => failed (OpAddNode i) r (registered s) /\ num_peers s = n).
Proof.
  unfold add_node. eapply triple_bind.
  { eapply triple_conseq; [apply reg_register_node|done|intros ? ? H; exact H|].
    intros s [-> ?]. split; [by left|done]. }
  intros ref. set (r1 := effect (OpRegisterNode i) r).
  intros s0 t0 [[Hi Hb] Hr1]. revert s0 t0 Hr1.
  assert (Hfail : forall s, reg_is r1 n s -> failed (OpAddNode i) r (registered s) /\ num_peers s = n).
  { intros s [-> ?]. split; [|done]. right. split; [done|by left]. }
  change (triple (reg_is r1 n) (init_node ref snap rec;; on_node ref Node.run;;
      rpc_port ← node_rpc_port ref; client ← register_client i rpc_port tls br mode f; init_client client (Some ref) cc)
    (fun _ s => enabled n (OpAddNode i) r /\ reg_is (effect (OpAddNode i) r) n s)
    (fun s => failed (OpAddNode i) r (registered s) /\ num_peers s = n)).
  eapply frame_then; [|exact Hfail|].
  { unfold init_node. eapply frame_then; [apply reg_on_node|done|]. intros _.
    eapply frame_then; [apply reg_on_node|done|]. intros _. destruct snap; [apply reg_on_node|by apply reg_keeps]. }
  intros _. eapply frame_then; [apply reg_on_node|exact Hfail|]. intros _.
  eapply frame_then; [apply reg_on_node|exact Hfail|]. intros port.
  eapply triple_bind.
  { eapply triple_conseq; [apply reg_register_client|done|intros ? ? H; exact H|exact Hfail]. }
  intros c s0 t0 [Hc Hr2]. revert s0 t0 Hr2. cbn in Hc.
  change (triple (reg_is (effect (OpAddNode i) r) n) (init_client c (Some ref) cc)
    (fun _ s => enabled n (OpAddNode i) r /\ reg_is (effect (OpAddNode i) r) n s)
    (fun s => failed (OpAddNode i) r (registered s) /\ num_peers s = n)).
  eapply triple_conseq; [apply reg_init_client|done|intros ? s H; split; [done|exact H]|].
  intros s [-> ?]. split; [|done]. right. split; [done|by right].
Qed.
End Factory.

(** *** Daemons *)

Definition good (r : reg) (n : Z) s : Prop := inv s /\ reg_is r n s.

Lemma good_and {A} r n (m : M (Sandbox C) A) :
  triple inv m (fun _ => inv) inv -> triple (reg_is r n) m (fun _ => reg_is r n) (reg_is r n) ->
  triple (good r n) m (fun _ => good r n) (good r n).
Proof.
  intros H1 H2 s t [Hi Hr]. specialize (H1 s t Hi). specialize (H2 s t Hr).
  destruct (m s t) as [[[a|e] s'] t']; by split.
Qed.

Lemma registry_set k k' d s : registry k' (set_registry k d s) = if decide (k' = k) then d else registry k' s.
Proof. by destruct k, k'. Qed.

Definition daemons_of s (k : kind) (p : str) : list Z := dkeys (default [] (dget p (registry k s))).

Lemma elem_daemons s k p i : wf_registry (registry k s) ->
  (k, p, i) ∈ r_daemons (registered s) <-> i ∈ daemons_of s k p.
Proof.
  intros [Hw _]. cbn. rewrite elem_of_list_to_set. unfold all_daemons, daemons_of.
  assert (Hk : (k, p, i) ∈ flat_map (fun k => map (fun e : str * Z * Z => (k, e.1.1, e.1.2)) (entries (registry k s)))
                             [KBaker; KEndorser; KAccuser]
               <-> exists e, e ∈ entries (registry k s) /\ e.1 = (p, i)).
  { rewrite list_elem_of_In, in_flat_map. split.
    - intros (k' & _ & Hin). apply in_map_iff in Hin as ([[p' i'] pid] & [= -> -> ->] & Hin).
      eexists. split; [by apply list_elem_of_In|done].
    - intros ([[p' i'] pid] & Hin & [= -> ->]). exists k. split; [destruct k; cbn; auto|].
      apply in_map_iff. eexists. split; [|by apply list_elem_of_In]. done. }
  rewrite Hk. unfold entries. split.
  - intros ([[p' i'] pid] & Hin & [= -> ->]). apply list_elem_of_In, in_flat_map in Hin as ([q e] & Hq & Hin).
    apply in_map_iff in Hin as ([j x] & [= -> -> ->] & Hin). apply list_elem_of_In, elem_of_dget in Hq; [|done].
    rewrite Hq. apply list_elem_of_In in Hin. cbn in Hin. apply list_elem_of_fmap. by exists (i, pid).
  - destruct (dget p (registry k s)) as [e|] eqn:E; cbn; [|by intros ?%elem_of_nil].
    intros ([j x] & -> & Hin)%list_elem_of_fmap. exists (p, j, x). split; [|done].
    apply list_elem_of_In, in_flat_map. exists (p, e). split; [by apply list_elem_of_In, dget_elem_of|].
    apply in_map_iff. exists (j, x). split; [done|]. by apply list_elem_of_In.
Qed.

(** A change of one registry: who is in it is given by [D]. *)
Lemma registered_change s k d D : inv s -> wf_registry d ->
  (forall k' p i, i ∈ daemons_of (set_registry k d s) k' p <-> (k', p, i) ∈ D) ->
  registered (set_registry k d s) = Reg (r_nodes (registered s)) (r_clients (registered s)) D.
Proof.
  intros Hi Hd HD. pose proof (inv_set_registry s k d Hi Hd) as Hi'.
  assert (E : r_daemons (registered (set_registry k d s)) = D).
  { apply set_eq. intros [[k' p] i]. rewrite elem_daemons by apply Hi'. apply HD. }
  rewrite <- E. by destruct k.
Qed.

Lemma good_touch r n k p s : good r n s ->
  good r n (if dmem p (registry k s) then s else set_registry k (dset p [] (registry k s)) s).
Proof.
  intros [Hi [Hr Hn]]. destruct (dmem p (registry k s)) eqn:Em; [done|].
  assert (Hd : wf_registry (dset p [] (registry k s))) by (apply wf_registry_dset; [by apply inv_daemons|apply wf_nil]).
  split; [by apply inv_set_registry|]. split; [|by destruct k].
  rewrite (registered_change s k _ (r_daemons (registered s))); [by rewrite <- Hr; destruct (registered s)|done|done|].
  intros k' q i. rewrite elem_daemons by apply Hi. unfold daemons_of. rewrite registry_set.
  case_decide as Ek; [|done]. subst k'. rewrite dget_dset. case_decide as Ep; [|done]. subst q.
  unfold dmem in Em. by destruct (dget p (registry k s)).
Qed.

Lemma good_add r n k p i pid s : good r n s ->
  good (effect (OpAddDaemon k p i) r) n
    (set_registry k (dset p (dset i pid (default [] (dget p (registry k s)))) (registry k s)) s).
Proof.
  intros [Hi [Hr Hn]]. set (e := default [] (dget p (registry k s))).
  assert (Hd : wf_registry (dset p (dset i pid e) (registry k s))).
  { apply wf_registry_dset; [by apply inv_daemons|]. by apply wf_dset, wf_registry_entry, inv_daemons. }
  split; [by apply inv_set_registry|]. split; [|by destruct k].
  rewrite <- Hr. apply registered_change; [done..|]. intros k' q j.
  rewrite elem_of_union, elem_of_singleton, elem_daemons by apply Hi. unfold daemons_of. rewrite registry_set.
  case_decide as Ek; [subst k'|naive_solver]. rewrite dget_dset. case_decide as Ep; [subst q|naive_solver].
  change (default [] (Some ?x)) with x. fold e. rewrite elem_of_dkeys_dset. naive_solver.
Qed.

Lemma good_del r n k p i s : good r n s ->
  good (Reg (r_nodes r) (r_clients r) (r_daemons r ∖ {[(k, p, i)]})) n
    (set_registry k (dset p (ddel i (default [] (dget p (registry k s)))) (registry k s)) s).
Proof.
  intros [Hi [Hr Hn]]. set (e := default [] (dget p (registry k s))).
  assert (He : wf_dict e) by (apply wf_registry_entry, inv_daemons, Hi).
  assert (Hd : wf_registry (dset p (ddel i e) (registry k s)))
    by (apply wf_registry_dset; [by apply inv_daemons|by apply wf_ddel]).
  split; [by apply inv_set_registry|]. split; [|by destruct k].
  rewrite <- Hr. apply registered_change; [done..|]. intros k' q j.
  rewrite elem_of_difference, elem_of_singleton, elem_daemons by apply Hi. unfold daemons_of. rewrite registry_set.
  case_decide as Ek; [subst k'|naive_solver]. rewrite dget_dset. case_decide as Ep; [subst q|naive_solver].
  change (default [] (Some ?x)) with x. fold e. rewrite elem_of_dkeys_ddel by done. naive_solver.
Qed.

Lemma spec_add_daemon r n k b i proto br start :
  (forall p port bd nd lf, keeps (start p port bd nd lf)) ->
  triple (good r n) (add_daemon (C := C) k b i proto br start)
    (fun _ s => enabled n (OpAddDaemon k proto i) r /\ good (effect (OpAddDaemon k proto i) r) n s) (good r n).
Proof.
  intros Hst. unfold add_daemon. apply get_then. intros self [Hi [Hr Hn]]. apply assert_then; [done|]. intros Hm.
  eapply (modify_then _ (good r n)); [intros s; apply good_touch|].
  apply get_then. intros self2 [Hi2 [Hr2 _]]. apply assert_then; [done|]. intros Hfree.
  apply keeps_then; [apply wrap_path_keeps|done|]. intros path.
  apply lift_then; [done|]. intros ref _. apply lift_then; [done|]. intros c Hc.
  eapply frame_then; [apply good_and; [apply on_node_read|apply reg_on_node]|done|]. intros port.
  eapply frame_then; [apply good_and; [apply new_log_ok, daemon_log_numbered|apply reg_new_log]|done|]. intros lf.
  eapply frame_then; [apply good_and; [apply on_node_read|apply reg_on_node]|done|]. intros nd.
  apply keeps_then; [apply Hst|done|]. intros pid.
  apply keeps_then; [solve_keeps|done|]. intros _. apply keeps_then; [solve_keeps|done|]. intros code.
  apply assert_then; [done|]. intros _. apply (triple_modify _ _ _ (fun s => _ /\ good _ n s)). intros s Hs.
  split; [|by apply good_add]. apply negb_true_iff in Hfree. cbn. split_and!.
  - rewrite <- Hr. cbn. by rewrite elem_of_list_to_set, <- dmem_keys.
  - rewrite <- Hr2. cbn. rewrite elem_of_list_to_set, <- dmem_keys. unfold dmem.
    by destruct (dget i (clients self2)).
  - rewrite <- Hr2, elem_daemons by apply Hi2. unfold daemons_of. rewrite <- dmem_keys. congruence.
Qed.

Lemma lookup_then {B} r n k p i (f : Z -> M (Sandbox C) B) Q (E : Sandbox C -> Prop) :
  (forall s, good r n s -> E s) ->
  (forall pid, (k, p, i) ∈ r_daemons r -> triple (good r n) (f pid) Q E) ->
  triple (good r n) (lookup_daemon k p i ≫= f) Q E.
Proof.
  intros HE H s t Hs. unfold lookup_daemon. rewrite bind_assoc. revert s t Hs.
  change (triple (good r n) (self ← get; pid ← lift (d ← or_raise KeyError (dget p (registry k self)); or_raise KeyError (dget i d)); f pid) Q E).
  apply get_then. intros self [Hi [Hr _]]. apply lift_then; [done|]. intros pid Hp. apply (H pid).
  rewrite <- Hr, elem_daemons by apply Hi. unfold daemons_of.
  destruct (dget p (registry k self)) as [d|]; cbn in Hp; [|done].
  destruct (dget i d) eqn:Ed; cbn in Hp; [|done]. by eapply dget_Some_key.
Qed.

Lemma spec_del_daemon r n k p i :
  triple (good r n) (del_daemon (C := C) k p i)
    (fun _ s => (k, p, i) ∈ r_daemons r /\ good (Reg (r_nodes r) (r_clients r) (r_daemons r ∖ {[(k, p, i)]})) n s)
    (good r n).
Proof.
  unfold del_daemon. apply lookup_then; [done|]. intros pid Hin.
  apply (triple_modify _ _ _ (fun s => _ /\ good _ n s)). intros s Hs. split; [done|]. by apply good_del.
Qed.

Lemma daemon_stop_keeps_result pid s t :
  (daemon_terminate_or_kill pid;; mret ()) s t = (Ok (), s, t ++ stop_events t pid).
Proof. unfold mbind, M_bind. by rewrite daemon_stop_spec. Qed.

Lemma spec_rm_baker r n i p :
  triple (good r n) (rm_baker (C := C) i p)
    (fun _ s => enabled n (OpRmBaker p i) r /\ good (effect (OpRmBaker p i) r) n s) (good r n).
Proof.
  unfold rm_baker. apply lookup_then; [done|]. intros pid Hin. eapply triple_bind; [apply spec_del_daemon|].
  intros []. intros s t [_ Hs]. rewrite daemon_stop_keeps_result. split; [done|exact Hs].
Qed.

Lemma spec_rm_endorser r n i p :
  triple (good r n) (rm_endorser (C := C) i p)
    (fun _ s => enabled n (OpRmEndorser p i) r /\ good (effect (OpRmEndorser p i) r) n s) (good r n).
Proof.
  unfold rm_endorser. apply lookup_then; [done|]. intros pid Hin. eapply triple_bind; [apply spec_del_daemon|].
  intros []. intros s t [He Hs]. rewrite daemon_stop_keeps_result. split; [done|exact Hs].
Qed.

(** *** Removing clients and nodes *)

Lemma good_del_client r n i s : good r n s ->
  good (Reg (r_nodes r) (r_clients r ∖ {[i]}) (r_daemons r)) n (set_clients (ddel i (clients s)) s).
Proof.
  intros [Hi [Hr Hn]]. split; [apply inv_set_clients; [done|]; by apply wf_ddel, (inv_clients s)|]. split; [|done].
  rewrite <- Hr. unfold registered. cbn [r_nodes r_clients r_daemons]. f_equal. apply set_eq. intros j.
  change (clients (set_clients ?d s)) with d.
  rewrite elem_of_difference, elem_of_singleton, !elem_of_list_to_set, elem_of_dkeys_ddel by apply Hi. naive_solver.
Qed.

Lemma good_del_node r n i s : good r n s ->
  good (Reg (r_nodes r ∖ {[i]}) (r_clients r) (r_daemons r)) n (set_nodes (ddel i (nodes s)) s).
Proof.
  intros [Hi [Hr Hn]]. split; [by apply inv_del_node|]. split; [|done].
  rewrite <- Hr. unfold registered. cbn [r_nodes r_clients r_daemons]. f_equal. apply set_eq. intros j.
  change (nodes (set_nodes ?d s)) with d.
  rewrite elem_of_difference, elem_of_singleton, !elem_of_list_to_set, elem_of_dkeys_ddel by apply Hi. naive_solver.
Qed.

Lemma spec_rm_client r n i :
  triple (good r n) (rm_client (C := C) i)
    (fun _ s => enabled n (OpRmClient i) r /\ good (effect (OpRmClient i) r) n s) (good r n).
Proof.
  unfold rm_client. apply get_then. intros self [_ [Hr _]]. apply assert_then; [done|]. intros Hm.
  apply lift_then; [done|]. intros c _. apply keeps_then; [unfold Client_cleanup; solve_keeps|done|]. intros _.
  apply (triple_modify _ _ _ (fun s => _ /\ good _ n s)). intros s Hs. split; [|by apply good_del_client].
  cbn. rewrite <- Hr. cbn. by rewrite elem_of_list_to_set, <- dmem_keys.
Qed.

Lemma good_node_op r n ref m : triple (good r n) (on_node ref (exec_op m)) (fun _ => good r n) (good r n).
Proof. apply good_and; [apply on_node_op|apply reg_on_node]. Qed.

Lemma spec_rm_node r n i :
  triple (good r n) (rm_node (C := C) i)
    (fun _ s => enabled n (OpRmNode i) r /\ good (effect (OpRmNode i) r) n s)
    (fun s => failed (OpRmNode i) r (registered s) /\ num_peers s = n).
Proof.
  assert (H0 : forall s, good r n s -> failed (OpRmNode i) r (registered s) /\ num_peers s = n).
  { intros s [_ [-> ?]]. split; [by left|done]. }
  unfold rm_node. apply get_then. intros self [_ [Hr _]]. apply lift_then; [exact H0|]. intros ref Hget.
  assert (Hin : i ∈ r_nodes r).
  { rewrite <- Hr. cbn. rewrite elem_of_list_to_set. destruct (dget i (nodes self)) eqn:E; [|done].
    by eapply dget_Some_key. }
  set (r1 := Reg (r_nodes r ∖ {[i]}) (r_clients r) (r_daemons r)).
  eapply (modify_then _ (good r1 n)); [intros s; apply good_del_node|].
  assert (H1 : forall s, good r1 n s -> failed (OpRmNode i) r (registered s) /\ num_peers s = n).
  { intros s [_ [-> ?]]. split; [|done]. right. split; [done|by left]. }
  assert (H2 : forall s, good (effect (OpRmNode i) r) n s -> failed (OpRmNode i) r (registered s) /\ num_peers s = n).
  { intros s [_ [-> ?]]. split; [|done]. right. split; [done|by right]. }
  apply get_then. intros self2 [_ [Hr2 _]].
  eapply (triple_bind _ _ _ (fun _ => good (effect (OpRmNode i) r) n)).
  - destruct (dmem i (clients self2)) eqn:Em; cbn [when].
    + eapply triple_conseq; [apply (spec_rm_client r1 n i)|done| |exact H1]. intros ? s [_ Hs]. exact Hs.
    + intros s t Hs. cbn. replace (Reg (r_nodes r ∖ {[i]}) (r_clients r ∖ {[i]}) (r_daemons r)) with r1; [done|].
      unfold r1. f_equal. apply set_eq. intros j. rewrite elem_of_difference, elem_of_singleton.
      assert (i ∉ r_clients r); [|naive_solver]. change (r_clients r) with (r_clients r1). rewrite <- Hr2. cbn.
      rewrite elem_of_list_to_set, <- dmem_keys. congruence.
  - intros []. eapply frame_then; [apply (good_node_op (effect (OpRmNode i) r) n ref OTerminateOrKill)|exact H2|]. intros [].
    eapply triple_conseq; [apply (good_node_op (effect (OpRmNode i) r) n ref OCleanup)|done| |exact H2]. intros ? s Hs. by split.
Qed.

Lemma reg_cleanup r n : triple (reg_is r n) (cleanup (C := C)) (fun _ => reg_is r n) (reg_is r n).
Proof.
  unfold cleanup. apply get_then. intros self _. eapply frame_then; [|done|].
  { apply triple_for. intros ref _. eapply frame_then; [apply reg_on_node|done|]. intros _. apply reg_on_node. }
  intros _. apply keeps_then; [apply keeps_for; intros pid; apply daemon_stop_keeps|done|].
  intros _. apply keeps_then; [apply keeps_for; intros pid; apply daemon_stop_keeps|done|].
  intros _. apply reg_keeps, keeps_for. intros c. unfold Client_cleanup. solve_keeps.
Qed.

(** *** The simulation *)

Definition meets (c : call) : Prop := forall r n,
  triple (good r n) (exec_call c)
    (fun _ s => enabled n (op_of c) r /\ reg_is (effect (op_of c) r) n s)
    (fun s => failed (op_of c) r (registered s) /\ num_peers s = n).

Lemma good_failed c r n s : good r n s -> failed c r (registered s) /\ num_peers s = n.
Proof. intros [_ [-> ?]]. split; [by left|done]. Qed.

Lemma reg_failed c r n s : reg_is r n s -> failed c r (registered s) /\ num_peers s = n.
Proof. intros [-> ?]. split; [by left|done]. Qed.

Lemma meets_other c : op_of c = OpOther ->
  (forall r n, triple (reg_is r n) (exec_call c) (fun _ => reg_is r n) (reg_is r n)) -> meets c.
Proof.
  intros Hc H r n. rewrite Hc. eapply triple_conseq; [apply (H r n)|by intros s [_ ?]| |intros s; apply reg_failed].
  intros ? s Hs. by split.
Qed.

Lemma meets_good c : (forall r n, triple (good r n) (exec_call c)
    (fun _ s => enabled n (op_of c) r /\ good (effect (op_of c) r) n s) (good r n)) -> meets c.
Proof.
  intros H r n. eapply triple_conseq; [apply (H r n)|done| |intros s; apply good_failed].
  intros ? s [He [_ Hs]]. by split.
Qed.

Lemma meets_unit {A} r n c (m : M (Sandbox C) A) (Q : Sandbox C -> Prop) :
  triple (reg_is r n) m (fun _ => Q) (reg_is r n) ->
  triple (good r n) (m;; mret ()) (fun _ => Q) (fun s => failed c r (registered s) /\ num_peers s = n).
Proof.
  intros H. eapply triple_bind; [|intros ? s t Hs; exact Hs].
  eapply triple_conseq; [exact H|by intros s [_ ?]|done|intros s; apply reg_failed].
Qed.

Lemma call_meets c : proper_call c -> meets c.
Proof.
  intros Hf. destruct c.
  - intros r n. apply meets_unit, reg_register_node.
  - intros r n. apply meets_unit, reg_register_client. by apply Hf.
  - intros r n. eapply triple_conseq; [apply reg_add_node; by apply Hf|by intros s [_ ?]|done|done].
  - apply meets_other; [done|]. intros r n. apply reg_init_client.
  - apply meets_good. intros r n. apply spec_add_daemon. intros. unfold Baker_init, prepare_log. solve_keeps.
  - apply meets_good. intros r n. apply spec_add_daemon. intros. unfold Endorser_init, prepare_log. solve_keeps.
  - apply meets_good. intros r n. apply spec_add_daemon. intros. unfold Accuser_init, prepare_log. solve_keeps.
  - apply meets_good. intros r n. apply spec_rm_baker.
  - apply meets_good. intros r n. apply spec_rm_endorser.
  - apply meets_good. intros r n. apply spec_rm_client.
  - intros r n. eapply triple_conseq; [apply spec_rm_node|done| |done]. intros ? s [He [_ Hs]]. by split.
  - apply meets_other; [done|]. intros r n. apply reg_on_node.
  - apply meets_other; [done|]. intros r n. apply reg_cleanup.
Qed.

Lemma call_inv c s t : proper_call c -> inv s -> inv (exec_call c s t).1.2.
Proof.
  intros Hf Hi. destruct c; cbn [exec_call].
  - apply ok_state; [|done]. eapply triple_bind; [apply register_node_ok|]. intros ?. apply (triple_ret () (fun _ => inv)).
  - apply ok_state; [|done]. eapply triple_bind; [apply register_client_ok; by apply Hf|]. intros ?.
    apply (triple_ret () (fun _ => inv)).
  - eapply step_inv; [apply step_add_node; by apply Hf|done].
  - eapply step_inv; [apply step_init_client|done].
  - eapply step_inv; [apply step_add_baker|done].
  - eapply step_inv; [apply step_add_endorser|done].
  - eapply step_inv; [apply step_add_accuser|done].
  - eapply step_inv; [apply step_rm_baker|done].
  - eapply step_inv; [apply step_rm_endorser|done].
  - eapply step_inv; [apply step_rm_client|done].
  - eapply step_inv; [apply step_rm_node|done].
  - eapply step_inv; [apply step_node_method|done].
  - eapply step_inv; [apply step_cleanup|done].
Qed.

(** One call is one step of the registry. *)
Lemma call_simulates c s t x s' t' : proper_call c -> inv s -> exec_call c s t = (x, s', t') ->
  spec_step (num_peers s) (op_of c) (is_ok x) (registered s) (registered s') /\ inv s' /\ num_peers s' = num_peers s.
Proof.
  intros Hc Hi E. pose proof (call_inv c s t Hc Hi) as Hi'.
  pose proof (call_meets c Hc (registered s) (num_peers s) s t (conj Hi (conj eq_refl eq_refl))) as H.
  rewrite E in H, Hi'. cbn in Hi'. destruct x as [[]|e].
  - destruct H as [He [Hr Hn]]. split_and!; [by split|done|done].
  - destruct H as [Hr Hn]. split_and!; done.
Qed.

Lemma run_calls_simulates l s t b s' t' : Forall proper_call l -> inv s -> run_calls l s t = (b, s', t') ->
  length b = length l /\ spec_run (num_peers s) (zip (map op_of l) b) (registered s) (registered s').
Proof.
  intros Hl. revert s t b s' t'. induction Hl as [|c l Hc Hl IH]; intros s t b s' t' Hi E; cbn [run_calls] in E.
  { by simplify_eq. }
  destruct (exec_call c s t) as [[x s1] t1] eqn:Ex. destruct (run_calls l s1 t1) as [[b1 s2] t2] eqn:Er.
  simplify_eq. apply call_simulates in Ex as (Hs & Hi1 & Hn); [|done..].
  apply IH in Er as [Hlen Hr]; [|done]. cbn. split; [by rewrite Hlen|]. exists (registered s1).
  split; [done|]. by rewrite <- Hn.
Qed.
End Calls.

(** C2. The sandbox refines its registry: from a new sandbox on, any sequence of
    calls, whichever of them fail, is a run of the specification from the empty
    registry; a call returns only where the specification allows it, then has
    exactly its effect, and a failing call leaves the registry as it is or, for
    [add_node] and [rm_node] alone, has done a part of its effect. *)
Theorem sandbox_refines_registry {C : Type} {R : Runner C} {RS : RunnerSpec C} {o : OS} {U : UCD} {S}
    (bin : str) (ids : identities_t) (rpc p2p n : Z) (dir : option str) (sp : bool) (x x' : S) (t0 t t' : trace)
    (s0 s : Sandbox C) (calls : list call) (outcomes : list bool) :
  Sandbox_init bin ids rpc p2p n dir sp x t0 = (Ok s0, x', t) ->
  Forall proper_call calls -> run_calls calls s0 t = (outcomes, s, t') ->
  length outcomes = length calls /\
  spec_run n (zip (map op_of calls) outcomes) empty_reg (registered s).
Proof.
  intros H0 Hc Hr. pose proof (init_inv _ _ _ _ _ _ _ _ _ _ _ _ H0) as Hi.
  assert (Hs : num_peers s0 = n /\ registered s0 = empty_reg).
  { unfold Sandbox_init in H0. m_run_in H0. repeat (case_match; simplify_eq/=). done. }
  destruct Hs as [<- <-]. by eapply run_calls_simulates.
Qed.

(** Node 0 is registered, cannot be registered again, and is removed. *)
Definition sample_calls : list (call (C := Client)) :=
  [CRegisterNode 0 None None None None true None [] None;
   CRegisterNode 0 None None None None true None [] None;
   CRmNode 0].

Lemma sandbox_refines_registry_witness :
  exists s : Sandbox Client,
    run_calls (o := calm_os) sample_calls
      (MkSandbox $"/bin" (Some $"/logs") [] 18730 19730 45 false [] [] [] [] [] [] 0 []) []
    = ([true; false; true], s, (run_calls (o := calm_os) sample_calls
      (MkSandbox (C := Client) $"/bin" (Some $"/logs") [] 18730 19730 45 false [] [] [] [] [] [] 0 []) []).2) /\
    spec_run 45 [(OpRegisterNode 0, true); (OpRegisterNode 0, false); (OpRmNode 0, true)] empty_reg (registered s).
Proof.
  pose (s0 := MkSandbox (C := Client) $"/bin" (Some $"/logs") [] 18730 19730 45 false [] [] [] [] [] [] 0 []).
  pose (r := run_calls (o := calm_os) sample_calls s0 []). exists r.1.2.
  assert (E : run_calls (o := calm_os) sample_calls s0 [] = ([true; false; true], r.1.2, r.2))
    by (vm_compute; reflexivity).
  split; [exact E|].
  refine (proj2 (@sandbox_refines_registry Client _ _ calm_os ascii_only_ucd () $"/bin" [] 18730 19730 45
    (Some $"/logs") false () () [] [] r.2 s0 r.1.2 sample_calls [true; false; true] _ _ E)).
  - reflexivity.
  - repeat constructor; intros f Hf; discriminate Hf.
Defined.
