(* ===== verification/SandboxClients.v ===== *)
(** * Clients and their nodes

    Where the clients of a sandbox come from, and which port they talk to.  The
    property is local to the methods that make clients; that every other method
    keeps it follows from what they do to the clients: nothing, or removing one. *)

From Stdlib Require Import ZArith Lia.
From stdpp Require Import base tactics list strings numbers.
From S2P Require Import Prelude PyStr PyExc PyRe PyDict PyFloat PyJson PyTime.
From S2P Require Import PyIO ClientOutput Daemons Client ClientCommands ClientFacts Sandbox SandboxFacts SandboxSpec.

Local Open Scope Z_scope.
Local Open Scope py_scope.

Definition node_url (scheme : str) (port : Z) : str := scheme +:+ $"://localhost:" +:+ str_int port.

(** The RPCs of the client go to this port, and its commands name it. *)
Definition reaches (port : Z) (c : Client) : Prop :=
  (endpoint c = node_url $"http" port \/ endpoint c = node_url $"https" port) /\
  forall params opts, exists pre post,
    full_command c params opts = pre ++ [$"-endpoint"; endpoint c] ++ post ++ params.

(** ** Methods that make no client *)

Section Keep.
Context {C : Type} {R : Runner C} {RS : RunnerSpec C} {o : OS} {U : UCD}.
Abbreviation sandbox := (Sandbox C).

(** What the constructor of the sandbox fixes for its clients *)
Definition fixed (s : sandbox) : Z * str := (rpc_base s, binaries_path s).

(** The clients of [s'] are clients of [s]. *)
Definition fewer (s s' : sandbox) : Prop :=
  fixed s' = fixed s /\ wf_dict (clients s') /\
  forall i c, dget i (clients s') = Some c -> dget i (clients s) = Some c.

(** The clients, the base port and the binaries stay as they are. *)
Definition untouched {A} (m : M sandbox A) : Prop :=
  forall s t, fixed (m s t).1.2 = fixed s /\ clients (m s t).1.2 = clients s.

Lemma untouched_keeps {A} (m : M sandbox A) : keeps m -> untouched m.
Proof. intros Hm s t. by rewrite (Hm s t). Qed.

Lemma untouched_on_node {A} ref (m : M Node.Node A) : untouched (on_node ref m).
Proof.
  intros s t. unfold on_node, zoom. destruct (heap s !! ref) as [x|]; [|done].
  by destruct (m x t) as [[[a|e] x'] t'].
Qed.

Lemma untouched_new_log name : untouched (new_log name).
Proof.
  intros s t. unfold new_log. m_run. by destruct (truthy (log_dir s)).
Qed.

Lemma untouched_modify g : (forall s, fixed (g s) = fixed s) -> (forall s, clients (g s) = clients s) ->
  untouched (modify g).
Proof. intros H1 H2 s t. by split; [apply H1|apply H2]. Qed.

Lemma untouched_bind {A B} (m : M sandbox A) (f : A -> M sandbox B) :
  untouched m -> (forall a, untouched (f a)) -> untouched (m ≫= f).
Proof.
  intros Hm Hf s t. unfold mbind, M_bind. specialize (Hm s t). destruct (m s t) as [[[a|e] s1] t1]; [|done].
  cbn in Hm. destruct Hm as [<- <-]. apply Hf.
Qed.

Lemma untouched_for {A} (l : list A) (f : A -> M sandbox ()) : (forall a, untouched (f a)) -> untouched (for_ l f).
Proof. intros Hf. induction l as [|a l IH]; [by intros s t|]. cbn [for_]. by apply untouched_bind. Qed.

(** At most some clients are gone. *)
Definition shrinks {A} (m : M sandbox A) : Prop := forall s t, wf_dict (clients s) -> fewer s (m s t).1.2.

Lemma shrinks_untouched {A} (m : M sandbox A) : untouched m -> shrinks m.
Proof. intros Hm s t Hw. destruct (Hm s t) as [H1 H2]. split_and!; [done|by rewrite H2|by rewrite H2]. Qed.

Lemma shrinks_bind {A B} (m : M sandbox A) (f : A -> M sandbox B) :
  shrinks m -> (forall a, shrinks (f a)) -> shrinks (m ≫= f).
Proof.
  intros Hm Hf s t Hw. unfold mbind, M_bind. specialize (Hm s t Hw). destruct (m s t) as [[[a|e] s1] t1]; [|done].
  cbn in Hm. destruct Hm as (H1 & H2 & H3). destruct (Hf a s1 t1 H2) as (H4 & H5 & H6).
  split_and!; [congruence|done|]. intros i c Hc. by apply H3, H6.
Qed.

Lemma shrinks_rm_client i : shrinks (rm_client i).
Proof.
  unfold rm_client. apply shrinks_bind; [apply shrinks_untouched, untouched_keeps; by intros s t|]. intros self.
  apply shrinks_bind; [apply shrinks_untouched, untouched_keeps; solve_keeps|]. intros _.
  apply shrinks_bind; [apply shrinks_untouched, untouched_keeps; solve_keeps|]. intros c.
  apply shrinks_bind; [apply shrinks_untouched, untouched_keeps; unfold Client_cleanup; solve_keeps|]. intros _.
  intros s t Hw. cbn. split_and!; [done|by apply wf_ddel|].
  intros j d. cbn. rewrite dget_ddel by done. by case_decide.
Qed.
End Keep.

(** Walks through a method whose statements make no client. *)
Ltac walk :=
  repeat first
    [ progress intros
    | apply untouched_on_node | apply untouched_new_log
    | apply untouched_for
    | (apply untouched_modify; solve [done])
    | (apply untouched_keeps; by intros ? ?)
    | (apply untouched_keeps; solve [solve_keeps])
    | apply untouched_bind ].

Section Methods.
Context {C : Type} {R : Runner C} {RS : RunnerSpec C} {o : OS} {U : UCD}.
Abbreviation sandbox := (Sandbox C).

Lemma untouched_register_node i dir peers params ll pr tls br cfg :
  untouched (C := C) (register_node i dir peers params ll pr tls br cfg).
Proof.
  unfold register_node. cbv zeta. apply untouched_bind; [walk|]. intros self. apply untouched_bind; [walk|]. intros _.
  apply untouched_bind; [walk|]. intros _. apply untouched_bind; [walk|]. intros _. apply untouched_bind; [walk|]. intros lf.
  apply untouched_bind; [apply untouched_keeps, wrap_path_keeps|]. intros bin.
  apply untouched_bind; [apply untouched_keeps, Node_init_keeps|]. walk.
Qed.

Lemma untouched_init_client c node cc : untouched (C := C) (init_client c node cc).
Proof.
  unfold init_client. apply untouched_bind.
  - unfold check_responsive. destruct node; [|walk]. apply untouched_bind; [apply untouched_keeps, listening_keeps|].
    intros []; walk.
  - intros _. apply untouched_bind; [apply untouched_keeps, run_keeps|]. intros _. apply untouched_keeps.
    apply keeps_bind; [by intros s t|]. intros self. apply keeps_when, keeps_for. intros [name iden].
    apply keeps_bind; [by intros s t|]. intros k. apply keeps_bind; [apply import_keeps|].
    intros x s t. done.
Qed.

Lemma untouched_init_node ref snap rec : untouched (C := C) (init_node ref snap rec).
Proof. unfold init_node. destruct snap; walk. Qed.

Lemma untouched_set_registry k (g : sandbox -> daemons_t) : untouched (C := C) (modify (fun s => set_registry k (g s) s)).
Proof. apply untouched_modify; intros s; by destruct k. Qed.

Lemma untouched_add_daemon k b i proto br start :
  (forall p port bd nd lf, keeps (start p port bd nd lf)) -> untouched (add_daemon k b i proto br start).
Proof.
  intros Hst. unfold add_daemon. apply untouched_bind; [walk|]. intros self. apply untouched_bind; [walk|]. intros _.
  apply untouched_bind; [apply untouched_modify; intros s; case_match; by destruct k|]. intros _.
  apply untouched_bind; [walk|]. intros self2. apply untouched_bind; [walk|]. intros _.
  apply untouched_bind; [apply untouched_keeps, wrap_path_keeps|]. intros path.
  apply untouched_bind; [walk|]. intros ref. apply untouched_bind; [walk|]. intros c.
  apply untouched_bind; [apply untouched_on_node|]. intros port. apply untouched_bind; [apply untouched_new_log|]. intros lf.
  apply untouched_bind; [apply untouched_on_node|]. intros nd. apply untouched_bind; [apply untouched_keeps, Hst|]. intros pid.
  apply untouched_bind; [walk|]. intros _. apply untouched_bind; [walk|]. intros code. apply untouched_bind; [walk|].
  intros _. apply untouched_set_registry.
Qed.

Lemma untouched_rm_daemon k1 k2 i proto :
  untouched (C := C) (pid ← lookup_daemon k1 proto i; del_daemon k2 proto i;; daemon_terminate_or_kill pid;; mret ()).
Proof.
  unfold del_daemon, lookup_daemon. apply untouched_bind; [walk|]. intros pid. apply untouched_bind.
  - apply untouched_bind; [walk|]. intros _. apply untouched_set_registry.
  - intros _. apply untouched_keeps, daemon_stop_keeps.
Qed.

Lemma shrinks_rm_node i : shrinks (C := C) (rm_node i).
Proof.
  unfold rm_node. apply shrinks_bind; [apply shrinks_untouched; walk|]. intros self.
  apply shrinks_bind; [apply shrinks_untouched; walk|]. intros ref.
  apply shrinks_bind; [apply shrinks_untouched; walk|]. intros _.
  apply shrinks_bind; [apply shrinks_untouched; walk|]. intros self2. apply shrinks_bind.
  - unfold when. case_match; [apply shrinks_rm_client|apply shrinks_untouched; walk].
  - intros _. apply shrinks_untouched. walk.
Qed.

Lemma untouched_cleanup : untouched (C := C) cleanup.
Proof.
  unfold cleanup. apply untouched_bind; [walk|]. intros self. apply untouched_bind; [walk|]. intros _.
  apply untouched_bind; [apply untouched_keeps, keeps_for; intros; apply daemon_stop_keeps|]. intros _.
  apply untouched_bind; [apply untouched_keeps, keeps_for; intros; apply daemon_stop_keeps|]. intros _.
  apply untouched_keeps, keeps_for. intros c. unfold Client_cleanup. solve_keeps.
Qed.
End Methods.

(** ** Methods that make one *)

Lemma triple_and {S A} (P1 P2 : S -> Prop) (m : M S A) Q1 Q2 E1 E2 :
  triple P1 m Q1 E1 -> triple P2 m Q2 E2 ->
  triple (fun s => P1 s /\ P2 s) m (fun a s => Q1 a s /\ Q2 a s) (fun s => E1 s /\ E2 s).
Proof.
  intros H1 H2 s t [HP1 HP2]. specialize (H1 s t HP1). specialize (H2 s t HP2).
  destruct (m s t) as [[[a|e] s'] t']; by split.
Qed.

(** The modes in which a client talks to a node. *)
Definition node_mode (mode : option str) : Prop :=
  mode = None \/ mode = Some $"client" \/ mode = Some $"proxy".

Section Made.
Context {C : Type} {R : Runner C} {RS : RunnerSpec C} {o : OS} {U : UCD}.
Context (base : Z) (bin : str) (P : Z -> C -> Prop).
Abbreviation sandbox := (Sandbox C).
Abbreviation factory_t := (str -> str -> option str -> option str -> M (Sandbox C) C).

(** The constructor [f] gave this client for the port of a node, from the
    binaries of the branch. *)
Definition made (port : Z) (tls : option (str * str)) (br : str) (mode : option str) (f : factory_t)
    (c : C) : Prop :=
  exists s t s' t',
    f (path_join bin [br; $"tezos-client"]) (path_join bin [br; $"tezos-admin-client"]) mode
      (Some (node_url (match tls with None => $"http" | Some _ => $"https" end) port)) s t
    = (Ok c, s', t').

(** Every registered client has a property of its number. *)
Definition mine (s : sandbox) : Prop :=
  fixed s = (base, bin) /\ wf_dict (clients s) /\ forall i c, dget i (clients s) = Some c -> P i c.

Lemma mine_shrinks {A} (m : M sandbox A) : shrinks m -> triple mine m (fun _ => mine) mine.
Proof.
  intros Hm s t (Hb & Hw & Hr). specialize (Hm s t Hw).
  assert (H : forall s', fewer s s' -> mine s').
  { intros s' (H1 & H2 & H3). split_and!; [congruence|done|]. intros i c Hc. by apply Hr, H3. }
  destruct (m s t) as [[[a|e] s'] t']; by apply H.
Qed.

Lemma mine_untouched {A} (m : M sandbox A) : untouched m -> triple mine m (fun _ => mine) mine.
Proof. intros Hm. by apply mine_shrinks, shrinks_untouched. Qed.

(** The path of a binary outside any protocol *)
Lemma wrap_path_gives b br (Q : str -> sandbox -> Prop) :
  (forall s, mine s -> Q (path_join bin [br; b]) s) ->
  triple mine (_wrap_path b br []) Q mine.
Proof.
  intros HQ. unfold _wrap_path. intros s t Hs. m_run. rewrite bool_decide_eq_true_2 by done.
  pose proof Hs as ([= _ Hb] & _). rewrite Hb. destruct (os_isfile t _); [by apply HQ|done].
Qed.

Lemma register_client_mine i port tls br mode f :
  (forall p a m e, keeps (f p a m e)) -> (forall c, made port tls br mode f c -> P i c) ->
  triple mine (register_client i port tls br mode f) (fun _ => mine) mine.
Proof.
  intros Hf Hm. unfold register_client. apply get_then. intros self _. apply assert_then; [done|]. intros _.
  unfold instanciate_client, create_client. eapply (triple_bind _ _ _ (fun c s => mine s /\ P i c)).
  - eapply (triple_bind _ _ _ (fun a s => mine s /\ a = path_join bin [br; CLIENT_ADMIN])); [by apply wrap_path_gives|].
    intros adm. eapply (triple_bind _ _ _ (fun p s => mine s /\ adm = path_join bin [br; CLIENT_ADMIN]
      /\ p = path_join bin [br; CLIENT])).
    { intros s t [Hs ->]. pose proof (wrap_path_gives CLIENT br (fun p s => mine s /\ p = path_join bin [br; CLIENT])
        (fun s Hs => conj Hs eq_refl) s t Hs) as H. destruct (_wrap_path _ _ _ s t) as [[[p|e] s'] t']; [|done].
      by destruct H as [? ->]. }
    intros cl s t (Hs & -> & ->). specialize (Hf (path_join bin [br; CLIENT]) (path_join bin [br; CLIENT_ADMIN])
      mode (Some (match tls with Some _ => $"https" | None => $"http" end +:+ $"://localhost:" +:+ str_int port)) s t) as Hk.
    destruct (f _ _ _ _ s t) as [[[c|e] s'] t'] eqn:E; cbn in Hk; subst s'; [|done].
    split; [done|]. apply Hm. exists s, t, s, t'. rewrite <- E. by destruct tls.
  - intros c. eapply (modify_then _ mine); [|by intros s t Hs]. intros s [(Hb & Hw & Hr) Hc].
    split_and!; [done|by apply wf_dset|]. intros j d. cbn. rewrite dget_dset. case_decide; [|by apply Hr].
    intros [= <-]. by subst.
Qed.

(** *** The port of a new node *)


Definition node_port (ref : nat) (port : Z) (s : sandbox) : Prop :=
  exists n, heap s !! ref = Some n /\ Node.rpc_port n = port.

Lemma register_node_port i dir peers params ll pr tls br cfg :
  triple (fun s : sandbox => fixed s = (base, bin)) (register_node i dir peers params ll pr tls br cfg)
    (fun ref => node_port ref (base + i)) (fun _ => True).
Proof.
  unfold register_node. cbv zeta. apply get_then. intros self Hb. apply assert_then; [done|]. intros _.
  apply assert_then; [done|]. intros _. apply assert_then; [done|]. intros _.
  apply (triple_bind _ _ _ (fun _ _ => True)).
  { intros s t _. by destruct (new_log (node_log i) s t) as [[[a|e] s'] t']. }
  intros lf. apply keeps_then; [apply wrap_path_keeps|done|]. intros path.
  apply (triple_bind _ _ _ (fun n _ => Node.rpc_port n = base + i)).
  { intros s t _. destruct (Node.Node_init _ s t) as [[[n|e] s'] t'] eqn:E; [|done].
    apply Node_init_fields in E as (_ & _ & _ & -> & _). cbn. injection Hb as -> _. done. }
  intros n. apply get_then. intros self2 Hn.
  apply (modify_then _ (node_port (length (heap self2)) (base + i))).
  { intros s _. exists n. cbn. by rewrite lookup_app_r, Nat.sub_diag by lia. }
  apply (modify_then _ (node_port (length (heap self2)) (base + i))); [|by intros s t Hs].
  intros s (m & Hm & Hp). by exists m.
Qed.

Lemma node_port_op ref port m :
  triple (node_port ref port) (on_node ref (exec_op m)) (fun _ => node_port ref port) (node_port ref port).
Proof.
  intros s t (n & Hn & Hp). unfold on_node, zoom. rewrite Hn.
  destruct (exec_op_behaves n m t) as (l & _ & (Hs & _) & _). destruct (exec_op m n t) as [[x n'] t']. cbn in Hs.
  assert (node_port ref port (set_heap (<[ref := n']> (heap s)) s)).
  { exists n'. cbn. split; [|congruence]. apply list_lookup_insert_eq. by eapply lookup_lt_Some. }
  by destruct x.
Qed.

Lemma node_port_init ref port snap rec :
  triple (node_port ref port) (init_node ref snap rec) (fun _ => node_port ref port) (node_port ref port).
Proof.
  unfold init_node. eapply frame_then; [apply (node_port_op ref port OInitId)|done|]. intros _.
  eapply frame_then; [apply (node_port_op ref port OInitConfig)|done|]. intros _.
  destruct snap as [f|]; [apply (node_port_op ref port (OSnapshotImport f _))|by intros s t Hs].
Qed.

Lemma node_port_read ref port :
  triple (node_port ref port) (node_rpc_port ref) (fun x s => x = port /\ node_port ref port s) (fun _ => True).
Proof.
  intros s t (n & Hn & Hp). unfold node_rpc_port, on_node, zoom. rewrite Hn. cbn. split; [done|].
  exists n. cbn. split; [|done]. apply list_lookup_insert_eq. by eapply lookup_lt_Some.
Qed.

Lemma add_node_mine i dir peers params ll pr cc tls snap rec br cfg mode f :
  (forall p a m e, keeps (f p a m e)) -> (forall c, made (base + i) tls br mode f c -> P i c) ->
  triple mine (add_node i dir peers params ll pr cc tls snap rec br cfg mode f) (fun _ => mine) mine.
Proof.
  intros Hf Hm. unfold add_node.
  eapply (triple_bind _ _ _ (fun ref s => mine s /\ node_port ref (base + i) s)).
  { eapply triple_conseq; [apply triple_and; [apply mine_untouched, untouched_register_node|apply register_node_port]| | |].
    - intros s Hs. split; [exact Hs|apply Hs].
    - by intros ref s Hs.
    - by intros s [Hs _]. }
  intros ref. apply (triple_bind _ _ _ (fun _ s => mine s /\ node_port ref (base + i) s)).
  { eapply triple_conseq; [apply triple_and; [apply mine_untouched, untouched_init_node|apply node_port_init]|intros ? H; exact H|intros ? ? H; exact H|].
    by intros s [Hs _]. }
  intros _. apply (triple_bind _ _ _ (fun _ s => mine s /\ node_port ref (base + i) s)).
  { eapply triple_conseq; [apply triple_and; [apply mine_untouched, untouched_on_node|apply (node_port_op ref (base + i) ORun)]|intros ? H; exact H|intros ? ? H; exact H|].
    by intros s [Hs _]. }
  intros _. apply (triple_bind _ _ _ (fun port s => mine s /\ port = base + i)).
  { eapply triple_conseq; [apply triple_and; [apply mine_untouched, untouched_on_node|apply node_port_read]|intros ? H; exact H| |].
    - intros port s [Hs [-> _]]. by split.
    - by intros s [Hs _]. }
  intros port. apply (triple_bind _ _ _ (fun _ => mine)).
  { intros s t [Hs ->]. by apply register_client_mine. }
  intros c. apply mine_untouched, untouched_init_client.
Qed.
End Made.

(** *** Clients of the class Client *)

Section Reach.
Context {o : OS} {U : UCD} (base : Z) (bin : str).

Definition reach : Sandbox Client -> Prop := mine base bin (fun i c => reaches (base + i) c).

Lemma Client_init_fields {S} p a url b mode (s : S) t c s' t' :
  Client_init p a None None None None (Some url) b mode s t = (Ok c, s', t') ->
  s' = s /\ endpoint c = url /\ _admin_client c = [a; $"-base-dir"; base_dir c; $"-endpoint"; url] /\
  exists l, mode_options mode [$"-endpoint"; url] = Some l /\ _client c = [p; $"-base-dir"; base_dir c] ++ l.
Proof.
  unfold Client_init. change (connectivity_options None None None (Some url)) with [$"-endpoint"; url].
  intros H. m_run_in H. repeat case_match; simplify_eq; (split_and!; [done..|]); eexists; split; reflexivity.
Qed.

Lemma node_mode_options mode url : node_mode mode ->
  exists l, mode_options mode [$"-endpoint"; url] = Some (l ++ [$"-endpoint"; url]).
Proof. intros [->|[->| ->]]; [by exists []|by exists []|by exists [$"-mode"; $"proxy"]]. Qed.

#[local] Opaque lit.

Lemma Client_factory_keeps {S} p a mode e : keeps (S := S) (Client_factory p a mode e).
Proof. unfold Client_factory, Client_init. solve_keeps. Qed.

Lemma Client_factory_reaches {S} p a mode port scheme (s : S) t c s' t' :
  node_mode mode -> scheme = $"http" \/ scheme = $"https" ->
  Client_factory p a mode (Some (node_url scheme port)) s t = (Ok c, s', t') -> s' = s /\ reaches port c.
Proof.
  intros Hm Hs E. unfold Client_factory in E. change (default _ (Some ?x)) with x in E.
  apply Client_init_fields in E as (-> & He & Ha & l & Hl & Hc). split; [done|].
  destruct (node_mode_options mode (node_url scheme port) Hm) as (l' & El). rewrite El in Hl. simplify_eq.
  split; [rewrite He; destruct Hs as [->| ->]; auto|]. intros params opts. unfold full_command.
  rewrite Hc, Ha, He. destruct (admin opts).
  - exists [a; $"-base-dir"; base_dir c], (if trace_rpcs opts then [$"-l"] else []). done.
  - exists ([p; $"-base-dir"; base_dir c] ++ l'), (if trace_rpcs opts then [$"-l"] else []).
    by rewrite <- !app_assoc.
Qed.

Lemma add_node_reach i dir peers params ll pr cc tls snap rec br cfg mode : node_mode mode ->
  triple reach (add_node i dir peers params ll pr cc tls snap rec br cfg mode Client_factory) (fun _ => reach) reach.
Proof.
  intros Hm. apply add_node_mine; [intros; apply Client_factory_keeps|].
  intros c (s & t & s' & t' & E). apply Client_factory_reaches in E as [_ Hc]; [done..|]. destruct tls; auto.
Qed.
End Reach.

(** ** Sequences of calls *)

Section Run.
Context {C : Type} {R : Runner C} {RS : RunnerSpec C} {o : OS} {U : UCD} (base : Z) (bin : str).

(** A factory that makes its clients as the class Client does from the same arguments *)
Definition standard (f : str -> str -> option str -> option str -> M (Sandbox C) C) : Prop :=
  forall p a mode e s t c s' t', f p a mode (Some e) s t = (Ok c, s', t') ->
    exists t0 t1, Client_init p a None None None None (Some e) true mode () t0 = (Ok (client_of c), (), t1).

(** What a client made by [f] for a port is *)
Definition from_factory (port : Z) (tls : option (str * str)) (br : str) (mode : option str)
    (f : str -> str -> option str -> option str -> M (Sandbox C) C) (c : C) : Prop :=
  made bin port tls br mode f c /\ (standard f -> node_mode mode -> reaches port (client_of c)).

(** The call that registered the client of number [i] *)
Definition made_by (k : call (C := C)) (i : Z) (c : C) : Prop :=
  match k with
  | CRegisterClient j port tls br mode f => j = i /\ from_factory port tls br mode f c
  | CAddNode j _ _ _ _ _ _ tls _ _ br _ mode f => j = i /\ from_factory (base + i) tls br mode f c
  | _ => False
  end.

Lemma made_reaches port tls br mode f c : made bin port tls br mode f c -> from_factory port tls br mode f c.
Proof.
  intros Hm. split; [done|]. intros Hf Hmode. destruct Hm as (s & t & s' & t' & E).
  apply Hf in E as (t0 & t1 & E). eapply (Client_factory_reaches _ _ mode port _ () t0 _ () t1 Hmode _ E).
  Unshelve. destruct tls; auto.
Qed.

Definition owned (L : list call) : Sandbox C -> Prop :=
  mine base bin (fun i c => exists k, k ∈ L /\ made_by k i c).

Lemma call_owned L k : k ∈ L -> proper_call k -> triple (owned L) (exec_call k) (fun _ => owned L) (owned L).
Proof.
  intros Hk Hp. destruct k; cbn [exec_call].
  - apply mine_untouched, untouched_bind; [apply untouched_register_node|]. intros ?. walk.
  - eapply triple_bind; [apply register_client_mine; [by apply Hp|]|intros ?; by intros s t Hs].
    intros c Hc. eexists. split; [exact Hk|]. split; [done|]. by apply made_reaches.
  - apply add_node_mine; [by apply Hp|].
    intros c Hc. eexists. split; [exact Hk|]. split; [done|]. by apply made_reaches.
  - apply mine_untouched, untouched_init_client.
  - apply mine_untouched, untouched_add_daemon. intros. unfold Baker_init, prepare_log. solve_keeps.
  - apply mine_untouched, untouched_add_daemon. intros. unfold Endorser_init, prepare_log. solve_keeps.
  - apply mine_untouched, untouched_add_daemon. intros. unfold Accuser_init, prepare_log. solve_keeps.
  - apply mine_untouched, untouched_rm_daemon.
  - apply mine_untouched, untouched_rm_daemon.
  - apply mine_shrinks, shrinks_rm_client.
  - apply mine_shrinks, shrinks_rm_node.
  - apply mine_untouched, untouched_on_node.
  - apply mine_untouched, untouched_cleanup.
Qed.

Lemma run_calls_owned L l s t b s' t' : l ⊆ L -> Forall proper_call l -> inv s -> owned L s ->
  run_calls l s t = (b, s', t') -> inv s' /\ owned L s'.
Proof.
  intros HL Hl. revert s t b s' t' HL.
  induction Hl as [|c l Hc Hl IH]; intros s t b s' t' HL Hi Hr E; cbn [run_calls] in E; [by simplify_eq|].
  pose proof (call_inv c s t Hc Hi) as Hi1.
  pose proof (call_owned L c (HL c (list_elem_of_here c l)) Hc s t Hr) as Hr1.
  destruct (exec_call c s t) as [[x s1] t1]. cbn in Hi1.
  assert (Hr1' : owned L s1) by (by destruct x). clear Hr1.
  destruct (run_calls l s1 t1) as [[b1 s2] t2] eqn:Er. simplify_eq. eapply IH; [|done..|exact Er].
  intros y Hy. by apply HL, list_elem_of_further.
Qed.
End Run.

(** A new sandbox has no client. *)
Lemma init_mine {C S} {o : OS} bin ids rpc p2p n dir sp (x x' : S) t t' (s : Sandbox C) P :
  Sandbox_init bin ids rpc p2p n dir sp x t = (Ok s, x', t') -> mine rpc bin P s.
Proof.
  unfold Sandbox_init. intros H. m_run_in H. repeat (case_match; simplify_eq/=).
  split_and!; [done|apply wf_nil|done].
Qed.

(** C5. Whatever calls are made on a sandbox, failing ones included, with clients of
    either class and with any factories that leave the sandbox itself alone: every
    client [c] registered for a number [i] was made by the factory of one of the
    calls [register_client] and [add_node] for that number, from the binaries
    tezos-client and tezos-admin-client of the branch, with the mode of the call
    and for the URL on localhost, https exactly when the call has TLS keys, with the
    port of the call, which for [add_node] is the base port plus the number.  If the
    factory makes clients as the class Client does and the mode is one that uses a
    node (none, client or proxy), the RPCs of the client go to that port and every
    command of tezos-client and tezos-admin-client names it.  The node registered
    for the number was told to listen on the base port plus the number. *)
Theorem clients_reach_nodes {C : Type} {R : Runner C} {RS : RunnerSpec C} {o : OS} {U : UCD} {S}
    (bin : str) (ids : identities_t) (rpc p2p n : Z) (dir : option str) (sp : bool) (x x' : S)
    (t0 t t' : trace) (s0 s : Sandbox C) (calls : list call) (outcomes : list bool) :
  Sandbox_init bin ids rpc p2p n dir sp x t0 = (Ok s0, x', t) ->
  Forall proper_call calls -> run_calls calls s0 t = (outcomes, s, t') ->
  forall i c, dget i (clients s) = Some c ->
    (exists k, k ∈ calls /\
      match k with
      | CRegisterClient j port tls br mode f =>
          j = i /\ made bin port tls br mode f c /\
          (standard f -> node_mode mode -> reaches port (client_of c))
      | CAddNode j _ _ _ _ _ _ tls _ _ br _ mode f =>
          j = i /\ made bin (rpc + i) tls br mode f c /\
          (standard f -> node_mode mode -> reaches (rpc + i) (client_of c))
      | _ => False
      end) /\
    forall r m, dget i (nodes s) = Some r -> heap s !! r = Some m -> Node.rpc_port m = rpc + i.
Proof.
  intros H0 Hc Hr i c Hi. pose proof (init_inv _ _ _ _ _ _ _ _ _ _ _ _ H0) as Hi0.
  pose proof (init_mine _ _ _ _ _ _ _ _ _ _ _ _ (fun i c => exists k, k ∈ calls /\ made_by rpc bin k i c) H0) as Hs.
  destruct (run_calls_owned rpc bin calls calls s0 t outcomes s t' (fun _ H => H) Hc Hi0 Hs Hr)
    as [Hinv ([= Hb _] & _ & Hown)].
  split; [exact (Hown i c Hi)|]. intros r m Hn Hm.
  destruct (inv_node_at s Hinv i r Hn) as (_ & m' & Hm' & Hp & _). simplify_eq. congruence.
Qed.

Lemma Client_factory_standard {o : OS} : standard (C := Client) Client_factory.
Proof.
  intros p a mode e s t c s' t' H. exists t, t'. unfold Client_factory, Client_init in *.
  change (default _ (Some e)) with e in H. m_run_in H. m_run.
  destruct (os_isfile t p), (os_isfile t a); try discriminate H.
  destruct (os_mkdtemp t _) as [d|]; [|discriminate H]. destruct (negb _); [|discriminate H].
  destruct (mode_options mode _) as [l|]; [|discriminate H]. by injection H as <- <- <-.
Qed.

(** Client 3 of a sandbox with the default ports. *)
Definition client_calls : list (call (C := Client)) :=
  [CRegisterNode 3 None None None None true None [] None;
   CRegisterClient 3 18733 None [] None (Client_factory (o := calm_os))].

Lemma client_calls_proper : Forall proper_call client_calls.
Proof.
  constructor; [by intros f|]. constructor; [|constructor]. intros f [= <-]. apply Client_factory_keeps.
Qed.

Lemma clients_reach_nodes_witness :
  exists (s : Sandbox Client) c, dget 3 (clients s) = Some c /\ endpoint c = $"http://localhost:18733" /\ reaches 18733 c.
Proof.
  pose (s0 := MkSandbox (C := Client) $"/bin" None [] 18730 19730 45 false [] [] [] [] [] [] 0 []).
  pose (r := run_calls (o := calm_os) client_calls s0 []).
  assert (E : run_calls (o := calm_os) client_calls s0 [] = ([true; true], r.1.2, r.2)) by (vm_compute; reflexivity).
  pose (c := match dget 3 (clients r.1.2) with Some c => c | None => MkClient None true true [] [] [] None [] end).
  assert (Hc : dget 3 (clients r.1.2) = Some c) by (vm_compute; reflexivity).
  exists r.1.2, c. split; [exact Hc|]. split; [vm_compute; reflexivity|].
  destruct (proj1 (@clients_reach_nodes Client _ _ calm_os ascii_only_ucd () $"/bin" [] 18730 19730 45 None false
    () () [] [] r.2 s0 r.1.2 client_calls [true; true] eq_refl client_calls_proper E 3 c Hc)) as (k & Hk & Hm).
  apply elem_of_cons in Hk as [->|Hk]; [destruct Hm|].
  apply list_elem_of_singleton in Hk as ->. destruct Hm as (_ & _ & Hm).
  apply (Hm Client_factory_standard). by left.
Defined.
