(* ===== verification/DaemonFacts.v ===== *)
(** * Daemons and their nodes

    A daemon that [add_baker], [add_endorser] or [add_accuser] has started works for
    the node of its number: its command names the RPC port of that node, the base
    directory of the client of the number and, for bakers, the directory of the
    node; its output goes to a log of its own, and it runs when the method returns. *)

From Stdlib Require Import ZArith Lia.
From stdpp Require Import base tactics list strings numbers.
From S2P Require Import Prelude PyStr PyExc PyRe PyDict PyFloat PyJson PyTime.
From S2P Require Import PyIO ClientOutput Daemons Client ClientCommands ClientFacts Sandbox SandboxFacts SandboxSpec.
From S2P Require Import SandboxClients.

Local Open Scope Z_scope.
Local Open Scope py_scope.

(** The events of a start: the command is printed, written as the first line of the
    log if there is one, and run. *)
Definition launched (log : option str) (cmd : list str) (env : option environ) (pid : Z) : list event :=
  EPrint (format_command cmd true) ::
  match log with
  | Some f => [EWrite f $"w" (format_command cmd false +:+ [nl]); ESpawn pid cmd (LogFile f) env]
  | None => [ESpawn pid cmd DevNull env]
  end.

Section Launch.
Context {S : Type} {o : OS}.

Lemma launch_ok cmd log env (s s' : S) t t' pid :
  (print_ (format_command cmd true);; out ← prepare_log cmd log true; popen cmd out env) s t = (Ok pid, s', t') ->
  s' = s /\ t' = t ++ launched (truthy log) cmd env pid.
Proof.
  unfold prepare_log, launched. destruct (truthy log) as [f|]; intros H; m_run_in H;
    repeat (case_match; simplify_eq); (split; [done|]); by rewrite <- !app_assoc.
Qed.

Definition baker_environ (log_levels : option (list (str * str))) (env : environ) : environ :=
  match log_levels with Some ll => dset $"TEZOS_LOG" (lwt_log ll) env | None => env end.

Lemma massert_ok {A} b (m : M S A) s t a s' t' : (massert b;; m) s t = (Ok a, s', t') -> b = true /\ m s t = (Ok a, s', t').
Proof. by destruct b. Qed.

Lemma Baker_init_ok p port bd nd accounts params ll log rp (s s' : S) t t' pid :
  Baker_init p port bd nd accounts params ll log rp s t = (Ok pid, s', t') ->
  s' = s /\ t' = t ++ launched (truthy log)
    ([p; $"-base-dir"; bd; $"-endpoint"; endpoint_of port] ++ default [] params
     ++ [$"run"; $"with"; $"local"; $"node"; nd] ++ accounts ++ default [] rp)
    (Some (baker_environ ll (os_environ t))) pid.
Proof.
  unfold Baker_init. intros H. do 3 (apply massert_ok in H as [_ H]). by apply launch_ok in H.
Qed.

Lemma Endorser_init_ok p port bd params log (s s' : S) t t' pid :
  Endorser_init p port bd params log s t = (Ok pid, s', t') ->
  s' = s /\ t' = t ++ launched (truthy log)
    ([p; $"-base-dir"; bd; $"-endpoint"; endpoint_of port] ++ default [] params) None pid.
Proof. unfold Endorser_init. intros H. do 2 (apply massert_ok in H as [_ H]). by apply launch_ok in H. Qed.

Lemma Accuser_init_ok p port bd params log (s s' : S) t t' pid :
  Accuser_init p port bd params log s t = (Ok pid, s', t') ->
  s' = s /\ t' = t ++ launched (truthy log)
    ([p; $"-base-dir"; bd; $"-endpoint"; endpoint_of port] ++ default [] params) None pid.
Proof. unfold Accuser_init. intros H. do 2 (apply massert_ok in H as [_ H]). by apply launch_ok in H. Qed.
End Launch.

Section Placed.
Context {C : Type} {R : Runner C} {o : OS} {U : UCD}.

(** The node and the client of a number *)
Definition placed (s : Sandbox C) (i : Z) (n : Node.Node) (c : C) : Prop :=
  (exists r, dget i (nodes s) = Some r /\ heap s !! r = Some n) /\ dget i (clients s) = Some c.

(** The log a new process gets *)
Definition next_log (s : Sandbox C) (name : Z -> str) : option str :=
  match truthy (log_dir s) with
  | Some dir => Some (dir +:+ $"/" +:+ name (counter s) +:+ $".txt")
  | None => None
  end.

(** The binary of a protocol, in the directory of a branch *)
Definition binary_of (s : Sandbox C) (binary branch proto : str) : str :=
  path_join (binaries_path s) [branch; if bool_decide (proto = []) then binary else binary +:+ $"-" +:+ proto].

Definition daemon_of (s : Sandbox C) (k : kind) (proto : str) (i : Z) : option Z :=
  dget i (default [] (dget proto (registry k s))).

Lemma new_log_gives name (s s' : Sandbox C) t t' f :
  new_log name s t = (Ok f, s', t') ->
  f = next_log s name /\ truthy f = f /\ t' = t /\ heap s' = heap s /\
  placed s' = placed s /\ forall k, registry k s' = registry k s.
Proof.
  unfold new_log, next_log. intros H. m_run_in H. destruct (truthy (log_dir s)) as [d|] eqn:E; simplify_eq.
  - split_and!; try done.
    + destruct (log_dir s) as [[|a d']|]; [done| |done]. by injection E as <-.
    + by intros [].
  - done.
Qed.

Lemma set_registry_placed k d (s : Sandbox C) : placed (set_registry k d s) = placed s.
Proof. by destruct k. Qed.

Lemma registry_set_registry k d (s : Sandbox C) : registry k (set_registry k d s) = d.
Proof. by destruct k. Qed.
End Placed.

Section Add.
Context {C : Type} {R : Runner C} {o : OS} {U : UCD}.

Lemma then_ok {S A B} (m : M S A) (f : A -> M S B) s t b s' t' :
  (m ≫= f) s t = (Ok b, s', t') -> exists a s1 t1, m s t = (Ok a, s1, t1) /\ f a s1 t1 = (Ok b, s', t').
Proof. unfold mbind, M_bind. destruct (m s t) as [[[a|e] s1] t1]; [|done]. intros H. by exists a, s1, t1. Qed.

Lemma lift_dget {S A B K} `{EqDecision K} (k : K) (d : list (K * A)) (f : A -> M S B) s t b s' t' :
  (x ← lift (or_raise KeyError (dget k d)); f x) s t = (Ok b, s', t') ->
  exists x, dget k d = Some x /\ f x s t = (Ok b, s', t').
Proof. destruct (dget k d) as [x|]; [|done]. intros H. by exists x. Qed.

(** Reading a field of a node leaves the heap as it is. *)
Lemma read_node {A} (r : nat) (g : Node.Node -> A) (s s' : Sandbox C) t t' a :
  on_node r (n ← get; mret (g n)) s t = (Ok a, s', t') ->
  exists n, heap s !! r = Some n /\ a = g n /\ s' = s /\ t' = t.
Proof.
  unfold on_node, zoom. destruct (heap s !! r) as [n|] eqn:E; [|done]. cbn. intros [= <- <- <-]. exists n.
  rewrite list_insert_id by done. by destruct s.
Qed.

Lemma wrap_path_ok binary br proto (s s' : Sandbox C) t t' p :
  Sandbox._wrap_path binary br proto s t = (Ok p, s', t') -> p = binary_of s binary br proto /\ s' = s /\ t' = t.
Proof.
  unfold Sandbox._wrap_path. intros H. m_run_in H. fold (binary_of s binary br proto) in H.
  destruct (os_isfile t (binary_of s binary br proto)); [|done]. by injection H as <- <- <-.
Qed.

(** The state after the entry of the protocol is made *)
Lemma first_registry k proto (s : Sandbox C) :
  let s1 := if dmem proto (registry k s) then s else set_registry k (dset proto [] (registry k s)) s in
  placed s1 = placed s /\ binaries_path s1 = binaries_path s /\
  (forall name, next_log s1 name = next_log s name) /\ forall i, daemon_of s1 k proto i = daemon_of s k proto i.
Proof.
  cbv zeta. destruct (dmem proto (registry k s)) eqn:E; [done|]. split_and!; try (by destruct k).
  intros i. unfold daemon_of. rewrite registry_set_registry, dget_dset, decide_True by done.
  unfold dmem in E. by destruct (dget proto (registry k s)).
Qed.

(** What a start of a daemon has done when it returns: [start] was called with the
    paths and the port of the node, and the process runs and is registered. *)
Lemma add_daemon_starts k binary i proto br start (s s' : Sandbox C) t t' :
  (forall p port bd nd log s1 t1 pid s2 t2, start p port bd nd log s1 t1 = (Ok pid, s2, t2) -> s2 = s1) ->
  add_daemon k binary i proto br start s t = (Ok (), s', t') ->
  exists n c pid s1 t1,
    placed s i n c /\ daemon_of s k proto i = None /\
    (let log := next_log s (daemon_log k proto i) in
     truthy log = log /\
     start (binary_of s binary br proto) (Node.rpc_port n) (base_dir (client_of c)) (Node.node_dir n) log s1 t
       = (Ok pid, s1, t1)) /\
    t' = t1 ++ [ESleep (float_of_decimal 1 (-1)); EPoll pid] /\
    os_poll (t1 ++ [ESleep (float_of_decimal 1 (-1))]) pid = None /\
    placed s' = placed s /\ daemon_of s' k proto i = Some pid.
Proof.
  intros Hst H. unfold add_daemon in H.
  apply then_ok in H as (self & ? & ? & [= <- <- <-] & H). apply massert_ok in H as [_ H].
  apply then_ok in H as (? & s0 & ? & E0 & H). injection E0 as _ E0 <-.
  apply then_ok in H as (? & ? & ? & [= <- <- <-] & H). apply massert_ok in H as [Hfree H].
  destruct (first_registry k proto s) as (Hp0 & Hb0 & Hl0 & Hd0). rewrite E0 in Hp0, Hb0, Hl0, Hd0. clear E0.
  apply then_ok in H as (path & ? & ? & (-> & -> & ->)%wrap_path_ok & H).
  apply lift_dget in H as (r & Hr & H). apply lift_dget in H as (c & Hc & H).
  apply then_ok in H as (port & ? & ? & (n & Hn & -> & -> & ->)%read_node & H).
  apply then_ok in H as (log & s1 & ? & (-> & Hlog & -> & Hh1 & Hp1 & Hk1)%new_log_gives & H).
  apply then_ok in H as (nd & ? & ? & (n1 & Hn1 & -> & -> & ->)%read_node & H).
  apply then_ok in H as (pid & s2 & t1 & Estart & H). pose proof (Hst _ _ _ _ _ _ _ _ _ _ Estart) as ->.
  apply then_ok in H as (? & ? & ? & [= <- <- <-] & H).
  apply then_ok in H as (code & ? & ? & [= <- <- <-] & H). apply massert_ok in H as [Hcode%bool_decide_eq_true H].
  injection H as <- <-. rewrite Hh1 in Hn1. rewrite Hn in Hn1. injection Hn1 as <-.
  unfold binary_of in Estart. rewrite Hb0, Hl0 in Estart. rewrite Hl0 in Hlog. exists n, c, pid, s1, t1.
  split_and!.
  - rewrite <- Hp0. split; [by exists r|done].
  - rewrite <- Hd0. unfold daemon_of. unfold dmem in Hfree. by destruct (dget i _).
  - by split.
  - by rewrite <- app_assoc.
  - done.
  - by rewrite set_registry_placed, Hp1.
  - unfold daemon_of. rewrite registry_set_registry, dget_dset, decide_True by done.
    change (dget i (dset i pid (default [] (dget proto (registry k s1)))) = Some pid).
    by rewrite dget_dset, decide_True.
Qed.
End Add.

(** ** Calls that start a daemon *)

(** The registry, binary, node, protocol and branch of such a call *)
Definition daemon_call {C} (c : call (C := C)) : option (kind * str * Z * str * str) :=
  match c with
  | CAddBaker i _ proto _ _ br _ => Some (KBaker, BAKER, i, proto, br)
  | CAddEndorser i _ proto _ br => Some (KEndorser, ENDORSER, i, proto, br)
  | CAddAccuser i proto br => Some (KAccuser, ACCUSER, i, proto, br)
  | _ => None
  end.

(** The arguments behind the binary, the base directory and the endpoint *)
Definition daemon_arguments {C} (c : call (C := C)) (node_dir : str) : list str :=
  match c with
  | CAddBaker _ accounts _ params _ _ run_params =>
      default [] params ++ [$"run"; $"with"; $"local"; $"node"; node_dir] ++ accounts ++ default [] run_params
  | CAddEndorser _ account _ delay _ =>
      [$"run"] ++ option_list account ++ [$"--endorsement-delay"; str_int delay]
  | CAddAccuser _ _ _ => [$"run"]
  | _ => []
  end.

(** Bakers get the environment with the log levels, the others inherit it. *)
Definition daemon_environ {C} (c : call (C := C)) (env : environ) : option environ :=
  match c with CAddBaker _ _ _ _ ll _ _ => Some (baker_environ ll env) | _ => None end.

Section Calls.
Context {C : Type} {R : Runner C} {o : OS} {U : UCD}.

#[local] Opaque lit.

Lemma add_daemon_launches k binary i proto br start arguments env (s s' : Sandbox C) t t' :
  (forall p port bd nd log (s1 s2 : Sandbox C) t1 t2 pid, start p port bd nd log s1 t1 = (Ok pid, s2, t2) ->
     s2 = s1 /\ t2 = t1 ++ launched (truthy log)
       ([p; $"-base-dir"; bd; $"-endpoint"; endpoint_of port] ++ arguments nd) (env (os_environ t1)) pid) ->
  add_daemon k binary i proto br start s t = (Ok (), s', t') ->
  exists n cl pid,
    placed s i n cl /\ daemon_of s k proto i = None /\
    t' = t ++ launched (next_log s (daemon_log k proto i))
             ([binary_of s binary br proto; $"-base-dir"; base_dir (client_of cl); $"-endpoint";
               endpoint_of (Node.rpc_port n)] ++ arguments (Node.node_dir n))
             (env (os_environ t)) pid
           ++ [ESleep (float_of_decimal 1 (-1)); EPoll pid] /\
    (exists t1, t' = t1 ++ [EPoll pid] /\ os_poll t1 pid = None) /\
    placed s' = placed s /\ daemon_of s' k proto i = Some pid.
Proof.
  intros Hst E. apply add_daemon_starts in E; [|intros; by eapply Hst].
  destruct E as (n & cl & pid & s1 & t1 & Hp & Hd & [Hl (_ & ->)%Hst] & -> & Hpoll & Hs & Hd').
  rewrite Hl in Hpoll |- *. exists n, cl, pid. split_and!; try done; [by rewrite <- app_assoc|].
  eexists. split; [|exact Hpoll]. by rewrite <- !app_assoc.
Qed.

Lemma daemon_call_starts (c : call (C := C)) k binary i proto br (s s' : Sandbox C) t t' :
  daemon_call c = Some (k, binary, i, proto, br) -> exec_call c s t = (Ok (), s', t') ->
  exists n cl pid,
    placed s i n cl /\ daemon_of s k proto i = None /\
    t' = t ++ launched (next_log s (daemon_log k proto i))
             ([binary_of s binary br proto; $"-base-dir"; base_dir (client_of cl); $"-endpoint";
               endpoint_of (Node.rpc_port n)] ++ daemon_arguments c (Node.node_dir n))
             (daemon_environ c (os_environ t)) pid
           ++ [ESleep (float_of_decimal 1 (-1)); EPoll pid] /\
    (exists t1, t' = t1 ++ [EPoll pid] /\ os_poll t1 pid = None) /\
    placed s' = placed s /\ daemon_of s' k proto i = Some pid.
Proof.
  intros Hc E. destruct c as [| | | |j accounts proto1 params ll br1 rp|j account proto1 delay br1|j proto1 br1| | | | | |];
    try discriminate Hc; injection Hc as <- <- <- <- <-; cbn [exec_call] in E.
  - apply (add_daemon_launches _ _ _ _ _ _ (fun nd => default [] params ++ [$"run"; $"with"; $"local"; $"node"; nd]
      ++ accounts ++ default [] rp) (fun env => Some (baker_environ ll env)) _ _ _ _) in E; [exact E|].
    intros p port bd nd log s1 s2 t1 t2 pid. apply Baker_init_ok.
  - apply (add_daemon_launches _ _ _ _ _ _ (fun _ => [$"run"] ++ option_list account
      ++ [$"--endorsement-delay"; str_int delay]) (fun _ => None) _ _ _ _) in E; [exact E|].
    intros p port bd nd log s1 s2 t1 t2 pid H. apply Endorser_init_ok in H. by destruct account.
  - apply (add_daemon_launches _ _ _ _ _ _ (fun _ => [$"run"]) (fun _ => None) _ _ _ _) in E; [exact E|].
    intros p port bd nd log s1 s2 t1 t2 pid. apply Accuser_init_ok.
Qed.
End Calls.

Lemma next_log_fresh {C} (s : Sandbox C) k proto i f :
  inv s -> next_log s (daemon_log k proto i) = Some f -> f ∉ logs s.
Proof.
  unfold next_log. intros Hi. destruct (truthy (log_dir s)) as [d|]; [|done]. intros [= <-] Hin.
  apply list_elem_of_lookup_1 in Hin as [j Hj]. pose proof (inv_logs s Hi j _ Hj) as Hn.
  apply lookup_lt_Some in Hj. destruct (daemon_log_numbered k proto i (counter s)) as (p & sep & Hsep & E).
  assert (Z.of_nat j = counter s) as Hc; [|rewrite (inv_counter s Hi) in Hc; lia].
  eapply numbered_inj; [lia|rewrite (inv_counter s Hi); lia|exact Hn|].
  exists (d +:+ $"/" +:+ p), sep. split; [done|]. by rewrite E, <- !app_assoc.
Qed.

(** C6. Whatever has been called on a sandbox, with clients of either class and
    factories that leave the sandbox itself alone: if [add_baker], [add_endorser] or
    [add_accuser] then returns, it has started exactly one process, whose command
    names the RPC port of the node of that number (the base port plus the number),
    the base directory of the client registered for the number and, for a baker,
    the directory of the node; the process writes to a log no other process had,
    was running when it was polled last, and is the one now registered, where there
    was none before.  The client is the one a call of [register_client] or
    [add_node] made for the number; it talks to the port of that call, which for
    [add_node] is the port of the node.  Nodes and clients are as before. *)
Theorem daemons_serve_nodes {C : Type} {R : Runner C} {RS : RunnerSpec C} {o : OS} {U : UCD} {S}
    (bin : str) (ids : identities_t) (rpc p2p num : Z)
    (dir : option str) (sp : bool) (x x' : S) (t0 t1 t t' : trace) (s0 s s' : Sandbox C)
    (calls : list call) (outcomes : list bool) c k binary i proto br :
  Sandbox_init bin ids rpc p2p num dir sp x t0 = (Ok s0, x', t1) ->
  Forall proper_call calls -> run_calls calls s0 t1 = (outcomes, s, t) ->
  daemon_call c = Some (k, binary, i, proto, br) -> exec_call c s t = (Ok (), s', t') ->
  let log := next_log s (daemon_log k proto i) in
  exists n cl pid,
    placed s i n cl /\ Node.rpc_port n = rpc + i /\
    (exists call, call ∈ calls /\ made_by rpc bin call i cl) /\
    t' = t ++ launched log
             ([binary_of s binary br proto; $"-base-dir"; base_dir (client_of cl); $"-endpoint"; endpoint_of (rpc + i)]
              ++ daemon_arguments c (Node.node_dir n)) (daemon_environ c (os_environ t)) pid
           ++ [ESleep (float_of_decimal 1 (-1)); EPoll pid] /\
    (exists t2, t' = t2 ++ [EPoll pid] /\ os_poll t2 pid = None) /\
    (forall f, log = Some f -> f ∉ logs s) /\
    placed s' = placed s /\ daemon_of s k proto i = None /\ daemon_of s' k proto i = Some pid.
Proof.
  intros H0 Hc Hr Hd E log. pose proof (init_inv _ _ _ _ _ _ _ _ _ _ _ _ H0) as Hi0.
  pose proof (init_mine _ _ _ _ _ _ _ _ _ _ _ _ (fun i c => exists k, k ∈ calls /\ made_by rpc bin k i c) H0) as Hs.
  destruct (run_calls_owned rpc bin calls calls s0 t1 outcomes s t (fun _ H => H) Hc Hi0 Hs Hr)
    as [Hinv ([= Hb _] & _ & Hown)].
  destruct (daemon_call_starts c k binary i proto br s s' t t' Hd E)
    as (n & cl & pid & Hp & Hfree & Ht & Hpoll & Hp' & Hd').
  pose proof Hp as [(r & Hn & Hheap) Hcl].
  destruct (inv_node_at s Hinv i r Hn) as (_ & n' & Hn' & Hport & _). rewrite Hheap in Hn'. injection Hn' as <-.
  rewrite Hb in Hport. rewrite Hport in Ht. exists n, cl, pid.
  split_and!; try done; [exact (Hown i cl Hcl)|]. intros f. by apply next_log_fresh.
Qed.

(** A baker for node 3, which is registered with its client, in a sandbox that
    keeps logs *)
Definition baker_call : call (C := Client) :=
  CAddBaker 3 [$"bootstrap1"] $"012-Psithaca" None None [] None.

Definition baker_sandbox : Sandbox Client :=
  MkSandbox $"/bin" (Some $"/logs") [] 18730 19730 45 false [] [] [] [] [] [] 0 [].

Definition baker_command (base_dir node_dir : str) : list str :=
  [$"/bin/tezos-baker-012-Psithaca"; $"-base-dir"; base_dir; $"-endpoint"; $"http://127.0.0.1:18733";
   $"run"; $"with"; $"local"; $"node"; node_dir; $"bootstrap1"].

Lemma daemons_serve_nodes_witness :
  exists (t t' : trace) (s' : Sandbox Client) n cl pid,
    placed s' 3 n cl /\ Node.rpc_port n = 18733 /\ daemon_of s' KBaker $"012-Psithaca" 3 = Some pid /\
    t' = t ++ launched (Some $"/logs/baker-012-Psithaca_3_#1.txt")
               (baker_command (base_dir cl) (Node.node_dir n)) (Some []) pid
           ++ [ESleep (float_of_decimal 1 (-1)); EPoll pid].
Proof.
  pose (r := run_calls (o := calm_os) client_calls baker_sandbox []).
  assert (Er : run_calls (o := calm_os) client_calls baker_sandbox [] = ([true; true], r.1.2, r.2))
    by (vm_compute; reflexivity).
  pose (q := exec_call (o := calm_os) baker_call r.1.2 r.2).
  assert (Eq : exec_call (o := calm_os) baker_call r.1.2 r.2 = (Ok (), q.1.2, q.2)) by (vm_compute; reflexivity).
  destruct (@daemons_serve_nodes Client _ _ calm_os ascii_only_ucd () $"/bin" [] 18730 19730 45 (Some $"/logs") false
    () () [] [] r.2 q.2 baker_sandbox r.1.2 q.1.2 client_calls [true; true] baker_call KBaker $"tezos-baker" 3
    $"012-Psithaca" [] eq_refl client_calls_proper Er eq_refl Eq) as (n & cl & pid & Hp & Hn & _ & Ht & _ & _ & Hp' & _ & Hd).
  exists r.2, q.2, q.1.2, n, cl, pid. rewrite Hp'. split_and!; [exact Hp|exact Hn|exact Hd|].
  rewrite Ht. unfold baker_command. by f_equal.
Defined.
