(* ===== verification/PreCommit.v ===== *)
(** * The pre-commit hook (scripts/pre_commit/pre_commit.py)

    The hook asks git for the staged (or modified) files and runs linters, tests
    and formatters on them; its return code says whether the commit may go on.
    The theorems relate that return code to the return codes of the processes the
    hook ran, and say which test files are given to pytest. *)

From Stdlib Require Import ZArith Lia.
From stdpp Require Import base tactics list strings numbers.
From S2P Require Import Prelude PyStr PyExc PyRe PyDict PyJson PyFloat PyIO.

Local Open Scope Z_scope.
Local Open Scope py_scope.

Definition LINT_ONLY : str := $"--lint-only".
Definition TEST_ITSELF : str := $"--test-itself".
Definition UNSTAGED : str := $"--unstaged".

Section Hook.
Context {o : OS}.

(** The script keeps no state of its own. *)
Abbreviation IO := (M ()).

Definition print_err (s : str) : IO () := emit (EPrintErr s).

(** [subprocess.run(cmd, stdout=PIPE, universal_newlines=True, check=True).stdout];
    the standard error is not captured. *)
Definition run_checked (cmd : list str) : IO str :=
  p ← communicate cmd None None;
  out ← lift (decode_utf8 (p_stdout p));
  if p_returncode p =? 0 then mret (universal_newlines out)
  else raise (CalledProcessError (p_returncode p) cmd (universal_newlines out) []).

Definition git_diff_command (staged_or_modified : bool) (extension : str) : list str :=
  [$"git"; $"diff"] ++ (if staged_or_modified then [$"--cached"] else []) ++
  [$"--name-only"; $"--diff-filter=ACMR"; $"*." +:+ extension].

Definition nonempty_lines (out : str) : list str :=
  List.filter (fun x => negb (bool_decide (x = []))) (split_on nl out).

Definition git_diff (staged_or_modified : bool) (extension : str) : IO (list str) :=
  out ← run_checked (git_diff_command staged_or_modified extension);
  mret (nonempty_lines out).

Fixpoint git_diff_many (staged_or_modified : bool) (extensions : list str) : IO (list str) :=
  match extensions with
  | [] => mret []
  | extension :: r =>
      l ← git_diff staged_or_modified extension;
      result ← git_diff_many staged_or_modified r;
      mret (l ++ result)
  end.

(** The message is the string as written: it is not a formatted string. *)
Definition get_tests_python_path : IO (option str) :=
  git_root ← ask os_getcwd;
  let result := path_join git_root [$"tests_python"] in
  d ← isdir result;
  if negb d then
    print_err $"{result} is not a directory, this is unexpected";; mret None
  else mret (Some result).

Definition is_file_pytest_relevant (tests_python_basename path : str) : bool :=
  if existsb (fun x => endswith x path) [$"__init__.py"; $"conftest.py"] then false
  else if negb (startswith (tests_python_basename +:+ $"/tests") path) then false
  else true.

Definition get_py_files (tests_python_path : str) (staged_or_modified pytest : bool) : IO (list str) :=
  let tests_python_basename := basename tests_python_path in
  git_diff_result ← git_diff staged_or_modified $"py";
  if pytest then mret (List.filter (is_file_pytest_relevant tests_python_basename) git_diff_result)
  else mret git_diff_result.

(** [sorted] on strings. *)
Fixpoint insert_str (x : str) (l : list str) : list str :=
  match l with
  | [] => [x]
  | y :: r => if str_leb x y then x :: l else y :: insert_str x r
  end.
Definition sorted_str (l : list str) : list str := foldr insert_str [] l.

(** The loop over the files: the badly formatted files, those that could not be
    verified, and whether all are well formatted. *)
Fixpoint ocamlformat_loop (files : list str) : IO (list str * list str * bool) :=
  match files with
  | [] => mret ([], [], true)
  | file_ :: rest =>
      let cmd := [$"ocamlformat"; $"--check"; file_] in
      print_ (join $" " cmd);;
      res ← communicate cmd None None;
      stderr ← lift (decode_utf8 (p_stderr res));
      '(formatting_fails, unknown_fails, result) ← ocamlformat_loop rest;
      if 0 <? p_returncode res then
        if bool_decide (stderr = []) then mret (file_ :: formatting_fails, unknown_fails, false)
        else mret (formatting_fails, file_ :: unknown_fails, false)
      else mret (formatting_fails, unknown_fails, result)
  end.

Definition plural (l : list str) : str := if (length l =? 1)%nat then [] else $"s".

Definition report_unknown (unknown_fails : list str) : IO () :=
  if bool_decide (unknown_fails = []) then mret ()
  else
    print_err ($"Formatting of the following file" +:+ plural unknown_fails +:+
               $" could not be verified:");;
    for_ (sorted_str unknown_fails) (fun file_ => print_err ($"  " +:+ file_));;
    print_err ($"This likely means the concerned files are syntactically invalid. Please fix them.").

Definition quote_spaces (f : str) : str :=
  if contains $" " f then [dquote] +:+ f +:+ [dquote] else f.

Definition report_formatting (formatting_fails : list str) : IO () :=
  if bool_decide (formatting_fails = []) then mret ()
  else
    print_err ($"Badly formatted file" +:+ plural formatting_fails +:+ $":");;
    for_ (sorted_str formatting_fails) (fun file_ => print_err ($"  " +:+ file_));;
    let fix_ := $"ocamlformat --inplace " +:+ join $" " (map quote_spaces formatting_fails) in
    print_err ($"To fix that, run from the repo's root: " +:+ fix_).

Definition ocamlformat_check (files : list str) : IO bool :=
  if bool_decide (files = []) then mret true
  else
    '(formatting_fails, unknown_fails, result) ← ocamlformat_loop files;
    report_unknown unknown_fails;;
    report_formatting formatting_fails;;
    mret result.

(** [file_[len(prefix) + len(os.sep):]] *)
Definition trim_dir (dir file_ : str) : str :=
  slice (Some (Z.of_nat (length dir) + 1)) None file_.

Fixpoint call_pytest_loop (tests_python_basename : str) (files : list str) (result : Z) : IO Z :=
  match files with
  | [] => mret result
  | file_ :: rest =>
      let file_ := trim_dir tests_python_basename file_ in
      let cmd := [$"poetry"; $"run"; $"pytest"; file_] in
      print_ (tests_python_basename +:+ $"> " +:+ join $" " cmd);;
      returncode ← exec_in (Some tests_python_basename) cmd None;
      call_pytest_loop tests_python_basename rest (Z.max result returncode)
  end.

Definition call_pytest (tests_python_path : str) (files : list str) : IO Z :=
  call_pytest_loop (basename tests_python_path) files 0.

Definition call_py_linters (tests_python_path : str) (files : list str) : IO Z :=
  let tests_python_basename := basename tests_python_path in
  let target_files := join $" " (map (trim_dir tests_python_basename)
                                   (List.filter (startswith tests_python_basename) files)) in
  if bool_decide (target_files = []) then mret 0
  else
    env ← environ_copy;
    exec_in (Some tests_python_basename) [$"make"; $"pre_commit_targets"]
      (Some (dset $"SRCS" target_files env)).

Definition tezt_test_dir : str := $"tezt/tests".

(** The files that are given to tezt, without their directory. *)
Fixpoint tezt_select (files : list str) : IO (list str) :=
  match files with
  | [] => mret []
  | file_ :: rest =>
      if negb (startswith tezt_test_dir file_) then tezt_select rest
      else if negb (endswith $".ml" file_) then tezt_select rest
      else
        text ← read_file file_;
        match re_search (rlit $"let register () =") text with
        | None => tezt_select rest
        | Some _ =>
            let to_add := trim_dir tezt_test_dir file_ in
            tezt_files ← tezt_select rest;
            mret (to_add :: tezt_files)
        end
  end.

Fixpoint tezt_loop (tezt_files : list str) (return_code : Z) : IO Z :=
  match tezt_files with
  | [] => mret return_code
  | tezt_file :: rest =>
      let cmd := [$"dune"; $"exec"; $"tezt/tests/main.exe"; $"--"; $"--file"; tezt_file] in
      print_ ($"> " +:+ join $" " cmd);;
      returncode ← exec_in None cmd None;
      tezt_loop rest (Z.max return_code returncode)
  end.

Definition adjective (staged_or_modified : bool) : str :=
  if staged_or_modified then $"staged" else $"modified".

Definition call_tezt (files : list str) (staged_or_modified : bool) : IO Z :=
  d ← isdir tezt_test_dir;
  if negb d then
    print_err ($"Unexpectedly, " +:+ tezt_test_dir +:+ $" directory cannot be found");; mret 1
  else
    tezt_files ← tezt_select files;
    if bool_decide (tezt_files = []) then
      print_ ($"No " +:+ adjective staged_or_modified +:+ $" file relevant to tezt found");; mret 0
    else tezt_loop tezt_files 0.

Definition main_pytest (tests_python_path : str) (staged_or_modified : bool) (adj : str)
    (pytest : bool) (return_code : Z) : IO Z :=
  if pytest then
    relevant_pytest_files ← get_py_files tests_python_path staged_or_modified true;
    if bool_decide (relevant_pytest_files = []) then
      print_ ($"No " +:+ adj +:+ $" *.py file relevant to pytest found");; mret return_code
    else
      rc ← call_pytest tests_python_path relevant_pytest_files;
      mret (Z.max return_code rc)
  else print_ (LINT_ONLY +:+ $" passed: not calling pytest");; mret return_code.

Definition main_py_files (staged_or_modified : bool) (adj : str) (pytest : bool) : IO Z :=
  tests_python_path ← get_tests_python_path;
  match tests_python_path with
  | None => mret 1
  | Some tests_python_path =>
      if bool_decide (tests_python_path = []) then mret 1
      else
        return_code ← main_pytest tests_python_path staged_or_modified adj pytest 0;
        relevant_pylint_files ← get_py_files tests_python_path staged_or_modified false;
        if bool_decide (relevant_pylint_files = []) then
          print_ ($"No " +:+ adj +:+ $" *.py file to lint");; mret return_code
        else
          rc ← call_py_linters tests_python_path relevant_pylint_files;
          mret (Z.max return_code rc)
  end.

Definition main_test_itself : IO Z :=
  tests_python_path ← get_tests_python_path;
  match tests_python_path with
  | None => mret 1
  | Some p => mret (if bool_decide (p = []) then 1 else 0)
  end.

(** The arguments are [sys.argv]. *)
Definition parse_arguments (argv : list str) : bool * bool * bool :=
  (bool_decide (UNSTAGED ∉ argv), bool_decide (LINT_ONLY ∈ argv), bool_decide (TEST_ITSELF ∈ argv)).

Definition usage : str :=
  $"Usage: ./scripts/pre_commit/pre_commit.py [-h|--help] [" +:+ LINT_ONLY +:+ $"] [" +:+
  TEST_ITSELF +:+ $"] [" +:+ UNSTAGED +:+ $"]".

Definition help_lines : list str :=
  [$"This hooks does the following:";
   $"1/ Executes python tests of staged *.py files (disable by passing " +:+ LINT_ONLY +:+ $")";
   $"2/ Lints staged *.py files";
   $"3/ Formats staged *{ml,mli} files";
   $"   (and update the commit if possible with formatting changes)";
   $"Pass " +:+ TEST_ITSELF +:+ $" for the hook to test itself (used by CI)";
   $"Pass " +:+ UNSTAGED +:+ $" to do all this on unstaged files"].

Definition print_help (argv : list str) : IO () :=
  if bool_decide ($"-h" ∉ argv) && bool_decide ($"--help" ∉ argv) then mret ()
  else
    print_ usage;;
    print_ (join [nl] help_lines);;
    raise (SystemExit 0).

Definition main_ocaml (staged lint_only : bool) (return_code : Z) : IO Z :=
  let ml_extensions := [$"ml"; $"mli"] in
  relevant_ocaml_files ← git_diff_many staged ml_extensions;
  if bool_decide (relevant_ocaml_files = []) then
    let extensions := $"{" +:+ join $"," ml_extensions +:+ $"}" in
    print_ ($"No " +:+ adjective staged +:+ $" *." +:+ extensions +:+ $" relevant file found");;
    mret return_code
  else
    ocamlformat_res ← ocamlformat_check relevant_ocaml_files;
    let return_code := Z.max return_code (if ocamlformat_res : bool then 0 else 1) in
    if lint_only then print_ (LINT_ONLY +:+ $" passed: not calling tezt");; mret return_code
    else
      tezt_rc ← call_tezt relevant_ocaml_files staged;
      mret (Z.max return_code tezt_rc).

Definition main (argv : list str) : IO Z :=
  print_help argv;;
  let '(staged, lint_only, test_itself) := parse_arguments argv in
  if test_itself then print_ ($"Recognized " +:+ TEST_ITSELF);; main_test_itself
  else
    return_code ← main_py_files staged (adjective staged) (negb lint_only);
    main_ocaml staged lint_only return_code.

(** ** The verdict of the hook *)

(** The return code of the process an event stands for. *)
Definition code_of (t : trace) (e : event) : list Z :=
  match e with
  | EExec cwd cmd env => match os_exec t cwd cmd env with Ok c => [c] | Raise _ => [] end
  | ERun cmd inp env => match os_run t cmd inp env with Ok p => [p_returncode p] | Raise _ => [] end
  | _ => []
  end.

(** The return codes of the processes run in [l], after [t]. *)
Fixpoint return_codes (t l : trace) : list Z :=
  match l with
  | [] => []
  | e :: r => code_of t e ++ return_codes (t ++ [e]) r
  end.

Definition no_positive (l : list Z) : Prop := Forall (fun c => c <= 0) l.

Lemma return_codes_app l1 : forall t l2,
  return_codes t (l1 ++ l2) = return_codes t l1 ++ return_codes (t ++ l1) l2.
Proof.
  induction l1 as [|e l1 IH]; intros t l2; cbn; [by rewrite app_nil_r|].
  by rewrite IH, <- !app_assoc.
Qed.

(** If the verdict was [c] before, then it is [ok a] after a computation that
    returns [a], which also satisfies [Q]. *)
Definition judged {A} (c : Prop) (Q ok : A -> Prop) (m : IO A) : Prop :=
  forall t, match m () t with
  | (Ok a, _, t') => exists l, t' = t ++ l /\ Q a /\ (ok a <-> c /\ no_positive (return_codes t l))
  | (Raise _, _, _) => True
  end.

Lemma judged_bind {A B} c Q1 ok1 (m : IO A) (f : A -> IO B) Q2 ok2 :
  judged c Q1 ok1 m -> (forall a, Q1 a -> judged (ok1 a) Q2 ok2 (f a)) -> judged c Q2 ok2 (m ≫= f).
Proof.
  intros Hm Hf t. unfold mbind, M_bind. specialize (Hm t).
  destruct (m () t) as [[[a|e] []] t1]; [|done]. destruct Hm as (l1 & -> & HQ & H1).
  specialize (Hf a HQ (t ++ l1)). destruct (f a () (t ++ l1)) as [[[b|e] []] t2]; [|done].
  destruct Hf as (l2 & -> & HQ2 & H2). exists (l1 ++ l2).
  split; [by rewrite app_assoc|split; [done|]].
  rewrite return_codes_app. unfold no_positive in *. rewrite Forall_app. tauto.
Qed.

Lemma judged_ret {A} (c : Prop) (Q ok : A -> Prop) a : Q a -> (ok a <-> c) -> judged c Q ok (mret a).
Proof.
  intros HQ Hok t. exists []. rewrite app_nil_r. split; [done|split; [done|]].
  cbn. split; [|tauto]. intros H. split; [tauto|constructor].
Qed.

(** A computation that runs no process. *)
Lemma judged_quiet {A} c (Q : A -> Prop) (m : IO A) :
  emits (fun e => forall t, code_of t e = []) m ->
  (forall t, match (m () t).1.1 with Ok a => Q a | Raise _ => True end) ->
  judged c Q (fun _ => c) m.
Proof.
  intros Hm HQ t. specialize (HQ t). destruct (Hm () t) as (l & Hl & Hp & _).
  destruct (m () t) as [[[a|e] []] t']; cbn in *; [|done]. exists l. split; [done|split; [done|]].
  assert (return_codes t l = []) as ->; [|split; [intros H; split; [done|constructor]|tauto]].
  clear Hl. revert t. induction Hp as [|e l He _ IH]; intros t; cbn; [done|]. by rewrite He, IH.
Qed.

Lemma judged_emits {A} c (m : IO A) :
  emits (fun e => forall t, code_of t e = []) m -> judged c (fun _ => True) (fun _ => c) m.
Proof. intros H. apply judged_quiet; [done|]. intros t. by case_match. Qed.

Lemma judged_exec c cwd cmd env :
  judged c (fun _ => True) (fun rc => c /\ rc <= 0) (exec_in cwd cmd env).
Proof.
  intros t. unfold exec_in, request. destruct (os_exec t cwd cmd env) as [rc|e] eqn:E; [|done].
  exists [EExec cwd cmd env]. split; [done|split; [done|]]. cbn. rewrite E. unfold no_positive. cbn.
  rewrite Forall_singleton. tauto.
Qed.

Lemma judged_communicate c cmd inp env :
  judged c (fun _ => True) (fun p => c /\ p_returncode p <= 0) (communicate cmd inp env).
Proof.
  intros t. unfold communicate, request. destruct (os_run t cmd inp env) as [p|e] eqn:E; [|done].
  exists [ERun cmd inp env]. split; [done|split; [done|]]. cbn. rewrite E. unfold no_positive. cbn.
  rewrite Forall_singleton. tauto.
Qed.

Lemma judged_raise {A} c (Q ok : A -> Prop) e : judged c Q ok (raise e).
Proof. by intros t. Qed.

Lemma judged_conseq {A} c (Q Q' ok ok' : A -> Prop) (m : IO A) :
  judged c Q ok m -> (forall a, Q a -> Q' a /\ (ok a <-> ok' a)) -> judged c Q' ok' m.
Proof.
  intros Hm H t. specialize (Hm t). destruct (m () t) as [[[a|e] []] t']; [|done].
  destruct Hm as (l & -> & HQ & Hok). destruct (H a HQ) as [HQ' Hiff]. exists l.
  split; [done|]. split; [done|]. tauto.
Qed.

Lemma judged_prior {A} (c c' : Prop) (Q ok : A -> Prop) (m : IO A) :
  judged c Q ok m -> (c <-> c') -> judged c' Q ok m.
Proof.
  intros Hm H t. specialize (Hm t). destruct (m () t) as [[[a|e] []] t']; [|done].
  destruct Hm as (l & -> & HQ & Hok). exists l. tauto.
Qed.

Ltac quiet := apply judged_emits; solve_emits; try done.

Lemma judged_git_diff c b e : judged c (fun _ => True) (fun _ => c) (git_diff b e).
Proof.
  unfold git_diff, run_checked.
  eapply (judged_bind _ (fun _ => True) (fun _ => c)); [|intros; by apply judged_ret].
  eapply judged_bind; [apply judged_communicate|]. intros p _.
  eapply judged_bind; [quiet|]. intros out _.
  destruct (Z.eqb_spec (p_returncode p) 0); [apply judged_ret; [done|]; intuition lia|].
  apply judged_raise.
Qed.

Lemma judged_git_diff_many c b es : judged c (fun _ => True) (fun _ => c) (git_diff_many b es).
Proof.
  induction es as [|e es IH]; cbn; [by apply judged_ret|].
  eapply judged_bind; [apply judged_git_diff|]. intros l _.
  eapply judged_bind; [apply IH|]. intros r _. by apply judged_ret.
Qed.

Lemma judged_get_py_files c p b k : judged c (fun _ => True) (fun _ => c) (get_py_files p b k).
Proof.
  unfold get_py_files. eapply judged_bind; [apply judged_git_diff|]. intros l _.
  destruct k; by apply judged_ret.
Qed.

Lemma judged_ocamlformat_loop c files :
  judged c (fun _ => True) (fun r => c /\ r.2 = true) (ocamlformat_loop files).
Proof.
  revert c. induction files as [|f files IH]; intros c; cbn [ocamlformat_loop];
    [apply judged_ret; cbn; intuition|].
  eapply judged_bind; [quiet|]. intros ? _.
  eapply judged_bind; [apply judged_communicate|]. intros p _.
  eapply judged_bind; [quiet|]. intros err _.
  eapply judged_bind; [apply IH|]. intros [[ff uf] r] _. cbn.
  destruct (Z.ltb_spec 0 (p_returncode p)).
  - destruct (bool_decide _); apply judged_ret; cbn; try done; (split; [intros [_ ?]; done|lia]).
  - apply judged_ret; cbn; [done|]. tauto.
Qed.

Lemma judged_ocamlformat_check c files :
  judged c (fun _ => True) (fun r => c /\ r = true) (ocamlformat_check files).
Proof.
  unfold ocamlformat_check. destruct (bool_decide _); [apply judged_ret; intuition|].
  eapply judged_bind; [apply judged_ocamlformat_loop|]. intros [[ff uf] r] _. cbn.
  eapply judged_bind; [unfold report_unknown, print_err; quiet|]. intros ? _.
  eapply judged_bind; [unfold report_formatting, print_err; quiet|]. intros ? _.
  apply judged_ret; tauto.
Qed.

Lemma judged_call_pytest_loop c b files : forall r,
  judged (c /\ r <= 0) (fun _ => True) (fun rc => c /\ rc <= 0) (call_pytest_loop b files r).
Proof.
  induction files as [|f files IH]; intros r; cbn [call_pytest_loop]; [apply judged_ret; tauto|].
  eapply judged_bind; [quiet|]. intros ? _.
  eapply judged_bind; [apply judged_exec|]. intros rc _.
  eapply judged_prior; [apply IH|]. rewrite Z.max_lub_iff. tauto.
Qed.

Lemma judged_tezt_loop c files : forall r,
  judged (c /\ r <= 0) (fun _ => True) (fun rc => c /\ rc <= 0) (tezt_loop files r).
Proof.
  induction files as [|f files IH]; intros r; cbn [tezt_loop]; [apply judged_ret; tauto|].
  eapply judged_bind; [quiet|]. intros ? _.
  eapply judged_bind; [apply judged_exec|]. intros rc _.
  eapply judged_prior; [apply IH|]. rewrite Z.max_lub_iff. tauto.
Qed.

Lemma judged_linters c p files :
  judged c (fun _ => True) (fun rc => c /\ rc <= 0) (call_py_linters p files).
Proof.
  unfold call_py_linters. destruct (bool_decide _); [apply judged_ret; [done|]; intuition lia|].
  eapply judged_bind; [unfold environ_copy; quiet|]. intros env _. apply judged_exec.
Qed.

Definition at_root : Prop :=
  (forall t, os_isdir t (path_join (os_getcwd t) [$"tests_python"]) = true) /\
  (forall t, os_isdir t tezt_test_dir = true).

Lemma judged_tezt_select c files : judged c (fun _ => True) (fun _ => c) (tezt_select files).
Proof.
  apply judged_emits. induction files as [|f files IH]; cbn [tezt_select]; [solve_emits|].
  destruct (negb _); [done|]. destruct (negb _); [done|].
  apply emits_bind; [apply emits_read|]. intros text. destruct (re_search _ _); [|done].
  apply emits_bind; [done|]. intros l. apply emits_ret.
Qed.

Lemma judged_call_tezt c files b : at_root ->
  judged c (fun _ => True) (fun rc => c /\ rc <= 0) (call_tezt files b).
Proof.
  intros [_ Hd]. unfold call_tezt.
  eapply (judged_bind _ (fun d => d = true) (fun _ => c)).
  { apply judged_quiet; [unfold isdir; solve_emits|]. intros t. by cbn. }
  intros d ->. cbn [negb]. eapply judged_bind; [apply judged_tezt_select|]. intros l _.
  destruct (bool_decide _).
  - eapply judged_bind; [quiet|]. intros ? _. apply judged_ret; [done|]. intuition lia.
  - eapply judged_prior; [apply judged_tezt_loop|]. intuition lia.
Qed.

Lemma judged_main_pytest c p b adj k :
  judged c (fun rc => 0 <= rc) (fun rc => c /\ rc = 0) (main_pytest p b adj k 0).
Proof.
  unfold main_pytest. destruct k.
  - eapply judged_bind; [apply judged_get_py_files|]. intros files _. destruct (bool_decide _).
    + eapply judged_bind; [quiet|]. intros ? _. apply judged_ret; [done|]. intuition lia.
    + unfold call_pytest. eapply judged_bind.
      { eapply judged_prior; [apply (judged_call_pytest_loop c)|]. intuition lia. }
      intros rc _. apply judged_ret; [lia|]. intuition lia.
  - eapply judged_bind; [quiet|]. intros ? _. apply judged_ret; [done|]. intuition lia.
Qed.

Lemma path_join_nonempty a b : b <> [] -> path_join a [b] <> [].
Proof.
  intros Hb. unfold path_join, path_join2. cbn. destruct (startswith _ _); [done|].
  destruct (_ || _); intros H; apply app_eq_nil in H as [_ H]; [done|].
  apply app_eq_nil in H as [? _]. done.
Qed.

Lemma judged_tests_python_path c : at_root ->
  judged c (fun p => exists q, p = Some q /\ q <> []) (fun _ => c) get_tests_python_path.
Proof.
  intros [Hd _]. apply judged_quiet; [unfold get_tests_python_path, isdir, print_err; by solve_emits|].
  intros t. unfold get_tests_python_path. m_run. rewrite Hd. cbn.
  eexists. split; [done|]. by apply path_join_nonempty.
Qed.

Lemma judged_main_py_files c b adj k : at_root ->
  judged c (fun rc => 0 <= rc) (fun rc => c /\ rc = 0) (main_py_files b adj k).
Proof.
  intros Hr. unfold main_py_files. eapply judged_bind; [by apply judged_tests_python_path|].
  intros ? (p & -> & Hp). rewrite bool_decide_eq_false_2 by done.
  eapply judged_bind; [apply judged_main_pytest|]. intros r Hr0.
  eapply judged_bind; [apply judged_get_py_files|]. intros files _. destruct (bool_decide _).
  - eapply judged_bind; [quiet|]. intros ? _. apply judged_ret; [done|]. tauto.
  - eapply judged_bind; [apply judged_linters|]. intros rc _. apply judged_ret; cbn beta in *; [lia|].
    intuition lia.
Qed.

Lemma judged_main_ocaml c b l r : at_root -> 0 <= r ->
  judged (c /\ r = 0) (fun rc => 0 <= rc) (fun rc => c /\ rc = 0) (main_ocaml b l r).
Proof.
  intros Hr H0. unfold main_ocaml. eapply judged_bind; [apply judged_git_diff_many|].
  intros files _. destruct (bool_decide _).
  - eapply judged_bind; [quiet|]. intros ? _. by apply judged_ret.
  - eapply judged_bind; [apply judged_ocamlformat_check|]. intros ok _. destruct l.
    + eapply judged_bind; [quiet|]. intros ? _. destruct ok; (apply judged_ret; cbn beta in *; [lia|]); intuition lia.
    + eapply judged_bind; [by apply judged_call_tezt|]. intros rc _.
      destruct ok; (apply judged_ret; cbn beta in *; [lia|]); intuition lia.
Qed.

Lemma judged_main argv : at_root ->
  judged True (fun rc => 0 <= rc) (fun rc => True /\ rc = 0) (main argv).
Proof.
  intros Hr. unfold main. eapply (judged_bind _ (fun _ => True) (fun _ => True)).
  { apply judged_emits. unfold print_help. by solve_emits. }
  intros ? _. unfold parse_arguments. destruct (bool_decide (TEST_ITSELF ∈ argv)).
  - eapply judged_bind; [quiet|]. intros ? _. unfold main_test_itself.
    eapply judged_bind; [by apply judged_tests_python_path|]. intros ? (p & -> & Hp).
    rewrite bool_decide_eq_false_2 by done. by apply judged_ret.
  - eapply judged_bind; [by apply judged_main_py_files|]. intros r H0.
    by apply judged_main_ocaml.
Qed.

(** C8. When the hook runs at the root of the repository and returns, its return
    code is not negative, and it is 0 exactly if no process it ran had a positive
    return code.  A process that was killed by a signal has a negative code:
    alone it does not block the commit.  The processes include those that check the
    formatting (ocamlformat): unlike the docstring of the script says, the fourth of
    its points blocks the commit as the first three do. *)
Theorem hook_verdict argv t rc t' :
  at_root -> main argv () t = (Ok rc, (), t') ->
  exists l, t' = t ++ l /\ 0 <= rc /\ (rc = 0 <-> Forall (fun c => c <= 0) (return_codes t l)).
Proof.
  intros Hr E. pose proof (judged_main argv Hr t) as H. rewrite E in H.
  destruct H as (l & Hl & H0 & H). exists l. unfold no_positive in H. tauto.
Qed.

(** ** The files given to pytest *)

Lemma run_checked_Ok cmd t out t' : run_checked cmd () t = (Ok out, (), t') ->
  exists p raw, os_run t cmd None None = Ok p /\ p_returncode p = 0 /\
    decode_utf8 (p_stdout p) = Ok raw /\ out = universal_newlines raw /\ t' = t ++ [ERun cmd None None].
Proof.
  unfold run_checked. m_run. destruct (os_run t cmd None None) as [p|e]; [|done].
  destruct (decode_utf8 (p_stdout p)) as [raw|e] eqn:E; [|done].
  destruct (Z.eqb_spec (p_returncode p) 0); [|done]. intros [= <- <-]. by eauto 10.
Qed.

Lemma trim_dir_app dir f : trim_dir dir (dir +:+ $"/" +:+ f) = f.
Proof.
  unfold trim_dir. rewrite app_assoc. apply slice_from_app. rewrite length_app, Nat2Z.inj_add. reflexivity.
Qed.

Lemma relevant_trim base f : is_file_pytest_relevant base f = true ->
  base +:+ $"/" +:+ trim_dir base f = f.
Proof.
  unfold is_file_pytest_relevant. destruct (existsb _ _); [done|].
  destruct (startswith _ f) eqn:E; [|done]. intros _. apply startswith_spec in E as [r ->].
  change $"/tests" with ($"/" +:+ $"tests"). rewrite <- !app_assoc. by rewrite trim_dir_app.
Qed.

Lemma filter_filter {A} (p q : A -> bool) l :
  List.filter p (List.filter q l) = List.filter (fun x => q x && p x) l.
Proof. induction l as [|x l IH]; [done|]. cbn. destruct (q x); cbn; by rewrite IH. Qed.

(** What the call of pytest on one file does. *)
Definition pytest_events (base file_ : str) : list event :=
  let cmd := [$"poetry"; $"run"; $"pytest"; trim_dir base file_] in
  [EPrint (base +:+ $"> " +:+ join $" " cmd); EExec (Some base) cmd None].

Lemma call_pytest_loop_events base files : forall r t rc t',
  call_pytest_loop base files r () t = (Ok rc, (), t') -> t' = t ++ flat_map (pytest_events base) files.
Proof.
  induction files as [|f files IH]; intros r t rc t'; cbn [call_pytest_loop flat_map].
  - intros [= <- <-]. by rewrite app_nil_r.
  - unfold print_, exec_in. unfold mbind at 1 2, M_bind, emit, request.
    destruct (os_exec _ _ _ _) as [c|e]; [|done]. intros H. apply IH in H as ->.
    unfold pytest_events. by rewrite <- !app_assoc.
Qed.

(** C35. The files given to pytest are the lines of the output of git that are not
    empty, are under tests_python/tests and end in neither __init__.py nor
    conftest.py, in the order and as often as git prints them; git is asked for the
    names of the files staged (or only modified) that end in ".py" and were added,
    copied, changed or renamed.  Pytest is run once for each of the files, in that
    order, inside tests_python, with the path of the file relative to it. *)
Theorem pytest_runs_staged_tests path staged t files t1 :
  get_py_files path staged true () t = (Ok files, (), t1) ->
  let base := basename path in
  let git := [$"git"; $"diff"] ++ (if staged then [$"--cached"] else [])
    ++ [$"--name-only"; $"--diff-filter=ACMR"; $"*.py"] in
  (exists p raw, os_run t git None None = Ok p /\ p_returncode p = 0 /\
     decode_utf8 (p_stdout p) = Ok raw /\ t1 = t ++ [ERun git None None] /\
     files = List.filter (fun f => negb (bool_decide (f = [])) && startswith (base +:+ $"/tests") f
       && negb (endswith $"__init__.py" f) && negb (endswith $"conftest.py" f))
       (split_on nl (universal_newlines raw))) /\
  Forall (fun f => exists rel, f = base +:+ $"/" +:+ rel /\ trim_dir base f = rel) files /\
  forall t rc t', call_pytest path files () t = (Ok rc, (), t') ->
    t' = t ++ flat_map (fun f =>
      [EPrint (base +:+ $"> " +:+ join $" " [$"poetry"; $"run"; $"pytest"; trim_dir base f]);
       EExec (Some base) [$"poetry"; $"run"; $"pytest"; trim_dir base f] None]) files.
Proof.
  unfold get_py_files, git_diff. intros H. apply bind_Ok in H as (l & [] & t2 & H & Hf).
  apply bind_Ok in H as (out & [] & t3 & H & Hl). apply run_checked_Ok in H as (p & raw & Hp & H0 & Hr & -> & ->).
  injection Hl as <- <-. injection Hf as <- <-. cbv zeta. set (base := basename path). split; [|split].
  - exists p, raw. split; [done|split; [done|split; [done|split; [done|]]]].
    unfold nonempty_lines. rewrite filter_filter. apply filter_ext. intros f.
    unfold is_file_pytest_relevant. cbn [existsb].
    by destruct (bool_decide (f = [])), (endswith $"__init__.py" f), (endswith $"conftest.py" f), (startswith _ f).
  - apply List.Forall_forall. intros f Hf. apply filter_In in Hf as [_ Hf].
    exists (trim_dir base f). split; [|done]. symmetry. by apply relevant_trim.
  - intros. by eapply call_pytest_loop_events.
Qed.

End Hook.

(** A checkout in which one test file is staged and pytest is killed. *)
Definition killed_os : OS :=
  {| os_isfile _ _ := false; os_isdir _ _ := true; os_environ _ := [];
     os_run _ cmd _ _ :=
       Ok (ProcResult (if bool_decide ($"*.py" ∈ cmd)
                       then encode ($"tests_python/tests/test_a.py" +:+ [nl]) else []) [] 0);
     os_spawn _ _ _ _ := Raise OSError;
     os_poll _ _ := None; os_wait _ _ _ := None; os_mkdtemp _ _ := Raise OSError;
     os_tempfile _ := Raise OSError; os_rmtree _ _ := Raise OSError;
     os_read _ _ := Raise OSError; os_write _ _ _ := Raise OSError;
     os_http _ _ _ _ := Raise OSError; os_utcnow _ := 0; os_getcwd _ := $"/repo";
     os_listdir _ _ := Raise OSError;
     os_exec _ _ cmd _ := Ok (if bool_decide ($"pytest" ∈ cmd) then -9 else 0) |}.

Lemma hook_verdict_witness :
  exists t', main (o := killed_os) [$"pre_commit.py"] () [] = (Ok 0, (), t') /\
  exists l, t' = [] ++ l /\ 0 <= 0 /\ (0 = 0 <-> Forall (fun c => c <= 0) (return_codes (o := killed_os) [] l)) /\
  -9 ∈ return_codes (o := killed_os) [] l.
Proof.
  eexists. split; [vm_compute; reflexivity|].
  destruct (@hook_verdict killed_os [$"pre_commit.py"] [] 0
              (main (o := killed_os) [$"pre_commit.py"] () []).2) as (l & Hl & H0 & H).
  - done.
  - vm_compute. reflexivity.
  - exists l. rewrite <- Hl. split_and!; [vm_compute; reflexivity|done|done|].
    cbn in Hl. rewrite <- Hl. refine (bool_decide_unpack _ _). vm_compute. exact I.
Defined.

Lemma pytest_runs_staged_tests_witness :
  exists files t1, get_py_files (o := killed_os) $"/repo/tests_python" true true () [] = (Ok files, (), t1) /\
  files = [$"tests_python/tests/test_a.py"] /\
  Forall (fun f => exists rel, f = $"tests_python/" +:+ rel /\ trim_dir $"tests_python" f = rel) files.
Proof.
  eexists _, _. split; [vm_compute; reflexivity|]. split; [reflexivity|].
  refine (proj1 (proj2 (@pytest_runs_staged_tests killed_os $"/repo/tests_python" true [] _ _ _))).
  vm_compute. reflexivity.
Defined.
