(* ===== verification/CoverageScript.v ===== *)
(** * The coverage script of the CI (scripts/ci/coverage.py)

    The script looks for the most recently merged branch whose pipeline computed a
    coverage.  The GitLab bindings are a library: the class [GitlabApi] holds the
    calls the script makes and the fields it reads.  The search consumes an
    iterator and counts what it consumed, the state [search]; the theorem is that
    it implements a declarative choice on the list of commits. *)

From Stdlib Require Import ZArith Lia.
From stdpp Require Import base tactics list strings numbers.
From S2P Require Import Prelude PyStr PyExc PyRe PyDict PyFloat PyTime PyIO.

Local Open Scope Z_scope.
Local Open Scope py_scope.

(** The fields of the library's objects that the script reads. *)
Record commit := Commit { commit_id : str; commit_title : str; commit_web_url : str }.
Record pipeline := Pipeline { pipeline_id : Z; pipeline_web_url : str }.
Record job := Job { job_id : Z; job_name : str; job_status : str; job_web_url : str; job_coverage : option num }.

(** The calls of the library.  [gl_commits] is lazy: fetching a commit may fail. *)
Class GitlabApi := {
  glab : Type;
  gproject : Type;
  gl_connect : str -> res (option glab);
  gl_project : glab -> str -> res (option gproject);
  gl_commits : gproject -> str -> res (list (res commit));
  gl_pipelines : gproject -> str -> res (list pipeline);
  gl_jobs : pipeline -> res (list job);
  gl_artifacts : gproject -> Z -> res bytes }.

Record Config := MkConfig { project_id : str; start_commit : str; coverage_job_name : str }.

Definition DEFAULT_CONFIG : Config := MkConfig $"tezos/tezos" $"master" $"unified_coverage".

(** ["{:n}"] of a string: left-aligned. *)
Definition pad (n : nat) (s : str) : str := s +:+ repeat 32%N (n - length s).

(** The iterator and the counter that get_ref_coverage_job shares with its local
    functions. *)
Record search := Search { remaining : list (res commit); commit_count : Z }.

Section Script.
Context {o : OS} {gl : GitlabApi}.

Definition eprint {S} (s : str) : M S () := emit (EPrintErr s).

Definition log_line (c : commit) (message : str) : str :=
  let title := if (length (commit_title c) <? 40)%nat then commit_title c
               else take 37 (commit_title c) +:+ $"..." in
  pad 10 (take 10 (commit_id c)) +:+ $" (" +:+ pad 40 title +:+ $"): " +:+ message.

Definition log {S} (c : commit) (message : str) : M S () := eprint (log_line c message).

Definition get_gitlab {S} : M S glab :=
  let url := $"https://gitlab.com" in
  g ← lift (gl_connect url);
  match g with
  | None => eprint ($"Could not instantiate Gitlab API bindings for " +:+ url);; raise (SystemExit 1)
  | Some g => mret g
  end.

Definition get_project {S} (config : Config) (g : glab) : M S gproject :=
  project ← lift (gl_project g (project_id config));
  match project with
  | None => eprint ($"GitLab project " +:+ project_id config +:+ $" was not found");; raise (SystemExit 1)
  | Some p => mret p
  end.

(** The file is written as bytes: the text of the event has a character per byte. *)
Definition download_artifacts_from_job {S} (project : gproject) (id : Z) (outdir : option str) : M S () :=
  zip_file_name ← tempfile_name;
  content ← lift (gl_artifacts project id);
  write_file zip_file_name $"wb" (map Z.to_N content);;
  let cmd := [$"unzip"; $"-b"; zip_file_name] ++
             match outdir with Some d => if bool_decide (d = []) then [] else [$"-d"; d] | None => [] end in
  rc ← exec_in None cmd None;
  (if rc =? 0 then mret () else raise (CalledProcessError rc cmd [] []));;
  emit (EUnlink zip_file_name).

(** The last job of that name. *)
Fixpoint last_named (name : str) (jobs : list job) (coverage_job : option job) : option job :=
  match jobs with
  | [] => coverage_job
  | j :: r => last_named name r (if bool_decide (job_name j = name) then Some j else coverage_job)
  end.

Definition coverage_job_of_commit {S} (config : Config) (project : gproject) (c : commit) : M S (option job) :=
  pipelines ← lift (gl_pipelines project (commit_id c));
  match pipelines with
  | [] => log c ($"Pipeline not found for commit " +:+ commit_web_url c);; mret None
  | last_pipeline :: _ =>
      jobs ← lift (gl_jobs last_pipeline);
      if bool_decide (length jobs = 0%nat) then
        log c ($"Jobs not found in pipeline " +:+ pipeline_web_url last_pipeline);; mret None
      else
        match last_named (coverage_job_name config) jobs None with
        | None =>
            log c ($"Could not find coverage job `" +:+ coverage_job_name config +:+ $"` in pipeline " +:+
                   pipeline_web_url last_pipeline +:+ $". Found jobs: " +:+ join $"," (map job_name jobs));;
            mret None
        | Some j =>
            if negb (bool_decide (job_status j = $"success")) then
              log c ($"Coverage job `" +:+ coverage_job_name config +:+ $"` (" +:+ job_web_url j +:+
                     $") was not successful  (status: " +:+ job_status j +:+ $"). Ignoring.");;
              mret None
            else
              match job_coverage j with
              | None =>
                  log c ($"Coverage not found in coverage job  `" +:+ coverage_job_name config +:+ $"` (" +:+
                         job_web_url j +:+ $")");;
                  mret None
              | Some cov =>
                  log c ($"Coverage " +:+ str_num cov +:+ $"% found in coverage job `" +:+ job_name j +:+
                         $"` (" +:+ job_web_url j +:+ $")");;
                  mret (Some j)
              end
        end
  end.

Definition merge_pattern : regex :=
  rseqs [rlit $"Merge branch '"; rstar dot; rlit $"' into '"; rstar dot; rlit $"'"].

Definition is_merge_commit (c : commit) : bool :=
  match re_match merge_pattern (commit_title c) with Some _ => true | None => false end.

(** [next(iterator)] and the counter. *)
Definition nextc : M search commit :=
  s ← get;
  match remaining s with
  | [] => raise StopIteration
  | r :: rest =>
      put (Search rest (commit_count s));;
      c ← lift r;
      modify (fun s => Search (remaining s) (commit_count s + 1));;
      mret c
  end.

(** Each step consumes an element of the iterator: its length is enough fuel. *)
Fixpoint skip_to_merge (fuel : nat) (merge_commit : commit) : M search commit :=
  if is_merge_commit merge_commit then mret merge_commit
  else
    match fuel with
    | O => raise StopIteration
    | S fuel =>
        log merge_commit $"Skipping non-merge commit";;
        c ← nextc;
        skip_to_merge fuel c
    end.

Definition next_merge_commit : M search commit :=
  merge_commit ← nextc;
  s ← get;
  skip_to_merge (S (length (remaining s))) merge_commit.

Fixpoint merge_loop (fuel : nat) (config : Config) (project : gproject) : M search (option job) :=
  match fuel with
  | O => raise StopIteration
  | S fuel =>
      merge_commit ← next_merge_commit;
      log merge_commit $"Check for coverage in merge commit";;
      coverage_job ← coverage_job_of_commit config project merge_commit;
      match coverage_job with
      | Some j => mret (Some j)
      | None => merge_loop fuel config project
      end
  end.

Definition search_coverage (config : Config) (project : gproject) : M search (option job) :=
  merge_commit ← next_merge_commit;
  log merge_commit $"Skip first merge commit";;
  pred ← nextc;
  massert (negb (is_merge_commit pred));;
  log pred $"Check for coverage in merge commit parent";;
  coverage_job ← coverage_job_of_commit config project pred;
  match coverage_job with
  | Some j => mret (Some j)
  | None => s ← get; merge_loop (S (length (remaining s))) config project
  end.

Definition get_ref_coverage_job {S} (config : Config) (project : gproject) (ref_name : str)
    (commit_limit : nat) : M S (option job) :=
  eprint ($"Checking first " +:+ str_int (Z.of_nat commit_limit) +:+ $" commits");;
  all ← lift (gl_commits project ref_name);
  r ← on_new (Search (take commit_limit all) 0)
    (try_except (search_coverage config project)
       (fun e => match e with
                 | StopIteration => Some (
                     s ← get;
                     eprint ($"No coverage information found in the " +:+ str_int (commit_count s) +:+
                             $" most recent commits on " +:+ ref_name);;
                     mret None)
                 | _ => None
                 end));
  mret r.1.

Definition getenv (env : environ) (name default : str) : str :=
  match dget name env with Some v => v | None => default end.

Definition str_coverage (c : option num) : str :=
  match c with Some x => str_num x | None => $"None" end.

Definition main : M () () :=
  env ← environ_copy;
  let config := MkConfig (getenv env $"CI_PROJECT_ID" (project_id DEFAULT_CONFIG))
                         (getenv env $"COVERAGE_START_COMMIT" (start_commit DEFAULT_CONFIG))
                         (getenv env $"COVERAGE_JOB_NAME" (coverage_job_name DEFAULT_CONFIG)) in
  g ← get_gitlab;
  project ← get_project config g;
  coverage_job ← get_ref_coverage_job config project (start_commit config) 200;
  match coverage_job with
  | Some j =>
      print_ ($"Coverage: " +:+ str_coverage (job_coverage j) +:+ $"%");;
      download_artifacts_from_job project (job_id j) None;;
      print_ $"Succesfully retrieved and extracted artifacts"
  | None => print_ $"Coverage: None"
  end.

(** ** The specification *)

(** What a commit contributes, without the messages. *)
Definition coverage_of (config : Config) (project : gproject) (c : commit) : res (option job) :=
  pipelines ← gl_pipelines project (commit_id c);
  match pipelines with
  | [] => Ok None
  | last_pipeline :: _ =>
      jobs ← gl_jobs last_pipeline;
      match last_named (coverage_job_name config) jobs None with
      | Some j => Ok (if bool_decide (job_status j = $"success") then option_map (fun _ => j) (job_coverage j) else None)
      | None => Ok None
      end
  end.

Fixpoint first_covered (config : Config) (project : gproject) (l : list commit) : res (option job) :=
  match l with
  | [] => Ok None
  | c :: r =>
      match coverage_of config project c with
      | Ok None => first_covered config project r
      | x => x
      end
  end.

Definition not_merge (c : commit) : bool := negb (is_merge_commit c).

(** The parent of the first merge commit, then the later merge commits. *)
Definition candidates (l : list commit) : res (list commit) :=
  match drop_while not_merge l with
  | _ :: pred :: rest =>
      if is_merge_commit pred then Raise AssertionError
      else Ok (pred :: List.filter is_merge_commit rest)
  | _ => Ok []
  end.

(** A StopIteration means that nothing was found. *)
Definition catch_stop (r : res (option job)) : res (option job) :=
  match r with Raise StopIteration => Ok None | r => r end.

Definition stop_if_none (r : res (option job)) : res (option job) :=
  match r with Ok None => Raise StopIteration | r => r end.

(** [j] is the last job of that name of the last pipeline of the commit; it
    succeeded and has a coverage. *)
Definition covered (config : Config) (project : gproject) (c : commit) (j : job) : Prop :=
  exists pl pls before after,
    gl_pipelines project (commit_id c) = Ok (pl :: pls) /\ gl_jobs pl = Ok (before ++ j :: after) /\
    job_name j = coverage_job_name config /\
    Forall (fun k => job_name k <> coverage_job_name config) after /\
    job_status j = $"success" /\ is_Some (job_coverage j).

(** ** Lemmas *)

Lemma coverage_job_of_commit_spec {S} config project c (s : S) t :
  exists t', coverage_job_of_commit config project c s t = (coverage_of config project c, s, t').
Proof.
  unfold coverage_job_of_commit, coverage_of, log, eprint. m_run. unfold res_bind.
  destruct (gl_pipelines _ _) as [[|pl pls]|e]; [by eauto| |by eauto].
  destruct (gl_jobs pl) as [jobs|e]; [|by eauto].
  destruct (bool_decide_reflect (length jobs = 0%nat)) as [H|H].
  - apply nil_length_inv in H as ->. by eauto.
  - destruct (last_named _ _ _) as [j|]; [|by eauto].
    destruct (bool_decide (job_status j = _)); [|by eauto]. destruct (job_coverage j); by eauto.
Qed.

Lemma last_named_Some name jobs : forall acc j,
  last_named name jobs acc = Some j <->
  (exists before after, jobs = before ++ j :: after /\ job_name j = name /\
     Forall (fun k => job_name k <> name) after) \/
  (acc = Some j /\ Forall (fun k => job_name k <> name) jobs).
Proof.
  induction jobs as [|k jobs IH]; intros acc j; cbn.
  - split; [by right|]. intros [(b & a & H & _)|[? _]]; [by destruct b|done].
  - rewrite IH. split.
    + intros [(b & a & -> & ? & ?)|[H ?]]; [left; by exists (k :: b), a|].
      destruct (bool_decide_reflect (job_name k = name)); [|right; by split; [|constructor]].
      injection H as ->. left. by exists [], jobs.
    + intros [(b & a & H & ? & ?)|[-> H]].
      * destruct b as [|b0 b]; injection H as -> ->; [|left; eauto].
        right. by rewrite bool_decide_eq_true_2.
      * inversion H; subst. right. by rewrite bool_decide_eq_false_2.
Qed.

Lemma covered_exact config project c j :
  coverage_of config project c = Ok (Some j) <-> covered config project c j.
Proof.
  unfold coverage_of, covered, mbind, res_bind. split.
  - destruct (gl_pipelines _ _) as [[|pl pls]|e]; [done| |done].
    destruct (gl_jobs pl) as [jobs|e] eqn:Ej; [|done].
    destruct (last_named _ _ _) as [k|] eqn:El; [|done].
    apply last_named_Some in El as [(b & a & -> & ? & ?)|[? _]]; [|done].
    destruct (bool_decide_reflect (job_status k = $"success")); [|done].
    destruct (job_coverage k) eqn:Ec; [|done]. intros [= ->].
    exists pl, pls, b, a. split_and!; try done; by rewrite Ec.
  - intros (pl & pls & b & a & -> & -> & Hn & Ha & Hs & [x Hx]).
    assert (last_named (coverage_job_name config) (b ++ j :: a) None = Some j) as ->.
    { apply last_named_Some. left. eauto. }
    rewrite bool_decide_eq_true_2 by done. by rewrite Hx.
Qed.

Lemma nextc_cons c l n t :
  nextc (Search (map Ok (c :: l)) n) t = (Ok c, Search (map Ok l) (n + 1), t).
Proof. done. Qed.

Lemma nextc_nil n t : nextc (Search (map Ok []) n) t = (Raise StopIteration, Search [] n, t).
Proof. done. Qed.

(** The next merge commit and the commits after it. *)
Lemma skip_to_merge_spec fuel : forall c l n t, (length l < fuel)%nat -> exists n' t',
  skip_to_merge fuel c (Search (map Ok l) n) t =
  match drop_while not_merge (c :: l) with
  | m :: rest => (Ok m, Search (map Ok rest) n', t')
  | [] => (Raise StopIteration, Search [] n', t')
  end.
Proof.
  induction fuel as [|fuel IH]; intros c l n t Hf; [lia|]. cbn [skip_to_merge drop_while].
  unfold not_merge at 1. destruct (is_merge_commit c); [by eauto|]. cbn [negb].
  unfold log, eprint. unfold mbind at 1 2, M_bind, emit.
  destruct l as [|c' l]; [by rewrite nextc_nil; eauto|]. rewrite nextc_cons.
  apply IH. cbn in Hf. lia.
Qed.

Lemma next_merge_commit_spec l n t : exists n' t',
  next_merge_commit (Search (map Ok l) n) t =
  match drop_while not_merge l with
  | m :: rest => (Ok m, Search (map Ok rest) n', t')
  | [] => (Raise StopIteration, Search [] n', t')
  end.
Proof.
  unfold next_merge_commit. unfold mbind, M_bind. destruct l as [|c l]; [by rewrite nextc_nil; eauto|].
  rewrite nextc_cons. unfold get. apply skip_to_merge_spec. cbn. rewrite length_map. lia.
Qed.

Lemma drop_while_filter (l : list commit) :
  match drop_while not_merge l with
  | m :: rest => List.filter is_merge_commit l = m :: List.filter is_merge_commit rest /\
      (length rest < length l)%nat
  | [] => List.filter is_merge_commit l = []
  end.
Proof.
  induction l as [|c l IH]; cbn; [done|]. unfold not_merge at 1.
  destruct (is_merge_commit c); cbn; [split; [done|lia]|].
  destruct (drop_while not_merge l); [done|]. destruct IH. split; [done|lia].
Qed.

Lemma merge_loop_spec config project fuel : forall l n t, (length l < fuel)%nat ->
  (merge_loop fuel config project (Search (map Ok l) n) t).1.1
  = stop_if_none (first_covered config project (List.filter is_merge_commit l)).
Proof.
  induction fuel as [|fuel IH]; intros l n t Hf; [lia|]. cbn [merge_loop].
  unfold mbind at 1, M_bind. destruct (next_merge_commit_spec l n t) as (n1 & t1 & ->).
  pose proof (drop_while_filter l) as Hl. destruct (drop_while not_merge l) as [|m rest]; [by rewrite Hl|].
  destruct Hl as [-> Hlen]. cbn [first_covered]. unfold log, eprint, emit. unfold mbind at 1.
  unfold mbind, M_bind.
  match goal with |- context [coverage_job_of_commit _ _ _ ?s ?t] =>
    destruct (coverage_job_of_commit_spec config project m s t) as (t2 & ->) end.
  destruct (coverage_of config project m) as [[j|]|e]; [done| |done]. apply IH. lia.
Qed.

Lemma search_coverage_spec config project l n t :
  (search_coverage config project (Search (map Ok l) n) t).1.1
  = match candidates l with
    | Ok cs => stop_if_none (first_covered config project cs)
    | Raise e => Raise e
    end.
Proof.
  unfold search_coverage, candidates. unfold mbind at 1, M_bind.
  destruct (next_merge_commit_spec l n t) as (n1 & t1 & ->).
  destruct (drop_while not_merge l) as [|m [|pred rest]]; [done|done|].
  unfold log, eprint, emit. unfold mbind at 1. unfold mbind at 1, M_bind. rewrite nextc_cons.
  unfold massert, assert_, lift. unfold mbind at 1. destruct (is_merge_commit pred); [done|]. cbn [negb].
  unfold mbind, M_bind. cbn [first_covered].
  match goal with |- context [coverage_job_of_commit _ _ _ ?s ?t] =>
    destruct (coverage_job_of_commit_spec config project pred s t) as (t2 & ->) end.
  destruct (coverage_of config project pred) as [[j|]|e]; [done| |done].
  unfold get. apply merge_loop_spec. cbn. rewrite length_map. lia.
Qed.

(** C7. The search of get_ref_coverage_job implements the specification: among
    the first [commit_limit] commits, the parent of the first merge commit and
    then the later merge commits are inspected in order and the job of the first
    that has coverage is returned; None if there is none, and an AssertionError
    if the parent is itself a merge commit.  It always returns. *)
Theorem get_ref_coverage_job_refines {S} config project ref_name limit l (s : S) t :
  gl_commits project ref_name = Ok (map Ok l) ->
  (get_ref_coverage_job config project ref_name limit s t).1.1
  = match candidates (take limit l) with
    | Ok cs => catch_stop (first_covered config project cs)
    | Raise e => Raise e
    end.
Proof.
  intros Hl. unfold get_ref_coverage_job. unfold eprint, lift. rewrite Hl. unfold mbind, M_bind, emit, on_new.
  rewrite firstn_map. unfold try_except.
  match goal with |- context [search_coverage _ _ ?s ?t] =>
    pose proof (search_coverage_spec config project (take limit l) 0 t) as H;
    destruct (search_coverage config project s t) as [[r s'] t'] end.
  cbn [fst] in H. subst r. destruct (candidates (take limit l)) as [cs|e] eqn:Ec.
  - destruct (first_covered config project cs) as [[j|]|e]; [done|done|]. by destruct e.
  - unfold candidates in Ec. destruct (drop_while _ _) as [|? [|? ?]]; [done|done|].
    destruct (is_merge_commit _); [|done]. by injection Ec as <-.
Qed.

(** C39. coverage_job_of_commit returns a job exactly if it is the last job of the
    configured name in the most recent pipeline of the commit, it succeeded and
    it has a coverage. *)
Theorem coverage_job_exact {S} config project c (s : S) t j :
  (coverage_job_of_commit config project c s t).1.1 = Ok (Some j) <-> covered config project c j.
Proof.
  destruct (coverage_job_of_commit_spec config project c s t) as (t' & ->). apply covered_exact.
Qed.

End Script.

(** A project with three commits: a merge, its parent without pipeline, and an
    older merge with coverage. *)
Definition sample_gitlab : GitlabApi :=
  {| glab := (); gproject := ();
     gl_connect _ := Ok (Some ()); gl_project _ _ := Ok (Some ());
     gl_commits _ _ := Ok (map Ok [
       Commit $"c3" $"Merge branch 'b' into 'master'" []; Commit $"c2" $"Fix" [];
       Commit $"c1" $"Merge branch 'a' into 'master'" []]);
     gl_pipelines _ sha := Ok (if bool_decide (sha = $"c1") then [Pipeline 1 []] else []);
     gl_jobs _ := Ok [Job 7 $"unified_coverage" $"success" [] (Some (NInt 66))];
     gl_artifacts _ _ := Ok [] |}.

Lemma get_ref_coverage_job_refines_witness :
  (get_ref_coverage_job (gl := sample_gitlab) (S := ())
     DEFAULT_CONFIG () $"master" 200 () []).1.1
  = Ok (Some (Job 7 $"unified_coverage" $"success" [] (Some (NInt 66)))).
Proof.
  rewrite (@get_ref_coverage_job_refines sample_gitlab () DEFAULT_CONFIG () $"master" 200
             _ () [] eq_refl).
  vm_compute. reflexivity.
Defined.
