(* ===== verification/DocsScripts.v ===== *)
(** * The documentation scripts (docs/scripts/)

    Labels of the protocol pages carry the name of the protocol as a suffix.
    add_labels_without_proto.py adds the unversioned labels to a page,
    remove_labels_without_proto.py removes them again, and check_proto_xrefs.py
    looks for references to unversioned labels.  The arguments are [sys.argv], without
    the name of the script for the last one. *)

From Stdlib Require Import ZArith Lia.
From stdpp Require Import base tactics list strings numbers gmap sets.
From S2P Require Import Prelude PyStr PyExc PyRe PyDict PyFloat PyIO ArgParse.

Local Open Scope Z_scope.
Local Open Scope py_scope.

(** ** Lines and labels *)

Definition label_char (c : N) : bool := ascii_alnum c || (c =? 95)%N || (c =? 45)%N.

(** [' *[.][.]  *_([a-zA-Z0-9_-]* ) *:'] *)
Definition def_lbl_pat : regex :=
  rseqs [rstar (ch 32); ch 46; ch 46; ch 32; rstar (ch 32); ch 95;
         RGroup 1 (rstar (RChar label_char)); rstar (ch 32); ch 58].

(** The label a line defines. *)
Definition label_of (line : str) : option str := m ← re_match def_lbl_pat line; group 1 m.

Definition not_slash : regex := RChar (fun c => negb (c =? 47)%N).

(** ['([^\/]+)\/([^\/]+)$'] *)
Definition page_pat : regex :=
  rseqs [RGroup 1 (rplus not_slash); ch 47; RGroup 2 (rplus not_slash); REnd].

Definition versioned (proto label : str) : bool := endswith ($"_" +:+ proto) label.

Section Scripts.
Context {o : OS}.
Abbreviation IO := (M ()).

Definition USAGE (argv0 : str) : str := $"usage: " +:+ argv0 +:+ $" <proto-dir>/<rst-file>".

(** The protocol and the page, or the usage message and exit status 1. *)
Definition page_argument (argv : list str) : IO (str * str) :=
  match argv with
  | [argv0; page] =>
      match m ← re_search page_pat page; group 1 m with
      | Some proto => mret (proto, page)
      | None => emit (EPrintErr (USAGE argv0));; raise (SystemExit 1)
      end
  | argv0 :: _ => emit (EPrintErr (USAGE argv0));; raise (SystemExit 1)
  | [] => raise IndexError
  end.

(** [print(line, end='')] *)
Definition print_line (line : str) : IO () := emit (EPrintEnd line).

(** [label[:-len(proto)-1]] *)
Definition drop_suffix (proto label : str) : str :=
  slice None (Some (- Z.of_nat (length proto) - 1)) label.

Definition add_line (proto line : str) : IO () :=
  match label_of line with
  | Some label =>
      if versioned proto label then print_ ($".. _" +:+ drop_suffix proto label +:+ $":")
      else emit (EPrintErr ($"warning: unversioned label " +:+ label +:+ $" found, may conflict"))
  | None => mret ()
  end;;
  print_line line.

Definition add_labels (argv : list str) : IO () :=
  '(proto, page) ← page_argument argv;
  text ← read_file page;
  for_ (file_lines text) (add_line proto).

Definition remove_line (proto line : str) : IO () :=
  match label_of line with
  | Some label => if negb (versioned proto label) then mret () else print_line line
  | None => print_line line
  end.

Definition remove_labels (argv : list str) : IO () :=
  '(proto, page) ← page_argument argv;
  text ← read_file page;
  for_ (file_lines text) (remove_line proto).

(** ** check_proto_xrefs.py *)

Record Args := MkArgs { proto_dir : str; arg_labels : bool }.

(** ['([^\/]+)\/?$'] *)
Definition dir_pat : regex := rseqs [RGroup 1 (rplus not_slash); ropt (ch 47); REnd].

(** [glob.glob(f"{directory}/*.rst")] for a directory without wildcards: the
    entries that are not hidden, in the order of the directory, no entry if it
    cannot be listed. *)
Definition glob_dir (directory : str) : str :=
  let d := rstrip_by (N.eqb 47) directory in if bool_decide (d = []) then directory +:+ $"/" else d.

Definition glob_rst (directory : str) : IO (list str) :=
  names ← ask (fun t => os_listdir t (glob_dir directory));
  mret match names with
       | Ok names => map (fun n => path_join2 (glob_dir directory) n)
                       (List.filter (fun n => endswith $".rst" n && negb (startswith $"." n)) names)
       | Raise _ => []
       end.

Context {U : UCD}.

Definition scan_line (args : Args) (proto file line : str) (labels : gset str) : IO (gset str) :=
  match label_of line with
  | Some label =>
      when (arg_labels args && negb (versioned proto label))
        (emit (EPrintErr (file +:+ $": unversioned label " +:+ label +:+
                          $" found, please remove or rewrite")));;
      mret ({[lower label]} ∪ labels)
  | None => mret labels
  end.

Fixpoint scan_lines (args : Args) (proto file : str) (lines : list str) (labels : gset str) : IO (gset str) :=
  match lines with
  | [] => mret labels
  | line :: r => labels ← scan_line args proto file line labels; scan_lines args proto file r labels
  end.

Fixpoint first_pass (args : Args) (proto : str) (files : list str) (labels : gset str) : IO (gset str) :=
  match files with
  | [] => mret labels
  | file :: r =>
      text ← read_file file;
      labels ← scan_lines args proto file (file_lines text) labels;
      first_pass args proto r labels
  end.

(** [':ref:`([^`]+)`'] *)
Definition ref_pat : regex :=
  rseqs [rlit $":ref:`"; RGroup 1 (rplus (RChar (fun c => negb (c =? 96)%N))); ch 96].
(** ['<(.+)>$'] *)
Definition ref_lbl_desc_pat : regex := rseqs [ch 60; RGroup 1 (rplus dot); ch 62; REnd].
(** ['[.](rst|html)$'] *)
Definition ref_file_pat : regex := rseqs [ch 46; RAlt (rlit $"rst") (rlit $"html"); REnd].
(** ['[\w.-]+'] *)
Definition sphinx_id_pat : regex :=
  rplus (RChar (fun c => is_word c || (c =? 46)%N || (c =? 45)%N)).

Definition target_label (ref : str) : str :=
  match m ← re_search ref_lbl_desc_pat ref; group 1 m with Some label => label | None => ref end.

(** What is said about one reference. *)
Definition check_ref (proto file ref : str) (labels : gset str) : option str :=
  let label := target_label ref in
  if found ref_file_pat label then None
  else match re_fullmatch sphinx_id_pat label with
  | None => Some (file +:+ $": :ref:`" +:+ ref +:+ $"`: rewrite as ref to a label")
  | Some _ =>
      if versioned proto label then None
      else
        let lclabel := lower label in
        if bool_decide (lclabel ∉ labels) && bool_decide ($"lclabel_" +:+ proto ∉ labels) then None
        else Some (file +:+ $": :ref:`" +:+ ref +:+ $"`: label " +:+ label +:+ $" should be" +:+
                   $"versioned as " +:+ label +:+ $"_" +:+ proto)
  end.

Definition check_file (proto file : str) (labels : gset str) : IO () :=
  txt ← read_file file;
  for_ (re_finditer ref_pat txt) (fun i =>
    match group 1 i with
    | Some ref => match check_ref proto file ref labels with
                  | Some message => emit (EPrintErr message)
                  | None => mret ()
                  end
    | None => mret ()
    end).

Definition check_proto_xrefs (args : Args) (help : str) : IO () :=
  match m ← re_search dir_pat (proto_dir args); group 1 m with
  | None => print_ help;; raise (SystemExit 1)
  | Some proto =>
      let directory := proto_dir args in
      d ← isdir directory;
      if negb d then
        emit (EPrintErr ($"directory " +:+ directory +:+ $" not found"));; raise (SystemExit 1)
      else
        files ← glob_rst directory;
        labels ← first_pass args proto files ∅;
        files ← glob_rst directory;
        for_ files (fun file => check_file proto file labels)
  end.

Definition xrefs_parser : parser :=
  ArgumentParser [Opt [$"-l"; $"--labels"] $"labels" StoreTrue (VBool false)] [Pos $"proto_dir" TStr] None.

(** [re.search] raises on a list. *)
Definition check_proto_xrefs_main {msg : Messages} (argv : list str) : IO () :=
  args ← parse_args xrefs_parser argv;
  proto_dir ← lift (attr $"proto_dir" args);
  labels ← lift (attr $"labels" args);
  match proto_dir with
  | VStr d => check_proto_xrefs (MkArgs d (bool_decide (labels = VBool true))) help_text
  | _ => raise TypeError
  end.

End Scripts.

(** ** Adding and removing labels *)

(** What a run wrote to its standard output. *)
Definition stdout_text (l : trace) : str :=
  flat_map (fun e => match e with EPrint s => s +:+ [nl] | EPrintEnd s => s | _ => [] end) l.

(** A system where every file has the text [s]. *)
Definition serving (s : str) : OS :=
  {| os_isfile _ _ := true; os_isdir _ _ := true; os_environ _ := [];
     os_run _ _ _ _ := Raise OSError; os_spawn _ _ _ _ := Raise OSError;
     os_poll _ _ := None; os_wait _ _ _ := None; os_mkdtemp _ _ := Raise OSError;
     os_tempfile _ := Raise OSError; os_rmtree _ _ := Raise OSError;
     os_read _ _ := Ok s; os_write _ _ _ := Raise OSError;
     os_http _ _ _ _ := Raise OSError; os_utcnow _ := 0; os_getcwd _ := $"/";
     os_listdir _ _ := Ok [$"page.rst"]; os_exec _ _ _ _ := Raise OSError |}.

(** The output of the two scripts for one line. *)
Definition added (proto line : str) : list str :=
  match label_of line with
  | Some label => if versioned proto label then [$".. _" +:+ drop_suffix proto label +:+ $":" +:+ [nl]; line]
                  else [line]
  | None => [line]
  end.

Definition kept (proto line : str) : bool :=
  match label_of line with Some label => versioned proto label | None => true end.

Lemma label_of_chars line label :
  label_of line = Some label -> Forall (fun c => label_char c = true) label.
Proof.
  unfold label_of, re_match, match_here. cbn [fmap option_fmap option_map mbind option_bind andb].
  destruct (mt def_lbl_pat _ _) as [s'|] eqn:E; [|done]. intros Hg.
  apply mt_sound in E as (s1 & D & [= ->]). unfold def_lbl_pat in D.
  cbn [rseqs den] in D. fold (den (ch 46)) (den (ch 32)) (den (ch 95)) (den (ch 58)) in D.
  destruct D as (a1 & _ & a2 & _ & a3 & _ & a4 & _ & a5 & _ & a6 & _ & a7 & D7 & a8 & D8 & D9).
  destruct D7 as (a & D & ->). apply (den_star_class true) in D as (w & Ew & Hw & _).
  apply (den_star_class true) in D8 as (_ & _ & _ & Hc8). apply den_char_caps in D9.
  change (assoc_nat 1 (caps s') = Some label) in Hg. rewrite D9, Hc8 in Hg. unfold capture in Hg. cbn in Hg.
  rewrite (between_consumes _ _ w Ew) in Hg. by injection Hg as <-.
Qed.

Lemma label_char_stops c : label_char c = true -> (c =? 32)%N = false /\ (c =? 58)%N = false /\ c <> nl.
Proof.
  unfold label_char, ascii_alnum, ascii_digit, ascii_lower, ascii_upper, in_range, nl.
  intros H. rewrite !orb_true_iff, !andb_true_iff, !N.leb_le, !N.eqb_eq in H.
  rewrite !N.eqb_neq. lia.
Qed.

Lemma mt_ch c t (s : st) k : after s = c :: t -> mt (ch c) s k = k (advance c t s).
Proof. intros E. cbn. rewrite E. by rewrite N.eqb_refl. Qed.

(** The label lines the first script adds are recognised, with their label. *)
Lemma label_of_added base : Forall (fun c => label_char c = true) base ->
  label_of ($".. _" +:+ base +:+ $":" +:+ [nl]) = Some base.
Proof.
  intros Hb. unfold label_of, re_match, match_here.
  set (line := $".. _" +:+ base +:+ $":" +:+ [nl]).
  assert (exists s', mt def_lbl_pat (start line) (fun s' => if false && negb (progress (start line) s') then None else Some s')
            = Some s' /\ caps s' = [(1%nat, base)]) as (s' & -> & Hc).
  { unfold def_lbl_pat. cbn [rseqs andb].
    assert (after (start line) = [] ++ 46%N :: 46%N :: 32%N :: 95%N :: base ++ [58%N; nl]) as E by done.
    eexists. split.
    - cbn [mt]. eapply (mt_star_run _ _ [] _ _ _ E); [constructor|done|]. rewrite skip_nil by done.
      erewrite mt_ch by exact E. erewrite mt_ch by reflexivity. erewrite mt_ch by reflexivity.
      eapply (mt_star_run _ _ []); [reflexivity|constructor|done|]. rewrite skip_nil by done.
      erewrite mt_ch by reflexivity. cbn [mt].
      eapply (mt_star_run _ _ base); [reflexivity|done|done|].
      eapply (mt_star_run _ _ []); [reflexivity|constructor|done|]. rewrite skip_nil by done.
      erewrite mt_ch by reflexivity. reflexivity.
    - cbn [caps capture advance skip]. by erewrite between_consumes by reflexivity. }
  change (assoc_nat 1 (caps s') = Some base). by rewrite Hc.
Qed.

Lemma drop_suffix_app proto base : drop_suffix proto (base +:+ $"_" +:+ proto) = base.
Proof.
  unfold drop_suffix, slice, clamp_index. rewrite !length_app. change (length $"_") with 1%nat.
  destruct (Z.ltb_spec (- Z.of_nat (length proto) - 1) 0); [|lia].
  rewrite drop_0. replace (Z.to_nat _) with (length base) by lia. apply take_app_length.
Qed.

(** The added lines are lines of the resulting text. *)
Lemma file_lines_added proto line s : file_lines (line ++ s) = line :: file_lines s ->
  file_lines (concat (added proto line) ++ s) = added proto line ++ file_lines s.
Proof.
  intros Hl. unfold added. destruct (label_of line) as [label|] eqn:E;
    [destruct (versioned proto label) eqn:Ev|]; cbn [concat]; rewrite ?app_nil_r; try done.
  apply endswith_spec in Ev as [base ->]. rewrite drop_suffix_app.
  apply label_of_chars, Forall_app in E as [E _].
  replace ((($".. _" +:+ base +:+ $":" +:+ [nl]) ++ line) ++ s)
    with (($".. _" ++ base ++ [58%N]) ++ nl :: (line ++ s)) by by rewrite <- !app_assoc.
  rewrite file_lines_nl; [by rewrite Hl, <- !app_assoc|].
  rewrite !not_elem_of_app. split; [refine (bool_decide_unpack _ _); vm_compute; exact I|].
  split; [|by rewrite list_elem_of_singleton].
  intros H. rewrite Forall_forall in E. by apply E, label_char_stops in H as (_ & _ & ?).
Qed.

Lemma file_lines_flat_added proto s :
  file_lines (concat (flat_map (added proto) (file_lines s))) = flat_map (added proto) (file_lines s).
Proof.
  induction s as [|w Hw Hne|w s Hw IH] using text_ind; [done| |].
  - rewrite (file_lines_last w) by done. cbn [flat_map]. rewrite app_nil_r.
    pose proof (file_lines_added proto w []) as H. rewrite !app_nil_r in H. apply H.
    by rewrite file_lines_last.
  - rewrite file_lines_nl by done. cbn [flat_map]. rewrite concat_app.
    rewrite file_lines_added; [by rewrite IH|]. rewrite <- app_assoc. cbn [app]. by rewrite file_lines_nl.
Qed.

(** The label of no line carries the suffix twice. *)
Definition suffix_once (proto : str) (s : str) : Prop :=
  Forall (fun line => match label_of line with
                      | Some label => endswith ($"_" +:+ proto +:+ $"_" +:+ proto) label = false
                      | None => True
                      end) (file_lines s).

Lemma kept_added proto line :
  match label_of line with
  | Some label => endswith ($"_" +:+ proto +:+ $"_" +:+ proto) label = false
  | None => True
  end ->
  List.filter (kept proto) (added proto line) = List.filter (kept proto) [line].
Proof.
  unfold added. destruct (label_of line) as [label|] eqn:E; [|done]. intros Hd.
  destruct (versioned proto label) eqn:Ev; [|done]. unfold versioned in Ev.
  apply endswith_spec in Ev as [base ->]. rewrite drop_suffix_app.
  assert (kept proto ($".. _" +:+ base +:+ $":" +:+ [nl]) = false) as Hk.
  { unfold kept. rewrite label_of_added.
    - unfold versioned. apply not_true_iff_false. intros [b ->]%endswith_spec.
      apply not_true_iff_false in Hd. apply Hd. apply endswith_spec. exists b. by rewrite <- !app_assoc.
    - by apply label_of_chars, Forall_app in E as [E _]. }
  cbn [List.filter]. by rewrite Hk.
Qed.

Lemma stdout_text_app l1 l2 : stdout_text (l1 ++ l2) = stdout_text l1 ++ stdout_text l2.
Proof. apply flat_map_app. Qed.

Lemma for_output (f : str -> M () ()) (g : str -> list str) lines :
  (forall line t, exists l, f line () t = (Ok (), (), t ++ l) /\ stdout_text l = concat (g line)) ->
  forall t, stdout_text (for_ lines f () t).2 = stdout_text t ++ concat (flat_map g lines).
Proof.
  intros Hf. induction lines as [|line lines IH]; intros t; [by rewrite app_nil_r|].
  cbn [for_ flat_map]. unfold mbind, M_bind. destruct (Hf line t) as (l & -> & Hl).
  by rewrite IH, stdout_text_app, Hl, concat_app, <- app_assoc.
Qed.

Lemma add_lines_output proto lines t :
  stdout_text (for_ lines (add_line proto) () t).2 = stdout_text t ++ concat (flat_map (added proto) lines).
Proof.
  apply for_output. intros line t'. unfold add_line, added, print_line.
  destruct (label_of line) as [label|]; [destruct (versioned proto label)|]; m_run;
    rewrite <- ?app_assoc; (eexists; split; [reflexivity|]); cbn; by rewrite ?app_nil_r, <- ?app_assoc.
Qed.

Lemma remove_lines_output proto lines t :
  stdout_text (for_ lines (remove_line proto) () t).2
  = stdout_text t ++ concat (List.filter (kept proto) lines).
Proof.
  assert (List.filter (kept proto) lines = flat_map (fun line => if kept proto line then [line] else []) lines) as ->.
  { induction lines as [|line lines IH]; cbn; [done|]. rewrite IH. by destruct (kept proto line). }
  apply for_output. intros line t'. unfold remove_line, kept, print_line.
  destruct (label_of line) as [label|]; [destruct (versioned proto label)|]; m_run;
    [exists [EPrintEnd line]|exists []|exists [EPrintEnd line]]; by rewrite ?app_nil_r.
Qed.

(** The protocol a page belongs to. *)
Definition page_proto (page : str) : option str := m ← re_search page_pat page; group 1 m.

Lemma add_labels_output argv0 page proto s t : page_proto page = Some proto ->
  stdout_text (add_labels (o := serving s) [argv0; page] () t).2
  = stdout_text t ++ concat (flat_map (added proto) (file_lines s)).
Proof.
  intros H. unfold add_labels, page_argument. unfold page_proto in H. rewrite H.
  unfold mbind at 1. unfold mret, M_ret, M_bind. unfold mbind, M_bind, read_file. apply add_lines_output.
Qed.

Lemma remove_labels_output argv0 page proto s t : page_proto page = Some proto ->
  stdout_text (remove_labels (o := serving s) [argv0; page] () t).2
  = stdout_text t ++ concat (List.filter (kept proto) (file_lines s)).
Proof.
  intros H. unfold remove_labels, page_argument. unfold page_proto in H. rewrite H.
  unfold mbind at 1. unfold mret, M_ret, M_bind. unfold mbind, M_bind, read_file. apply remove_lines_output.
Qed.

(** C19. Removing the unversioned labels of the page that add_labels wrote gives
    what removing them from the original page gives; if the original page has
    versioned labels only, it gives the page back.  No label may carry the suffix
    of the protocol twice. *)
Theorem remove_after_add page proto s :
  page_proto page = Some proto -> suffix_once proto s ->
  let run script text := stdout_text (script (serving text) [$"script"; page] () []).2 in
  run (@remove_labels) (run (@add_labels) s) = run (@remove_labels) s /\
  (Forall (fun line => kept proto line = true) (file_lines s) -> run (@remove_labels) (run (@add_labels) s) = s).
Proof.
  intros Hp Hs run. unfold run.
  rewrite (add_labels_output _ _ _ _ _ Hp), !(remove_labels_output _ _ _ _ _ Hp). cbn [stdout_text flat_map app].
  rewrite file_lines_flat_added.
  assert (List.filter (kept proto) (flat_map (added proto) (file_lines s)) = List.filter (kept proto) (file_lines s)) as ->.
  { induction Hs as [|line lines Hl _ IH]; [done|]. cbn [flat_map].
    rewrite List.filter_app, kept_added, IH by done. change (line :: lines) with ([line] ++ lines).
    by rewrite List.filter_app. }
  split; [done|]. intros Hk. rewrite <- (concat_file_lines s) at 2. f_equal.
  induction Hk as [|line lines Hl _ IH]; [done|]. cbn. by rewrite Hl, IH.
Qed.

Definition sample_page : str := join [nl] [$".. _intro_alpha:"; []; $"Introduction"; []].

Lemma remove_after_add_witness :
  stdout_text (remove_labels (o := serving (stdout_text (add_labels (o := serving sample_page)
    [$"script"; $"docs/alpha/intro.rst"] () []).2)) [$"script"; $"docs/alpha/intro.rst"] () []).2 = sample_page.
Proof.
  refine (proj2 (@remove_after_add $"docs/alpha/intro.rst" $"alpha" sample_page _ _) _).
  - vm_compute. reflexivity.
  - unfold suffix_once. change (file_lines sample_page) with
      [$".. _intro_alpha:" +:+ [nl]; [nl]; $"Introduction" +:+ [nl]]. repeat constructor.
  - change (file_lines sample_page) with
      [$".. _intro_alpha:" +:+ [nl]; [nl]; $"Introduction" +:+ [nl]]. repeat constructor.
Defined.

(** ** The missed references *)

Section Missed.
Context {U : UCD}.

(** A reference to a label that is neither versioned, nor a file, nor a heading. *)
Definition unversioned_ref (proto ref : str) : Prop :=
  found ref_file_pat (target_label ref) = false /\
  is_Some (re_fullmatch sphinx_id_pat (target_label ref)) /\ versioned proto (target_label ref) = false.

(** An unversioned reference is reported exactly if its label is defined in
    the pages without the suffix, or a label called lclabel with the suffix is;
    whether the versioned label is defined does not matter, although then the
    reference should have been versioned. *)
Theorem xref_reported_iff proto file ref labels :
  unversioned_ref proto ref ->
  (is_Some (check_ref proto file ref labels) <->
     lower (target_label ref) ∈ labels \/ $"lclabel_" +:+ proto ∈ labels) /\
  forall l, l <> lower (target_label ref) -> l <> $"lclabel_" +:+ proto ->
    check_ref proto file ref ({[l]} ∪ labels) = check_ref proto file ref labels.
Proof.
  intros (Hf & [m Hm] & Hv). unfold check_ref. rewrite Hf, Hm, Hv. split.
  - destruct (bool_decide_reflect (lower (target_label ref) ∉ labels)) as [H1|H1],
      (bool_decide_reflect ($"lclabel_" +:+ proto ∉ labels)) as [H2|H2]; cbn; split;
      try (intros [? ?]; done); try (by intros _; eauto);
      try (intros _; destruct (decide (lower (target_label ref) ∈ labels)); [by left|];
           destruct (decide ($"lclabel_" +:+ proto ∈ labels)); [by right|done]).
    by intros [?|?].
  - intros l H1 H2.
    rewrite (bool_decide_ext (lower (target_label ref) ∉ {[l]} ∪ labels) (lower (target_label ref) ∉ labels))
      by set_solver.
    rewrite (bool_decide_ext ($"lclabel_" +:+ proto ∉ {[l]} ∪ labels) ($"lclabel_" +:+ proto ∉ labels))
      by set_solver.
    done.
Qed.
End Missed.

(** A page that defines a versioned label and refers to it without the suffix. *)
Definition missed_page : str :=
  join [nl] [$".. _intro_alpha:"; []; $"See :ref:`intro`."; []].

Lemma xref_reported_iff_witness :
  (check_proto_xrefs (o := serving missed_page) (U := ascii_only_ucd)
     (MkArgs $"docs/alpha" true) [] () []) = (Ok (), (), []) /\
  check_ref (U := ascii_only_ucd) $"alpha" [] $"intro" ({[$"intro_alpha"]} ∪ ∅)
  = check_ref (U := ascii_only_ucd) $"alpha" [] $"intro" ∅.
Proof.
  split; [vm_compute; reflexivity|].
  refine (proj2 (@xref_reported_iff ascii_only_ucd $"alpha" [] $"intro" ∅ _) _ _ _).
  - split; [vm_compute; reflexivity|split; [|vm_compute; reflexivity]]. vm_compute. eexists. reflexivity.
  - vm_compute. discriminate.
  - vm_compute. discriminate.
Defined.
