(* ===== verification/Michelson.v ===== *)
(** * The Michelson lexer (docs/_extensions/michelsonlexer.py)

    The documentation colours Michelson code with a lexer given as a table of
    rules.  The table is [tokens]; the engine that runs it is Pygments' class
    RegexLexer, a parameter: [lexes] states its documented behaviour (the rules of
    the state on top of the stack are tried in order, the first that matches gives
    the token and moves the stack; if none matches, a newline resets the stack and
    any other character is an error token), and [RegexLexerSpec] says that the
    engine does that for tables without a rule that matches the empty text. *)

From Stdlib Require Import ZArith Lia ZifyBool.
From stdpp Require Import base tactics list strings numbers.
From S2P Require Import Prelude PyStr PyRe.

Local Open Scope Z_scope.
Local Open Scope py_scope.

(** ** Lexers given by rules *)

(** The token types of pygments.token the table names, and Error. *)
Inductive TokenType :=
| Whitespace | Literal_Number | Literal_String | Punctuation
| Keyword | Keyword_Reserved | Keyword_Constant | Keyword_Type | Keyword_Name
| Comment_Single | Comment_Multiline | Error.

#[export] Instance TokenType_eq_dec : EqDecision TokenType.
Proof. solve_decision. Defined.

Inductive transition := Push (name : str) | PushSame | Pop.

Definition rule : Type := regex * TokenType * option transition.
Definition tokendefs : Type := list (str * list rule).
Definition token : Type := Z * TokenType * str.

Fixpoint rules_of (tbl : tokendefs) (name : str) : list rule :=
  match tbl with
  | [] => []
  | (n, rules) :: r => if bool_decide (n = name) then rules else rules_of r name
  end.

Definition top (stack : list str) : str := match stack with n :: _ => n | [] => $"root" end.

Fixpoint first_rule (rules : list rule) (s : st) : option (TokenType * option transition * st) :=
  match rules with
  | [] => None
  | (r, ty, tr) :: l =>
      match mt r s Some with Some s' => Some (ty, tr, s') | None => first_rule l s end
  end.

(** A state name is pushed, ['#push'] pushes the top again, ['#pop'] removes the
    top unless it is the last one. *)
Definition move (tr : option transition) (stack : list str) : list str :=
  match tr, stack with
  | None, _ => stack
  | Some (Push n), _ => n :: stack
  | Some PushSame, _ => top stack :: stack
  | Some Pop, _ :: (_ :: _) as rest => rest
  | Some Pop, _ => stack
  end.

Definition pos_of (b : str) : Z := Z.of_nat (length b).

(** The documented run of a lexer from a stack of states, the text read so far
    (reversed) and the text left. *)
Inductive lexes (tbl : tokendefs) : list str -> str -> str -> list token -> Prop :=
| lex_end stack b :
    first_rule (rules_of tbl (top stack)) (St b [] []) = None -> lexes tbl stack b [] []
| lex_rule stack b a ty tr s' toks :
    first_rule (rules_of tbl (top stack)) (St b a []) = Some (ty, tr, s') ->
    lexes tbl (move tr stack) (before s') (after s') toks ->
    lexes tbl stack b a ((pos_of b, ty, between (St b a []) s') :: toks)
| lex_newline stack b t toks :
    first_rule (rules_of tbl (top stack)) (St b (nl :: t) []) = None ->
    lexes tbl [$"root"] (nl :: b) t toks ->
    lexes tbl stack b (nl :: t) ((pos_of b, Whitespace, [nl]) :: toks)
| lex_error stack b c t toks :
    first_rule (rules_of tbl (top stack)) (St b (c :: t) []) = None -> c <> nl ->
    lexes tbl stack (c :: b) t toks ->
    lexes tbl stack b (c :: t) ((pos_of b, Error, [c]) :: toks).

(** No rule matches the empty text. *)
Definition productive (tbl : tokendefs) : bool :=
  forallb (fun e => forallb (fun r : rule => negb (nullable r.1.1)) e.2) tbl.

Class RegexLexer := { get_tokens_unprocessed : tokendefs -> str -> list token }.

Class RegexLexerSpec (L : RegexLexer) : Prop := {
  get_tokens_lexes tbl text toks :
    productive tbl = true -> lexes tbl [$"root"] [] text toks -> get_tokens_unprocessed tbl text = toks
}.

(** ** The table of MichelsonLexer *)

Definition hex_digit (c : N) : bool := in_range 97 102 c || in_range 65 70 c || ascii_digit c.
Definition prim_char (c : N) : bool := (c =? 95)%N || ascii_upper c || ascii_digit c.
Definition type_char (c : N) : bool := ascii_lower c || (c =? 95)%N.
Definition annot_start (c : N) : bool := (c =? 95)%N || ascii_lower c || ascii_upper c.
Definition annot_char (c : N) : bool :=
  (c =? 95)%N || ascii_digit c || ascii_lower c || ascii_upper c || (c =? 46)%N.
Definition punct (c : N) : bool :=
  (c =? 123)%N || (c =? 59)%N || (c =? 44)%N || (c =? 125)%N || (c =? 40)%N || (c =? 41)%N.
Definition sigil (c : N) : bool := (c =? 64)%N || (c =? 58)%N || (c =? 37)%N.

Section Lexer.
Context {U : UCD}.

Definition root_rules : list rule :=
  [ (rplus rs, Whitespace, None);
    (RSeq (ropt (ch 45)) (rplus (RChar ascii_digit)), Literal_Number, None);
    (RSeq (rlit $"0x") (rplus (RChar hex_digit)), Literal_Number, None);
    (RChar punct, Punctuation, None);
    (RSeq (RChar ascii_upper) (rplus (RChar prim_char)), Keyword_Reserved, None);
    (RSeq (RChar ascii_upper) (rplus (RChar ascii_lower)), Keyword_Constant, None);
    (rseqs [ch dquote; rstar (RChar (fun c => negb (c =? dquote)%N)); ch dquote], Literal_String, None);
    (rseqs [ch 35; rstar dot; REol], Comment_Single, None);
    (rlit $"/*", Comment_Multiline, Some (Push $"comment"));
    (RGroup 1 (ralts [rlit $"code"; rlit $"parameter"; rlit $"storage"]), Keyword, None);
    (RSeq (RChar ascii_lower) (rstar (RChar type_char)), Keyword_Type, None);
    (RSeq (RChar sigil)
       (ropt (RGroup 1 (ralts [ch 64; ch 37; rlit $"%%"; RSeq (RChar annot_start) (rstar (RChar annot_char))]))),
     Keyword_Name, None) ].

Definition comment_rules : list rule :=
  [ (RChar (fun c => negb ((c =? 42) || (c =? 47)))%N, Comment_Multiline, None);
    (rlit $"/*", Comment_Multiline, Some PushSame);
    (rlit $"*/", Comment_Multiline, Some Pop);
    (RChar (fun c => (c =? 42) || (c =? 47))%N, Comment_Multiline, None) ].

Definition tokens : tokendefs := [($"root", root_rules); ($"comment", comment_rules)].

Lemma tokens_productive : productive tokens = true.
Proof. reflexivity. Qed.

End Lexer.

(** ** Lexemes of Michelson *)

(** What follows the opening of a comment, up to the close of the comment of depth
    [d]: comments nest, and every character (or opening, or close) is a token. *)
Inductive comment_text : nat -> list str -> Prop :=
| ct_last : comment_text 1 [$"*/"]
| ct_close d w : comment_text (S d) w -> comment_text (S (S d)) ($"*/" :: w)
| ct_open d w : comment_text (S d) w -> comment_text d ($"/*" :: w)
| ct_char d c w : c <> 42%N -> c <> 47%N -> comment_text d w -> comment_text d ([c] :: w)
| ct_star d w : startswith $"/" (concat w) = false -> comment_text d w -> comment_text d ($"*" :: w)
| ct_slash d w : startswith $"*" (concat w) = false -> comment_text d w -> comment_text d ($"/" :: w).

Inductive lexeme :=
| Num (neg : bool) (ds : str)
| Punct (c : N)
| Prim (c : N) (w : str)
| Constructor (c : N) (w : str)
| Str (w : str)
| Line (w : str)
| Block (parts : list str)
| Section_ (w : str)
| Typ (c : N) (w : str)
| Annot (c : N) (w : str).

Definition sections : list str := [$"code"; $"parameter"; $"storage"].

Definition all (p : N -> bool) (w : str) : Prop := Forall (fun c => p c = true) w.

Definition lexeme_ok (l : lexeme) : Prop :=
  match l with
  | Num _ ds => ds <> [] /\ all ascii_digit ds
  | Punct c => punct c = true
  | Prim c w => ascii_upper c = true /\ w <> [] /\ all prim_char w
  | Constructor c w => ascii_upper c = true /\ w <> [] /\ all ascii_lower w
  | Str w => dquote ∉ w
  | Line w => nl ∉ w
  | Block parts => comment_text 1 parts
  | Section_ w => w ∈ sections
  | Typ c w =>
      ascii_lower c = true /\ all type_char w /\ Forall (fun k => startswith k (c :: w) = false) sections
  | Annot c w =>
      sigil c = true /\ (w = [] \/ w = $"@" \/ w = $"%" \/
        exists d v, w = d :: v /\ annot_start d = true /\ all annot_char v)
  end.

Definition text_of (l : lexeme) : str :=
  match l with
  | Num neg ds => (if neg then $"-" else []) ++ ds
  | Punct c => [c]
  | Prim c w | Constructor c w | Typ c w | Annot c w => c :: w
  | Str w => [dquote] ++ w ++ [dquote]
  | Line w => $"#" ++ w
  | Block parts => $"/*" ++ concat parts
  | Section_ w => w
  end.

(** The tokens a lexeme is meant to give. *)
Definition kind_of (l : lexeme) : TokenType :=
  match l with
  | Num _ _ => Literal_Number
  | Punct _ => Punctuation
  | Prim _ _ => Keyword_Reserved
  | Constructor _ _ => Keyword_Constant
  | Str _ => Literal_String
  | Line _ => Comment_Single
  | Block _ => Comment_Multiline
  | Section_ _ => Keyword
  | Typ _ _ => Keyword_Type
  | Annot _ _ => Keyword_Name
  end.

Definition parts_of (l : lexeme) : list str :=
  match l with Block parts => $"/*" :: parts | _ => [text_of l] end.

(** A program: lexemes, each followed by white space; a comment to the end of the
    line is followed by the end of the line. *)
Definition space_ok {U : UCD} (l : lexeme) (ws : str) : Prop :=
  ws <> [] /\ all is_space ws /\ match l with Line _ => head ws = Some nl | _ => True end.

Definition program_ok {U : UCD} (p : list (lexeme * str)) : Prop :=
  Forall (fun e => lexeme_ok e.1 /\ space_ok e.1 e.2) p.

Definition render (p : list (lexeme * str)) : str := concat (map (fun e => text_of e.1 ++ e.2) p).

Definition pieces (p : list (lexeme * str)) : list (TokenType * str) :=
  concat (map (fun e => map (fun w => (kind_of e.1, w)) (parts_of e.1) ++ [(Whitespace, e.2)]) p).

(** Tokens with their offsets, from the offset of the first one. *)
Fixpoint place (i : Z) (l : list (TokenType * str)) : list token :=
  match l with
  | [] => []
  | (ty, w) :: r => (i, ty, w) :: place (i + Z.of_nat (length w)) r
  end.

(** ** Single steps *)

Ltac eval_lits :=
  repeat match goal with
  | |- context [lit ?s] => let v := eval vm_compute in (lit s) in change (lit s) with v
  end.

Ltac eval_lits_in H :=
  repeat match type of H with
  | context [lit ?s] => let v := eval vm_compute in (lit s) in change (lit s) with v in H
  end.

Ltac chars :=
  eval_lits;
  cbv [first nullable rlit rseqs ralts ropt rplus rstar ch dot rs app
       in_range ascii_digit ascii_lower ascii_upper hex_digit prim_char type_char annot_start annot_char
       punct sigil is_space dquote nl] in *; lia.

Lemma first_space {U : UCD} c : (33 <= c < 127)%N -> first (rplus rs) c = false.
Proof. intros Hc. cbn. rewrite orb_false_r. unfold is_space, in_range. destruct (c <? 128)%N eqn:E; lia. Qed.

Lemma first_rule_skip r ty tr l s : mt r s Some = None -> first_rule ((r, ty, tr) :: l) s = first_rule l s.
Proof. intros H. cbn. by rewrite H. Qed.

Lemma first_rule_hit r ty tr l s s' :
  mt r s Some = Some s' -> first_rule ((r, ty, tr) :: l) s = Some (ty, tr, s').
Proof. intros H. cbn. by rewrite H. Qed.

(** Skips the rules of the table that cannot start with the next character. *)
Ltac skip_rules :=
  unfold root_rules, comment_rules;
  repeat (rewrite first_rule_skip
    by (apply mt_first_fail; [reflexivity | first [reflexivity | chars | apply first_space; chars]])).

Section Steps.
Context {U : UCD}.

Lemma is_space_ascii c : is_space c = true -> (c < 128)%N -> in_range 9 13 c || in_range 28 32 c = true.
Proof. unfold is_space. intros H Hc. by destruct (c <? 128)%N eqn:E; [|lia]. Qed.

Lemma space_not (p : N -> bool) c :
  (forall d, p d = true -> 33 <= d < 128)%N -> is_space c = true -> p c = false.
Proof.
  intros Hp Hs. destruct (p c) eqn:E; [|done]. apply Hp in E.
  apply is_space_ascii in Hs; [|lia]. unfold in_range in Hs. lia.
Qed.

(** White space stops any run of printable ASCII characters. *)
Lemma space_stops (p : N -> bool) ws t :
  (forall d, p d = true -> 33 <= d < 128)%N -> ws <> [] -> all is_space ws -> stops p (ws ++ t).
Proof. intros Hp Hne Hws. destruct Hws as [|c ws Hc]; [done|]. by apply space_not. Qed.

Lemma match_space b ws t :
  ws <> [] -> all is_space ws -> stops is_space t ->
  first_rule root_rules (St b (ws ++ t) []) = Some (Whitespace, None, St (rev ws ++ b) t []).
Proof.
  intros Hne Hw Ht. unfold root_rules. apply first_rule_hit.
  change rs with (RChar is_space). by apply (mt_plus_run is_space _ ws t Some).
Qed.

Lemma match_num b neg ds t :
  ds <> [] -> all ascii_digit ds -> stops ascii_digit t ->
  first_rule root_rules (St b (text_of (Num neg ds) ++ t) [])
    = Some (Literal_Number, None, St (rev (text_of (Num neg ds)) ++ b) t []).
Proof.
  intros Hne Hds Ht. destruct neg; cbn [text_of app].
  - change ($"-" ++ ds) with (45%N :: ds). cbn [app]. skip_rules. apply first_rule_hit.
    change (mt (RSeq (ropt (ch 45)) ?r) ?s ?k) with
      (match mt r (advance 45 (ds ++ t) s) k with Some x => Some x | None => mt r s k end).
    erewrite (mt_plus_run ascii_digit _ ds t Some) by done. cbn. by rewrite <- app_assoc.
  - destruct ds as [|c ds]; [done|]. pose proof (Forall_inv Hds) as Hc. cbn beta in Hc.
    cbn [app]. skip_rules. apply first_rule_hit.
    assert (E : mt (RSeq (ropt (ch 45)) (rplus (RChar ascii_digit))) (St b (c :: ds ++ t) []) Some
      = mt (rplus (RChar ascii_digit)) (St b (c :: ds ++ t) []) Some).
    { cbn [mt ropt ch]. cbn [after]. replace (45 =? c)%N with false by chars. reflexivity. }
    rewrite E. by apply (mt_plus_run ascii_digit _ (c :: ds) t Some).
Qed.

Lemma match_punct b c t :
  punct c = true -> first_rule root_rules (St b (c :: t) []) = Some (Punctuation, None, St (c :: b) t []).
Proof. intros Hc. skip_rules. apply first_rule_hit. cbn [mt after]. by rewrite Hc. Qed.

(** A character of one class followed by a run of another. *)
Lemma mt_class_plus p q b c w t k x :
  p c = true -> w <> [] -> all q w -> stops q t -> k (St (rev w ++ c :: b) t []) = Some x ->
  mt (RSeq (RChar p) (rplus (RChar q))) (St b (c :: w ++ t) []) k = Some x.
Proof.
  intros Hp Hne Hw Ht Hk. change (RSeq ?r1 ?r2) with (RSeq r1 r2). cbn [mt after]. rewrite Hp.
  change (mt (RSeq (RChar q) (rstar (RChar q)))) with (mt (rplus (RChar q))).
  by eapply (mt_plus_run q _ w t).
Qed.

Lemma mt_class_star p q b c w t k x :
  p c = true -> all q w -> stops q t -> k (St (rev w ++ c :: b) t []) = Some x ->
  mt (RSeq (RChar p) (rstar (RChar q))) (St b (c :: w ++ t) []) k = Some x.
Proof. intros Hp Hw Ht Hk. cbn [mt after]. rewrite Hp. by eapply (mt_star_run q _ w t). Qed.

Lemma mt_alt_skip r1 r2 s k : mt r1 s k = None -> mt (RAlt r1 r2) s k = mt r2 s k.
Proof. intros H. cbn. by rewrite H. Qed.

Lemma match_prim b c w t :
  ascii_upper c = true -> w <> [] -> all prim_char w -> stops prim_char t ->
  first_rule root_rules (St b (c :: w ++ t) []) = Some (Keyword_Reserved, None, St (rev w ++ c :: b) t []).
Proof. intros Hc Hne Hw Ht. skip_rules. apply first_rule_hit. by apply mt_class_plus. Qed.

Lemma match_constructor b c w t :
  ascii_upper c = true -> w <> [] -> all ascii_lower w -> stops ascii_lower t ->
  first_rule root_rules (St b (c :: w ++ t) []) = Some (Keyword_Constant, None, St (rev w ++ c :: b) t []).
Proof.
  intros Hc Hne Hw Ht. skip_rules. rewrite first_rule_skip.
  - apply first_rule_hit. by apply mt_class_plus.
  - destruct w as [|d w]; [done|]. pose proof (Forall_inv Hw) as Hd. cbn beta in Hd.
    cbn [mt after app]. rewrite Hc. apply mt_first_fail; [done|]. chars.
Qed.

Lemma all_other (c : N) w : c ∉ w -> all (fun d => negb (d =? c)%N) w.
Proof.
  induction w as [|d w IH]; intros H; constructor.
  - apply negb_true_iff, N.eqb_neq. intros ->. apply H. left.
  - apply IH. intros Hc. apply H. by right.
Qed.

Lemma match_str b w t :
  dquote ∉ w ->
  first_rule root_rules (St b (dquote :: w ++ dquote :: t) [])
    = Some (Literal_String, None, St (dquote :: rev w ++ dquote :: b) t []).
Proof.
  intros Hw. skip_rules. apply first_rule_hit. cbn [rseqs mt ch after].
  apply (mt_star_run _ _ w (dquote :: t)); [done|by apply all_other|done|done].
Qed.

Lemma match_line b w t :
  nl ∉ w -> at_eol (St [] t []) = true ->
  first_rule root_rules (St b (35%N :: w ++ t) []) = Some (Comment_Single, None, St (rev w ++ 35%N :: b) t []).
Proof.
  intros Hw Ht. skip_rules. apply first_rule_hit. cbn [rseqs mt ch after]. cbn [N.eqb Pos.eqb].
  eapply (mt_star_run _ _ w t); [done| | |].
  - by apply all_other.
  - destruct t as [|c t]; [done|]. cbn in *. by rewrite Ht.
  - cbn [mt]. change (at_eol (skip w t _)) with (at_eol (St [] t [])). by rewrite Ht.
Qed.

Lemma match_section b w t :
  w ∈ sections -> exists cs,
    first_rule root_rules (St b (w ++ t) []) = Some (Keyword, None, St (rev w ++ b) t cs).
Proof.
  intros Hw. unfold sections in Hw.
  repeat (apply elem_of_cons in Hw as [->|Hw]); [| | |by apply elem_of_nil in Hw]; eval_lits; cbn [app];
    skip_rules; eexists; by apply first_rule_hit.
Qed.

(** A run that starts no section keyword, and stops at a character outside its
    class, starts none with what follows either. *)
Lemma no_section (p : N -> bool) k w t :
  all p k -> startswith k w = false -> stops p t -> startswith k (w ++ t) = false.
Proof.
  revert w. induction k as [|d k IH]; intros w Hk Hs Ht; [done|].
  inversion Hk as [|? ? Hd Hk']; subst. destruct w as [|c w]; cbn [app] in *.
  - destruct t as [|c t]; cbn in *; [done|]. rewrite bool_decide_eq_false_2; [done|congruence].
  - cbn in *. destruct (bool_decide _); [|done]. eauto.
Qed.

Lemma match_type b c w t :
  lexeme_ok (Typ c w) -> stops type_char t ->
  first_rule root_rules (St b (c :: w ++ t) []) = Some (Keyword_Type, None, St (rev w ++ c :: b) t []).
Proof.
  intros (Hc & Hw & Hs) Ht. skip_rules. rewrite first_rule_skip.
  - apply first_rule_hit. by apply mt_class_star.
  - cbn [mt ralts]. unfold sections in Hs. rewrite !Forall_cons_iff in Hs. destruct Hs as (H1 & H2 & H3 & _).
    rewrite !mt_rlit_fail; [done| | |]; cbn [after]; apply (no_section type_char _ (c :: w) t); auto;
      repeat constructor.
Qed.

(** The part of an annotation after its sigil, when nothing of it follows. *)
Definition annot_body : regex :=
  ralts [ch 64; ch 37; rlit $"%%"; RSeq (RChar annot_start) (rstar (RChar annot_char))].

Lemma mt_annot_body_none b t cs k :
  (forall d, head t = Some d -> is_space d = true) -> mt annot_body (St b t cs) k = None.
Proof.
  intros Ht. destruct t as [|d t]; [reflexivity|]. specialize (Ht d eq_refl).
  apply mt_first_fail; [reflexivity|]. apply space_not; [|done]. intros e He. unfold annot_body in He. eval_lits_in He. chars.
Qed.

Lemma match_annot b c w t :
  lexeme_ok (Annot c w) -> stops annot_char t -> (forall d, head t = Some d -> is_space d = true) -> exists cs,
  first_rule root_rules (St b (c :: w ++ t) []) = Some (Keyword_Name, None, St (rev w ++ c :: b) t cs).
Proof.
  intros [Hc Hw] Ht Hd. skip_rules.
  enough (exists cs, mt (RSeq (RChar sigil) (ropt (RGroup 1 annot_body))) (St b (c :: w ++ t) []) Some
    = Some (St (rev w ++ c :: b) t cs)) as [cs H] by (exists cs; by apply first_rule_hit).
  cbn [mt after ropt]. rewrite Hc. destruct Hw as [->|[->|[->|(d & v & -> & Hs & Hv)]]].
  - cbn [app]. unfold advance. cbn [before caps]. rewrite mt_annot_body_none by done. by eexists.
  - by eexists.
  - by eexists.
  - unfold annot_body, advance. cbn [ralts before caps app].
    rewrite !mt_alt_skip by (apply mt_first_fail; [reflexivity|chars]).
    erewrite (mt_class_star annot_start annot_char) by done. eexists. unfold capture. cbn. by rewrite <- app_assoc.
Qed.

(** Every lexeme but a nested comment is one token. *)
Lemma match_lexeme b l ws t :
  lexeme_ok l -> space_ok l ws -> parts_of l = [text_of l] -> exists cs,
  first_rule root_rules (St b (text_of l ++ ws ++ t) [])
    = Some (kind_of l, None, St (rev (text_of l) ++ b) (ws ++ t) cs).
Proof.
  intros Hl (Hne & Hws & Hline) Hp.
  assert (Hstop : forall p, (forall d, p d = true -> 33 <= d < 128)%N -> stops p (ws ++ t)) by
    (intros; by apply space_stops).
  assert (Hhd : forall d, head (ws ++ t) = Some d -> is_space d = true).
  { destruct Hws as [|c ws Hc]; [done|]. cbn. by intros d [= <-]. }
  destruct l as [neg ds|c|c w|c w|w|w|w|w|c w|c w]; cbn [lexeme_ok kind_of] in *.
  - destruct Hl. eexists. apply match_num; auto. apply Hstop. intros d Hd. chars.
  - eexists. by apply match_punct.
  - destruct Hl as (? & ? & ?). eexists. cbn. rewrite <- app_assoc. apply match_prim; auto.
    apply Hstop. intros d Hd. chars.
  - destruct Hl as (? & ? & ?). eexists. cbn. rewrite <- app_assoc. apply match_constructor; auto.
    apply Hstop. intros d Hd. chars.
  - eexists. cbn [text_of]. rewrite <- !app_assoc. cbn [app]. rewrite match_str by done.
    cbn. rewrite rev_app_distr. cbn. by rewrite <- app_assoc.
  - eexists. change (text_of (Line w)) with (35%N :: w). cbn [rev app]. rewrite <- app_assoc. cbn [app]. apply match_line; [done|].
    destruct ws as [|c ws]; [done|]. cbn in *. by simplify_eq.
  - cbn in Hp. destruct w; [inversion Hl|done].
  - by apply match_section.
  - eexists. cbn. rewrite <- app_assoc. apply match_type; [done|]. apply Hstop. intros d Hd. chars.
  - cbn. rewrite <- app_assoc. apply match_annot; [done| |done]. apply Hstop. intros d Hd. chars.
Qed.

(** ** Runs *)

Lemma lexes_step stack b w t ty tr cs toks :
  first_rule (rules_of tokens (top stack)) (St b (w ++ t) []) = Some (ty, tr, St (rev w ++ b) t cs) ->
  lexes tokens (move tr stack) (rev w ++ b) t toks ->
  lexes tokens stack b (w ++ t) ((pos_of b, ty, w) :: toks).
Proof.
  intros Hm Hl.
  pose proof (lex_rule tokens stack b (w ++ t) ty tr _ toks Hm Hl) as H.
  by rewrite (between_consumes _ _ w) in H by done.
Qed.

Lemma pos_app b w : pos_of (rev w ++ b) = pos_of b + Z.of_nat (length w).
Proof. unfold pos_of. rewrite length_app, length_rev. lia. Qed.

Definition in_comment (d : nat) : list str := replicate d $"comment" ++ [$"root"].

Definition comment_tokens (i : Z) (parts : list str) : list token :=
  place i (map (fun w => (Comment_Multiline, w)) parts).

(** One token inside a comment: the stack may change, the rest is as before. *)
Lemma comment_step d w tr d' b t toks cs :
  first_rule comment_rules (St b (w ++ t) []) = Some (Comment_Multiline, tr, St (rev w ++ b) t cs) ->
  move tr (in_comment (S d)) = in_comment d' ->
  lexes tokens (in_comment d') (rev w ++ b) t toks ->
  lexes tokens (in_comment (S d)) b (w ++ t) ((pos_of b, Comment_Multiline, w) :: toks).
Proof. intros Hm Hs Hl. eapply lexes_step; [exact Hm|by rewrite Hs]. Qed.

Lemma match_comment_char b c t :
  c <> 42%N -> c <> 47%N ->
  first_rule comment_rules (St b (c :: t) []) = Some (Comment_Multiline, None, St (c :: b) t []).
Proof.
  intros H1 H2. apply first_rule_hit. cbn [mt after]. by replace (negb _) with true by lia.
Qed.

Lemma match_comment_lone b c e t :
  (c, e) = (42, 47)%N \/ (c, e) = (47, 42)%N -> startswith [e] t = false ->
  first_rule comment_rules (St b (c :: t) []) = Some (Comment_Multiline, None, St (c :: b) t []).
Proof.
  intros [[= -> ->]|[= -> ->]] Ht; skip_rules;
    (rewrite first_rule_skip by (apply mt_rlit_fail; eval_lits; cbn [after]; by destruct t));
    skip_rules; by apply first_rule_hit.
Qed.

Lemma comment_text_start d parts e t :
  comment_text d parts -> startswith [e] (concat parts) = false -> startswith [e] (concat parts ++ t) = false.
Proof.
  intros H. assert (Hne : concat parts <> []) by (by destruct H).
  by destruct (concat parts).
Qed.

Lemma comment_run d parts : comment_text d parts -> forall b t toks, (0 < d)%nat ->
  lexes tokens [$"root"] (rev (concat parts) ++ b) t toks ->
  lexes tokens (in_comment d) b (concat parts ++ t) (comment_tokens (pos_of b) parts ++ toks).
Proof.
  assert (Hnext : forall b w parts' t toks,
    lexes tokens [$"root"] (rev (concat (w :: parts')) ++ b) t toks ->
    lexes tokens [$"root"] (rev (concat parts') ++ rev w ++ b) t toks).
  { intros b w parts' t toks. cbn. by rewrite rev_app_distr, <- app_assoc. }
  induction 1 as [|d w H IH|d w H IH|d c w Hc1 Hc2 H IH|d w Hs H IH|d w Hs H IH];
    intros b t toks Hd Hl; cbn [concat comment_tokens map place app];
    rewrite <- ?app_assoc, <- ?pos_app;
    [|apply Hnext, IH in Hl; [|lia]..]; unfold comment_tokens in *.
  - by eapply (comment_step 0 _ (Some Pop) 0).
  - by eapply (comment_step (S d) _ (Some Pop) (S d)).
  - destruct d as [|d]; [lia|]. by eapply (comment_step d _ (Some PushSame) (S (S d))).
  - destruct d as [|d]; [lia|]. eapply (comment_step d [c] None (S d)); [by apply match_comment_char|done|done].
  - destruct d as [|d]; [lia|]. eapply (comment_step d $"*" None (S d)); [|done|done].
    apply (match_comment_lone b 42 47); [by left|by apply (comment_text_start (S d))].
  - destruct d as [|d]; [lia|]. eapply (comment_step d $"/" None (S d)); [|done|done].
    apply (match_comment_lone b 47 42); [by right|by apply (comment_text_start (S d))].
Qed.

Lemma lexes_comment parts b t toks : comment_text 1 parts ->
  lexes tokens [$"root"] (rev (concat ($"/*" :: parts)) ++ b) t toks ->
  lexes tokens [$"root"] b (concat ($"/*" :: parts) ++ t) (comment_tokens (pos_of b) ($"/*" :: parts) ++ toks).
Proof.
  intros Hc Hl. cbn [concat comment_tokens map place app]. rewrite <- app_assoc, <- pos_app.
  apply (lexes_step [$"root"] b $"/*" _ _ (Some (Push $"comment")) []).
  - change (first_rule root_rules (St b (47%N :: 42%N :: concat parts ++ t) []) =
      Some (Comment_Multiline, Some (Push $"comment"), St (42%N :: 47%N :: b) (concat parts ++ t) [])).
    skip_rules. by apply first_rule_hit.
  - apply (comment_run 1 parts Hc); [lia|]. cbn [concat] in Hl. by rewrite rev_app_distr, <- app_assoc in Hl.
Qed.

Lemma lexeme_head l t : lexeme_ok l -> stops is_space (text_of l ++ t).
Proof.
  assert (Hp : forall c v, (33 <= c < 127)%N -> stops is_space (c :: v)).
  { intros c v Hc. cbn. unfold is_space, in_range. destruct (c <? 128)%N eqn:E; lia. }
  destruct l as [neg ds|c|c w|c w|w|w|w|w|c w|c w]; cbn [lexeme_ok text_of]; intros H; try apply Hp.
  - destruct H as [Hne Hds]. destruct neg; [by apply Hp|]. destruct Hds; [done|]. apply Hp. chars.
  - chars.
  - destruct H. chars.
  - destruct H. chars.
  - done.
  - done.
  - done.
  - unfold sections in H. repeat (apply elem_of_cons in H as [->|H]); [by apply Hp..|by apply elem_of_nil in H].
  - destruct H. chars.
  - destruct H. chars.
Qed.

Lemma place_app i l1 l2 :
  place i (l1 ++ l2) = place i l1 ++ place (i + Z.of_nat (length (concat (map snd l1)))) l2.
Proof.
  revert i. induction l1 as [|[ty w] l1 IH]; intros i; cbn; [by rewrite Z.add_0_r|].
  rewrite IH, length_app. do 3 f_equal. lia.
Qed.

(** The tokens of a program are its text, cut in pieces. *)
Lemma parts_text l : concat (parts_of l) = text_of l.
Proof. destruct l; cbn; by rewrite ?app_nil_r. Qed.

Lemma pieces_text p : length (render p) = length (concat (map snd (pieces p))).
Proof.
  unfold render, pieces. induction p as [|[l ws] p IH]; [done|]. cbn [map concat fst snd].
  rewrite map_app, concat_app, map_app, concat_app, map_map, map_id, parts_text, !length_app, IH. cbn.
  by rewrite app_nil_r.
Qed.

(** A lexeme gives its tokens, whatever follows its white space. *)
Lemma lexes_lexeme b l ws t toks :
  lexeme_ok l -> space_ok l ws ->
  lexes tokens [$"root"] (rev (text_of l) ++ b) (ws ++ t) toks ->
  lexes tokens [$"root"] b (text_of l ++ ws ++ t)
    (place (pos_of b) (map (fun w => (kind_of l, w)) (parts_of l)) ++ toks).
Proof.
  intros Hl Hs Hr. destruct l as [neg ds|c|c w|c w|w|w|w|w|c w|c w];
    try (by edestruct (match_lexeme b _ ws t Hl Hs eq_refl); cbn [parts_of map place app]; eapply lexes_step).
  by apply lexes_comment.
Qed.

Lemma lexes_space b ws t toks :
  ws <> [] -> all is_space ws -> stops is_space t ->
  lexes tokens [$"root"] (rev ws ++ b) t toks ->
  lexes tokens [$"root"] b (ws ++ t) ((pos_of b, Whitespace, ws) :: toks).
Proof. intros. eapply lexes_step; [by apply match_space|done]. Qed.

Lemma render_stops p t : program_ok p -> stops is_space t -> stops is_space (render p ++ t).
Proof. intros [|[l ws] p' [Hl _] _] Ht; [done|]. cbn. rewrite <- !app_assoc. by apply lexeme_head. Qed.

(** A program gives its tokens, whatever follows it that is not white space. *)
Lemma lexes_program p t toks : program_ok p -> stops is_space t -> forall b,
  lexes tokens [$"root"] (rev (render p) ++ b) t toks ->
  lexes tokens [$"root"] b (render p ++ t) (place (pos_of b) (pieces p) ++ toks).
Proof.
  intros H Ht. induction H as [|[l ws] p [Hl Hs] Hp IH]; intros b Hr; [done|].
  change (render ((l, ws) :: p)) with ((text_of l ++ ws) ++ render p) in *.
  change (pieces ((l, ws) :: p)) with
    ((map (fun w => (kind_of l, w)) (parts_of l) ++ [(Whitespace, ws)]) ++ pieces p).
  rewrite <- !app_assoc, place_app, <- app_assoc. apply lexes_lexeme; [done|done|].
  replace (concat (map snd (map _ (parts_of l)))) with (text_of l).
  - rewrite <- pos_app. cbn [app place]. rewrite <- pos_app. destruct Hs as (Hne & Hws & _).
    apply lexes_space; [done|done|by apply render_stops|]. apply IH.
    by rewrite !rev_app_distr, <- !app_assoc in Hr.
  - rewrite map_map, map_id. destruct l; cbn; by rewrite ?app_nil_r.
Qed.

(** A number is read before a raw byte sequence is looked for. *)
Lemma match_zero b t : stops ascii_digit t ->
  first_rule root_rules (St b (48%N :: t) []) = Some (Literal_Number, None, St (48%N :: b) t []).
Proof. intros Ht. apply (match_num b false [48%N] t); [done|by repeat constructor|done]. Qed.

(** One percent sign is tried before two. *)
Lemma match_annot_percent b c t : sigil c = true -> exists cs,
  first_rule root_rules (St b (c :: 37%N :: t) []) = Some (Keyword_Name, None, St (37%N :: c :: b) t cs).
Proof.
  intros Hc. skip_rules.
  enough (exists cs, mt (RSeq (RChar sigil) (ropt (RGroup 1 annot_body))) (St b (c :: 37%N :: t) []) Some
    = Some (St (37%N :: c :: b) t cs)) as [cs H] by (exists cs; by apply first_rule_hit).
  cbn [mt after ropt]. rewrite Hc. by eexists.
Qed.

Lemma mt_class_plus_fail p q b c t k :
  stops q t -> mt (RSeq (RChar p) (rplus (RChar q))) (St b (c :: t) []) k = None.
Proof.
  intros Ht. cbn [mt after]. destruct (p c); [|done]. unfold advance. cbn [before caps].
  destruct t as [|d t]; [done|]. apply mt_first_fail; [done|]. cbn in *. by rewrite Ht.
Qed.

(** No rule reads a primitive of one letter. *)
Lemma match_letter b c t : ascii_upper c = true -> stops prim_char t -> stops ascii_lower t ->
  first_rule root_rules (St b (c :: t) []) = None.
Proof.
  intros Hc H1 H2. unfold root_rules. skip_rules.
  rewrite first_rule_skip by (by apply mt_class_plus_fail). rewrite first_rule_skip by (by apply mt_class_plus_fail).
  skip_rules. reflexivity.
Qed.

(** What the table cuts short, and the first token of it: raw bytes, an annotation
    with two percent signs, a type with a digit in its name, a primitive of one
    letter. *)
Inductive cut_short : str -> TokenType * str -> Prop :=
| cut_bytes t : cut_short ($"0x" ++ t) (Literal_Number, $"0")
| cut_annot c t : sigil c = true -> cut_short ([c] ++ $"%%" ++ t) (Keyword_Name, [c; 37%N])
| cut_type c w d t :
    lexeme_ok (Typ c w) -> ascii_digit d = true -> cut_short ([c] ++ w ++ [d] ++ t) (Keyword_Type, [c] ++ w)
| cut_letter c t :
    ascii_upper c = true -> stops prim_char t -> stops ascii_lower t -> cut_short ([c] ++ t) (Error, [c]).

Lemma cut_short_space t x : cut_short t x -> stops is_space t.
Proof.
  assert (Hp : forall c v, (33 <= c < 127)%N -> stops is_space (c :: v)).
  { intros c v Hc. cbn. unfold is_space, in_range. destruct (c <? 128)%N eqn:E; lia. }
  intros [t'|c t' H|c w d t' [H _] _|c t' H _ _]; [done|apply Hp; chars..].
Qed.

(** The first token, whatever the tokens after it. *)
Lemma cut_short_lexes b t ty w : cut_short t (ty, w) -> exists t', t = w ++ t' /\ forall toks,
  lexes tokens [$"root"] (rev w ++ b) t' toks -> lexes tokens [$"root"] b t ((pos_of b, ty, w) :: toks).
Proof.
  inversion 1; subst.
  - exists ($"x" ++ t0). split; [done|]. intros toks Hl.
    by apply (lexes_step [$"root"] b $"0" ($"x" ++ t0) Literal_Number None []); [apply match_zero|].
  - exists ($"%" ++ t0). split; [done|]. intros toks Hl.
    destruct (match_annot_percent b c ($"%" ++ t0)) as [cs Hm]; [done|].
    by apply (lexes_step [$"root"] b [c; 37%N] ($"%" ++ t0) Keyword_Name None cs).
  - exists ([d] ++ t0). split; [done|]. intros toks Hl.
    apply (lexes_step [$"root"] b (c :: w0) ([d] ++ t0) Keyword_Type None []); [|done].
    cbn [rev]. rewrite <- app_assoc. apply match_type; [done|]. cbn. chars.
  - exists t0. split; [done|]. intros toks Hl. apply lex_error; [by apply match_letter|chars|done].
Qed.

End Steps.

(** ** An engine *)

Section Engine.
Context (tbl : tokendefs).

Lemma first_rule_progress s ty tr s' :
  productive tbl = true -> forall name, first_rule (rules_of tbl name) s = Some (ty, tr, s') ->
  consumes s s' /\ (length (after s') < length (after s))%nat.
Proof.
  intros Hp name. assert (Hr : forall r t1 t2, (r, t1, t2) ∈ rules_of tbl name -> nullable r = false).
  { unfold productive in Hp. revert Hp. induction tbl as [|[n rules] l IH]; cbn [rules_of forallb].
    - intros _ r t1 t2 H. by apply elem_of_nil in H.
    - intros [H1 H2]%andb_true_iff r t1 t2. case_bool_decide; [|by apply IH].
      intros Hin%list_elem_of_In. rewrite forallb_forall in H1. apply H1 in Hin. by apply negb_true_iff in Hin. }
  clear Hp. induction (rules_of tbl name) as [|[[r t1] t2] l IH]; cbn [first_rule]; [done|].
  destruct (mt r s Some) as [x|] eqn:E.
  - intros [= -> -> ->]. split.
    + by apply mt_sound in E as (s1 & ?%den_consumes & [= ->]).
    + apply (mt_nonnullable_progress r); [|done]. eapply Hr. by left.
  - apply IH. intros. eapply Hr. by right.
Qed.

(** The engine run with fuel. *)
Fixpoint lex_loop (fuel : nat) (stack : list str) (b a : str) : list token :=
  match fuel with
  | O => []
  | S n =>
      match first_rule (rules_of tbl (top stack)) (St b a []), a with
      | Some (ty, tr, s'), _ =>
          (pos_of b, ty, between (St b a []) s') :: lex_loop n (move tr stack) (before s') (after s')
      | None, [] => []
      | None, c :: t =>
          if (c =? nl)%N then (pos_of b, Whitespace, [nl]) :: lex_loop n [$"root"] (c :: b) t
          else (pos_of b, Error, [c]) :: lex_loop n stack (c :: b) t
      end
  end.

Lemma lex_loop_lexes fuel : productive tbl = true -> forall stack b a,
  (length a < fuel)%nat -> lexes tbl stack b a (lex_loop fuel stack b a).
Proof.
  intros Hp. induction fuel as [|n IH]; intros stack b a Hf; [lia|]. cbn [lex_loop].
  destruct (first_rule _ _) as [[[ty tr] s']|] eqn:E.
  - econstructor; [done|]. apply IH. apply first_rule_progress in E as [_ E]; [|done]. cbn in E. lia.
  - destruct a as [|c t]; [by constructor|]. cbn in Hf. destruct (N.eqb_spec c nl) as [->|Hc].
    + constructor; [done|]. apply IH. lia.
    + constructor; [done|done|]. apply IH. lia.
Qed.

Lemma lexes_unique stack b a l1 : lexes tbl stack b a l1 -> forall l2, lexes tbl stack b a l2 -> l1 = l2.
Proof.
  induction 1; intros l2 H2; inversion H2; subst; try congruence.
  - match goal with H1 : first_rule _ _ = Some _, H3 : first_rule _ _ = Some _ |- _ =>
      rewrite H1 in H3; injection H3 as <- <- <- end. f_equal. auto.
  - f_equal. auto.
  - f_equal. auto.
Qed.

End Engine.

(** An engine that runs as documented. *)
Definition reference_lexer : RegexLexer :=
  {| get_tokens_unprocessed tbl text := lex_loop tbl (S (length text)) [$"root"] [] text |}.

Lemma reference_lexer_spec : RegexLexerSpec reference_lexer.
Proof.
  constructor. intros tbl text toks Hp H. eapply lexes_unique; [|exact H].
  apply lex_loop_lexes; [done|]. lia.
Qed.

(** ** What the lexer does *)

Section Theorems.
Context {U : UCD} {L : RegexLexer}.

(** C15. On a program written as lexemes separated by white space (decimal numbers;
    one of the characters that the punctuation rule names; primitives and
    constructors of at least two letters; strings without a double quote inside;
    comments to the end of the line; nested comments; the three section keywords;
    types of lower-case letters and underscores that do not start with a section
    keyword; a sigil alone, with an at sign, with one percent sign or with a name)
    the lexer returns exactly these lexemes, with their kinds and offsets, the
    tokens of each nested comment up to its own close, and the white space between
    them. Other lexemes are cut short: after such a program, of raw bytes only the
    leading 0 is a token, of an annotation with two percent signs only the sigil
    and one of them, of a type with a digit only what precedes the digit, and a
    primitive of one letter is an error token. *)
Theorem michelson_programs_lexed p :
  RegexLexerSpec L -> program_ok p ->
  get_tokens_unprocessed tokens (render p) = place 0 (pieces p)
  /\ forall t x, cut_short t x -> exists rest,
       get_tokens_unprocessed tokens (render p ++ t) = place 0 (pieces p ++ [x]) ++ rest.
Proof.
  intros HL Hp. split.
  - apply HL; [reflexivity|]. rewrite <- (app_nil_r (render p)), <- (app_nil_r (place _ _)).
    apply (lexes_program p [] [] Hp I []). by constructor.
  - intros t [ty w] Ht. destruct (cut_short_lexes (rev (render p)) t ty w Ht) as (t' & -> & Hl).
    set (toks := lex_loop tokens (S (length t')) [$"root"] (rev w ++ rev (render p)) t').
    exists toks. apply HL; [reflexivity|]. rewrite place_app, <- app_assoc.
    apply (lexes_program p (w ++ t') _ Hp (cut_short_space _ _ Ht) []). rewrite app_nil_r.
    replace (0 + _) with (pos_of (rev (render p))).
    + apply Hl. apply lex_loop_lexes; [reflexivity|lia].
    + unfold pos_of. by rewrite length_rev, pieces_text.
Qed.

End Theorems.

(** A contract with one lexeme of every kind, and a comment within a comment. *)
Definition sample_program : list (lexeme * str) :=
  [(Section_ $"parameter", $" "); (Typ 117 $"nit", $" "); (Punct 59, [nl]); (Section_ $"code", $" ");
   (Punct 123, $" "); (Prim 67 $"DR", $" "); (Annot 64 $"%", $" "); (Punct 125, [32; nl]%N);
   (Constructor 80 $"air", $" "); (Str $"a b", $" "); (Line $".. 0x", [nl; 32]%N);
   (Block [$"a"; $"/*"; $"*"; $"*/"; $"/"; $" "; $"*/"], $" ");
   (Num true $"12", $" "); (Annot 37 $"x", $" ")].

Lemma sample_program_ok : program_ok (U := ascii_only_ucd) sample_program.
Proof.
  unfold program_ok, sample_program.
  repeat (apply Forall_cons; [split; [|split; [done|split; [unfold all; eval_lits; by repeat constructor|done]]]|]); [..|constructor];
    cbn [fst lexeme_ok].
  all: try done.
  - right; left.
  - split_and!; by repeat constructor.
  - left.
  - split_and!; [done|done|by repeat constructor].
  - split; [done|]. auto.
  - split_and!; [done|done|by repeat constructor].
  - by apply (bool_decide_eq_true_1 (dquote ∉ _)).
  - by apply (bool_decide_eq_true_1 (nl ∉ _)).
  - eval_lits.
    repeat first [apply ct_last | apply ct_close | apply ct_open | (apply ct_char; [done|done|])
      | (apply ct_star; [done|]) | (apply ct_slash; [done|])].
  - split; [done|by repeat constructor].
  - split; [done|]. right; right; right. exists 120%N, []. split_and!; [done|done|constructor].
Qed.

Lemma cut_short_type t : cut_short ($"bls12" ++ t) (Keyword_Type, $"bls").
Proof. apply (cut_type 98 $"ls" 49 ($"2" ++ t)); [|done]. split_and!; [done|..]; eval_lits; by repeat constructor. Qed.

Lemma michelson_programs_lexed_witness :
  (get_tokens_unprocessed (RegexLexer := reference_lexer) (tokens (U := ascii_only_ucd)) (render sample_program)
    = place 0 (pieces sample_program)
   /\ forall t x, cut_short t x -> exists rest,
       get_tokens_unprocessed (RegexLexer := reference_lexer) (tokens (U := ascii_only_ucd)) (render sample_program ++ t)
       = place 0 (pieces sample_program ++ [x]) ++ rest)
  /\ length (pieces sample_program) = 35%nat
  /\ cut_short $"0xc0ffee" (Literal_Number, $"0") /\ cut_short $"@%%" (Keyword_Name, $"@%")
  /\ cut_short $"bls12_381_fr" (Keyword_Type, $"bls") /\ cut_short $"I {}" (Error, $"I").
Proof.
  split; [|split_and!; [vm_compute; reflexivity|apply (cut_bytes $"c0ffee")|by apply (cut_annot 64 [])
    |apply (cut_short_type $"_381_fr")|by apply (cut_letter 73 $" {}")]].
  apply (michelson_programs_lexed (L := reference_lexer)); [exact reference_lexer_spec|exact sample_program_ok].
Defined.

(** An annotation with two percent signs, a string with an escaped quote, and a
    type with digits in its name. *)
Definition odd_text : str := $"@%% bls12_381_fr " ++ [dquote; 92; dquote; dquote]%N.

Example odd_text_lexed :
  map (fun x => (x.1.2, x.2))
       (get_tokens_unprocessed (RegexLexer := reference_lexer) (tokens (U := ascii_only_ucd)) odd_text)
     = [(Keyword_Name, $"@%"); (Keyword_Name, $"%"); (Whitespace, $" "); (Keyword_Type, $"bls");
        (Literal_Number, $"12"); (Error, $"_"); (Literal_Number, $"381"); (Error, $"_"); (Keyword_Type, $"fr");
        (Whitespace, $" "); (Literal_String, [dquote; 92; dquote]%N); (Error, [dquote])].
Proof. vm_compute. reflexivity. Qed.
