(* ===== verification/DocsRoles.v ===== *)
(** * The roles of the documentation (docs/_extensions)

    gitlab_custom_role.py expands references to GitLab objects (users, projects,
    issues, merge requests, commits) to URLs; tezos_custom_roles.py makes links to
    packages and source files.  A role returns nodes and messages; the classes of
    docutils are represented by what the roles pass to their constructors. *)

From Stdlib Require Import ZArith Lia ZifyBool.
From stdpp Require Import base tactics list strings numbers sets.
From S2P Require Import Prelude PyStr PyExc PyRe PyDict PyFloat PyIO.

Local Open Scope Z_scope.
Local Open Scope py_scope.

(** ** GitLab references (gitlab_custom_role.py) *)

Definition GL_URL : str := $"https://gitlab.com/".

Definition user_char (c : N) : bool := ascii_alnum c || (c =? 95)%N || (c =? 45)%N.
(** [[!#$%]] and [[^/!#$%]] *)
Definition type_mark (c : N) : bool := (c =? 33)%N || (c =? 35)%N || (c =? 36)%N || (c =? 37)%N.
Definition name_char (c : N) : bool := negb ((c =? 47)%N || type_mark c).
Definition group_char (c : N) : bool := negb ((c =? 64)%N || (c =? 47)%N).
Definition sha_char (c : N) : bool := in_range 97 102 c || ascii_digit c.

(** ['@(?!all)([a-zA-Z0-9_-]+)$'] *)
Definition user_pat : regex :=
  rseqs [ch 64; RNotAhead (rlit $"all"); RGroup 1 (rplus (RChar user_char)); REnd].
(** ['@all$'] *)
Definition all_pat : regex := RSeq (rlit $"@all") REnd.
(** ['([^@/]+)/([^/!#$%]+)>$'] *)
Definition project_pat : regex :=
  rseqs [RGroup 1 (rplus (RChar group_char)); ch 47; RGroup 2 (rplus (RChar name_char)); ch 62; REnd].
(** ['((?P<namespace>[^/!#$%]+)/)?'] is group 1, the name space group 2. *)
Definition namespace_pat : regex := ropt (RGroup 1 (RSeq (RGroup 2 (rplus (RChar name_char))) (ch 47))).
(** ['(?P<project>[^/!#$%]+)?(?P<type>[!#$%])(?P<obj>.* )'] *)
Definition object_pat : regex :=
  rseqs [namespace_pat; ropt (RGroup 3 (rplus (RChar name_char))); RGroup 4 (RChar type_mark);
         RGroup 5 (rstar dot)].
(** ['((?P<project>[^/!#$%]+)@)?(?P<obj>[a-f0-9]{8}(...(?P<commit_end>[a-f0-9]{8}))?)$'] *)
Definition sha_pat : regex := rrep 8 (RChar sha_char).
Definition commit_pat : regex :=
  rseqs [namespace_pat; ropt (RGroup 3 (RSeq (RGroup 4 (rplus (RChar name_char))) (ch 64)));
         RGroup 5 (RSeq sha_pat (ropt (RGroup 6 (rseqs [dot; dot; dot; RGroup 7 sha_pat])))); REnd].

Section Roles.
Context {U : UCD}.

(** [match.group(i)] of a group that took part in the match. *)
Definition group_text (i : nat) (m : mobj) : str := default [] (group i m).

(** [match.group(i) or d] *)
Definition group_or (i : nat) (d : str) (m : mobj) : str :=
  match group i m with None | Some [] => d | Some w => w end.

(** The back references of a pattern replaced by the groups of a match. *)
Definition re_expander (pattern : str) (m : mobj) : str :=
  re_sub_fun (RSeq (ch 92) (RGroup 1 (rplus rd)))
    (fun m2 => match parse_int (group_text 1 m2) with
               | Some i => if i =? 0 then group0 m else group_text (Z.to_nat i) m
               | None => []
               end) pattern.

Definition obj_types (t : str) : str :=
  if bool_decide (t = $"#") then $"issues"
  else if bool_decide (t = $"!") then $"merge_requests"
  else if bool_decide (t = $"$") then $"snippets"
  else $"milestones".

Definition std_expander (default_namespace default_project : str) (m : mobj) : str :=
  let namespace := group_or 2 default_namespace m in
  let project := group_or 3 default_project m in
  let obj_typ := obj_types (group_text 4 m) in
  let obj := group_text 5 m in
  namespace +:+ $"/" +:+ project +:+ $"/-/" +:+ obj_typ +:+ $"/" +:+ obj.

Definition commit_expander (default_namespace default_project : str) (m : mobj) : str :=
  let namespace := group_or 2 default_namespace m in
  let project := group_or 4 default_project m in
  let obj_typ := match group 7 m with None => $"commit" | Some _ => $"compare" end in
  let obj := group_text 5 m in
  namespace +:+ $"/" +:+ project +:+ $"/-/" +:+ obj_typ +:+ $"/" +:+ obj.

Definition const_expander (cst : str) (_ : mobj) : str := cst.

Definition short_link_formats (ns proj : str) : list (regex * (mobj -> str)) :=
  [ (user_pat, re_expander $"\1");
    (all_pat, const_expander (ns +:+ $"/" +:+ proj));
    (project_pat, re_expander $"\1/\2");
    (object_pat, std_expander ns proj);
    (commit_pat, commit_expander ns proj) ].

Definition expand_gitlab_shortlink (text default_namespace default_project : str) : list str :=
  omap (fun e => (fun m => GL_URL +:+ e.2 m) <$> re_match e.1 text)
    (short_link_formats default_namespace default_project).

(** Nodes of docutils, and the messages of the reporter. *)
Inductive node :=
| Reference (rawtext text refuri : str) (options : list (str * str))
| Literal (rawtext text : str).

Inductive message :=
| ErrorMessage (text : str) (line : Z)
| WarningMessage (text : str) (line : Z).

(** ['^([^<>]* )<([^<]* )>$'] and ['^([^<>]* )<([^<>]* )>$'] *)
Definition not_angle (c : N) : bool := negb ((c =? 60)%N || (c =? 62)%N).
Definition titled_pat : regex :=
  rseqs [RGroup 1 (rstar (RChar not_angle)); ch 60;
         RGroup 2 (rstar (RChar (fun c => negb (c =? 60)%N))); ch 62; REnd].
Definition titled2_pat : regex :=
  rseqs [RGroup 1 (rstar (RChar not_angle)); ch 60; RGroup 2 (rstar (RChar not_angle)); ch 62; REnd].

Definition gitlab_role (rawtext text : str) (lineno : Z) (options : list (str * str)) :
    res (list node * list message) :=
  let '(text, ref) :=
    match re_match titled_pat text with
    | Some parts => (group_text 1 parts, group_text 2 parts)
    | None => (text, text)
    end in
  match expand_gitlab_shortlink ref $"tezos" $"tezos" with
  | [] => Raise ValueError
  | url :: more =>
      let msg :=
        if bool_decide (more = []) then []
        else [ErrorMessage ($"ambiguous GitLab shortlink `" +:+ ref +:+ $"`, could expand to any of: "
                +:+ join $", " (url :: more) +:+ $", picking the first") lineno] in
      Ok ([Reference rawtext text url options], msg)
  end.

(** *** The references the role is meant for *)

Inductive gl_ref :=
| User (name : str)
| Everyone
| Project (ns proj : str)
| Object (ns proj : option str) (t : N) (n : Z)
| Commit (ns proj : option str) (sha : str) (until : option str).

Definition opt_text (o : option str) (sep : str) : str := match o with Some w => w ++ sep | None => [] end.

Definition print_ref (r : gl_ref) : str :=
  match r with
  | User u => $"@" ++ u
  | Everyone => $"@all"
  | Project ns proj => ns ++ $"/" ++ proj ++ $">"
  | Object ns proj t n => opt_text ns $"/" ++ opt_text proj [] ++ [t] ++ str_int n
  | Commit ns proj sha until =>
      opt_text ns $"/" ++ opt_text proj $"@" ++ sha ++ match until with Some e => $"..." ++ e | None => [] end
  end.

(** What GitLab calls the objects of a mark. *)
Definition object_kind (t : N) : str :=
  if (t =? 35)%N then $"issues" else if (t =? 33)%N then $"merge_requests"
  else if (t =? 36)%N then $"snippets" else $"milestones".

Lemma obj_types_kind t : obj_types [t] = object_kind t.
Proof.
  unfold obj_types, object_kind. assert (H : forall c, bool_decide ([t] = [c]) = (t =? c)%N).
  { intros c. destruct (N.eqb_spec t c) as [->|Hne]; [by apply bool_decide_eq_true_2|].
    apply bool_decide_eq_false_2. congruence. }
  change $"#" with [35%N]. change $"!" with [33%N]. change $"$" with [36%N]. by rewrite !H.
Qed.

(** The page of the object on GitLab. *)
Definition page (dn dp : str) (r : gl_ref) : str :=
  match r with
  | User u => u
  | Everyone => dn ++ $"/" ++ dp
  | Project ns proj => ns ++ $"/" ++ proj
  | Object ns proj t n =>
      default dn ns ++ $"/" ++ default dp proj ++ $"/-/" ++ object_kind t ++ $"/" ++ str_int n
  | Commit ns proj sha None => default dn ns ++ $"/" ++ default dp proj ++ $"/-/commit/" ++ sha
  | Commit ns proj sha (Some e) =>
      default dn ns ++ $"/" ++ default dp proj ++ $"/-/compare/" ++ sha ++ $"..." ++ e
  end.

Definition all (p : N -> bool) (w : str) : Prop := Forall (fun c => p c = true) w.
Definition name_ok (w : str) : Prop := w <> [] /\ all name_char w.
Definition opt_name_ok (o : option str) : Prop := match o with Some w => name_ok w | None => True end.
Definition sha_ok (w : str) : Prop := length w = 8%nat /\ all sha_char w.

Definition ref_ok (r : gl_ref) : Prop :=
  match r with
  | User u => u <> [] /\ all user_char u /\ startswith $"all" u = false
  | Everyone => True
  | Project ns proj => name_ok ns /\ (64%N ∉ ns) /\ name_ok proj
  | Object ns proj t n => opt_name_ok ns /\ opt_name_ok proj /\ type_mark t = true /\ 0 <= n < 10 ^ 7
  | Commit ns proj sha until =>
      opt_name_ok ns /\ opt_name_ok proj /\ sha_ok sha /\ match until with Some e => sha_ok e | None => True end
  end.

Lemma all_impl (p : N -> bool) (Q : N -> Prop) w : all p w -> (forall c, p c = true -> Q c) -> Forall Q w.
Proof. intros Hw H. induction Hw; constructor; auto. Qed.

Lemma all_not_in (p : N -> bool) c w : all p w -> p c = false -> c ∉ w.
Proof. intros Hw Hc Hin. unfold all in Hw. rewrite Forall_forall in Hw. apply Hw in Hin. congruence. Qed.

Ltac chars :=
  cbv [type_mark name_char group_char sha_char user_char ascii_alnum ascii_digit ascii_lower ascii_upper
       in_range nl] in *; lia.

(** *** Texts that a pattern does not match *)

Lemma re_match_den r s m : re_match r s = Some m -> den r (start s) (m_end m).
Proof.
  unfold re_match, match_here. cbn [andb]. destruct (mt r (start s) _) as [s'|] eqn:E; [|done].
  intros [= <-]. apply mt_sound in E as (s1 & D & [= <-]). done.
Qed.

Lemma re_match_mt r s s' : mt r (start s) Some = Some s' -> re_match r s = Some (MObj (start s) s').
Proof.
  intros H. unfold re_match, match_here. cbn [andb].
  change (mt r (start s) (fun s' => Some s')) with (mt r (start s) Some). by rewrite H.
Qed.

Definition end_of_text (r : str) : Prop := r = [] \/ r = [nl].

Lemma user_shape s m : re_match user_pat s = Some m ->
  exists w r, s = 64%N :: w ++ r /\ all user_char w /\ end_of_text r.
Proof.
  intros (s1 & (c & t & E & Hc%N.eqb_eq & ->) & s2 & [_ ->] & s3 & (s4 & D & ->) & He & _)%re_match_den.
  apply den_plus_class in D as (w & Ew & Hw & _). cbn in E, Ew. subst.
  exists w, (after s4). split_and!; [done|done|]. apply at_end_cases in He. by cbn in He.
Qed.

Lemma all_shape s m : re_match all_pat s = Some m -> exists r, s = $"@all" ++ r /\ end_of_text r.
Proof.
  intros (s1 & E%den_rlit_app & He & _)%re_match_den. exists (after s1). split; [done|]. by apply at_end_cases.
Qed.

Lemma project_shape s m : re_match project_pat s = Some m ->
  exists w v r, s = w ++ $"/" ++ v ++ $">" ++ r /\ all group_char w /\ all name_char v /\ end_of_text r.
Proof.
  intros (s1 & (s1' & D1 & ->) & s2 & (c & t & E & Hc%N.eqb_eq & ->) & s3 & (s3' & D3 & ->) & s4
    & (c' & t' & E' & Hc'%N.eqb_eq & ->) & He & _)%re_match_den.
  apply den_plus_class in D1 as (w & Ew & Hw & _). apply den_plus_class in D3 as (v & Ev & Hv & _).
  cbn in *. subst. exists w, v, t'. apply at_end_cases in He. cbn in He.
  split_and!; [|done|done|done]. by rewrite E, E'.
Qed.

Lemma object_shape s m : re_match object_pat s = Some m -> exists t, type_mark t = true /\ t ∈ s.
Proof.
  intros (s1 & D1%den_consumes & s2 & D2%den_consumes & s3 & (s3' & (c & t & E & Hc & ->) & ->) & _)%re_match_den.
  destruct D1 as (w & Ew & _), D2 as (p & Ep & _). exists c. split; [done|]. cbn in Ew.
  rewrite Ew, Ep, E. apply elem_of_app. right. apply elem_of_app. right. left.
Qed.

(** A commit reference ends with a hash. *)
Lemma commit_shape s m : re_match commit_pat s = Some m ->
  exists w e r, s = w ++ e ++ r /\ end_of_text r /\ sha_ok e.
Proof.
  intros (s1 & D1%den_consumes & s2 & D2%den_consumes & s3 & (s3' & (s4 & D4 & D5) & ->) & He & _)%re_match_den.
  apply at_end_cases in He. cbn in He. apply den_rrep_class in D4 as (h & Eh & Hh & Lh).
  destruct D1 as (w & Ew & _), D2 as (p & Ep & _). cbn in Ew.
  destruct D5 as [(s5 & D & ->)|[= ->]].
  - destruct D as (x1 & (c1 & t1 & E1 & _ & ->) & x2 & (c2 & t2 & E2 & _ & ->) & x3 & (c3 & t3 & E3 & _ & ->)
      & x4 & D & ->). apply den_rrep_class in D as (h2 & Eh2 & Hh2 & Lh2). cbn in *.
    exists (w ++ p ++ h ++ [c1; c2; c3]), h2, (after x4). split; [|split; done].
    rewrite Ew, Ep, Eh, E1, E2, E3, Eh2. by rewrite <- !app_assoc.
  - exists (w ++ p), h, (after s4). split; [|split; done]. by rewrite Ew, Ep, Eh, <- app_assoc.
Qed.

(** *** Matches of the references *)

Definition ns_caps (ns : option str) : list (nat * str) :=
  match ns with Some w => [(1%nat, w ++ $"/"); (2%nat, w)] | None => [] end.

Lemma capture_skip i s w t : after s = w ++ t ->
  capture i s (skip w t s) = St (rev w ++ before s) t ((i, w) :: caps s).
Proof. intros E. unfold capture. by rewrite (between_consumes _ _ w) by done. Qed.

Lemma capture_one i s c t : after s = c :: t ->
  capture i s (advance c t s) = St (c :: before s) t ((i, [c]) :: caps s).
Proof. intros E. unfold capture. by rewrite (between_consumes _ _ [c]) by done. Qed.

Lemma mt_alt_left r1 r2 s k x : mt r1 s k = Some x -> mt (RAlt r1 r2) s k = Some x.
Proof. intros H. cbn. by rewrite H. Qed.

Lemma mt_alt_right r1 r2 s k : mt r1 s k = None -> mt (RAlt r1 r2) s k = mt r2 s k.
Proof. intros H. cbn. by rewrite H. Qed.

Lemma mt_namespace_skip s k : 47%N ∉ after s -> mt namespace_pat s k = k s.
Proof.
  intros H. unfold namespace_pat, ropt. rewrite mt_alt_right; [done|]. cbn [mt].
  apply mt_plus_none. intros w v E _ _. unfold capture, skip. cbn [mt ch before after caps] in E |- *.
  destruct v as [|c v]; [done|]. destruct (N.eqb_spec 47 c) as [<-|]; [|done].
  exfalso. apply H. rewrite E. apply elem_of_app. right. left.
Qed.

Lemma mt_namespace ns t b k x :
  opt_name_ok ns -> (ns = None -> 47%N ∉ t) ->
  k (St (rev (opt_text ns $"/") ++ b) t (ns_caps ns)) = Some x ->
  mt namespace_pat (St b (opt_text ns $"/" ++ t) []) k = Some x.
Proof.
  intros Hns Hno Hk. destruct ns as [w|]; cbn [opt_text ns_caps opt_name_ok] in *.
  - destruct Hns as [Hne Hw]. apply mt_alt_left. cbn [mt]. rewrite <- app_assoc.
    eapply (mt_plus_run _ _ w (47%N :: t)); [done|done|done|done|].
    rewrite capture_skip by done. cbn [mt ch after N.eqb Pos.eqb].
    rewrite <- Hk. f_equal. unfold capture, advance. cbn [before after caps].
    rewrite (between_consumes _ _ (w ++ [47%N])) by (cbn; by rewrite <- app_assoc).
    by rewrite rev_app_distr.
  - rewrite mt_namespace_skip; [exact Hk|by apply Hno].
Qed.

Definition pr_caps (proj : option str) : list (nat * str) :=
  match proj with Some w => [(3%nat, w)] | None => [] end.

Lemma mt_project proj c t b cs k x :
  opt_name_ok proj -> name_char c = false ->
  k (St (rev (opt_text proj []) ++ b) (c :: t) (pr_caps proj ++ cs)) = Some x ->
  mt (ropt (RGroup 3 (rplus (RChar name_char)))) (St b (opt_text proj [] ++ c :: t) cs) k = Some x.
Proof.
  intros Hp Hc Hk. destruct proj as [w|]; cbn [opt_text pr_caps opt_name_ok] in *.
  - rewrite !app_nil_r in *. destruct Hp as [Hne Hw]. apply mt_alt_left. cbn [mt].
    eapply (mt_plus_run _ _ w (c :: t)); [done|done|done|done|]. by rewrite capture_skip by done.
  - unfold ropt. rewrite mt_alt_right; [exact Hk|]. apply mt_first_fail; [done|]. change (name_char c || false = false). by rewrite Hc.
Qed.

(** The captures of a reference to an object. *)
Lemma object_match ns proj t n :
  ref_ok (Object ns proj t n) -> exists b,
  mt object_pat (start (print_ref (Object ns proj t n))) Some
    = Some (St b [] ([(5%nat, str_int n); (4%nat, [t])] ++ pr_caps proj ++ ns_caps ns)).
Proof.
  intros (Hns & Hp & Ht & Hn). eexists. unfold object_pat, start. cbn [rseqs mt print_ref].
  apply mt_namespace; [done| |].
  - intros _. apply not_elem_of_app. split; [|apply not_elem_of_app; split].
    + destruct proj as [w|]; cbn; [|apply not_elem_of_nil]. rewrite app_nil_r.
      apply (all_not_in name_char); [apply Hp|done].
    + apply not_elem_of_cons. split; [|apply not_elem_of_nil]. intros <-. done.
    + apply (all_not_in ascii_digit); [apply str_int_ascii_digit, Hn|done].
  - apply mt_project; [done|unfold name_char; lia|]. cbn [mt after]. rewrite Ht.
    assert (Hdot : all (fun c => negb (c =? nl)%N) (str_int n)).
    { eapply (all_impl ascii_digit); [apply str_int_ascii_digit, Hn|]. unfold ascii_digit, in_range, nl. intros. lia. }
    rewrite capture_one by done. cbn [before caps].
    eapply (mt_star_run _ _ (str_int n) []); [cbn [after]; by rewrite app_nil_r|done|done|].
    rewrite capture_skip by (cbn [after]; by rewrite app_nil_r). reflexivity.
Qed.

Definition pc_caps (proj : option str) : list (nat * str) :=
  match proj with Some w => [(3%nat, w ++ $"@"); (4%nat, w)] | None => [] end.

Lemma mt_commit_project proj t b cs k x :
  opt_name_ok proj -> 64%N ∉ t ->
  k (St (rev (opt_text proj $"@") ++ b) t (pc_caps proj ++ cs)) = Some x ->
  mt (ropt (RGroup 3 (RSeq (RGroup 4 (rplus (RChar name_char))) (ch 64)))) (St b (opt_text proj $"@" ++ t) cs) k
    = Some x.
Proof.
  intros Hp Ht Hk. assert (Hat : forall s k' c v, after s = c :: v -> 64%N <> c -> mt (ch 64) s k' = None).
  { intros s k' c v E Hc. cbn [mt ch]. rewrite E. by apply N.eqb_neq in Hc as ->. }
  destruct proj as [w|]; cbn [opt_text pc_caps opt_name_ok] in *.
  - destruct Hp as [Hne Hw]. apply mt_alt_left. cbn [mt]. rewrite <- app_assoc.
    eapply (mt_plus_longest _ _ w (64%N :: t)); [done|done|done| |].
    + intros [|d u] v E Hu _; [done|]. cbn in E. simplify_eq. destruct v as [|c v]; [done|].
      apply (Hat _ _ c v); [done|]. intros <-. apply Ht. apply elem_of_app. right. left.
    + rewrite capture_skip by done. cbn [mt ch after N.eqb Pos.eqb].
      rewrite <- Hk. f_equal. unfold capture, advance. cbn [before after caps].
      rewrite (between_consumes _ _ (w ++ [64%N])) by (cbn; by rewrite <- app_assoc).
      by rewrite rev_app_distr.
  - cbn [app] in *. unfold ropt. rewrite mt_alt_right; [exact Hk|]. cbn [mt].
    apply mt_plus_none. intros w v E _ _. cbn [after] in E. destruct v as [|c v]; [done|].
    apply (Hat _ _ c v); [done|]. intros <-. apply Ht. rewrite E. apply elem_of_app. right. left.
Qed.

Definition until_text (until : option str) : str := match until with Some e => $"..." ++ e | None => [] end.
Definition until_caps (until : option str) : list (nat * str) :=
  match until with Some e => [(6%nat, $"..." ++ e); (7%nat, e)] | None => [] end.

Lemma mt_sha w s t k : sha_ok w -> after s = w ++ t -> mt sha_pat s k = k (skip w t s).
Proof. intros [Hl Hw] E. unfold sha_pat. rewrite <- Hl. by apply mt_rrep_run. Qed.

Lemma sha_body_chars sha until :
  sha_ok sha -> match until with Some e => sha_ok e | None => True end ->
  all (fun c => sha_char c || (c =? 46)%N) (sha ++ until_text until).
Proof.
  intros [_ Hs] Hu. apply Forall_app. split.
  - apply (all_impl _ _ _ Hs). intros c ->. done.
  - destruct until as [e|]; [|constructor]. cbn. repeat constructor. destruct Hu as [_ Hu].
    apply (all_impl _ _ _ Hu). intros c ->. done.
Qed.

Lemma mt_dot s c t k : after s = c :: t -> c <> nl -> mt dot s k = k (advance c t s).
Proof. intros E Hc. cbn [mt dot]. rewrite E. by apply N.eqb_neq in Hc as ->. Qed.

(** The part of a reference after the project. *)
Definition commit_object : regex :=
  RSeq (RGroup 5 (RSeq sha_pat (ropt (RGroup 6 (rseqs [dot; dot; dot; RGroup 7 sha_pat]))))) REnd.

Lemma mt_commit_object sha until b cs :
  sha_ok sha -> match until with Some e => sha_ok e | None => True end ->
  mt commit_object (St b (sha ++ until_text until) cs) Some
    = Some (St (rev (sha ++ until_text until) ++ b) [] ((5%nat, sha ++ until_text until) :: until_caps until ++ cs)).
Proof.
  intros Hs Hu. unfold commit_object. cbn [mt]. rewrite (mt_sha sha _ (until_text until)) by done.
  destruct until as [e|]; cbn [until_text until_caps].
  - apply mt_alt_left. change ($"..." ++ e) with ([46; 46; 46]%N ++ e).
    unfold skip. cbn [mt rseqs before caps app].
    rewrite (mt_dot _ 46 (46%N :: 46%N :: e)), (mt_dot _ 46 (46%N :: e)), (mt_dot _ 46 e) by done.
    rewrite (mt_sha e _ []) by (done || by cbn; rewrite app_nil_r).
    rewrite capture_skip by (cbn; by rewrite app_nil_r).
    unfold capture, advance. cbn [before after caps].
    rewrite (between_consumes _ _ (sha ++ [46; 46; 46]%N ++ e)) by (cbn; by rewrite app_nil_r).
    rewrite (between_consumes _ _ ([46; 46; 46]%N ++ e)) by (cbn; by rewrite app_nil_r).
    cbn. by rewrite rev_app_distr, <- !app_assoc; cbn; rewrite <- !app_assoc.
  - unfold ropt. rewrite mt_alt_right by done. cbn [mt].
    rewrite capture_skip by done. cbn. by rewrite app_nil_r.
Qed.

(** The captures of a reference to a commit or a range of commits. *)
Lemma commit_match ns proj sha until :
  ref_ok (Commit ns proj sha until) -> exists b,
  mt commit_pat (start (print_ref (Commit ns proj sha until))) Some
    = Some (St b [] ((5%nat, sha ++ until_text until) :: until_caps until ++ pc_caps proj ++ ns_caps ns)).
Proof.
  intros (Hns & Hp & Hs & Hu).
  eexists.
  unfold commit_pat, start. cbn [rseqs mt print_ref].
  fold (until_text until). pose proof (sha_body_chars sha until Hs Hu) as Hb.
  apply mt_namespace; [done| |].
  - intros _. apply not_elem_of_app. split.
    + destruct proj as [w|]; [|apply not_elem_of_nil]. cbn [opt_text]. apply not_elem_of_app. split.
      * apply (all_not_in name_char); [apply Hp|done].
      * by apply (bool_decide_eq_true_1 (47%N ∉ _)).
    + by apply (all_not_in _ _ _ Hb).
  - apply mt_commit_project; [done|by apply (all_not_in _ _ _ Hb)|].
    by apply mt_commit_object.
Qed.

Lemma user_match u : ref_ok (User u) -> exists b,
  mt user_pat (start (print_ref (User u))) Some = Some (St b [] [(1%nat, u)]).
Proof.
  intros (Hne & Hu & Hall). eexists. unfold user_pat, start. change (print_ref (User u)) with (64%N :: u).
  cbn [rseqs mt ch after N.eqb Pos.eqb]. rewrite mt_rlit_fail by done.
  eapply (mt_plus_run _ _ u []); [cbn [after advance]; by rewrite app_nil_r|done|done|done|].
  rewrite capture_skip by (cbn [after advance]; by rewrite app_nil_r). reflexivity.
Qed.

Lemma project_match ns proj : ref_ok (Project ns proj) -> exists b,
  mt project_pat (start (print_ref (Project ns proj))) Some = Some (St b [] [(2%nat, proj); (1%nat, ns)]).
Proof.
  intros ([Hne Hns] & Hat & [Hne' Hp]). eexists. unfold project_pat, start. cbn [rseqs mt print_ref].
  eapply (mt_plus_run _ _ ns); [reflexivity|done| |done|].
  { assert (Hg : Forall (fun c => group_char c = true) ns); [|exact Hg].
    apply Forall_forall. intros c Hc. unfold all in Hns. rewrite Forall_forall in Hns.
    specialize (Hns c Hc). assert (c <> 64%N) by (intros ->; done). unfold group_char, name_char in *. lia. }
  rewrite capture_skip by done. cbn [mt ch after]. change (N.eqb 47 47) with true. cbv iota.
  eapply (mt_plus_longest _ _ proj [62%N]); [done|done|done| |].
  - intros [|d u] v E Hu _; [done|]. cbn in E. by destruct u, v.
  - rewrite capture_skip by done. reflexivity.
Qed.

(** *** The last character of a match *)

Lemma end_of_text_last (x : str) c r : end_of_text r ->
  exists y d, x ++ [c] ++ r = y ++ [d] /\ (d = c \/ d = nl).
Proof.
  intros [->| ->]; [exists x, c; auto|]. exists (x ++ [c]), nl. rewrite <- app_assoc. auto.
Qed.

Lemma project_last s m : re_match project_pat s = Some m -> exists x c, s = x ++ [c] /\ (c = 62%N \/ c = nl).
Proof.
  intros (w & v & r & -> & _ & _ & Hr)%project_shape.
  destruct (end_of_text_last (w ++ $"/" ++ v) 62 r Hr) as (y & d & E & Hd). exists y, d.
  split; [|done]. rewrite <- E. by rewrite <- !app_assoc.
Qed.

Lemma commit_last s m : re_match commit_pat s = Some m -> exists x c, s = x ++ [c] /\ (sha_char c = true \/ c = nl).
Proof.
  intros (w & e & r & -> & Hr & [Hl He])%commit_shape.
  destruct e as [|c e _] using rev_ind; [done|]. apply Forall_app in He as [_ Hc%Forall_inv].
  destruct (end_of_text_last (w ++ e) c r Hr) as (y & d & E & Hd). exists y, d. rewrite <- E, <- !app_assoc.
  split; [done|]. destruct Hd as [->| ->]; auto.
Qed.

Lemma last_unique (x y : str) c d : x ++ [c] = y ++ [d] -> c = d.
Proof. by intros [_ ?]%app_inj_tail. Qed.

(** *** One pattern for every reference *)

Lemma re_match_none r s : (forall m, re_match r s = Some m -> False) -> re_match r s = None.
Proof. intros H. destruct (re_match r s) as [m|] eqn:E; [|done]. by destruct (H m). Qed.

Lemma re_expander_1 m : re_expander $"\1" m = group_text 1 m.
Proof. transitivity (group_text 1 m ++ []); [reflexivity|apply app_nil_r]. Qed.

Lemma re_expander_1_2 m : re_expander $"\1/\2" m = group_text 1 m ++ $"/" ++ group_text 2 m.
Proof. transitivity (group_text 1 m ++ $"/" ++ group_text 2 m ++ []); [reflexivity|by rewrite app_nil_r]. Qed.

(** Only the pattern of its form matches a reference. *)
Definition only (i : nat) (text : str) (m : mobj) : Prop :=
  map (fun r => re_match r text) [user_pat; all_pat; project_pat; object_pat; commit_pat]
    = map (fun j => if (i =? j)%nat then Some m else None) [0; 1; 2; 3; 4]%nat.

Lemma expand_only i text m dn dp :
  only i text m ->
  expand_gitlab_shortlink text dn dp = omap (fun j => if (i =? j)%nat
    then Some (GL_URL +:+ nth j (map snd (short_link_formats dn dp)) (const_expander []) m) else None) [0; 1; 2; 3; 4]%nat.
Proof.
  unfold only. cbn [map]. intros [= H0 H1 H2 H3 H4]. unfold expand_gitlab_shortlink, short_link_formats.
  cbn [omap list_omap fst snd]. rewrite H0, H1, H2, H3, H4. by destruct i as [|[|[|[|[|i]]]]].
Qed.

(** The text of a user name behind an at sign is of no other form. *)
Lemma at_text_others u : all user_char u ->
  re_match project_pat (64%N :: u) = None /\ re_match object_pat (64%N :: u) = None
  /\ re_match commit_pat (64%N :: u) = None.
Proof.
  intros Hu. assert (Hnot : forall c, user_char c = false -> c <> 64%N -> c ∉ 64%N :: u).
  { intros c Hc Hc' [->|Hin]%elem_of_cons; [done|]. by apply (all_not_in user_char c u). }
  split_and!; apply re_match_none; intros m.
  - intros (w & v & r & E & _)%project_shape. apply (Hnot 47%N); [done|done|]. rewrite E.
    apply elem_of_app. right. left.
  - intros (t & Ht & Hin)%object_shape. revert Hin. apply Hnot; chars.
  - intros Hc. enough (re_match commit_pat (64%N :: u) = None) by congruence.
    unfold re_match, match_here, commit_pat, start. cbn [rseqs mt].
    rewrite mt_namespace_skip by (by apply Hnot). unfold ropt at 1. rewrite mt_alt_right.
    + cbn [mt]. by rewrite (mt_first_fail sha_pat) by done.
    + cbn [mt]. apply mt_plus_none. intros [|d w] v E Hw _; [done|]. cbn in E. injection E as <- E.
      destruct v as [|c v]; [done|]. unfold capture, skip. cbn [mt ch after].
      destruct (N.eqb_spec 64 c) as [<-|]; [|done]. exfalso.
      apply (all_not_in user_char 64 u); [done|done|]. rewrite E. apply elem_of_app. right. left.
Qed.

Lemma user_only u : ref_ok (User u) ->
  exists m, only 0 (print_ref (User u)) m /\ group_text 1 m = u.
Proof.
  intros Hok. destruct (user_match u Hok) as [b Hm]. destruct Hok as (Hne & Hu & Hall).
  exists (MObj (start (print_ref (User u))) (St b [] [(1%nat, u)])). split; [|done].
  change (print_ref (User u)) with (64%N :: u) in *. unfold only. cbn [map Nat.eqb].
  destruct (at_text_others u Hu) as (-> & -> & ->). rewrite (re_match_mt _ _ _ Hm). f_equal.
  rewrite re_match_none; [done|]. intros m (r & E & _)%all_shape. injection E as E. subst u. discriminate Hall.
Qed.

Lemma user_text_chars s m : re_match user_pat s = Some m ->
  Forall (fun c => user_char c = true \/ c = 64%N \/ c = nl) s.
Proof.
  intros (w & r & -> & Hw & Hr)%user_shape. constructor; [auto|]. apply Forall_app. split.
  - apply (all_impl _ _ _ Hw). auto.
  - destruct Hr as [->| ->]; [constructor|]. constructor; [auto|constructor].
Qed.

Lemma all_text_chars s m : re_match all_pat s = Some m ->
  Forall (fun c => user_char c = true \/ c = 64%N \/ c = nl) s.
Proof.
  intros (r & -> & Hr)%all_shape. change $"@all" with [64; 97; 108; 108]%N. apply Forall_app. split.
  - constructor; [by auto|]. do 3 (constructor; [by left|]). constructor.
  - destruct Hr as [->| ->]; [constructor|]. constructor; [auto|constructor].
Qed.

(** A text with a character no user name has is not matched by the first two
    patterns. *)
Lemma not_user_text c s :
  c ∈ s -> user_char c = false -> c <> 64%N -> c <> nl -> re_match user_pat s = None /\ re_match all_pat s = None.
Proof.
  intros Hin H1 H2 H3. split; apply re_match_none; intros m Hm;
    [apply user_text_chars in Hm|apply all_text_chars in Hm];
    rewrite Forall_forall in Hm; destruct (Hm c Hin) as [?|[?|?]]; congruence.
Qed.

Lemma no_marks s : Forall (fun c => type_mark c = false) s -> re_match object_pat s = None.
Proof.
  intros H. apply re_match_none. intros m (t & Ht & Hin)%object_shape.
  rewrite Forall_forall in H. apply H in Hin. congruence.
Qed.

Lemma name_no_marks w : all name_char w -> Forall (fun c => type_mark c = false) w.
Proof. intros H. apply (all_impl _ _ _ H). intros c Hc. chars. Qed.

Lemma opt_no_marks o sep : opt_name_ok o -> Forall (fun c => type_mark c = false) sep ->
  Forall (fun c => type_mark c = false) (opt_text o sep).
Proof.
  intros Ho Hs. destruct o as [w|]; [|constructor]. apply Forall_app. split; [|done]. by apply name_no_marks, Ho.
Qed.

Lemma app_suffix (x y a b : str) : x ++ a = y ++ b -> (length b <= length a)%nat -> exists z, a = z ++ b.
Proof.
  intros E L. exists (drop (length x) y).
  assert (Lx : (length x <= length y)%nat).
  { apply (f_equal length) in E. rewrite !length_app in E. lia. }
  apply (f_equal (drop (length x))) in E. rewrite drop_app_length, drop_app_le in E by done. done.
Qed.

Lemma str_int_length n k : 0 <= n < 10 ^ Z.of_nat k -> (0 < k)%nat -> (length (str_int n) <= k)%nat.
Proof.
  intros Hn Hk. unfold str_int. destruct (Z.eqb_spec n 0); [cbn; lia|].
  destruct (Z.ltb_spec n 0); [lia|]. rewrite length_map. by apply digits_length_le.
Qed.

Lemma project_only ns proj : ref_ok (Project ns proj) ->
  exists m, only 2 (print_ref (Project ns proj)) m /\ group_text 1 m = ns /\ group_text 2 m = proj.
Proof.
  intros Hok. destruct (project_match ns proj Hok) as [b Hm]. destruct Hok as (Hns & Hat & Hp).
  eexists. split; [|split]; [| |]. 2-3: shelve. unfold only. cbn [map Nat.eqb]. rewrite (re_match_mt _ _ _ Hm).
  cbn [print_ref] in *. set (s := ns ++ $"/" ++ proj ++ $">") in *.
  assert (Hs : 47%N ∈ s) by (apply elem_of_app; right; left).
  destruct (not_user_text 47%N s Hs) as [-> ->]; [done..|].
  rewrite (no_marks s), (re_match_none commit_pat s); [reflexivity| |].
  - intros m (x & c & E & Hc)%commit_last. assert (c = 62%N) as ->.
    { apply (last_unique x (ns ++ $"/" ++ proj)). rewrite <- E. unfold s. by rewrite <- !app_assoc. }
    destruct Hc; [chars|done].
  - unfold s. rewrite !Forall_app. split_and!; [by apply name_no_marks, Hns|by repeat constructor|
      by apply name_no_marks, Hp|by repeat constructor].
  Unshelve. all: reflexivity.
Qed.

Lemma group_or_opt i d o m : group i m = o -> opt_name_ok o -> group_or i d m = default d o.
Proof. unfold group_or. intros ->. by destruct o as [[|c w]|]; [intros []| |]. Qed.

Lemma object_only ns proj t n : ref_ok (Object ns proj t n) ->
  exists m, only 3 (print_ref (Object ns proj t n)) m /\
    forall dn dp, std_expander dn dp m = page dn dp (Object ns proj t n).
Proof.
  intros Hok. destruct (object_match ns proj t n Hok) as [b Hm]. destruct Hok as (Hns & Hp & Ht & Hn).
  eexists. split.
  - unfold only. cbn [map Nat.eqb]. rewrite (re_match_mt _ _ _ Hm). cbn [print_ref] in *.
    pose proof (str_int_ascii_digit n (proj1 Hn)) as Hd.
    pose proof (str_int_length n 7 Hn ltac:(lia)) as Hlen.
    assert (Hs : exists x c, opt_text ns $"/" ++ opt_text proj [] ++ [t] ++ str_int n = x ++ [c] /\ ascii_digit c = true).
    { destruct (str_int n) as [|c w _] eqn:E using rev_ind; [by apply str_int_nonempty in E|].
      exists (opt_text ns $"/" ++ opt_text proj [] ++ [t] ++ w), c. rewrite <- !app_assoc. split; [done|].
      apply Forall_app in Hd as [_ Hd]. by apply Forall_inv in Hd. }
    set (s := opt_text ns $"/" ++ opt_text proj [] ++ [t] ++ str_int n) in *.
    assert (Hin : t ∈ s) by (unfold s; set_solver).
    destruct (not_user_text t s Hin) as [-> ->]; [chars|intros ->; done|intros ->; done|].
    rewrite !re_match_none; [reflexivity| |]; intros m.
    + intros (w & e & r & E & Hr & [Hl He])%commit_shape. unfold s in E. rewrite !app_assoc in E.
      rewrite <- app_assoc, <- (app_assoc w) in E. symmetry in E. apply app_suffix in E as (z & E).
      * assert (Hte : t ∈ e ++ r) by (rewrite E; set_solver). apply elem_of_app in Hte as [Hte|Hte].
        -- unfold all in He. rewrite Forall_forall in He. apply He in Hte. chars.
        -- destruct Hr as [->| ->]; [by apply elem_of_nil in Hte|].
           apply list_elem_of_singleton in Hte as ->. done.
      * rewrite !length_app. cbn [length]. lia.
    + intros (x & c & E & Hc)%project_last. destruct Hs as (y & d & E' & Hd'). rewrite E' in E.
      apply last_unique in E as ->. destruct Hc as [->| ->]; done.
  - intros dn dp. unfold std_expander. cbn [page]. rewrite <- obj_types_kind.
    rewrite (group_or_opt 2 dn ns), (group_or_opt 3 dp proj); [done| | | |]; [|done| |done];
      by destruct ns, proj.
Qed.

Lemma commit_user_text ns proj sha until : ref_ok (Commit ns proj sha until) ->
  re_match user_pat (print_ref (Commit ns proj sha until)) = None
  /\ re_match all_pat (print_ref (Commit ns proj sha until)) = None.
Proof.
  intros (Hns & Hp & [Hl Hs] & Hu). cbn [print_ref]. fold (until_text until). split; apply re_match_none; intros m.
  - intros (w & r & E & Hw & Hr)%user_shape.
    assert (Hno : forall c, user_char c = false -> c <> nl -> c ∉ w ++ r).
    { intros c Hc Hn. apply not_elem_of_app. split; [by apply (all_not_in user_char)|].
      destruct Hr as [->| ->]; [apply not_elem_of_nil|by apply not_elem_of_cons; split; [|apply not_elem_of_nil]]. }
    destruct ns as [[|c v]|], proj as [[|d p]|]; cbn [opt_text opt_name_ok] in *;
      try (by destruct Hns); try (by destruct Hp); cbn [app] in E.
    1,2: injection E as -> E; apply (Hno 47%N); [done|done|]; rewrite <- E; apply elem_of_app; left;
      apply elem_of_app; right; left.
    + injection E as -> E. apply (Hno 64%N); [done|done|]. rewrite <- E. apply elem_of_app. left.
      apply elem_of_app. right. left.
    + destruct sha as [|e sha]; [done|]. injection E as -> E. by apply Forall_inv in Hs.
  - intros (r & E & Hr)%all_shape. apply (f_equal length) in E. rewrite !length_app, Hl in E.
    change (length $"@all") with 4%nat in E.
    assert (length r <= 1)%nat by (destruct Hr as [->| ->]; cbn; lia). lia.
Qed.

Lemma commit_only ns proj sha until : ref_ok (Commit ns proj sha until) ->
  exists m, only 4 (print_ref (Commit ns proj sha until)) m /\
    forall dn dp, commit_expander dn dp m = page dn dp (Commit ns proj sha until).
Proof.
  intros Hok. destruct (commit_match ns proj sha until Hok) as [b Hm].
  destruct (commit_user_text ns proj sha until Hok) as [H0 H1].
  destruct Hok as (Hns & Hp & Hs & Hu). pose proof (sha_body_chars sha until Hs Hu) as Hb.
  eexists. split.
  - unfold only. cbn [map Nat.eqb]. rewrite H0, H1, (re_match_mt _ _ _ Hm). clear H0 H1 Hm. cbn [print_ref] in *.
    fold (until_text until). rewrite no_marks.
    + rewrite re_match_none; [reflexivity|]. intros m (x & c & E & Hc)%project_last.
      destruct (sha ++ until_text until) as [|d w _] eqn:E' using rev_ind.
      { apply (f_equal length) in E'. rewrite length_app, (proj1 Hs) in E'. done. }
      rewrite !app_assoc in E. apply last_unique in E as ->. apply Forall_app in Hb as [_ Hd%Forall_inv].
      destruct Hc as [->| ->]; done.
    + apply Forall_app. split; [by apply opt_no_marks; [|repeat constructor]|].
      apply Forall_app. split; [by apply opt_no_marks; [|repeat constructor]|].
      apply (all_impl _ _ _ Hb). intros c Hc. chars.
  - intros dn dp. unfold commit_expander. rewrite (group_or_opt 2 dn ns), (group_or_opt 4 dp proj);
      [|by destruct ns, proj, until|done|by destruct ns, proj, until|done].
    by destruct until, ns, proj; unfold group_text, group; cbn; rewrite ?app_nil_r.
Qed.

(** Every reference of the documented forms has exactly one expansion, the page
    of the object. *)
Lemma expand_reference r dn dp :
  ref_ok r -> expand_gitlab_shortlink (print_ref r) dn dp = [GL_URL +:+ page dn dp r].
Proof.
  destruct r as [u| |ns proj|ns proj t n|ns proj sha until]; intros Hok.
  - destruct (user_only u Hok) as (m & Hm & E). rewrite (expand_only _ _ _ dn dp Hm).
    cbn [omap list_omap Nat.eqb nth map snd short_link_formats]. by rewrite re_expander_1, E.
  - reflexivity.
  - destruct (project_only ns proj Hok) as (m & Hm & E1 & E2). rewrite (expand_only _ _ _ dn dp Hm).
    cbn [omap list_omap Nat.eqb nth map snd short_link_formats]. by rewrite re_expander_1_2, E1, E2.
  - destruct (object_only ns proj t n Hok) as (m & Hm & E). rewrite (expand_only _ _ _ dn dp Hm).
    cbn [omap list_omap Nat.eqb nth map snd short_link_formats]. by rewrite E.
  - destruct (commit_only ns proj sha until Hok) as (m & Hm & E). rewrite (expand_only _ _ _ dn dp Hm).
    cbn [omap list_omap Nat.eqb nth map snd short_link_formats]. by rewrite E.
Qed.

(** *** The role *)

Lemma titled_match title ref : all not_angle title -> 60%N ∉ ref ->
  exists m, re_match titled_pat (title ++ $"<" ++ ref ++ $">") = Some m
    /\ group_text 1 m = title /\ group_text 2 m = ref.
Proof.
  intros Ht Hr.
  assert (Hm : exists b, mt titled_pat (start (title ++ $"<" ++ ref ++ $">")) Some
    = Some (St b [] [(2%nat, ref); (1%nat, title)])).
  { eexists. unfold titled_pat, start. cbn [rseqs mt].
    eapply (mt_star_run _ _ title); [reflexivity|done|done|].
    rewrite capture_skip by done. cbn [mt ch after]. change (N.eqb 60 60) with true. cbv iota.
    eapply (mt_star_longest _ _ ref [62%N]); [done| | |].
    - apply Forall_forall. intros c Hc. apply negb_true_iff, N.eqb_neq. by intros ->.
    - intros [|d u] v E Hu _; [done|]. cbn in E. by destruct u, v.
    - rewrite capture_skip by done. reflexivity. }
  destruct Hm as [b Hm]. eexists. split; [by apply re_match_mt|]. done.
Qed.

Lemma titled_none text : 60%N ∉ text -> re_match titled_pat text = None.
Proof.
  intros H. apply re_match_none.
  intros m (s1 & D1%den_consumes & s2 & (c & t & E & Hc%N.eqb_eq & ->) & _)%re_match_den.
  destruct D1 as (w & Ew & _). cbn in Ew. apply H. rewrite Ew, E, <- Hc. apply elem_of_app. right. left.
Qed.

(** A user whose name starts with "all" cannot be referred to: the role raises
    ValueError, as for a reference of no known form. *)
Lemma gitlab_role_rejects_all_users u rawtext lineno options :
  u <> [] -> all user_char u ->
  gitlab_role rawtext ($"@all" ++ u) lineno options = Raise ValueError.
Proof.
  intros Hne Hu. change ($"@all" ++ u) with (64%N :: $"all" ++ u). set (v := $"all" ++ u).
  assert (Hv : all user_char v) by (apply Forall_app; split; [by repeat constructor|done]).
  unfold gitlab_role. rewrite titled_none.
  - unfold expand_gitlab_shortlink. cbn [omap list_omap short_link_formats fst snd].
    destruct (at_text_others v Hv) as (-> & -> & ->). rewrite !re_match_none; [done| |]; intros m.
    + intros (r & E & Hr)%all_shape. change (64%N :: v) with ($"@all" ++ u) in E. apply app_inv_head in E as ->.
      destruct Hr as [->| ->]; [done|]. by apply Forall_inv in Hu.
    + intros (s1 & (c & t & E & _ & ->) & s2 & [Hno _] & _)%re_match_den. cbn in E. injection E as <- <-.
      eapply Hno, (den_rlit_intro _ _ u). done.
  - apply not_elem_of_cons. split; [done|]. by apply (all_not_in user_char).
Qed.

(** C22. The role on a reference of a form it documents (a user, everyone, a project,
    an issue, merge request, snippet or milestone, a commit or a range of commits,
    the last two groups with or without name space and project), alone or behind a
    title in angle brackets, gives one link, to the page of the object, with the
    reference or the title as its text, and no message.  This holds of user names
    that do not start with "all" and of numbers below ten million: a longer number
    behind a project can also be read as a range of commits.  A reference to any
    other user whose name starts with "all" raises ValueError. *)
Theorem gitlab_role_links r rawtext title lineno options :
  ref_ok r -> 60%N ∉ print_ref r -> all not_angle title ->
  let url := $"https://gitlab.com/" +:+ page $"tezos" $"tezos" r in
  gitlab_role rawtext (print_ref r) lineno options = Ok ([Reference rawtext (print_ref r) url options], [])
  /\ gitlab_role rawtext (title ++ $"<" ++ print_ref r ++ $">") lineno options
     = Ok ([Reference rawtext title url options], [])
  /\ forall u, u <> [] -> all user_char u -> gitlab_role rawtext ($"@all" ++ u) lineno options = Raise ValueError.
Proof.
  intros Hok Hlt Ht. split; [|split].
  - unfold gitlab_role. rewrite titled_none by done. by rewrite expand_reference.
  - unfold gitlab_role. destruct (titled_match title (print_ref r) Ht Hlt) as (m & -> & -> & ->).
    by rewrite expand_reference.
  - intros u. apply gitlab_role_rejects_all_users.
Qed.

End Roles.

Lemma gitlab_role_links_witness :
  let r := Object (Some $"nomadic-labs") (Some $"data-encoding") 33 42 in
  print_ref r = $"nomadic-labs/data-encoding!42"
  /\ gitlab_role (U := ascii_only_ucd) [] (print_ref r) 7 []
     = Ok ([Reference [] $"nomadic-labs/data-encoding!42"
              $"https://gitlab.com/nomadic-labs/data-encoding/-/merge_requests/42" []], [])
  /\ gitlab_role (U := ascii_only_ucd) [] ($"this MR " ++ $"<" ++ print_ref r ++ $">") 7 []
     = Ok ([Reference [] $"this MR " $"https://gitlab.com/nomadic-labs/data-encoding/-/merge_requests/42" []], [])
  /\ gitlab_role (U := ascii_only_ucd) [] $"@allan" 7 [] = Raise ValueError.
Proof.
  split; [reflexivity|].
  destruct (gitlab_role_links (U := ascii_only_ucd) (Object (Some $"nomadic-labs") (Some $"data-encoding") 33 42) []
    $"this MR " 7 []) as (H1 & H2 & H3).
  - split; [|split]; [split; [done|]; by repeat constructor..|]. split; [reflexivity|lia].
  - by apply (bool_decide_eq_true_1 (60%N ∉ _)).
  - by repeat constructor.
  - split; [exact H1|]. split; [exact H2|]. apply (H3 $"an"); [done|by repeat constructor].
Defined.

(** The dots of the pattern of commit ranges match any character, so a reference
    to a merge request can also be read as a range of commits. *)
Example ambiguous_reference :
  expand_gitlab_shortlink (U := ascii_only_ucd) $"deadbeef!1012345678" $"tezos" $"tezos"
  = [$"https://gitlab.com/tezos/deadbeef/-/merge_requests/1012345678";
     $"https://gitlab.com/tezos/tezos/-/compare/deadbeef!1012345678"].
Proof. vm_compute. reflexivity. Qed.
