(* ===== verification/PackageRoles.v ===== *)
(** * Roles for packages and source files (docs/_extensions/tezos_custom_roles.py)

    Links to the pages and sources of opam packages and to files of the
    repository.  The roles look at the file system: besides [OS], the walk over a
    directory tree and the existence of a path are the parameter [FS]. *)

From Stdlib Require Import ZArith Lia.
From stdpp Require Import base tactics list strings numbers.
From S2P Require Import Prelude PyStr PyExc PyRe PyDict PyFloat PyIO DocsRoles.

Local Open Scope Z_scope.
Local Open Scope py_scope.

(** [os.walk]: directories with their subdirectories and files, and
    [Path.exists]. *)
Class FS := {
  os_walk : trace -> str -> list (str * list str * list str);
  os_exists : trace -> str -> bool
}.

(** [s.replace(old, new)]: occurrences from left to right, not overlapping. *)
Fixpoint replace_loop (fuel : nat) (old new s : str) : str :=
  match fuel with
  | O => s
  | S n =>
      if startswith old s then new ++ replace_loop n old new (drop (length old) s)
      else match s with [] => [] | c :: r => c :: replace_loop n old new r end
  end.

Definition replace (old new s : str) : str :=
  match old with
  | [] => new ++ concat (map (fun c => c :: new) s)
  | _ => replace_loop (S (length s)) old new s
  end.

Fixpoint env_get (env : environ) (k d : str) : str :=
  match env with
  | [] => d
  | (k', v) :: r => if bool_decide (k' = k) then v else env_get r k d
  end.

Definition TEZOS_HOME : str := $"../".

Section Roles.
Context {U : UCD} {o : OS} {fs : FS}.
Abbreviation IO := (M ()).

(** ** Operations *)

(** The first directory of the walk that has the opam file of the package. *)
Fixpoint find_in_walk (name : str) (walk : list (str * list str * list str)) : option str :=
  match walk with
  | [] => None
  | (path, _, files) :: r =>
      if bool_decide (name +:+ $".opam" ∈ files) then Some (lstrip_chars $"../" path) else find_in_walk name r
  end.

Definition find_dot_opam (name : str) : IO str :=
  walk ← ask (fun t => os_walk t $"..");
  lift (or_raise ValueError (find_in_walk name walk)).

Definition environ_get (k d : str) : IO str := ask (fun t => env_get (os_environ t) k d).

(** [current_source.replace(os.getcwd(), '').count('/')] *)
Definition rel_level (current_source : str) : IO nat :=
  ask (fun t => count_char 47 (replace (os_getcwd t) [] current_source)).

(** The library and the text of a role: [lib<text>], or one text for both. *)
Definition lib_and_text (text : str) : str * str :=
  match re_match titled2_pat text with
  | Some parts => (group_text 1 parts, group_text 2 parts)
  | None => (text, text)
  end.

Fixpoint up (n : nat) (url : str) : str := match n with O => url | S k => up k ($"../" +:+ url) end.

Definition package_role (name rawtext text current_source : str) (options : list (str * str)) :
    IO (list node * list message) :=
  rel_lvl ← rel_level current_source;
  let '(lib, text) := lib_and_text text in
  src ← find_dot_opam lib;
  branch ← environ_get $"CI_COMMIT_REF_NAME" $"master";
  project_url ← environ_get $"CI_PROJECT_URL" $"https://gitlab.com/tezos/tezos";
  let src_url := project_url +:+ $"/tree/" +:+ branch +:+ $"/" +:+ src in
  let Lib := capitalize (replace_char 45 95 lib) in
  generated ← isdir ($"_build/api/odoc/_html/" +:+ lib);
  url ← (if generated : bool then
           inner ← isdir (path_join $"_build" [$"api"; $"odoc"; $"_html"; lib; Lib]);
           let lib := if inner : bool then lib +:+ $"/" +:+ Lib else lib in
           mret (up (rel_lvl - 1) ($"api/api-inline.html#" +:+ lib +:+ $"/index.html"))
         else mret src_url);
  node ← (if bool_decide (name = $"package") then mret (Reference rawtext text url options)
          else if bool_decide (name = $"package-name") then mret (Literal text text)
          else if bool_decide (name = $"package-src") then mret (Reference rawtext src src_url options)
          else raise UnboundLocalError);
  mret ([node], []).

(** ['([^.]+)[.].* '] *)
Definition tagged_pat : regex :=
  rseqs [RGroup 1 (rplus (RChar (fun c => negb (c =? 46)%N))); ch 46; rstar dot].

Definition opam_role (rawtext text : str) (options : list (str * str)) : IO (list node * list message) :=
  let '(lib, text) := lib_and_text text in
  let url :=
    match re_match tagged_pat lib with
    | Some tagged => $"https://opam.ocaml.org/packages/" +:+ group_text 1 tagged +:+ $"/" +:+ lib
    | None => $"https://opam.ocaml.org/packages/" +:+ lib
    end in
  mret ([Reference rawtext text url options], []).

Definition src_role (rawtext text : str) (lineno : Z) (options : list (str * str)) :
    IO (list node * list message) :=
  let '(text, src) := lib_and_text text in
  exists_ ← ask (fun t => os_exists t (path_join TEZOS_HOME [src]));
  let msg := if exists_ : bool then []
             else [WarningMessage ($"source file " +:+ src +:+ $" does not exist in the repo") lineno] in
  branch ← environ_get $"CI_COMMIT_REF_NAME" $"master";
  project_url ← environ_get $"CI_PROJECT_URL" $"https://gitlab.com/tezos/tezos";
  is_file ← isfile (path_join TEZOS_HOME [src]);
  let url := project_url +:+ (if is_file : bool then $"/-/blob/" else $"/-/tree/") +:+ branch +:+ $"/" +:+ src in
  mret ([Reference rawtext text url options], msg).

(** ** Links between pages *)

Lemma replace_loop_none fuel old new s : contains old s = false -> replace_loop fuel old new s = s.
Proof.
  revert s. induction fuel as [|n IH]; intros s H; [done|]. cbn [replace_loop].
  destruct s as [|c r]; cbn [contains] in H; apply orb_false_iff in H as [-> Hr]; [done|]. by rewrite IH.
Qed.

Lemma replace_prefix old rest : old <> [] -> contains old rest = false -> replace old [] (old ++ rest) = rest.
Proof.
  intros Hne Hno. unfold replace. destruct old as [|c old]; [done|].
  cbn [replace_loop]. rewrite startswith_app, drop_app_length. by apply replace_loop_none.
Qed.

(** The document in the directories [dirs] of the documentation. *)
Definition source_path (cwd : str) (dirs : list str) (file : str) : str :=
  cwd ++ concat (map (fun d => $"/" ++ d) (dirs ++ [file])).

Lemma count_char_app c s1 s2 : count_char c (s1 ++ s2) = (count_char c s1 + count_char c s2)%nat.
Proof. unfold count_char. by rewrite list.filter_app, length_app. Qed.

Lemma count_char_none c s : c ∉ s -> count_char c s = 0%nat.
Proof.
  unfold count_char. induction s as [|d s IH]; intros H; [done|]. apply not_elem_of_cons in H as [Hc Hs].
  rewrite filter_cons_False by congruence. auto.
Qed.

Lemma count_slashes l : Forall (fun d => 47%N ∉ d) l -> count_char 47 (concat (map (fun d => $"/" ++ d) l)) = length l.
Proof.
  induction 1 as [|d l Hd _ IH]; [done|]. cbn [map concat length].
  rewrite !count_char_app, IH, (count_char_none 47 d) by done. reflexivity.
Qed.

(** Following a relative link from a page in the directories [dirs]. *)
Fixpoint follow (dirs : list str) (url : str) : list str * str :=
  match dirs with
  | [] => ([], url)
  | _ :: rest => if startswith $"../" url then follow rest (drop 3 url) else (dirs, url)
  end.

Lemma up_snoc n url : up (S n) url = $"../" +:+ up n url.
Proof. revert url. induction n as [|n IH]; intros url; [done|]. cbn [up] in *. by rewrite IH. Qed.

Lemma follow_up dirs url : follow dirs (up (length dirs) url) = ([], url).
Proof.
  induction dirs as [|d dirs IH]; [done|]. cbn [length follow]. rewrite up_snoc, startswith_app.
  by change (drop 3 ($"../" +:+ ?x)) with x.
Qed.

Lemma rel_level_source t cwd dirs file s :
  os_getcwd t = cwd -> cwd <> [] -> Forall (fun d => 47%N ∉ d) (dirs ++ [file]) ->
  contains cwd (concat (map (fun d => $"/" ++ d) (dirs ++ [file]))) = false ->
  rel_level (source_path cwd dirs file) s t = (Ok (S (length dirs)), s, t).
Proof.
  intros Hcwd Hne Hf Hno. unfold rel_level, ask. rewrite Hcwd. unfold source_path.
  rewrite replace_prefix, count_slashes by done. rewrite length_app. cbn. by rewrite Nat.add_comm.
Qed.

(** C33. From whatever directory of the documentation a page refers to a package
    whose API pages were generated, the link leads to the page of the package below
    the root of the documentation. *)
Theorem package_role_reaches_api rawtext lib cwd dirs file options t path :
  re_match titled2_pat lib = None ->
  os_getcwd t = cwd -> cwd <> [] -> Forall (fun d => 47%N ∉ d) (dirs ++ [file]) ->
  contains cwd (concat (map (fun d => $"/" ++ d) (dirs ++ [file]))) = false ->
  find_in_walk lib (os_walk t $"..") = Some path ->
  os_isdir t ($"_build/api/odoc/_html/" +:+ lib) = true ->
  let Lib := capitalize (replace_char 45 95 lib) in
  let page := if os_isdir t (path_join $"_build" [$"api"; $"odoc"; $"_html"; lib; Lib])
              then lib +:+ $"/" +:+ Lib else lib in
  exists url, package_role $"package" rawtext lib (source_path cwd dirs file) options () t
    = (Ok ([Reference rawtext lib url options], []), (), t)
    /\ follow (rev dirs) url = ([], $"api/api-inline.html#" +:+ page +:+ $"/index.html").
Proof.
  intros Hlib Hcwd Hne Hf Hno Hwalk Hdir. unfold package_role.
  unfold mbind, M_bind. rewrite rel_level_source by done. unfold lib_and_text. rewrite Hlib.
  unfold find_dot_opam, environ_get, isdir, ask, lift, mbind, M_bind. rewrite Hwalk, Hdir. cbn [or_raise].
  rewrite bool_decide_eq_true_2 by done. cbn [mret M_ret Nat.sub].
  rewrite Nat.sub_0_r, <- (length_rev dirs). eexists. split; [reflexivity|]. apply follow_up.
Qed.

End Roles.

(** A documentation tree with one package. *)
Definition docs_os : OS :=
  {| os_isfile _ _ := false; os_isdir _ p := bool_decide (p = $"_build/api/odoc/_html/tezos-base"); os_environ _ := [];
     os_run _ _ _ _ := Raise OSError; os_spawn _ _ _ _ := Raise OSError;
     os_poll _ _ := None; os_wait _ _ _ := None; os_mkdtemp _ _ := Raise OSError;
     os_tempfile _ := Raise OSError; os_rmtree _ _ := Raise OSError;
     os_read _ _ := Raise OSError; os_write _ _ _ := Raise OSError;
     os_http _ _ _ _ := Raise OSError; os_utcnow _ := 0; os_getcwd _ := $"/tezos/docs";
     os_listdir _ _ := Raise OSError; os_exec _ _ _ _ := Raise OSError |}.

Definition docs_fs : FS :=
  {| os_walk _ _ := [($"..", [$"src"], []); ($"../src/lib_base", [], [$"dune"; $"tezos-base.opam"])];
     os_exists _ _ := false |}.

Lemma package_role_reaches_api_witness :
  exists url, package_role (U := ascii_only_ucd) (o := docs_os) (fs := docs_fs) $"package" $":package:" $"tezos-base"
    (source_path $"/tezos/docs" [$"developer"; $"old"] $"intro.rst") [] () []
    = (Ok ([Reference $":package:" $"tezos-base" url []], []), (), [])
    /\ follow (rev [$"developer"; $"old"]) url = ([], $"api/api-inline.html#tezos-base/index.html").
Proof.
  apply (package_role_reaches_api (U := ascii_only_ucd) (o := docs_os) (fs := docs_fs)
    $":package:" $"tezos-base" $"/tezos/docs" [$"developer"; $"old"] $"intro.rst" [] [] $"src/lib_base").
  1,2,5,6,7: vm_compute; reflexivity.
  - discriminate.
  - by apply (bool_decide_eq_true_1 (Forall _ _)).
Defined.

(** The hidden directories of a path lose their dots. *)
Example find_dot_opam_hidden :
  find_in_walk $"x" [($"../.build/x", [], [$"x.opam"])] = Some $"build/x".
Proof. vm_compute. reflexivity. Qed.
