(* ===== verification/DocsConf.v ===== *)
(** * The configuration of the documentation (docs/conf.py)

    The values Sphinx reads, in the order of the file.  The names of the extensions are
    the modules of [Michelson], [DocsRoles] and [PackageRoles]. *)

From Stdlib Require Import ZArith Lia.
From stdpp Require Import base tactics list strings numbers.
From S2P Require Import Prelude PyStr PyExc PyRe PyDict PyFloat PyTime PyIO DocsRoles PackageRoles.

Local Open Scope Z_scope.
Local Open Scope py_scope.

(** [sys.path] with the directory of the extensions in front *)
Definition sys_path {o : OS} (path : list str) : M () (list str) :=
  cwd ← ask os_getcwd; mret ((cwd +:+ $"/_extensions") :: path).

Definition extensions : list str := [$"sphinx.ext.extlinks"; $"tezos_custom_roles"; $"michelsonlexer"].
Definition templates_path : list str := [$"_templates"].
Definition source_suffix : str := $".rst".
Definition master_doc : str := $"index".
Definition project : str := $"Tezos".
Definition author : str := $"Nomadic Labs <contact@nomadic-labs.com>".
Definition copyright : str := $"2018-2021, Nomadic Labs <contact@nomadic-labs.com>".

Definition exclude_patterns : list str :=
  [$".venv"; $"_build"; $"Thumbs.db"; $".DS_Store"; $"doc_gen"; $"011"].

Definition version {o : OS} : M () str := environ_get $"CI_COMMIT_REF_NAME" $"local".

(** [datetime.now().strftime(" %Y/%m/%d %H:%M)")] of the local time in seconds *)
Definition stamp (now : Z) : str :=
  let '(y, m, d) := civil_from_days (now / 86400) in
  let s := now mod 86400 in
  $" " +:+ str_int y +:+ $"/" +:+ pad_digits 2 m +:+ $"/" +:+ pad_digits 2 d +:+ $" "
  +:+ pad_digits 2 (s / 3600) +:+ $":" +:+ pad_digits 2 (s / 60 mod 60) +:+ $")".

Definition release {o : OS} (now : Z) : M () str :=
  version ← version;
  mret ($"(" +:+ version +:+ $" branch, " +:+ stamp now).

Definition language : option str := None.
Definition pygments_style : str := $"sphinx".
Definition highlight_language : str := $"none".
Definition todo_include_todos : bool := false.

(** ** The output formats *)

Definition html_theme : str := $"sphinx_rtd_theme".
Definition html_theme_options : list (str * bool) := [($"logo_only", true)].
Definition html_logo : str := $"logo.svg".
Definition html_static_path : list str := [$"_static"].
Definition html_css_files : list str := [$"css/custom.css"].
Definition html_extra_path : list str := [$"404.html"; $"_redirects"].
Definition htmlhelp_basename : str := $"Tezosdoc".
Definition latex_elements : list (str * str) := [].

(** Start file, target, title, author, document class *)
Definition latex_documents : list (str * str * str * str * str) :=
  [(master_doc, $"Tezos.tex", $"Tezos Documentation",
    $"Nomadic Labs \textless{}contact@nomadic-labs.com\textgreater{}", $"manual")].

Definition man_pages : list (str * str * str * list str * Z) :=
  [(master_doc, $"tezos", $"Tezos Documentation", [author], 1)].

Definition texinfo_documents : list (str * str * str * str * str * str * str) :=
  [(master_doc, $"Tezos", $"Tezos Documentation", author, $"Tezos", $"One line description of project.",
    $"Miscellaneous")].

Definition html_domain_indices : bool := false.
Definition linkcheck_anchors : bool := false.

(** ** The check of links *)

Section Linkcheck.
Context {U : UCD}.

(** The dots of the first pattern match any character. *)
Definition linkcheck_ignore : list regex :=
  [rseqs [rlit $"https://gitlab"; dot; rlit $"com/nomadic-labs/tezos/-/merge_requests/"];
   rseqs [rlit $"http"; ropt (RGroup 1 (ch 115)); rlit $"://localhost:"; rplus rd; ropt (ch 47)];
   rlit $"../"].

(** Sphinx does not check a link that one of the patterns matches. *)
Definition ignored (uri : str) : bool :=
  existsb (fun r => match re_match r uri with Some _ => true | None => false end) linkcheck_ignore.

(** Of the links to API pages that the package role writes, those of the pages in
    subdirectories are left out of the check, those of the top level are not. *)
Lemma api_link_ignored n page : ignored (up n ($"api/api-inline.html#" ++ page)) = (0 <? n)%nat.
Proof.
  destruct n as [|n].
  - vm_compute. reflexivity.
  - rewrite up_snoc. vm_compute. reflexivity.
Qed.

End Linkcheck.
