(* ===== verification/OcamlDot.v ===== *)
(** * The dependency graph of modules (scripts/ocamldot.py)

    A Python 2 script: it reads every file of ocamldep output below some
    directories and prints a graph with one cluster per file.  Texts are byte
    strings.  The order in which Python 2 goes through a dictionary is the parameter
    [order], of which only that it is a permutation is used. *)

From Stdlib Require Import ZArith Lia.
From stdpp Require Import base tactics list strings numbers.
From S2P Require Import Prelude PyStr PyExc PyRe PyDict PyFloat PyIO ArgParse PackageRoles.

Local Open Scope Z_scope.
Local Open Scope py_scope.

(** ** Texts of Python 2 *)

(** [s.split()] on bytes *)
Fixpoint split_bytes_aux (cur s : str) : list str :=
  match s with
  | [] => if bool_decide (cur = []) then [] else [rev cur]
  | c :: r =>
      if ascii_space c
      then if bool_decide (cur = []) then split_bytes_aux [] r else rev cur :: split_bytes_aux [] r
      else split_bytes_aux (c :: cur) r
  end.

Definition split_bytes (s : str) : list str := split_bytes_aux [] s.

(** [s.capitalize()] on bytes *)
Definition upper_byte (c : N) : N := if ascii_lower c then (c - 32)%N else c.
Definition lower_byte (c : N) : N := if ascii_upper c then (c + 32)%N else c.
Definition capitalize_bytes (s : str) : str :=
  match s with [] => [] | c :: r => upper_byte c :: map lower_byte r end.

(** ** The script *)

Abbreviation deps_t := (list (str * list str)).

(** The two global dictionaries. *)
Record globals := Globals { alldeps : list (str * deps_t); allmodules : list (str * str) }.

Definition slash_prefix : regex := RSeq (rstar dot) (ch 47).
Definition other_chars : regex := rplus (RChar (fun c => negb (ascii_alnum c))).

Definition sanitize (s : str) : str :=
  let s := re_sub slash_prefix [] s in
  re_sub other_chars $"_" s.

Definition cleanName (s : str) : str :=
  let ml := basename s in
  let mod_ := splitext_root ml in
  capitalize_bytes mod_.

(** The body of the loop over the words of a line. *)
Definition add_dep (modulename first word : str) (st : deps_t * list (str * str)) : deps_t * list (str * str) :=
  let '(dictionary, allmodules) := st in
  let mod_ := cleanName first in
  let dep := sanitize word in
  let dictionary := match dget mod_ dictionary with
                    | Some l => dset mod_ (l ++ [dep]) dictionary
                    | None => dset mod_ [dep] dictionary
                    end in
  (dictionary, dset mod_ modulename allmodules).

(** The body of the loop over the lines. *)
Definition mangle_line (modulename : str) (st : deps_t * list (str * str)) (line : str) : deps_t * list (str * str) :=
  match split_bytes line with
  | first :: _ :: words => fold_left (fun st word => add_dep modulename first word st) words st
  | _ => st
  end.

Definition mangle_text (modulename text : str) (g : globals) : globals :=
  let '(dictionary, modules) := fold_left (mangle_line modulename) (file_lines text) ([], allmodules g) in
  Globals (dset modulename dictionary (alldeps g)) modules.

Section Script.
Context {o : OS} {fs : FS}.
Abbreviation GM := (M globals).

Definition mangle (f modulename : str) : GM () :=
  text ← read_file f;
  modify (mangle_text modulename text).

Definition cleanup_dict (modules : list (str * str)) (dictionary : deps_t) : deps_t :=
  map (fun '(mod_, deps) => (mod_, List.filter (fun x => dmem x modules) deps)) dictionary.

(** References to external libraries removed. *)
Definition cleanup (g : globals) : list (str * deps_t) :=
  map (fun '(name, dictionary) => (name, cleanup_dict (allmodules g) dictionary)) (alldeps g).

Context (order : forall V, list (str * V) -> list (str * V)).

Definition quoted (s : str) : str := [dquote] ++ s ++ [dquote].

Definition edge (mod_ dep : str) : str := quoted mod_ +:+ $" -> " +:+ quoted dep +:+ $";".

Definition edges (dictionary : deps_t) : list str :=
  flat_map (fun '(mod_, deps) => map (edge mod_) (List.filter (fun dep => dmem dep dictionary) deps))
    (order _ dictionary).

Definition cluster (l : list (str * Z)) (name : str) (dictionary : deps_t) : list str :=
  if bool_decide (dictionary = []) then []
  else [$"subgraph cluster_" +:+ str_int (default 0 (dget name l)) +:+ $" { label = " +:+ quoted name
          +:+ $"; color=blue; node [style=filled];"]
       ++ edges dictionary ++ [$"}"].

(** The number of every name in the order of the dictionary. *)
Definition numbers (deps : list (str * deps_t)) : list (str * Z) :=
  imap (fun i x => (x, Z.of_nat i)) (map fst (order _ deps)).

Definition graph_lines (deps : list (str * deps_t)) : list str :=
  [$"strict digraph G {";
   $"graph [fontsize=10 fontname=" +:+ quoted $"Verdana" +:+ $"];";
   $"node [shape=record fontsize=10 fontname=" +:+ quoted $"Verdana" +:+ $" compound=true];"]
  ++ flat_map (fun '(name, dictionary) => cluster (numbers deps) name dictionary) (order _ deps)
  ++ [$"}"].

Definition print_graph (deps : list (str * deps_t)) : GM () := for_ (graph_lines deps) print_.

Definition ext : str := $".depends.ocamldep-output".

Definition scan (directories : list str) : GM () :=
  for_ directories (fun directory =>
    walk ← ask (fun t => os_walk t directory);
    for_ walk (fun '(root, _, files) =>
      for_ files (fun f =>
        when (endswith ext f)
          (mangle (path_join root [f]) (slice None (Some (- Z.of_nat (length ext))) f)))));;
  g ← get;
  let cleaned := cleanup g in
  modify (fun g => Globals cleaned (allmodules g));;
  print_graph cleaned.

(** [scan(args.inputdirs)] *)
Definition main (inputdirs : list str) : M () () :=
  on_new (Globals [] []) (scan inputdirs);; mret ().

Definition ocamldot_parser : parser := ArgumentParser [] [] (Some $"inputdirs").

Definition ocamldot_command {U : UCD} {msg : Messages} (argv : list str) : M () () :=
  args ← parse_args ocamldot_parser argv;
  inputdirs ← lift (attr $"inputdirs" args);
  match inputdirs with VList l => main l | _ => raise TypeError end.

End Script.

(** ** Names *)

(** Every run of characters other than ASCII letters and digits becomes one
    underscore. *)
Fixpoint underscored_from (in_run : bool) (s : str) : str :=
  match s with
  | [] => []
  | c :: r =>
      if ascii_alnum c then c :: underscored_from false r
      else if in_run then underscored_from true r
      else 95%N :: underscored_from true r
  end.

Definition underscored : str -> str := underscored_from false.

Section Sanitize.
Abbreviation other := (fun c => negb (ascii_alnum c)).

Lemma span_class (p : N -> bool) (s : str) : exists w t, s = w ++ t /\ Forall (fun c => p c = true) w /\ PyRe.stops p t.
Proof.
  induction s as [|c s (w & t & -> & Hw & Ht)]; [by exists [], []|]. destruct (p c) eqn:E.
  - exists (c :: w), t. split_and!; [done|by constructor|done].
  - exists [], (c :: w ++ t). by split_and!.
Qed.

Lemma underscored_alnum u s : Forall (fun c => ascii_alnum c = true) u ->
  underscored_from false (u ++ s) = u ++ underscored_from false s.
Proof. induction 1 as [|c u Hc Hu IH]; [done|]. cbn [app underscored_from]. by rewrite Hc, IH. Qed.

Lemma underscored_run w t : Forall (fun c => other c = true) w -> PyRe.stops other t ->
  underscored_from true (w ++ t) = underscored_from false t.
Proof.
  induction 1 as [|c w Hc%negb_true_iff _ IH]; intros Ht; cbn [app underscored_from].
  - destruct t as [|c t]; [done|]. cbn in Ht |- *. apply negb_false_iff in Ht. by rewrite Ht.
  - rewrite Hc. by apply IH.
Qed.

(** Characters at which the pattern does not match are passed over. *)
Lemma search_skip r u : forall b a,
  (forall u1 c u2, u = u1 ++ c :: u2 -> match_here false r (St (rev u1 ++ b) (c :: u2 ++ a) []) = None) ->
  search_at r false b (u ++ a) = search_at r false (rev u ++ b) a.
Proof.
  induction u as [|c u IH]; intros b a H; [done|]. cbn [app search_at]. pose proof (H [] c u eq_refl) as H0.
  cbn [rev app] in H0. rewrite H0, IH; [cbn [rev]; by rewrite <- app_assoc|].
  intros u1 d u2 ->. specialize (H (c :: u1) d u2 eq_refl). cbn [rev] in H. by rewrite <- app_assoc in H.
Qed.

Lemma search_here r b a s' : match_here false r (St b a []) = Some s' ->
  search_at r false b a = Some (MObj (St b a []) s').
Proof. intros H. destruct a; cbn [search_at]; by rewrite H. Qed.

Lemma take_prefix (u a : str) : take (length (u ++ a) - length a) (u ++ a) = u.
Proof. rewrite length_app, Nat.add_sub. by rewrite take_app_length. Qed.

Lemma sub_other fuel : forall b a, (length a < fuel)%nat ->
  sub_loop fuel other_chars (fun _ => $"_") false b a = underscored a.
Proof.
  induction fuel as [|fuel IH]; intros b a Hf; [lia|]. cbn [sub_loop].
  destruct (span_class ascii_alnum a) as (u & a' & -> & Hu & Ha).
  unfold underscored. rewrite underscored_alnum by done.
  rewrite (search_skip other_chars u b a').
  2:{ intros u1 c u2 ->. assert (Hc : ascii_alnum c = true)
        by (apply (proj1 (List.Forall_forall _ _) Hu), in_app_iff; right; by left). unfold match_here, other_chars, rplus.
      cbn [mt after]. by rewrite Hc. }
  destruct (span_class other a') as (w & t & -> & Hw & Ht). destruct w as [|c w].
  { destruct t as [|c t]; [|exfalso; cbn in Ha, Ht; by rewrite Ha in Ht].
    done. }
  assert (Hm : match_here false other_chars (St (rev u ++ b) ((c :: w) ++ t) [])
    = Some (skip (c :: w) t (St (rev u ++ b) ((c :: w) ++ t) []))).
  { unfold match_here, other_chars. by apply (mt_plus_run other _ (c :: w) t). }
  rewrite (search_here _ _ _ _ Hm). cbn [m_start m_end after].
  rewrite take_prefix. unfold progress at 1. cbn [skip after].
  replace (length t <? length ((c :: w) ++ t))%nat with true by (symmetry; apply Nat.ltb_lt; cbn; rewrite length_app; lia).
  cbn [negb]. rewrite IH by (rewrite !length_app in Hf; cbn in Hf; lia).
  inversion Hw as [|? ? Hc Hw']; subst. cbn [app underscored_from]. apply negb_true_iff in Hc. rewrite Hc.
  by rewrite underscored_run.
Qed.

Lemma split_on_last u v : 47%N ∉ v -> exists l, l <> [] /\ split_on 47 (u ++ 47%N :: v) = l ++ [v].
Proof.
  intros Hv. induction u as [|c u (l & Hl & IH)].
  - exists [[]]. split; [done|]. cbn. by rewrite split_on_no_sep.
  - cbn [app split_on]. rewrite IH. destruct (c =? 47)%N.
    + by exists ([] :: l).
    + destruct l as [|w l]; [done|]. by exists ((c :: w) :: l).
Qed.

Lemma basename_last u v : 47%N ∉ v -> basename (u ++ 47%N :: v) = v.
Proof. intros Hv. unfold basename. destruct (split_on_last u v Hv) as (l & _ & ->). apply List.last_last. Qed.

Lemma last_slash s : 47%N ∉ s \/ exists u v, s = u ++ 47%N :: v /\ 47%N ∉ v.
Proof.
  induction s as [|c s [H|(u & v & -> & Hv)]]; [left; apply not_elem_of_nil| |right; by exists (c :: u), v].
  destruct (decide (c = 47%N)) as [->|]; [right; by exists [], s|left]. by apply not_elem_of_cons.
Qed.

Lemma slash_free_keeps s b : 47%N ∉ s -> search_at slash_prefix false b s = None.
Proof.
  intros Hs. destruct (search_at slash_prefix false b s) as [m|] eqn:E; [|done]. exfalso.
  apply search_at_Some in E as (w & t & -> & Hm & (s1 & D & (c & t' & E & Hc%N.eqb_eq & _)) & _).
  rewrite Hm in D. apply den_star_class in D as (w' & Ew & _). cbn [after] in Ew.
  apply Hs. rewrite Ew, E, Hc. apply elem_of_app. right. apply elem_of_app. right. by left.
Qed.

(** Everything up to the last slash is dropped. *)
Lemma sub_slash s : nl ∉ s -> re_sub slash_prefix [] s = basename s.
Proof.
  intros Hnl. unfold re_sub, re_sub_fun. destruct (last_slash s) as [Hs|(u & v & -> & Hv)].
  - replace (2 * length s + 2)%nat with (Datatypes.S (2 * length s + 1)) by lia. cbn [sub_loop].
    rewrite slash_free_keeps by done. unfold basename. by rewrite split_on_no_sep.
  - set (s := u ++ 47%N :: v). set (n := (2 * length s)%nat).
    replace (n + 2)%nat with (Datatypes.S (Datatypes.S n)) by lia. cbn [sub_loop].
    assert (Hm : match_here false slash_prefix (St [] s []) = Some (skip (u ++ [47%N]) v (St [] s []))).
    { unfold match_here, slash_prefix. cbn [mt]. apply (mt_star_longest _ _ u (47%N :: v)); [done| | |].
      - apply Forall_forall. intros c Hc. apply negb_true_iff, N.eqb_neq. intros ->. apply Hnl.
        apply elem_of_app. left. by apply list_elem_of_In.
      - intros x y E Hx _. cbn [mt ch after skip]. destruct y as [|c y]; [done|].
        destruct (N.eqb_spec 47 c) as [<-|]; [|done]. exfalso. apply Hv. destruct x as [|d x]; [done|].
        injection E as _ ->. apply elem_of_app. right. by left.
      - unfold skip. cbn. by rewrite rev_app_distr. }
    assert (Hp : progress (St [] s []) (skip (u ++ [47%N]) v (St [] s [])) = true).
    { apply Nat.ltb_lt. unfold s. cbn. rewrite length_app. cbn. lia. }
    rewrite (search_here _ _ _ _ Hm). cbn [m_start m_end]. rewrite Hp. cbn [negb skip before after].
    rewrite slash_free_keeps by done. rewrite Nat.sub_diag. unfold s. by rewrite basename_last.
Qed.

Lemma sanitize_name s : nl ∉ s -> sanitize s = underscored (basename s).
Proof.
  intros H. unfold sanitize. rewrite sub_slash by done. apply sub_other. lia.
Qed.
End Sanitize.

(** ** What the graph shows *)

(** A line of the file that starts with the name of [mod_] has a word, behind the
    first two, that names [dep]. *)
Definition depends_in (lines : list str) (mod_ dep : str) : Prop :=
  exists line first second words w, line ∈ lines /\ split_bytes line = first :: second :: words /\ w ∈ words
    /\ mod_ = cleanName first /\ dep = sanitize w.

Definition edge_in (dictionary : deps_t) (mod_ dep : str) : Prop :=
  exists deps, dget mod_ dictionary = Some deps /\ dep ∈ deps.

(** The same with the names spelled out: a module is the file name without its
    extension, capitalized; a dependency is the last component of the word. *)
Definition names_in (lines : list str) (mod_ dep : str) : Prop :=
  exists line first second words w, line ∈ lines /\ split_bytes line = first :: second :: words /\ w ∈ words
    /\ mod_ = capitalize_bytes (splitext_root (basename first)) /\ dep = underscored (basename w).

Lemma split_bytes_aux_words cur s : nl ∉ cur -> forall w, w ∈ split_bytes_aux cur s -> nl ∉ w.
Proof.
  assert (Hrev : forall x : str, nl ∉ x -> nl ∉ rev x) by (intros x Hx Hin; apply Hx; rewrite list_elem_of_In in *; by apply in_rev).
  revert cur. induction s as [|c s IH]; intros cur Hcur w; cbn [split_bytes_aux].
  - case_bool_decide; [by intros ?%elem_of_nil|]. intros ->%list_elem_of_singleton. by apply Hrev.
  - destruct (ascii_space c) eqn:E.
    + case_bool_decide; [apply IH, not_elem_of_nil|].
      intros [->|Hw]%elem_of_cons; [by apply Hrev|]. by apply (IH [] (not_elem_of_nil nl)).
    + apply IH. apply not_elem_of_cons. split; [|done]. by intros <-.
Qed.

Lemma depends_names lines m dep : depends_in lines m dep <-> names_in lines m dep.
Proof.
  unfold depends_in, names_in.
  assert (H : forall line first second words w, split_bytes line = first :: second :: words -> w ∈ words ->
    sanitize w = underscored (basename w)).
  { intros line first second words w E Hw. apply sanitize_name.
    apply (split_bytes_aux_words [] line (not_elem_of_nil nl)). unfold split_bytes in E. rewrite E.
    right. by right. }
  split; intros (line & first & second & words & w & H1 & H2 & H3 & -> & ->); exists line, first, second, words, w;
    (split_and!; [done..|]); [|symmetry]; by eapply H.
Qed.

Lemma dmem_dset {V} (k k' : str) (v : V) d : dmem k (dset k' v d) = bool_decide (k = k') || dmem k d.
Proof. unfold dmem. rewrite dget_dset. case_decide; case_bool_decide; by subst. Qed.

Lemma edge_in_dset d k l m dep : edge_in (dset k l d) m dep <-> (m = k /\ dep ∈ l) \/ (m <> k /\ edge_in d m dep).
Proof. unfold edge_in. setoid_rewrite dget_dset. case_decide; naive_solver. Qed.

Lemma add_dep_edges name first w d mods m dep :
  edge_in (add_dep name first w (d, mods)).1 m dep <->
  edge_in d m dep \/ (m = cleanName first /\ dep = sanitize w).
Proof.
  unfold add_dep. destruct (dget (cleanName first) d) as [l|] eqn:E; cbn [fst].
  - rewrite edge_in_dset, elem_of_app, list_elem_of_singleton. unfold edge_in.
    destruct (decide (m = cleanName first)) as [->|]; [rewrite E|]; naive_solver.
  - rewrite edge_in_dset, list_elem_of_singleton. unfold edge_in.
    destruct (decide (m = cleanName first)) as [->|]; [rewrite E|]; naive_solver.
Qed.

(** The dictionary is well formed, its lists are not empty and its modules are
    recorded, beside those recorded before. *)
Definition sound (modules0 : list (str * str)) (st : deps_t * list (str * str)) : Prop :=
  (forall m l, dget m st.1 = Some l -> l <> []) /\ wf_dict st.1
  /\ (forall m, dmem m st.1 = true -> dmem m st.2 = true) /\ (forall m, dmem m modules0 = true -> dmem m st.2 = true).

(** The dictionary after some lines. *)
Definition mangled (lines : list str) (modules0 : list (str * str)) (st : deps_t * list (str * str)) : Prop :=
  (forall m dep, edge_in st.1 m dep <-> depends_in lines m dep) /\ sound modules0 st.

Lemma add_dep_sound name first w modules0 st : sound modules0 st -> sound modules0 (add_dep name first w st).
Proof.
  destruct st as [d mods]. intros (Hne & Hwf & Hk & Hg). cbn [fst snd] in *. unfold add_dep.
  assert (H : forall l, l <> [] -> sound modules0 (dset (cleanName first) l d, dset (cleanName first) name mods)).
  { intros l Hl. unfold sound. cbn [fst snd]. split_and!.
    - intros m l'. rewrite dget_dset. case_decide; [by intros [= <-]|apply Hne].
    - by apply wf_dset.
    - intros m. rewrite !dmem_dset, !orb_true_iff. naive_solver.
    - intros m. rewrite dmem_dset, orb_true_iff. naive_solver. }
  destruct (dget (cleanName first) d) as [l|]; apply H; [by destruct l|done].
Qed.

Lemma add_words name first words modules0 : forall st, sound modules0 st ->
  let st' := fold_left (fun st word => add_dep name first word st) words st in
  sound modules0 st' /\ forall m dep, edge_in st'.1 m dep <->
    edge_in st.1 m dep \/ exists w, w ∈ words /\ m = cleanName first /\ dep = sanitize w.
Proof.
  induction words as [|w words IH]; intros st Hst; cbn.
  - split; [done|]. intros m dep. split; [by left|]. intros [H|(w & Hw & _)]; [done|by apply elem_of_nil in Hw].
  - destruct (IH _ (add_dep_sound name first w modules0 st Hst)) as [H1 H2]. split; [done|]. intros m dep.
    rewrite H2. destruct st as [d mods]. rewrite add_dep_edges. cbn [fst]. setoid_rewrite elem_of_cons. split.
    + intros [[H|H]|(v & Hv & H)]; [by left|right; exists w; auto|right; exists v; auto].
    + intros [H|(v & [->|Hv] & H)]; [by left; left|by left; right|right; by exists v].
Qed.

Lemma mangle_line_spec name modules0 lines line st : mangled lines modules0 st ->
  mangled (lines ++ [line]) modules0 (mangle_line name st line).
Proof.
  intros [He Hst].
  assert (Hsnoc : forall m dep, depends_in (lines ++ [line]) m dep <-> depends_in lines m dep \/ depends_in [line] m dep).
  { intros m dep. unfold depends_in. setoid_rewrite elem_of_app. naive_solver. }
  assert (Hone : forall m dep, depends_in [line] m dep <->
    exists first second words w, split_bytes line = first :: second :: words /\ w ∈ words
      /\ m = cleanName first /\ dep = sanitize w).
  { intros m dep. unfold depends_in. setoid_rewrite list_elem_of_singleton. naive_solver. }
  unfold mangle_line. destruct (split_bytes line) as [|first [|second words]] eqn:E.
  1,2: split; [|done]; intros m dep; rewrite He, Hsnoc, Hone; naive_solver.
  destruct (add_words name first words modules0 st Hst) as [H1 H5]. split; [|done].
  intros m dep. rewrite H5, He, Hsnoc, Hone. naive_solver.
Qed.

Lemma mangle_lines_spec name modules0 lines : forall prev st, mangled prev modules0 st ->
  mangled (prev ++ lines) modules0 (fold_left (mangle_line name) lines st).
Proof.
  induction lines as [|line lines IH]; intros prev st Hst; cbn; [by rewrite app_nil_r|].
  change (prev ++ line :: lines) with (prev ++ [line] ++ lines). rewrite app_assoc. apply IH, mangle_line_spec, Hst.
Qed.

Lemma mangled_nil modules : mangled [] modules ([], modules).
Proof.
  split; [|by split_and!; [|constructor|..]]. intros m dep. unfold edge_in, depends_in. cbn. split; [naive_solver|].
  intros (? & ? & ? & ? & ? & H%elem_of_nil & _). done.
Qed.

(** The file [name] as it is kept in the global dictionaries. *)
Definition kept (g : globals) (name text : str) : Prop :=
  exists d, dget name (alldeps g) = Some d /\ wf_dict d
    /\ (forall m dep, edge_in d m dep <-> depends_in (file_lines text) m dep)
    /\ (forall m, dmem m d = true <-> exists dep, depends_in (file_lines text) m dep)
    /\ (forall m, dmem m d = true -> dmem m (allmodules g) = true).

Lemma mangle_text_kept name text g : kept (mangle_text name text g) name text.
Proof.
  unfold mangle_text.
  pose proof (mangle_lines_spec name _ (file_lines text) _ _ (mangled_nil (allmodules g))) as (He & Hf & Hw & Hk & Hg).
  destruct (fold_left _ _ _) as [d mods]. cbn in *. exists d. cbn. rewrite dget_dset_eq. split_and!; try done.
  intros m. split.
  - unfold dmem. destruct (dget m d) as [[|dep l]|] eqn:E; [by destruct (Hf _ _ E)| |done].
    intros _. exists dep. apply He. exists (dep :: l). split; [done|]. apply elem_of_cons. by left.
  - intros (dep & (l & Hl & _)%He). unfold dmem. by rewrite Hl.
Qed.

Lemma mangle_text_keeps name text g name' text' : name <> name' -> kept g name text ->
  kept (mangle_text name' text' g) name text.
Proof.
  intros Hne (d & Hd & Hwf & He & Hm & Hk). unfold mangle_text.
  pose proof (mangle_lines_spec name' _ (file_lines text') _ _ (mangled_nil (allmodules g))) as (_ & _ & _ & _ & Hg).
  destruct (fold_left _ _ _) as [d' mods]. cbn in *. exists d. cbn. rewrite dget_dset_ne by done.
  split_and!; try done. intros m H. by apply Hg, Hk.
Qed.

Definition collected (files : list (str * str)) (g : globals) : globals :=
  fold_left (fun g f => mangle_text f.1 f.2 g) files g.

Lemma collected_kept files : forall g, NoDup (map fst files) ->
  forall name text, (name, text) ∈ files -> kept (collected files g) name text.
Proof.
  induction files as [|[name' text'] files IH] using rev_ind; intros g Hnd name text Hin; [by apply elem_of_nil in Hin|].
  rewrite map_app in Hnd. apply list.NoDup_app in Hnd as (Hnd & Hfresh & _).
  unfold collected. rewrite fold_left_app. cbn [fold_left fst snd].
  apply elem_of_app in Hin as [Hin|Hin].
  - apply mangle_text_keeps; [|by apply IH]. intros ->. apply (Hfresh name'); [|apply elem_of_cons; by left].
    apply list_elem_of_fmap. by exists (name', text).
  - apply list_elem_of_singleton in Hin as [= -> ->]. apply mangle_text_kept.
Qed.

Lemma collected_names files g name :
  name ∈ dkeys (alldeps (collected files g)) <-> name ∈ dkeys (alldeps g) \/ name ∈ map fst files.
Proof.
  induction files as [|[name' text'] files IH] using rev_ind; [cbn; split; [by left|intros [H|H%elem_of_nil]; done]|].
  unfold collected in *. rewrite fold_left_app, map_app, elem_of_app. cbn [fold_left fst snd map].
  unfold mangle_text. destruct (fold_left (mangle_line _) _ _) as [d mods]. cbn [alldeps].
  rewrite elem_of_dkeys_dset, IH, list_elem_of_singleton. naive_solver.
Qed.

Lemma dget_map {V W} (f : V -> W) (d : list (str * V)) k :
  dget k (map (fun '(k, v) => (k, f v)) d) = f <$> dget k d.
Proof. induction d as [|[k' v] d IH]; [done|]. cbn. by case_decide. Qed.

Lemma dkeys_map {V W} (f : V -> W) (d : list (str * V)) : dkeys (map (fun '(k, v) => (k, f v)) d) = dkeys d.
Proof. unfold dkeys. induction d as [|[k v] d IH]; [done|]. cbn. by rewrite IH. Qed.

Section Graph.
Context {o : OS} {fs : FS} (order : forall V, list (str * V) -> list (str * V)).
Hypothesis Horder : forall V d, order V d ≡ₚ d.

Lemma elem_of_edges d e : wf_dict d -> e ∈ edges order d <->
  exists m dep, e = edge m dep /\ edge_in d m dep /\ dmem dep d = true.
Proof.
  intros Hwf. unfold edges. rewrite list_elem_of_In, in_flat_map. split.
  - intros ([m l] & Hin & He). apply list_elem_of_In in Hin. rewrite Horder in Hin.
    apply in_map_iff in He as (dep & <- & (Hdep & Hd)%filter_In).
    exists m, dep. split; [done|]. split; [|done]. exists l. split; [by apply elem_of_dget|by apply list_elem_of_In].
  - intros (m & dep & -> & (l & Hl & Hdep) & Hd). exists (m, l). split.
    + apply list_elem_of_In. rewrite Horder. by apply dget_elem_of.
    + apply in_map. apply filter_In. split; [by apply list_elem_of_In|done].
Qed.

(** The clean-up removes no dependency that is shown. *)
Lemma cleanup_edges g name text : kept g name text ->
  exists d, dget name (cleanup g) = Some d /\ forall e, e ∈ edges order d <->
    exists m dep, e = edge m dep /\ depends_in (file_lines text) m dep
      /\ exists dep', depends_in (file_lines text) dep dep'.
Proof.
  intros (d & Hd & Hwf & He & Hm & Hk). exists (cleanup_dict (allmodules g) d). split.
  - unfold cleanup. by rewrite dget_map, Hd.
  - intros e. unfold cleanup_dict.
    set (clean := List.filter (fun x => dmem x (allmodules g))).
    rewrite elem_of_edges by (unfold wf_dict; by rewrite (dkeys_map clean)).
    assert (Hmem : forall k, dmem k (map (fun '(k, v) => (k, clean v)) d) = dmem k d)
      by (intros k; unfold dmem; rewrite dget_map; by destruct (dget k d)).
    assert (Hedge : forall m dep, edge_in (map (fun '(k, v) => (k, clean v)) d) m dep
      <-> edge_in d m dep /\ dmem dep (allmodules g) = true).
    { intros m dep. unfold edge_in. rewrite dget_map. destruct (dget m d) as [l|]; [|naive_solver]. cbn.
      split.
      - intros (deps & [= <-] & Hin). unfold clean in Hin. rewrite list_elem_of_In, filter_In, <- list_elem_of_In in Hin.
        naive_solver.
      - intros ((deps & [= ->] & Hin) & Hall). eexists. split; [done|]. unfold clean.
        by rewrite list_elem_of_In, filter_In, <- list_elem_of_In. }
    split.
    + intros (m & dep & -> & (H1 & _)%Hedge & H2). rewrite Hmem in H2. exists m, dep.
      split; [done|]. split; [by apply He|by apply Hm].
    + intros (m & dep & -> & H1 & H2). exists m, dep. rewrite Hmem, Hedge.
      apply Hm in H2. split; [done|]. split; [|done]. split; [by apply He|by apply Hk].
Qed.

(** *** The loops of [scan] *)

Lemma for_updates {S A} (f : A -> M S ()) (h : S -> A -> S) t :
  (forall a s, f a s t = (Ok (), h s a, t)) -> forall l s, for_ l f s t = (Ok (), fold_left h l s, t).
Proof.
  intros Hf l. induction l as [|a l IH]; intros s; [done|]. cbn. unfold mbind, M_bind. by rewrite Hf.
Qed.

Lemma for_prints {S} (l : list str) : forall (s : S) t, for_ l print_ s t = (Ok (), s, t ++ map EPrint l).
Proof.
  induction l as [|a l IH]; intros s t; [by rewrite app_nil_r|]. cbn. unfold mbind, M_bind, print_, emit.
  rewrite IH, <- app_assoc. done.
Qed.

Lemma fold_left_flat_map {A B S} (g : A -> list B) (h : S -> B -> S) l : forall s,
  fold_left h (flat_map g l) s = fold_left (fun s a => fold_left h (g a) s) l s.
Proof. induction l as [|a l IH]; intros s; [done|]. cbn. by rewrite fold_left_app, IH. Qed.

Lemma fold_left_map_filter {A B S} (p : A -> bool) (k : A -> B) (h : S -> B -> S) l : forall s,
  fold_left h (map k (List.filter p l)) s = fold_left (fun s a => if p a then h s (k a) else s) l s.
Proof. induction l as [|a l IH]; intros s; [done|]. cbn. rewrite <- IH. by destruct (p a). Qed.

Definition file_name (f : str) : str := slice None (Some (- Z.of_nat (length ext))) f.

(** The files of a walk that end in ".depends.ocamldep-output", a suffix of 24
    characters: their name without it, and their text. *)
Definition outputs (texts : str -> str) (entry : str * list str * list str) : list (str * str) :=
  map (fun f => (take (length f - 24) f, texts (path_join entry.1.1 [f])))
    (List.filter (endswith $".depends.ocamldep-output") entry.2).

Lemma file_name_take f : file_name f = take (length f - 24) f.
Proof.
  unfold file_name, slice, clamp_index. change (Z.of_nat (length ext)) with 24. cbn [drop].
  change (- (24) <? 0) with true. cbv iota. rewrite Z.sub_0_r. f_equal. lia.
Qed.

Definition scanned (walk : str -> list (str * list str * list str)) (texts : str -> str) (dirs : list str) :
    list (str * str) :=
  flat_map (fun d => flat_map (outputs texts) (walk d)) dirs.

Context (walk : str -> list (str * list str * list str)) (texts : str -> str).
Hypothesis Hwalk : forall t d, os_walk t d = walk d.
Hypothesis Hread : forall t f, os_read t f = Ok (texts f).

#[local] Opaque ext lit.

Lemma scan_runs dirs g t : exists g',
  scan order dirs g t = (Ok (), g', t ++ map EPrint (graph_lines order (cleanup (collected (scanned walk texts dirs) g)))).
Proof.
  eexists. unfold scan. unfold mbind at 1, M_bind at 1.
  rewrite (for_updates _ (fun g d => collected (flat_map (outputs texts) (walk d)) g) t).
  - rewrite <- (fold_left_flat_map (fun d => flat_map (outputs texts) (walk d)) (fun g f => mangle_text f.1 f.2 g)).
    unfold mbind, M_bind, get, modify. cbv zeta. unfold print_graph. rewrite for_prints. reflexivity.
  - intros d g0. unfold mbind, M_bind, ask. rewrite Hwalk.
    rewrite (for_updates _ (fun g e => collected (outputs texts e) g) t).
    + unfold collected. by rewrite fold_left_flat_map.
    + intros [[root ds] files] g1. unfold collected, outputs. change $".depends.ocamldep-output" with ext.
      cbn [fst snd].
      rewrite (for_updates _ (fun g f => if endswith ext f then mangle_text (file_name f) (texts (path_join root [f])) g else g) t).
      * rewrite (fold_left_map_filter (endswith ext)). cbn [fst snd].
        clear. revert g1. induction files as [|f files IH]; intros g1; [done|]. cbn [fold_left].
        by rewrite IH, file_name_take.
      * intros f g2. unfold when. destruct (endswith ext f); [|done].
        unfold mangle, read_file, modify, mbind, M_bind. by rewrite Hread.
Qed.

Lemma collected_wf files g : wf_dict (alldeps g) -> wf_dict (alldeps (collected files g)).
Proof.
  unfold collected. revert g. induction files as [|f files IH]; intros g Hg; [done|]. cbn [fold_left]. apply IH.
  unfold mangle_text. destruct (fold_left (mangle_line _) _ _) as [d mods]. by apply wf_dset.
Qed.

Lemma edge_text m dep :
  edge m dep = [dquote] +:+ m +:+ [dquote] +:+ $" -> " +:+ [dquote] +:+ dep +:+ [dquote] +:+ $";".
Proof. unfold edge, quoted. by rewrite <- !app_assoc. Qed.

(** The clusters: the names with their numbers and arrows *)
Definition blocks_of (deps : list (str * deps_t)) : list (str * Z * list str) :=
  map (fun x => (x.1, default 0 (dget x.1 (numbers order deps)), edges order x.2))
    (List.filter (fun x => negb (bool_decide (x.2 = []))) (order _ deps)).

Definition block_lines (b : str * Z * list str) : list str :=
  [$"subgraph cluster_" +:+ str_int b.1.2 +:+ $" { label = " +:+ [dquote] +:+ b.1.1 +:+ [dquote]
     +:+ $"; color=blue; node [style=filled];"] ++ b.2 ++ [$"}"].

Lemma clusters_blocks deps :
  flat_map (fun '(name, dictionary) => cluster order (numbers order deps) name dictionary) (order _ deps)
  = flat_map block_lines (blocks_of deps).
Proof.
  unfold blocks_of. set (l := numbers order deps). clearbody l.
  induction (order _ deps) as [|[name d] r IH]; [done|]. cbn [flat_map List.filter snd]. rewrite IH. unfold cluster.
  case_bool_decide; cbn [negb map flat_map]; [done|]. unfold block_lines, quoted. cbn [fst snd].
  by rewrite <- !app_assoc.
Qed.

Lemma dkeys_imap (names : list str) (f : nat -> Z) : dkeys (imap (fun i x => (x, f i)) names) = names.
Proof.
  revert f. induction names as [|x names IH]; intros f; [done|]. cbn. f_equal. apply (IH (fun i => f (Datatypes.S i))).
Qed.

Lemma numbers_inj deps n1 n2 : n1 ∈ dkeys deps -> n2 ∈ dkeys deps ->
  default 0 (dget n1 (numbers order deps)) = default 0 (dget n2 (numbers order deps)) -> n1 = n2.
Proof.
  assert (H : forall n, n ∈ dkeys deps -> exists i, dget n (numbers order deps) = Some (Z.of_nat i)
    /\ map fst (order _ deps) !! i = Some n).
  { intros n Hn. assert (Hk : n ∈ dkeys (numbers order deps)).
    { unfold numbers. rewrite dkeys_imap. unfold dkeys in Hn. by rewrite Horder. }
    apply dget_is_Some in Hk as [k Hk]. pose proof (dget_elem_of _ _ _ Hk) as Hin.
    apply list_elem_of_lookup_1 in Hin as [i Hi]. unfold numbers in Hi. rewrite list_lookup_imap in Hi.
    destruct (map fst (order _ deps) !! i) as [x|] eqn:Ex; [|done]. cbn in Hi. injection Hi as -> <-.
    exists i. done. }
  intros H1 H2 E. destruct (H n1 H1) as (i1 & E1 & L1), (H n2 H2) as (i2 & E2 & L2).
  rewrite E1, E2 in E. cbn in E. apply Nat2Z.inj in E as ->. congruence.
Qed.

Lemma elem_of_blocks deps name k arrows : wf_dict deps -> (name, k, arrows) ∈ blocks_of deps <->
  exists d, dget name deps = Some d /\ d <> [] /\ k = default 0 (dget name (numbers order deps))
    /\ arrows = edges order d.
Proof.
  intros Hw. unfold blocks_of. rewrite list_elem_of_In, in_map_iff. split.
  - intros ([x d] & [= -> <- <-] & (Hin & Hd)%filter_In). apply list_elem_of_In in Hin. rewrite Horder in Hin.
    exists d. split; [by apply elem_of_dget|]. split; [|done]. by apply negb_true_iff, bool_decide_eq_false in Hd.
  - intros (d & Hd & Hne & -> & ->). exists (name, d). split; [done|]. apply filter_In. split.
    + apply list_elem_of_In. rewrite Horder. by apply dget_elem_of.
    + by apply negb_true_iff, bool_decide_eq_false.
Qed.

Lemma blocks_NoDup deps : wf_dict deps ->
  NoDup (map (fun b => b.1.1) (blocks_of deps)) /\ NoDup (map (fun b => b.1.2) (blocks_of deps)).
Proof.
  intros Hw. unfold blocks_of. rewrite !map_map. cbn [fst snd].
  set (l := List.filter _ (order _ deps)).
  assert (Hl : NoDup (map fst l)).
  { unfold l. assert (Ho : NoDup (map fst (order _ deps))) by (by rewrite Horder). clear -Ho.
    induction (order _ deps) as [|x r IH]; [done|]. cbn [map List.filter] in *. apply list.NoDup_cons in Ho as [Hx Hr].
    destruct (negb _); [|by apply IH]. apply list.NoDup_cons. split; [|by apply IH]. intros Hin. apply Hx.
    apply list_elem_of_In, in_map_iff in Hin as (y & E & (Hy & _)%filter_In).
    apply list_elem_of_In, in_map_iff. by exists y. }
  split; [exact Hl|].
  assert (Hk : forall x, x ∈ map fst l -> x ∈ dkeys deps).
  { intros x. unfold l, dkeys. rewrite !list_elem_of_In, !in_map_iff. intros (y & <- & (Hy & _)%filter_In).
    exists y. split; [done|]. rewrite <- list_elem_of_In in *. by rewrite Horder in Hy. }
  rewrite <- (map_map fst (fun x => default 0 (dget x (numbers order deps)))). clearbody l.
  apply NoDup_fmap_2_strong; [|done]. intros x y Hx Hy. apply numbers_inj; by apply Hk.
Qed.

(** The files with a cluster are those with a line that names something. *)
Lemma block_names files name : NoDup (map fst files) ->
  let g := collected files (Globals [] []) in wf_dict (cleanup g) ->
  name ∈ map (fun b => b.1.1) (blocks_of (cleanup g)) <->
  exists text m dep, (name, text) ∈ files /\ names_in (file_lines text) m dep.
Proof.
  intros Hnd g Hw.
  assert (Hempty : forall text d, (name, text) ∈ files -> dget name (alldeps g) = Some d ->
    (cleanup_dict (allmodules g) d <> [] <-> exists m dep, names_in (file_lines text) m dep)).
  { intros text d Hin Hd. destruct (collected_kept files (Globals [] []) Hnd name text Hin) as (d' & Hd' & _ & _ & Hm & _).
    fold g in Hd'. rewrite Hd in Hd'. injection Hd' as <-. setoid_rewrite <- depends_names. split.
    - destruct d as [|[m l] d]; [done|]. intros _. exists m. apply Hm. unfold dmem. cbn [dget].
      by rewrite decide_True.
    - intros (m & Hdep%Hm) Hnil. unfold cleanup_dict in Hnil. apply map_eq_nil in Hnil. by subst d. }
  rewrite list_elem_of_In, in_map_iff. split.
  - intros ([[n k] arrows] & E & Hin). cbn in E. subst n. apply list_elem_of_In, (elem_of_blocks _ _ _ _ Hw) in Hin
      as (c & Hc & Hne & _). unfold cleanup in Hc. rewrite dget_map in Hc.
    destruct (dget name (alldeps g)) as [d|] eqn:Hd; [|done]. injection Hc as <-.
    assert (Hn : name ∈ map fst files).
    { apply dget_Some_key in Hd. apply collected_names in Hd as [Hd|]; [by apply elem_of_nil in Hd|done]. }
    apply list_elem_of_In, in_map_iff in Hn as ([n text] & En & Hin%list_elem_of_In). cbn in En. subst n.
    destruct (proj1 (Hempty text d Hin eq_refl) Hne) as (m & dep & H). by exists text, m, dep.
  - intros (text & m & dep & Hin & H).
    destruct (collected_kept files (Globals [] []) Hnd name text Hin) as (d & Hd & _). fold g in Hd.
    exists (name, default 0 (dget name (numbers order (cleanup g))), edges order (cleanup_dict (allmodules g) d)).
    split; [done|]. apply list_elem_of_In, (elem_of_blocks _ _ _ _ Hw). eexists. split_and!; [|..|reflexivity|reflexivity].
    + unfold cleanup. rewrite dget_map, Hd. reflexivity.
    + apply (Hempty text d Hin Hd). eauto.
Qed.

(** C24. The script prints the header of a graph and then clusters with distinct
    names and numbers.  There is a cluster exactly for the files of ocamldep output
    below the directories (whose names are distinct and which do not change while they
    are read) that have a line of at least
    three words.  In the cluster of a file is an arrow from one module to another
    exactly when a line of that file that starts with the first names the second
    behind its first two words, and the second starts such a line itself; leaving out
    the modules of external libraries beforehand removes no arrow.  The module of a
    line is the name of the file it starts with, without directory and extension and
    capitalized; the name of a dependency is the last component of the word, with
    an underscore for every run of other characters than letters and digits. *)
Theorem ocamldot_arrows dirs t :
  NoDup (map fst (scanned walk texts dirs)) ->
  exists blocks : list (str * Z * list str),
    main order dirs () t = (Ok (), (), t ++ map EPrint (
      [$"strict digraph G {";
       $"graph [fontsize=10 fontname=" +:+ [dquote] +:+ $"Verdana" +:+ [dquote] +:+ $"];";
       $"node [shape=record fontsize=10 fontname=" +:+ [dquote] +:+ $"Verdana" +:+ [dquote] +:+ $" compound=true];"]
      ++ flat_map (fun '(name, k, arrows) =>
           [$"subgraph cluster_" +:+ str_int k +:+ $" { label = " +:+ [dquote] +:+ name +:+ [dquote]
              +:+ $"; color=blue; node [style=filled];"] ++ arrows ++ [$"}"]) blocks
      ++ [$"}"]))
    /\ NoDup (map (fun b => b.1.1) blocks) /\ NoDup (map (fun b => b.1.2) blocks)
    /\ (forall name, name ∈ map (fun b => b.1.1) blocks <->
         exists text m dep, (name, text) ∈ scanned walk texts dirs /\ names_in (file_lines text) m dep)
    /\ forall name k arrows text, (name, k, arrows) ∈ blocks -> (name, text) ∈ scanned walk texts dirs ->
         forall e, e ∈ arrows <->
           exists m dep, e = [dquote] +:+ m +:+ [dquote] +:+ $" -> " +:+ [dquote] +:+ dep +:+ [dquote] +:+ $";"
             /\ names_in (file_lines text) m dep /\ exists dep', names_in (file_lines text) dep dep'.
Proof.
  intros Hnd. set (g := collected (scanned walk texts dirs) (Globals [] [])).
  assert (Hw : wf_dict (cleanup g)).
  { unfold wf_dict, cleanup. rewrite dkeys_map. apply collected_wf. apply wf_nil. }
  exists (blocks_of (cleanup g)). split; [|split; [|split; [|split]]].
  - destruct (scan_runs dirs (Globals [] []) t) as (g' & E). unfold main, on_new. unfold mbind, M_bind.
    rewrite E. unfold graph_lines. rewrite clusters_blocks. fold g.
    rewrite (flat_map_ext block_lines (fun '(name, k, arrows) =>
      [$"subgraph cluster_" +:+ str_int k +:+ $" { label = " +:+ [dquote] +:+ name +:+ [dquote]
         +:+ $"; color=blue; node [style=filled];"] ++ arrows ++ [$"}"])) by (by intros [[name k] arrows]).
    unfold quoted. rewrite <- !app_assoc. done.
  - by apply blocks_NoDup.
  - by apply blocks_NoDup.
  - intros name. unfold g. by apply block_names.
  - intros name k arrows text (d & Hd & _ & _ & ->)%elem_of_blocks Hin e; [|done].
    destruct (cleanup_edges g name text (collected_kept _ _ Hnd _ _ Hin)) as (d' & Hd' & He).
    rewrite Hd in Hd'. injection Hd' as <-. rewrite He.
    setoid_rewrite depends_names. setoid_rewrite edge_text. done.
Qed.

End Graph.

(** ** A small tree *)

Definition dot_os (text : str) : OS :=
  {| os_isfile _ _ := false; os_isdir _ _ := false; os_environ _ := [];
     os_run _ _ _ _ := Raise OSError; os_spawn _ _ _ _ := Raise OSError;
     os_poll _ _ := None; os_wait _ _ _ := None; os_mkdtemp _ _ := Raise OSError;
     os_tempfile _ := Raise OSError; os_rmtree _ _ := Raise OSError;
     os_read _ _ := Ok text; os_write _ _ _ := Raise OSError;
     os_http _ _ _ _ := Raise OSError; os_utcnow _ := 0; os_getcwd _ := $"/";
     os_listdir _ _ := Raise OSError; os_exec _ _ _ _ := Raise OSError |}.

Definition dot_walk (_ : str) : list (str * list str * list str) :=
  [($"src/lib", [], [$"lib.depends.ocamldep-output"; $"dune"])].

Definition dot_fs : FS := {| os_walk _ := dot_walk; os_exists _ _ := true |}.

(** Two modules that use each other, and the library List. *)
Definition dot_text : str := $"a.ml : B List" ++ [nl] ++ $"b.ml : A B" ++ [nl].

Definition backwards V (d : list (str * V)) : list (str * V) := rev d.

Lemma ocamldot_arrows_witness :
  exists blocks : list (str * Z * list str),
    (main (o := dot_os dot_text) (fs := dot_fs) backwards [$"src"] () []).1 = (Ok (), ())
    /\ forall name k arrows, (name, k, arrows) ∈ blocks -> name = $"lib" -> edge $"A" $"B" ∈ arrows.
Proof.
  assert (Hnd : NoDup (map fst (scanned dot_walk (fun _ => dot_text) [$"src"])))
    by (apply (bool_decide_unpack _); vm_compute; exact I).
  destruct (ocamldot_arrows (o := dot_os dot_text) (fs := dot_fs) backwards (fun V d => Permutation_sym (Permutation_rev d))
    dot_walk (fun _ => dot_text) (fun _ _ => eq_refl) (fun _ _ => eq_refl) [$"src"] [] Hnd) as (blocks & E & _ & _ & _ & H).
  exists blocks. split; [by rewrite E|]. intros name k arrows Hin ->.
  apply (H $"lib" k arrows dot_text Hin); [apply (bool_decide_unpack _); vm_compute; exact I|].
  exists $"A", $"B". split_and!; [done| |].
  - exists ($"a.ml : B List" ++ [nl]), $"a.ml", $":", [$"B"; $"List"], $"B".
    split_and!; try (vm_compute; reflexivity); apply (bool_decide_unpack _); vm_compute; exact I.
  - exists $"A", ($"b.ml : A B" ++ [nl]), $"b.ml", $":", [$"A"; $"B"], $"A".
    split_and!; try (vm_compute; reflexivity); apply (bool_decide_unpack _); vm_compute; exact I.
Defined.

(** In the format of [ocamldep -modules] there is no word between the name of the
    file and its dependencies: the first of these is not shown. *)
Example first_dependency_dropped :
  (main (o := dot_os ($"a.ml: B List" ++ [nl] ++ $"b.ml: A B" ++ [nl])) (fs := dot_fs) backwards [$"src"] () []).2
  = map EPrint
      [$"strict digraph G {";
       $"graph [fontsize=10 fontname=" +:+ quoted $"Verdana" +:+ $"];";
       $"node [shape=record fontsize=10 fontname=" +:+ quoted $"Verdana" +:+ $" compound=true];";
       $"subgraph cluster_0 { label = " +:+ quoted $"lib" +:+ $"; color=blue; node [style=filled];";
       edge $"B" $"B"; $"}"; $"}"].
Proof. vm_compute. reflexivity. Qed.
