(* ===== verification/Genesis.v ===== *)
(** * Genesis commitments (scripts/create_genesis/create_genesis_info.py)

    A Python 2 script: for every address of the fundraiser, or of a list of dummy
    addresses, it writes a commitment, the hash of the address blinded by an
    activation code that only its owner gets.  The packages bitcoin, pysodium,
    pyblake2 and numpy and the random numbers are parameters; byte strings of
    Python 2 are texts with characters below 256.  [order] is the order in which
    Python 2 goes through a dictionary. *)

From Stdlib Require Import ZArith Lia.
From stdpp Require Import base tactics list strings numbers.
From Stdlib Require Import SpecFloat.
From S2P Require Import Prelude PyStr PyExc PyRe PyDict PyFloat PyJson PyTime PyIO.

Local Open Scope Z_scope.
Local Open Scope py_scope.

(** The packages: pyblake2 with a size, a key (empty for none) and data; bitcoin;
    pysodium; and [unicodedata.normalize('NFKD', _)]. *)
Class Packages := {
  blake2b : nat -> bytes -> bytes -> bytes;
  bin_to_b58check : bytes -> Z -> str;
  b58check_to_bin : str -> res bytes;
  mnemonic_to_seed : str -> bytes -> bytes;
  entropy_to_words : bytes -> list str;
  crypto_sign_seed_keypair : bytes -> bytes * bytes;
  normalize_NFKD : str -> str }.

(** Of a checked text bitcoin returns the payload behind the first byte of the magic
    number; a digest has the size asked for. *)
Class PackagesSpec (P : Packages) : Prop := {
  b58check_decodes data magic : 0 < magic -> Forall is_byte data ->
    b58check_to_bin (bin_to_b58check data magic) = Ok (drop 1 (digits 256 magic ++ data));
  blake2b_size n key data : length (blake2b n key data) = n;
  blake2b_bytes n key data : Forall is_byte (blake2b n key data) }.

Definition bytes_of (s : str) : bytes := map Z.of_N s.

(** ** Numbers of Python 2 *)

Definition num_add (a b : num) : num :=
  match a, b with
  | NInt x, NInt y => NInt (x + y)
  | _, _ => NFloat (fadd (num_float a) (num_float b))
  end.

Definition num_mul (a b : num) : num :=
  match a, b with
  | NInt x, NInt y => NInt (x * y)
  | _, _ => NFloat (fmul (num_float a) (num_float b))
  end.

(** [float(n)] of an integer; too large a one raises. *)
Definition to_double (a : num) : res float :=
  match num_float a with
  | S754_infinity s => match a with NInt _ => Raise OverflowError | NFloat x => Ok x end
  | x => Ok x
  end.

Definition num_positive (a : num) : bool :=
  match a with NInt n => 0 <? n | NFloat x => fltb (S754_zero false) x end.

(** [str(a)] *)
Definition str_num_2 (a : num) : str := match a with NInt n => str_int n | NFloat x => str_float_12 x end.

Definition num_of_json (j : json) : res num :=
  match j with
  | JInt n => Ok (NInt n)
  | JFloat x => Ok (NFloat x)
  | JBool b => Ok (NInt (if b then 1 else 0))
  | _ => Raise TypeError
  end.

(** [int(round(x, 0))]: halves are rounded away from zero. *)
Definition round_away (x : float) : res Z :=
  match x with
  | S754_finite s m e =>
      let '(num, den) := frac m e in
      let n := (2 * num + den) / (2 * den) in
      Ok (if s then - n else n)
  | S754_zero _ => Ok 0
  | S754_infinity _ => Raise OverflowError
  | S754_nan => Raise ValueError
  end.

Definition tez_to_int (amount : float) : res Z := round_away (fmul amount (float_of_Z 1000000)).

(** ** Amounts of the fundraiser *)

(** [level/400] is the quotient of integers. *)
Definition discount_level (level : num) : num :=
  match level with
  | NInt l => if 2000 <=? l then NInt 0 else NInt (6000 - l / 400 * 250)
  | NFloat x =>
      if SFleb (float_of_Z 2000) x then NInt 0
      else NFloat (fsub (float_of_Z 6000) (fmul (fdiv x (float_of_Z 400)) (float_of_Z 250)))
  end.

Definition json_list (j : json) : res (list json) := match j with JList l => Ok l | _ => Raise TypeError end.

(** [sum(f(x) for x in l)] *)
Fixpoint sum_of (f : json -> res num) (l : list json) (acc : num) : res num :=
  match l with
  | [] => Ok acc
  | x :: r => v ← f x; sum_of f r (num_add acc v)
  end.

Definition allocate_with_subthreshold (w : json) : res num :=
  eth ← jkey $"ethDeposits" w; eth ← json_list eth;
  from_ether ← sum_of (fun x => t ← jkey $"tezzies" x; num_of_json t) eth (NInt 0);
  utxos ← jkey $"utxos" w; utxos ← json_list utxos;
  from_bitcoin ← sum_of (fun x =>
      s ← jkey $"satoshis" x; s ← num_of_json s;
      l ← jkey $"crowdfund_level" x; l ← num_of_json l;
      Ok (num_mul s (discount_level l))) utxos (NInt 0);
  b ← to_double from_bitcoin;
  Ok (num_add from_ether (NFloat (fmul b (float_of_decimal 1 (-8))))).

Section Script.
Context {P : Packages} {o : OS}.

Definition get_wallets {S} (path : str) : M S (list (str * num)) :=
  names ← ask (fun t => os_listdir t path); fns ← lift names;
  (fix loop (fns : list str) (wallets : list (str * num)) : M S (list (str * num)) :=
    match fns with
    | [] => mret wallets
    | fn :: r =>
        if startswith $"tz1" fn then
          text ← read_file (path_join path [fn]);
          v ← lift (w ← loads text; allocate_with_subthreshold w);
          loop r (dset (hd [] (split_on 46 fn)) v wallets)
        else loop r wallets
    end) fns [].

(** ** Keys and commitments *)

Definition get_keys (mnemonic email password : str) : res (bytes * bytes * bytes * str) :=
  text ← decode_utf8 (bytes_of (email ++ password));
  let salt := encode (normalize_NFKD text) in
  let seed := mnemonic_to_seed mnemonic salt in
  let '(pk, sk) := crypto_sign_seed_keypair (slice (Some 0) (Some 32) seed) in
  let pkh := blake2b 20 [] pk in
  let pkhb58 := bin_to_b58check pkh 434591 in
  Ok (sk, pk, pkh, pkhb58).

Definition secret_code (pkh blind : bytes) : bytes := blake2b 20 blind pkh.

Record commitment := Commitment { blinded_pkh : str; amount : num }.

Context (order : forall V, list (str * V) -> list (str * V)).

Definition commit (blind : bytes) (pkh_b58 : str) (amount : num) : res commitment :=
  bin ← b58check_to_bin pkh_b58;
  let pkh := slice (Some 2) None bin in
  let secret := secret_code pkh blind in
  let blinded_pkh := blake2b 20 secret pkh in
  Ok (Commitment (bin_to_b58check blinded_pkh 16921055) amount).

Definition genesis_commitments (wallets : list (str * num)) (blind : bytes) : res (list commitment) :=
  mapM_res (fun '(pkh_b58, amount) => commit blind pkh_b58 amount) (order _ wallets).

(** ** Dummy wallets *)

(** The number of calls of [random.choice] so far, and its answers. *)
Context (choice : nat -> str -> N) (pareto : nat -> list float).

Fixpoint choices (n : nat) (alphabet : str) (k : nat) : str * nat :=
  match n with
  | O => ([], k)
  | S n => let c := choice k alphabet in let '(s, k') := choices n alphabet (S k) in (c :: s, k')
  end.

Definition ascii_lowercase : str := $"abcdefghijklmnopqrstuvwxyz".
Definition letters_digits : str := $"abcdefghijklmnopqrstuvwxyzABCDEFGHIJKLMNOPQRSTUVWXYZ0123456789".

Definition random_email (k : nat) : str * nat :=
  let '(a, k) := choices 8 ascii_lowercase k in
  let '(b, k) := choices 8 ascii_lowercase k in
  (a +:+ $"." +:+ b +:+ $"@tezos.example.org", k).

(** What a wallet holder is given: mnemonic, email, password, amount and code. *)
Record secret := Secret { s_mnemonic : list str; s_email : str; s_password : str; s_amount : Z; s_code : str }.

Definition dummy_amounts (n : nat) : list float :=
  let amounts := pareto n in
  let total := fold_left fadd amounts (float_of_Z 0) in
  map (fun a => fmul (fdiv a total) (float_of_Z 700000000)) amounts.

Definition state := (list (str * num) * list (str * secret) * nat)%type.

Definition dummy_wallet (blind : bytes) (amounts : list float) (i : nat) (st : state) : res state :=
  let '(wallets, secrets, k) := st in
  let entropy := blake2b 20 blind (bytes_of (str_int (Z.of_nat i))) in
  let mnemonic := entropy_to_words entropy in
  let '(password, k) := choices 10 letters_digits k in
  let '(email, k) := random_email k in
  '(sk, pk, pkh, pkh_b58) ← get_keys (join $" " mnemonic) email password;
  a ← or_raise IndexError (amounts !! i);
  amount ← tez_to_int a;
  let secret := secret_code pkh blind in
  Ok (dset pkh_b58 (NInt amount) wallets,
      dset pkh_b58 (Secret mnemonic email password amount (hex secret)) secrets, k).

Fixpoint dummy_loop (blind : bytes) (amounts : list float) (l : list nat) (st : state) : res state :=
  match l with
  | [] => Ok st
  | i :: r => st ← dummy_wallet blind amounts i st; dummy_loop blind amounts r st
  end.

Definition make_dummy_wallets (n : nat) (blind : bytes) : res (list (str * num) * list (str * secret)) :=
  st ← dummy_loop blind (dummy_amounts n) (seq 0 n) ([], [], O);
  Ok (st.1.1, st.1.2).

(** ** The documents that are written *)

Definition secret_seeds (secrets : list (str * secret)) : json :=
  JList (map (fun '(pkh, s) =>
    JDict [($"pkh", JStr pkh); ($"mnemonic", JList (map JStr (s_mnemonic s))); ($"email", JStr (s_email s));
           ($"password", JStr (s_password s)); ($"amount", JStr (str_int (s_amount s)));
           ($"activation_code", JStr (s_code s))]) (order _ secrets)).

Definition bootstrap_accounts : list str :=
  [$"edsk4X12XaKRPHgDkgvMe4UWEiygx8AVrt9rpktmhu1uT2GCPU4dp7"; $"edsk46ypB8PztxMDPMdVnEgjQmJhca7zMJvTMDrdwJaJ4mgm4qNmwE";
   $"edsk4JsBpWJH5cDtanNADY2D5Ygma1dUtxko8qaM2Af8FHGU52yLcW"; $"edsk3b5GrQdRF1Pt3ccRjvyoNHTFrSXUKZufg2zQYhBumqS8kMfeGC";
   $"edsk3T8CRr8YK2vnjsZK2vDzCjpcWpMEUXMAzjeR1GWjmyhGaDHTNV"].

Definition commitment_rows (commitments : list commitment) : list json :=
  map (fun c => JList [JStr (blinded_pkh c); JStr (str_num_2 (amount c))])
    (List.filter (fun c => num_positive (amount c)) commitments).

Definition commitments_document (commitments : list commitment) : json :=
  JDict [($"bootstrap_accounts", JList (map (fun k => JList [JStr k; JStr $"12000000000000"]) bootstrap_accounts));
         ($"commitments", JList (commitment_rows commitments));
         ($"no_rewards_cycles", JInt 7); ($"security_deposit_ramp_up_cycles", JInt 64)].

(** The files written, with their documents; the entries of a written dictionary
    are in the order of Python 2. *)
Definition genesis_main {S} (argv : list str) : M S (list (str * json)) :=
  match argv with
  | _ :: path :: blind :: rest =>
      let blind := bytes_of blind in
      '(wallets, files) ←
        (if bool_decide (rest = [$"dummy"]) then
           '(wallets, secrets) ← lift (make_dummy_wallets (Z.to_nat 30000) blind);
           mret (wallets, [($"secret_seeds.json", secret_seeds secrets)])
         else w ← get_wallets path; mret (w, []));
      commitments ← lift (genesis_commitments wallets blind);
      mret (files ++ [($"commitments.json", commitments_document commitments)])
  | _ => print_ $"Usage: python create_genesis_info.py /path/to/json blind [dummy]";; raise (SystemExit 1)
  end.

End Script.

(** ** The codes open the commitments *)

Section Redeem.
Context {P : Packages} {PS : PackagesSpec P} (order : forall V, list (str * V) -> list (str * V)).
Context (choice : nat -> str -> N) (pareto : nat -> list float).
Hypothesis Horder : forall V d, order V d ≡ₚ d.

(** The check of the protocol: the hash behind the address, blinded with the
    activation code, is the commitment. *)
Definition redeems (code pkh_b58 blinded : str) : Prop :=
  exists bin key, b58check_to_bin pkh_b58 = Ok bin /\ fromhex code = Some key
    /\ blinded = bin_to_b58check (blake2b 20 key (drop 2 bin)) 16921055.

(** The two dictionaries of the loop. *)
Definition paired (blind : bytes) (wallets : list (str * num)) (secrets : list (str * secret)) : Prop :=
  dkeys wallets = dkeys secrets /\ wf_dict secrets /\
  forall pkh s, dget pkh secrets = Some s -> dget pkh wallets = Some (NInt (s_amount s))
    /\ exists h, pkh = bin_to_b58check h 434591 /\ Forall is_byte h /\ s_code s = hex (secret_code h blind).

Lemma dummy_wallet_paired blind amounts i wallets secrets k wallets' secrets' k' :
  paired blind wallets secrets ->
  dummy_wallet choice blind amounts i (wallets, secrets, k) = Ok (wallets', secrets', k') ->
  paired blind wallets' secrets'.
Proof.
  intros (Hkeys & Hwf & Hall). unfold dummy_wallet. destruct (choices choice 10 letters_digits k) as [password k1].
  destruct (random_email choice k1) as [email k2]. unfold get_keys.
  intros ([[[sk pk] pkh] b58] & Hk & H)%bind_ok.
  apply bind_ok in H as (a & _ & H). apply bind_ok in H as (am & _ & [= <- <- <-]).
  apply bind_ok in Hk as (text & _ & Hk). destruct (crypto_sign_seed_keypair _) as [pk' sk']. injection Hk as <- <- <- <-.
  split_and!.
  - by rewrite !dkeys_dset, Hkeys.
  - by apply wf_dset.
  - intros p s. rewrite !dget_dset. case_decide as E; [|apply Hall]. intros [= <-]. split; [done|].
    exists (blake2b 20 [] pk'). split_and!; [done|apply blake2b_bytes|done].
Qed.

Lemma dummy_loop_paired blind amounts l : forall wallets secrets k st,
  paired blind wallets secrets -> dummy_loop choice blind amounts l (wallets, secrets, k) = Ok st ->
  paired blind st.1.1 st.1.2.
Proof.
  induction l as [|i l IH]; intros wallets secrets k st Hp; cbn [dummy_loop]; [by intros [= <-]|].
  intros ([[w' s'] k'] & E & H)%bind_ok. eapply IH, H. by eapply dummy_wallet_paired.
Qed.

Lemma commit_redeems blind h am : Forall is_byte h -> exists c,
  commit blind (bin_to_b58check h 434591) am = Ok c /\ amount c = am
  /\ redeems (hex (secret_code h blind)) (bin_to_b58check h 434591) (blinded_pkh c).
Proof.
  intros Hh. assert (E : b58check_to_bin (bin_to_b58check h 434591) = Ok ([161; 159] ++ h))
    by (rewrite b58check_decodes by done; reflexivity).
  unfold commit. rewrite E. eexists. split; [reflexivity|]. split; [done|].
  exists ([161; 159] ++ h), (secret_code h blind). split; [done|]. split; [apply fromhex_hex, blake2b_bytes|].
  cbn [blinded_pkh]. rewrite (slice_from_app [161; 159] h 2) by done. done.
Qed.

Lemma mapM_res_ok {A B} (f : A -> res B) (R : A -> B -> Prop) l :
  (forall a, a ∈ l -> exists b, f a = Ok b /\ R a b) -> exists bs, mapM_res f l = Ok bs /\ Forall2 R l bs.
Proof.
  induction l as [|a l IH]; intros H; cbn; [by exists []; split; [|constructor]|].
  destruct (H a) as (b & -> & Hb); [apply elem_of_cons; by left|].
  destruct IH as (bs & -> & Hbs); [intros x Hx; apply H, elem_of_cons; by right|].
  exists (b :: bs). split; [done|by constructor].
Qed.

(** C23. In the dummy network every activation code that is handed out opens a
    commitment of the genesis: for each recorded secret with a positive amount the
    written commitments have a row with that amount and with the address blinded by
    the code, and every row is opened by the code of a recorded secret. *)
Theorem activation_codes_redeem n blind wallets secrets :
  make_dummy_wallets choice pareto n blind = Ok (wallets, secrets) ->
  exists cs, genesis_commitments order wallets blind = Ok cs
    /\ (forall pkh s, dget pkh secrets = Some s -> 0 < s_amount s ->
        exists b, redeems (s_code s) pkh b /\ JList [JStr b; JStr (str_int (s_amount s))] ∈ commitment_rows cs)
    /\ (forall row, row ∈ commitment_rows cs ->
        exists pkh s b, dget pkh secrets = Some s /\ redeems (s_code s) pkh b
          /\ row = JList [JStr b; JStr (str_int (s_amount s))]).
Proof.
  intros (st & Hloop & [= <- <-])%bind_ok.
  assert (Hp : paired blind st.1.1 st.1.2).
  { eapply dummy_loop_paired, Hloop. split_and!; [done|apply wf_nil|done]. }
  destruct st as [[wallets secrets] k]. cbn [fst snd] in *. destruct Hp as (Hkeys & Hwf & Hall).
  assert (Hwf' : wf_dict wallets) by (unfold wf_dict; by rewrite Hkeys).
  set (R := fun (w : str * num) (c : commitment) => exists s, dget w.1 secrets = Some s
    /\ amount c = NInt (s_amount s) /\ redeems (s_code s) w.1 (blinded_pkh c)).
  destruct (mapM_res_ok (fun '(pkh_b58, amount) => commit blind pkh_b58 amount) R (order _ wallets)) as (cs & Ecs & HR).
  { intros [pkh am] Hin. rewrite Horder in Hin. apply elem_of_dget in Hin; [|done].
    destruct (dget_is_Some pkh secrets) as [s Hs]; [rewrite <- Hkeys; by eapply dget_Some_key|].
    destruct (Hall pkh s Hs) as (Hw & h & -> & Hh & Hc). rewrite Hw in Hin. injection Hin as <-.
    destruct (commit_redeems blind h (NInt (s_amount s)) Hh) as (c & Hcm & Ha & Hr). exists c. split; [done|].
    exists s. rewrite Hc. done. }
  exists cs. split; [exact Ecs|]. unfold commitment_rows. split.
  - intros pkh s Hs Hpos. destruct (Hall pkh s Hs) as [Hw _].
    assert (Hin : (pkh, NInt (s_amount s)) ∈ order _ wallets) by (rewrite Horder; by apply dget_elem_of).
    apply list_elem_of_lookup in Hin as (i & Hi). destruct (Forall2_lookup_l _ _ _ _ _ HR Hi) as (c & Hc & s' & Hs' & Ha & Hr).
    cbn [fst] in *. rewrite Hs in Hs'. injection Hs' as <-. exists (blinded_pkh c). split; [done|].
    apply list_elem_of_In, in_map_iff. exists c. rewrite Ha. split; [done|]. apply filter_In. split.
    + apply list_elem_of_In. by eapply list_elem_of_lookup_2.
    + rewrite Ha. cbn. by apply Z.ltb_lt.
  - intros row (c & <- & (Hc & _)%filter_In)%list_elem_of_In%in_map_iff.
    apply list_elem_of_In, list_elem_of_lookup in Hc as (i & Hi).
    destruct (Forall2_lookup_r _ _ _ _ _ HR Hi) as ([pkh am] & _ & s & Hs & Ha & Hr).
    exists pkh, s, (blinded_pkh c). rewrite Ha. done.
Qed.

End Redeem.

(** ** Concrete packages *)

(** Digests that repeat the sum of the key and the data, and texts that are their
    bytes. *)
Definition toy_packages : Packages :=
  {| blake2b n key data := replicate n ((fold_left Z.add (key ++ data) 0) mod 256);
     bin_to_b58check data magic := map Z.to_N (digits 256 magic ++ data);
     b58check_to_bin s := Ok (drop 1 (map Z.of_N s));
     mnemonic_to_seed m salt := encode m ++ salt;
     entropy_to_words e := [$"word"; str_int (hd 0 e)];
     crypto_sign_seed_keypair seed := (seed, seed ++ [0]);
     normalize_NFKD s := s |}.

Lemma toy_packages_spec : PackagesSpec toy_packages.
Proof.
  split.
  - intros data magic Hm Hd.
    change (Ok (drop 1 (map Z.of_N (map Z.to_N (digits 256 magic ++ data)))) = Ok (drop 1 (digits 256 magic ++ data))).
    do 2 f_equal.
    assert (H : Forall is_byte (digits 256 magic ++ data)).
    { apply Forall_app. split; [|done]. exact (digits_digit 256 magic ltac:(lia)). }
    induction H as [|b l Hb _ IH]; [done|]. cbn. by rewrite IH, Z2N.id by (unfold is_byte in Hb; lia).
  - intros n key data. apply length_replicate.
  - intros n key data. cbn. apply Forall_replicate. unfold is_byte. apply Z.mod_pos_bound. lia.
Qed.

Definition toy_choice (k : nat) (alphabet : str) : N := default 97%N (alphabet !! (k mod length alphabet)%nat).
Definition toy_pareto (n : nat) : list float := map (fun i => float_of_Z (Z.of_nat i)) (seq 1 n).

Lemma activation_codes_redeem_witness :
  exists wallets secrets cs pkh s b,
    make_dummy_wallets (P := toy_packages) toy_choice toy_pareto 3 [1; 2; 3] = Ok (wallets, secrets)
    /\ genesis_commitments (P := toy_packages) (fun V d => d) wallets [1; 2; 3] = Ok cs
    /\ dget pkh secrets = Some s /\ s_amount s = 116666666666667
    /\ redeems (P := toy_packages) (s_code s) pkh b
    /\ JList [JStr b; JStr $"116666666666667"] ∈ commitment_rows cs.
Proof.
  pose (r := make_dummy_wallets (P := toy_packages) toy_choice toy_pareto 3 [1; 2; 3]).
  pose (wallets := match r with Ok x => x.1 | Raise _ => [] end).
  pose (secrets := match r with Ok x => x.2 | Raise _ => [] end).
  assert (E : make_dummy_wallets (P := toy_packages) toy_choice toy_pareto 3 [1; 2; 3] = Ok (wallets, secrets))
    by (vm_compute; reflexivity).
  destruct (activation_codes_redeem (P := toy_packages) (PS := toy_packages_spec) (fun V d => d) toy_choice toy_pareto
    (fun V d => Permutation_refl d) 3 [1; 2; 3] wallets secrets E) as (cs & Ec & H & _).
  pose (pkh := hd [] (dkeys secrets)). pose (s := hd (Secret [] [] [] 0 []) (dvalues secrets)).
  assert (Hs : dget pkh secrets = Some s) by (vm_compute; reflexivity).
  assert (Ha : s_amount s = 116666666666667) by (vm_compute; reflexivity).
  destruct (H pkh s Hs) as (b & Hr & Hin); [rewrite Ha; reflexivity|].
  exists wallets, secrets, cs, pkh, s, b. split_and!; try assumption.
Defined.

(** The amounts of the fundraiser stay in tez, as floats, where those of the dummy
    wallets are integers of a millionth: the text written for them is not the number
    the protocol reads. *)
Example fundraiser_amount :
  let w := JDict [($"ethDeposits", JList [JDict [($"tezzies", JFloat (float_of_decimal 1205 (-1)))]]);
                  ($"utxos", JList [JDict [($"satoshis", JInt 100000000); ($"crowdfund_level", JInt 401)]])] in
  str_num_2 <$> allocate_with_subthreshold w = Ok $"5870.5".
Proof. vm_compute. reflexivity. Qed.
