(* ===== verification/Constants.v ===== *)
(** * Constants and paths (tests_python/tools/constants.py, tools/paths.py,
      codec/codec.py)

    The constants of the test framework, the location of the repository, the
    parameters of the protocols, which are read from the source tree, and the
    wrapper of tezos-codec.  The TLS certificates and keys of constants.py are
    left out. *)

From Stdlib Require Import ZArith.
From stdpp Require Import base tactics list strings numbers.
From S2P Require Import Prelude PyStr PyExc PyDict PyFloat PyJson PyIO Daemons.

Local Open Scope Z_scope.
Local Open Scope py_scope.

(** ** tools/constants.py *)

Definition GENESIS_SK : str := $"edsk31vznjHSSpGExDMHYASz45VZqXN4DPxvsa4hAyY8dHM28cZzp6".
Definition GENESIS_PK : str := $"edpkuSLWfVU1Vq7Jg9FucPyKmma6otcMHac9zG4oU1KMHSTBpJuGQ2".
Definition IDENTITIES : list (str * list (str * str)) :=
  [($"bootstrap1", [($"identity", $"tz1KqTpEZ7Yob7QbPE4Hy4Wo8fHG8LhKxZSx");
     ($"public", $"edpkuBknW28nW72KG6RoHtYW7p12T6GKc7nAbwYX5m8Wd9sDVC9yav");
     ($"secret", $"unencrypted:edsk3gUfUPyBSfrS9CCgmCiQsTCHGkviBDusMxDJstFtojtc1zcpsh")]);
   ($"bootstrap2", [($"identity", $"tz1gjaF81ZRRvdzjobyfVNsAeSC6PScjfQwN");
     ($"public", $"edpktzNbDAUjUk697W7gYg2CRuBQjyPxbEg8dLccYYwKSKvkPvjtV9");
     ($"secret", $"unencrypted:edsk39qAm1fiMjgmPkw1EgQYkMzkJezLNewd7PLNHTkr6w9XA2zdfo")]);
   ($"bootstrap3", [($"identity", $"tz1faswCTDciRzE4oJ9jn2Vm2dvjeyA9fUzU");
     ($"public", $"edpkuTXkJDGcFd5nh6VvMz8phXxU3Bi7h6hqgywNFi1vZTfQNnS1RV");
     ($"secret", $"unencrypted:edsk4ArLQgBTLWG5FJmnGnT689VKoqhXwmDPBuGx3z4cvwU9MmrPZZ")]);
   ($"bootstrap4", [($"identity", $"tz1b7tUupMgCNw2cCLpKTkSD1NZzB5TkP2sv");
     ($"public", $"edpkuFrRoDSEbJYgxRtLx2ps82UdaYc1WwfS9sE11yhauZt5DgCHbU");
     ($"secret", $"unencrypted:edsk2uqQB9AY4FvioK2YMdfmyMrer5R8mGFyuaLLFfSRo8EoyNdht3")]);
   ($"bootstrap5", [($"identity", $"tz1ddb9NMYHZi5UzPdzTZMYQQZoMub195zgv");
     ($"public", $"edpkv8EUUH68jmo3f7Um5PezmfGrRF24gnfLpH3sVNwJnV5bVCxL2n");
     ($"secret", $"unencrypted:edsk4QLrcijEffxV31gGdN2HU7UpyJjA8drFoNcmnB28n89YjPNRFm")]);
   ($"activator", [($"secret", $"unencrypted:edsk31vznjHSSpGExDMHYASz45VZqXN4DPxvsa4hAyY8dHM28cZzp6")])].
Definition IDENTITIES_SHORT : list (str * list (str * str)) :=
  [($"activator", [($"secret", $"unencrypted:edsk31vznjHSSpGExDMHYASz45VZqXN4DPxvsa4hAyY8dHM28cZzp6")])].
Definition PROTO_GENESIS : str := $"ProtoGenesisGenesisGenesisGenesisGenesisGenesk612im".
Definition PROTO_DEMO_NOOPS : str := $"ProtoDemoNoopsDemoNoopsDemoNoopsDemoNoopsDemo6XBoYp".
Definition PROTO_DEMO_COUNTER : str := $"ProtoDemoCounterDemoCounterDemoCounterDemoCou4LSpdT".
Definition ALPHA : str := $"ProtoALphaALphaALphaALphaALphaALphaALphaALphaDdp3zK".
Definition ALPHA_DAEMON : str := $"alpha".
Definition ALPHA_FOLDER : str := $"proto_alpha".
Definition HANGZHOU : str := $"PtHangz2aRngywmSRGGvrcTyMbbdpWdpFKuS4uMWxg2RaH9i1qx".
Definition HANGZHOU_DAEMON : str := $"011-PtHangz2".
Definition HANGZHOU_FOLDER : str := $"proto_011_PtHangz2".
Definition ITHACA : str := $"Psithaca2MLRFYargivpo7YvUr7wUDqyxrdhC5CQq78mRvimz6A".
Definition ITHACA_DAEMON : str := $"012-Psithaca".
Definition ITHACA_FOLDER : str := $"proto_012_Psithaca".
Definition NODE_PARAMS : list str :=
  [$"--connections"; $"100"; $"--synchronisation-threshold"; $"0"].
Definition TENDERBAKE_BAKER_LOG_LEVELS : list (str * str) := [($"alpha.baker.*", $"debug")].
Definition TENDERBAKE_NODE_LOG_LEVELS : list (str * str) :=
  [($"node.chain_validator", $"debug"); ($"node.validator.block", $"debug"); ($"node_prevalidator", $"debug"); ($"validator.block", $"debug"); ($"validator.chain", $"debug")].

Section Files.
Context {S : Type} {o : OS}.

(** [TEZOS_HOME] is the value computed by [tezos_home] when the module is loaded. *)
Definition parameters_file (TEZOS_HOME folder network : str) : str :=
  TEZOS_HOME +:+ $"/src/" +:+ folder +:+ $"/parameters/" +:+ network +:+ $"-parameters.json".

Definition get_parameters (TEZOS_HOME folder network : str) : M S json :=
  let params_file := parameters_file TEZOS_HOME folder network in
  f ← isfile params_file;
  massert f;;
  text ← read_file params_file;
  lift (loads text).

(** ** tools/paths.py *)

(** [os.path.dirname] *)
Definition dirname (p : str) : str :=
  let head := take (length p - length (basename p)) p in
  let stripped := rstrip_by (N.eqb 47) head in
  if bool_decide (stripped = []) then head else stripped.

Definition default_directories : list str :=
  [$"attic"; $"opcodes"; $"macros"; $"mini_scenarios"; $"non_regression"].

Fixpoint all_contracts_loop (contract_path : str) (directories : list str) : M S (list str) :=
  match directories with
  | [] => mret []
  | directory :: r =>
      names ← ask (fun t => os_listdir t (path_join contract_path [directory]));
      names ← lift names;
      contracts ← all_contracts_loop contract_path r;
      mret (map (fun contract => path_join directory [contract]) names ++ contracts)
  end.

Definition all_contracts (contract_path : str) (directories : option (list str)) : M S (list str) :=
  all_contracts_loop contract_path (default default_directories directories).

(** [file] is the real path of the module. *)
Definition tezos_home (file : str) : M S str :=
  let cur_path := dirname file in
  let home := dirname (dirname cur_path) +:+ $"/" in
  f ← isfile (home +:+ $"/tests_python/tools/paths.py");
  massert f;;
  mret home.

Definition ACCOUNT_PATH (TEZOS_HOME : str) : str := path_join TEZOS_HOME [$"tests_python"; $"account"].

(** ** codec/codec.py *)

Record Codec := MkCodec { _codec : str }.

Definition Codec_init (codec_path : str) : M S Codec :=
  f ← isfile codec_path;
  massert f;;
  mret (MkCodec codec_path).

Context {U : UCD}.

(** With [check], a failing process raises before its output is printed. *)
Definition Codec_run (self : Codec) (params : list str) (check : bool) : M S str :=
  let cmd := _codec self :: params in
  print_ (format_command cmd true);;
  p ← communicate cmd None None;
  stdout ← lift (decode_utf8 (p_stdout p));
  stderr ← lift (decode_utf8 (p_stderr p));
  let stdout := universal_newlines stdout in
  let stderr := universal_newlines stderr in
  if check && negb (p_returncode p =? 0) then raise (CalledProcessError (p_returncode p) cmd stdout stderr)
  else
    when (negb (bool_decide (stdout = []))) (print_ stdout);;
    when (negb (bool_decide (stderr = []))) (emit (EPrintErr stderr));;
    mret (rstrip stdout).

Definition Codec_encode (self : Codec) (encoding : str) (data_json : json) : M S str :=
  Codec_run self [$"encode"; encoding; $"from"; dumps data_json] true.

Definition Codec_decode (self : Codec) (encoding data : str) : M S json :=
  out ← Codec_run self [$"decode"; encoding; $"from"; data] true;
  lift (loads out).

End Files.
