(* ===== verification/Utils.v ===== *)
(** * Utilities of the tests (tests_python/tools/utils.py)

    Checks that are retried, context managers that expect a failure, readers of
    blocks and logs, signatures, and the scrubbing of client output.  The counter
    of [retry] is a variable shared by all calls of a decorated function: the
    class [Budgets] says where the state keeps it.  The cryptographic packages and
    [requests] are parameters. *)

From Stdlib Require Import ZArith Lia.
From stdpp Require Import base tactics list strings numbers.
From S2P Require Import Prelude PyStr PyExc PyRe PyDict PyFloat PyJson PyTime.
From S2P Require Import PyIO B58Prefix ClientOutput Daemons Client ClientCommands ClientFacts Constants Sandbox.

Local Open Scope Z_scope.
Local Open Scope py_scope.

(** ** retry *)

(** The attempts left to each decorated function, which outlive its calls. *)
Class Budgets (S : Type) := {
  attempts : str -> S -> Z;
  set_attempts : str -> Z -> S -> S;
  attempts_set n a s : attempts n (set_attempts n a s) = a;
  attempts_set_ne n n' a s : n <> n' -> attempts n (set_attempts n' a s) = attempts n s }.

Section Retry.
Context {S : Type} {B : Budgets S}.

(** The [while] loop: it ends when the counter is 0, so the counter is enough
    fuel. *)
Fixpoint retry_loop (fuel : nat) (name : str) (timeout : num) (func : M S bool) : M S bool :=
  match fuel with
  | O => mret false
  | Datatypes.S fuel =>
      ok ← func;
      if (ok : bool) then mret true
      else
        s ← get;
        if attempts name s =? 0 then print_ $"*** Failed after too many retries";; mret false
        else
          print_ ($"*** Will retry after " +:+ str_num timeout +:+ $" seconds...");;
          sleep (num_float timeout);;
          modify (fun s => set_attempts name (attempts name s - 1) s);;
          retry_loop fuel name timeout func
  end.

(** The wrapper of the function called [name]. *)
Definition retry (name : str) (timeout : num) (func : M S bool) : M S bool :=
  s ← get;
  retry_loop (Datatypes.S (Z.to_nat (attempts name s))) name timeout func.
End Retry.

(** The counters when the module has been loaded. *)
Definition initial_attempts : list (str * Z) :=
  [($"check_block_contains_operations", 10); ($"check_mempool_contains_operations", 20);
   ($"check_protocol", 120); ($"check_two_chains", 20); ($"check_level", 10);
   ($"check_level_greater_than", 10); ($"check_operation_in_receipt", 20); ($"synchronize", 20);
   ($"check_is_bootstrapped", 2)].

(** The counters kept in a dictionary. *)
#[export] Instance dict_budgets : Budgets (list (str * Z)).
Proof.
  refine {| attempts n d := default 0 (dget n d); set_attempts n a d := dset n a d |}.
  - intros n a d. by rewrite dget_dset_eq.
  - intros n n' a d H. by rewrite dget_dset_ne.
Defined.

(** ** Values of the JSON answers *)

(** [len(j)] *)
Definition jlen (j : json) : res Z :=
  match j with
  | JList l => Ok (Z.of_nat (length l))
  | JDict d => Ok (Z.of_nat (length d))
  | JStr s => Ok (Z.of_nat (length s))
  | _ => Raise TypeError
  end.

Definition jint (j : json) : option Z :=
  match j with JInt n => Some n | JBool b => Some (if b then 1 else 0) | _ => None end.

(** [a + b] *)
Definition jadd (a b : json) : res json :=
  match a, b with
  | JList l, JList l' => Ok (JList (l ++ l'))
  | JStr s, JStr s' => Ok (JStr (s ++ s'))
  | _, _ =>
      match jint a, jint b with
      | Some x, Some y => Ok (JInt (x + y))
      | _, _ => match jnum a, jnum b with
                | Some x, Some y => Ok (JFloat (fadd x y))
                | _, _ => Raise TypeError
                end
      end
  end.

(** [s in j] for a string *)
Definition jmem (s : str) (j : json) : res bool :=
  match j with
  | JList l => Ok (existsb (jeqb (JStr s)) l)
  | JStr t => Ok (contains s t)
  | JDict d => Ok (dmem s d)
  | _ => Raise TypeError
  end.

(** [all(p x for x in l)] *)
Fixpoint all_res {A} (p : A -> res bool) (l : list A) : res bool :=
  match l with
  | [] => Ok true
  | x :: r => b ← p x; if (b : bool) then all_res p r else Ok false
  end.

(** [for x in j] *)
Definition jiter (j : json) : res (list json) :=
  match j with
  | JList l => Ok l
  | JDict d => Ok (map (fun kv => JStr kv.1) d)
  | JStr s => Ok (map (fun c => JStr [c]) s)
  | _ => Raise TypeError
  end.

Definition hashable (j : json) : res json :=
  match j with JList _ | JDict _ => Raise TypeError | _ => Ok j end.

(** ** The checks *)

Definition max_list (l : list Z) : res Z :=
  match l with [] => Raise ValueError | x :: r => Ok (fold_left Z.max r x) end.
Definition min_list (l : list Z) : res Z :=
  match l with [] => Raise ValueError | x :: r => Ok (fold_left Z.min r x) end.

Section Checks.
Context {C : Type} {R : Runner C} {S : Type} {B : Budgets S} {o : OS} {U : UCD}.

Definition flatten_hashes (res : json) : PyExc.res json :=
  match res with
  | JNull => Ok (JList [])
  | _ =>
      n ← jlen res;
      if n =? 4 then
        r0 ← jindex 0 res; r1 ← jindex 1 res; a ← jadd r0 r1;
        r2 ← jindex 2 res; a ← jadd a r2;
        r3 ← jindex 3 res; jadd a r3
      else Ok (JList [])
  end.

Definition check_block_contains_operations (client : C) (operation_hashes : list str) : M S bool :=
  retry $"check_block_contains_operations" (NFloat (float_of_Z 1)) (
    res ← rpc client $"get" $"/chains/main/blocks/head/operation_hashes" None None;
    lift (flatten ← flatten_hashes res; all_res (fun oh => jmem oh flatten) operation_hashes)).

Definition check_mempool_contains_operations (client : C) (operation_hashes : list str) : M S bool :=
  retry $"check_mempool_contains_operations" (NFloat (float_of_Z 1)) (
    r ← get_mempool client;
    lift (mempool ← jkey $"applied" r;
          l ← jiter mempool;
          res ← mapM_res (fun x => h ← jkey $"hash" x; hashable h) l;
          Ok (forallb (fun oh => existsb (jeqb (JStr oh)) res) operation_hashes))).

Definition check_protocol (client : C) (proto : str) (params : option (list str)) : M S bool :=
  retry $"check_protocol" (NFloat (float_of_Z 2)) (
    res ← rpc client $"get" $"/chains/main/blocks/head/metadata" None params;
    lift (p ← jkey $"next_protocol" res; Ok (jeqb p (JStr proto)))).

Definition check_two_chains (client : C) : M S bool :=
  retry $"check_two_chains" (NFloat (float_of_Z 1)) (
    main_id ← rpc client $"get" $"chains/main/chain_id" None None;
    try_except
      (test_id ← rpc client $"get" $"chains/test/chain_id" None None;
       mret (negb (jeqb test_id main_id)))
      (fun e => match e with InvalidClientOutput _ => Some (mret false) | _ => None end)).

Definition check_level (client : C) (level : Z) (chain : str) : M S bool :=
  retry $"check_level" (NFloat (float_of_Z 2)) (
    l ← get_level client None chain $"head"; mret (l =? level)).

Definition check_level_greater_than (client : C) (level : Z) (chain : str) : M S bool :=
  retry $"check_level_greater_than" (NFloat (float_of_Z 2)) (
    l ← get_level client None chain $"head"; mret (level <=? l)).

Definition check_operation_in_receipt (client : C) (operation_hash : str) (check_previous : option Z) : M S bool :=
  retry $"check_operation_in_receipt" (NFloat (float_of_Z 2)) (
    let extra_param := match check_previous with
                       | Some n => if n =? 0 then [] else [$"--check-previous"; str_int n]
                       | None => []
                       end in
    receipt ← get_receipt client operation_hash (Some extra_param);
    mret match GetReceiptResult_block_hash receipt with Some _ => true | None => false end).

Definition synchronize (clients : list C) (max_diff : Z) : M S bool :=
  retry $"synchronize" (NInt 5) (
    levels ← collect clients (fun client => get_level client None $"main" $"head");
    lift (hi ← max_list levels; lo ← min_list levels; Ok (hi - lo <=? max_diff))).

Definition check_is_bootstrapped (client : C) (chain : str) : M S bool :=
  retry $"check_is_bootstrapped" (NInt 2) (
    r ← is_bootstrapped client chain; mret (jtruth r)).
End Checks.

(** ** Expected failures *)

Section Failures.
Context {S : Type}.

(** The body of the [with] runs inside the [try]: a body that returns reaches
    the [assert False], which the last handler catches and turns into another
    AssertionError. *)
Definition assert_request_failure (matcher : Z -> str -> M S ()) (body : M S ()) : M S () :=
  try_except (body;; raise AssertionError) (fun e =>
    match e with
    | HTTPError status content => Some (matcher status content)
    | _ => if is_Exception e then Some (raise AssertionError) else None
    end).

Definition assert_run_failure (pattern : regex) (mode : str) (body : M S ()) : M S () :=
  try_except (body;; raise AssertionError) (fun e =>
    match e with
    | CalledProcessError _ _ stdout_output stderr_output =>
        let data := if bool_decide (mode = $"stderr") then split_on nl stderr_output
                    else split_on nl stdout_output in
        Some (if existsb (found pattern) data then mret () else raise AssertionError)
    | _ => if is_Exception e then Some (raise AssertionError) else None
    end).
End Failures.

(** ** Blocks *)

Section Blocks.
Context {C : Type} {R : Runner C} {S : Type} {o : OS} {U : UCD}.
(** The reason phrases the server sends with the status codes. *)
Context (reason : Z -> str).

(** [str(exc)] *)
Definition str_http_error (status : Z) : str :=
  $"HTTP Error " +:+ str_int status +:+ $": " +:+ reason status.

Definition not_found_matcher (status : Z) (content : str) : M S () :=
  massert (bool_decide (str_http_error status = $"HTTP Error 404: Not Found")).

(** [None] is [JNull]. *)
Definition get_block_at_level (client : C) (level : Z) (expect_failure : bool) : M S json :=
  let path := $"/chains/main/blocks/" +:+ str_int level in
  if negb expect_failure then rpc_raw client $"get" path None
  else
    assert_request_failure not_found_matcher (rpc_raw client $"get" path None;; massert false);;
    mret JNull.

Definition get_block_header_at_level (client : C) (level : Z) : M S json :=
  rpc_raw client $"get" ($"/chains/main/blocks/" +:+ str_int level +:+ $"/header") None.

Definition metadata_matcher (status : Z) (content : str) : M S () :=
  massert (bool_decide (str_http_error status = $"HTTP Error 500: Internal Server Error"));;
  id ← lift (errors ← loads content; e ← jindex 0 errors; jkey $"id" e);
  massert (jeqb id (JStr $"store.metadata_not_found")).

Definition get_block_metadata_at_level (client : C) (level : Z) (expect_failure : bool) : M S json :=
  let path := $"/chains/main/blocks/" +:+ str_int level +:+ $"/metadata" in
  if negb expect_failure then rpc_raw client $"get" path None
  else
    assert_request_failure metadata_matcher (rpc_raw client $"get" path None;; massert false);;
    mret JNull.

Definition get_block_hash (client : C) (level : Z) : M S str :=
  block ← get_block_at_level client level false;
  h ← lift (jkey $"hash" block);
  match h with JStr s => mret s | _ => raise AssertionError end.

(** The text of a value inside a formatted string.  Containers, which are not
    formatted by this file, are shown as JSON. *)
Definition jformat (j : json) : str :=
  match j with
  | JStr s => s
  | JInt n => str_int n
  | JFloat x => str_float x
  | JNull => $"None"
  | JBool b => if b then $"True" else $"False"
  | JList _ | JDict _ => dumps j
  end.

(** The [while True] loop follows the predecessors until a block of level 0; the
    caller gives the fuel, [None] when it runs out. *)
Fixpoint all_blocks_loop (fuel : nat) (client : C) (cur : str) (blocks : list json) : M S (option (list json)) :=
  match fuel with
  | O => mret None
  | Datatypes.S fuel =>
      block ← rpc client $"get" ($"/chains/main/blocks/" +:+ cur) None None;
      header ← lift (jkey $"header" block);
      pred ← lift (jkey $"predecessor" header);
      level ← lift (jkey $"level" header);
      if jeqb level (JInt 0) then mret (Some (blocks ++ [block]))
      else all_blocks_loop fuel client (jformat pred) (blocks ++ [block])
  end.

Definition all_blocks (fuel : nat) (client : C) : M S (option (list json)) :=
  r ← all_blocks_loop fuel client $"head" [];
  mret (option_map (@rev json) r).

Definition operations_hash_from_block (block : json) : res (list json) :=
  ops ← jkey $"operations" block;
  l ← jiter ops;
  match l with
  | [_; _; _; operations] => ops ← jiter operations; mapM_res (jkey $"hash") ops
  | _ => Raise ValueError
  end.

(** ** Logs *)

Fixpoint first_match (pattern : regex) (file : str) (lines : list str) : M S bool :=
  match lines with
  | [] => mret true
  | line :: r =>
      if found pattern line then print_ ($"# " +:+ file);; print_ line;; mret false
      else first_match pattern file r
  end.

Fixpoint check_logs (logs : list str) (pattern : regex) : M S bool :=
  match logs with
  | [] => mret true
  | file :: r =>
      text ← read_file file;
      ok ← first_match pattern file (file_lines text);
      if (ok : bool) then check_logs r pattern else mret false
  end.

Fixpoint count_matches (pattern : regex) (file : str) (lines : list str) (count : Z) : M S Z :=
  match lines with
  | [] => mret count
  | line :: r =>
      if found pattern line then
        print_ ($"# " +:+ file);; print_ line;; count_matches pattern file r (count + 1)
      else count_matches pattern file r count
  end.

Fixpoint check_logs_counts_loop (logs : list str) (pattern : regex) (count : Z) : M S Z :=
  match logs with
  | [] => mret count
  | file :: r =>
      text ← read_file file;
      count ← count_matches pattern file (file_lines text) count;
      check_logs_counts_loop r pattern count
  end.

Definition check_logs_counts (logs : list str) (pattern : regex) : M S Z :=
  check_logs_counts_loop logs pattern 0.

(** ** Protocols *)

(** [ALPHA_PARAMETERS] is what get_parameters returned when constants was loaded. *)
Definition activate_protocol (ALPHA_PARAMETERS : json) (client : C) (proto : str) (parameters : option json)
    (timestamp : option str) (activate_in_the_past : bool) : M S () :=
  let parameters := default ALPHA_PARAMETERS parameters in
  let delay := if activate_in_the_past then Some (3600 * 24 * 365) else None in
  activate_protocol_json client proto parameters $"1" $"activator" timestamp delay;; mret ().

Definition activate_alpha (ALPHA_PARAMETERS : json) (client : C) (parameters : option json)
    (timestamp : option str) (activate_in_the_past : bool) : M S () :=
  activate_protocol ALPHA_PARAMETERS client ALPHA parameters timestamp activate_in_the_past.

Definition pprint (json_data : json) : M S () := print_ (dumps_pretty 0 json_data).
End Blocks.

(** ** Requests and signatures *)

Section Requests.
Context {S : Type} {Response : Type}.
(** The calls of the requests package, by method, path, body and headers. *)
Context (requests_call : trace -> str -> str -> option json -> option (list (str * str)) -> res Response).

Definition requests (verb path : str) (data : option json) (headers : option (list (str * str))) : M S Response :=
  request (EHttp (upper_ascii verb) path (option_map (fun d => encode (dumps d)) data))
    (fun t => requests_call t verb path data headers).

Definition rpc (server : str) (port : Z) (verb path : str) (data : option json)
    (headers : option (list (str * str))) : M S Response :=
  massert (bool_decide (verb ∈ [$"get"; $"post"; $"options"]));;
  let full_path := $"http://" +:+ server +:+ $":" +:+ str_int port +:+ $"/" +:+ path in
  print_ ($"# calling RPC " +:+ verb +:+ $" " +:+ full_path);;
  if bool_decide (verb = $"get") then requests verb full_path None headers
  else if bool_decide (verb = $"post") then
    print_ $"# post data BEGIN";;
    let data := default (JDict []) data in
    pprint data;;
    print_ $"# END";;
    requests verb full_path (Some data) headers
  else requests verb full_path data headers.
End Requests.

(** The packages base58check, hashlib, pyblake2 and ed25519: base-58 text of
    bytes and back, digests, and the signature with a secret key. *)
Class Crypto := {
  b58encode : bytes -> bytes;
  b58decode : str -> res bytes;
  sha256 : bytes -> bytes;
  blake2b_32 : bytes -> bytes;
  ed25519_sign : bytes -> bytes -> res bytes }.

Section Signatures.
Context {cr : Crypto}.

(** [bytes.fromhex] and [bytes.decode('ascii')] *)
Definition bytes_fromhex (s : str) : res bytes := or_raise ValueError (fromhex s).
Definition decode_ascii (bs : bytes) : res str :=
  if forallb (fun b => (0 <=? b) && (b <? 128)) bs then Ok (map Z.to_N bs) else Raise ValueError.

Definition sign (data secret_key : bytes) : res str :=
  let digest := blake2b_32 data in
  s ← ed25519_sign secret_key digest;
  Ok (hex s).

Definition b58_key_to_hex (b58_key : str) : res str :=
  bs ← b58decode b58_key; Ok (slice (Some 8) (Some (-8)) (hex bs)).

Definition b58_sig_to_hex (b58_sig : str) : res str :=
  bs ← b58decode b58_sig; Ok (slice (Some 10) (Some (-8)) (hex bs)).

Definition edsig_prefix : bytes := [9; 245; 205; 134; 18].

Definition hex_sig_to_b58 (hexsig : str) : res str :=
  bytes_sig ← bytes_fromhex hexsig;
  let prefixed_bytes_sig := edsig_prefix ++ bytes_sig in
  let checksum := slice (Some 0) (Some 4) (sha256 (sha256 prefixed_bytes_sig)) in
  let final_sig := prefixed_bytes_sig ++ checksum in
  decode_ascii (b58encode final_sig).

Definition sign_operation (encoded_operation secret_key : str) : res str :=
  op ← bytes_fromhex encoded_operation;
  let watermarked_operation := 3 :: op in
  sender_sk_hex ← b58_key_to_hex secret_key;
  sender_sk_bin ← bytes_fromhex sender_sk_hex;
  sig_hex ← sign watermarked_operation sender_sk_bin;
  Ok (encoded_operation +:+ sig_hex).
End Signatures.

Definition mutez_of_tez (tez : float) : res Z := trunc (fmul tez (float_of_Z 1000000)).

(** ** Contracts *)

Definition contract_name_of_file (contract_path : str) : str := splitext_root (basename contract_path).
Definition file_basename (path : str) : str := splitext_root (basename path).

(** The session dictionary the tests share. *)
Class Session (S : Type) := { session_set : str -> str -> S -> S }.

Section Contracts.
Context {C : Type} {R : Runner C} {S : Type} {o : OS} {U : UCD}.

Definition assert_storage_contains (client : C) (contract expected_storage : str) : M S () :=
  actual_storage ← get_storage client contract;
  massert (bool_decide (actual_storage = expected_storage)).

Definition default_bake_args : list str :=
  [$"--minimal-timestamp"; $"--minimal-fees"; $"0"; $"--minimal-nanotez-per-byte"; $"0";
   $"--minimal-nanotez-per-gas-unit"; $"0"].

Definition bake (client : C) (bake_for : str) (bake_args : option (list str)) : M S BakeForResult :=
  let bake_args := match bake_args with Some (x :: r) => x :: r | _ => default_bake_args end in
  ClientCommands.bake client bake_for (Some bake_args).

Definition init_with_transfer (client : C) (contract initial_storage : str) (amount : num) (sender : str)
    (contract_name : option str) : M S () :=
  let contract_name := match contract_name with Some n => n | None => contract_name_of_file contract end in
  ClientCommands.originate client contract_name amount sender contract
    (Some [$"-init"; initial_storage; $"--burn-cap"; $"10"]);;
  bake client $"bootstrap1" None;;
  mret ().

Definition assert_balance (client : C) (account : str) (expected_balance : float) : M S () :=
  actual_balance ← get_balance client account;
  massert (feqb actual_balance expected_balance).

(** The arguments are passed in the order contract, [param], [storage]. *)
Definition run_script_traced (client : C) (contract param storage : str) : M S RunScriptResult :=
  run_script client contract param storage None None None None true None true.

Definition assert_run_script_success (client : C) (contract param storage : str) : M S RunScriptResult :=
  run_script_traced client contract param storage.

Definition failwith_pattern : regex := rlit $"script reached FAILWITH instruction".

Definition assert_run_script_failwith (client : C) (contract param storage : str) : M S () :=
  assert_run_failure failwith_pattern $"stderr" (run_script_traced client contract param storage;; mret ()).

Definition assert_typecheck_data_failure (client : C) (data typ : str) (err : regex) : M S () :=
  assert_run_failure err $"stderr" (typecheck_data client data typ false;; mret ()).

Definition assert_typecheck_failure (client : C) (script : str) (err : regex) (file : bool) : M S () :=
  assert_run_failure err $"stderr" (typecheck client script file false false;; mret ()).

Definition assert_transfer_failwith (client : C) (amount : num) (sender receiver : str)
    (args : option (list str)) : M S () :=
  assert_run_failure failwith_pattern $"stderr" (transfer client amount sender receiver args [] None;; mret ()).

Context {B : Budgets S} {SS : Session S}.

Definition originate (client : C) (contract init_storage : str) (amount : num) (contract_name : option str)
    (sender baker burn_cap : str) (arguments : option (list str)) : M S OriginationResult :=
  let contract_name := match contract_name with Some n => n | None => file_basename contract end in
  let args := [$"--init"; init_storage; $"--burn-cap"; burn_cap] ++ default [] arguments in
  origination ← ClientCommands.originate client contract_name amount sender contract (Some args);
  modify (session_set $"contract" (OriginationResult_contract origination));;
  bake client baker None;;
  ok ← check_block_contains_operations client [OriginationResult_operation_hash origination];
  massert ok;;
  mret origination.
End Contracts.

(** ** Scrubbing of client output *)

(** The replacements contain no backslash. *)
Definition suball (replacements : list (regex * str)) (string : str) : str :=
  fold_left (fun string '(pattern, replacement) => re_sub pattern replacement string) replacements string.

(** A text that contains double quotes, written with single ones. *)
Definition dq (s : str) : str := map (fun c => if (c =? 39)%N then dquote else c) s.

Section Scrub.
Context {U : UCD}.

Definition scrub_constants : list (regex * str) :=
  [(rseqs [rlit (dq $"'proof_of_work_nonce': '"); rrep 16 rw; ch dquote], dq $"'proof_of_work_nonce': '[NONCE]'");
   (rseqs [rlit (dq $"'context': '"); rrep 52 rw; ch dquote], dq $"'context': '[CONTEXT]'");
   (rseqs [rlit (dq $"'level': "); rplus rd], dq $"'level': [LEVEL]");
   (rseqs [rlit (dq $"'priority': "); rplus rd], dq $"'priority': '[PRIORITY]'");
   (rseqs [rlit (dq $"'fitness': ["); rstar dot; ch 93], dq $"'fitness': '[FITNESS]'")].

Definition scrub_hashes : list (regex * str) :=
  [(rseqs [rlit $"sig"; rrep 93 rw], $"[SIGNATURE]");
   (rrep 53 rw, $"[OPERATION_HASH]");
   (rrep 51 rw, $"[BLOCK_HASH]");
   (rseqs [rlit $"tz"; rrep 34 rw], $"[CONTRACT_HASH]");
   (rseqs [rlit $"fees([CONTRACT_HASH],"; rplus rd; ch 41], $"fees([CONTRACT_HASH],[CTR])")].

Definition scrub_receipt : list (regex * str) :=
  [(rseqs [rlit $"Injecting block "; rplus dot], $"Injecting block ");
   (rseqs [rlit $"Operation hash is '"; rplus rw; ch 39], $"Operation hash is '[OPERATION_HASH]'");
   (rseqs [rlit $"wait for "; rplus rw], $"wait for [OPERATION_HASH]");
   (rseqs [rlit $"--branch "; rplus rw], $"--branch [BRANCH_HASH]");
   (rseqs [rlit $"KT"; rrep 34 rw], $"[CONTRACT_HASH]");
   (rseqs [rlit $"To: KT"; rrep 34 rw; rlit $" ..."], $"To: [CONTRACT_HASH] ...");
   (rseqs [rlit $"Injected block "; rrep 12 rw], $"Injected block [BLOCK_HASH]");
   (rseqs [rlit $"Expected counter: "; rplus rw], $"Expected counter: [EXPECTED_COUNTER]")].

Definition timestamp_pattern : regex :=
  rseqs [rrep 4 rd; ch 45; rrep 2 rd; ch 45; rrep 2 rd; ch 84; rrep 2 rd; ch 58; rrep 2 rd; ch 58; rrep 2 rd; ch 90].

Definition client_output_converter (pre : str) : str :=
  let pre := suball scrub_constants pre in
  let pre := suball scrub_hashes pre in
  let pre := suball scrub_receipt pre in
  re_sub timestamp_pattern $"[TIMESTAMP]" pre.

Definition client_always_output_converter (pre : str) : str :=
  re_sub (rseqs [rlit $"Runtime error in contract "; rplus rw; ch 58])
    $"Runtime error in contract [CONTRACT_HASH]:" pre.
End Scrub.

(** ** Snapshots: what a node has *)

(** [range(lo, hi)] *)
Definition range (lo hi : Z) : list Z := map (fun k => lo + Z.of_nat k) (seq 0 (Z.to_nat (hi - lo))).

Section Nodes.
Context {C : Type} {R : Runner C} {o : OS} {U : UCD}.
Context (reason : Z -> str).
Abbreviation SM := (M (Sandbox C)).

Definition level_of (j : json) : res json := h ← jkey $"header" j; jkey $"level" h.
Definition checkpoint_level (j : json) : res json := b ← jkey $"block" j; jkey $"level" b.

Definition node_consistency_after_import (node_id : Z)
    (expected_level expected_checkpoint expected_savepoint expected_caboose : Z) : SM () :=
  c ← Sandbox.client node_id; head ← get_head c; level ← lift (level_of head);
  c ← Sandbox.client node_id; cp ← get_checkpoint c; checkpoint ← lift (checkpoint_level cp);
  c ← Sandbox.client node_id; savepoint ← get_savepoint c;
  c ← Sandbox.client node_id; caboose ← get_caboose c;
  massert (jeqb level (JInt expected_level));;
  massert (jeqb checkpoint (JInt expected_checkpoint));;
  massert (jeqb savepoint (JInt expected_savepoint));;
  massert (jeqb caboose (JInt expected_caboose));;
  c ← Sandbox.client node_id; genesis ← get_block_at_level reason c 0 false;
  massert (jtruth genesis).

Definition full_node_blocks_availability (node_id savepoint head : Z) : SM () :=
  c ← Sandbox.client node_id; genesis ← get_block_at_level reason c 0 false;
  massert (jtruth genesis);;
  for_ (range 1 savepoint) (fun i =>
    c ← Sandbox.client node_id; get_block_header_at_level c i;;
    c ← Sandbox.client node_id; get_block_metadata_at_level reason c i true;; mret ());;
  for_ (range savepoint (head + 1)) (fun i =>
    c ← Sandbox.client node_id; get_block_metadata_at_level reason c i false;; mret ()).

Definition rolling_node_blocks_availability (node_id savepoint caboose head : Z) : SM () :=
  c ← Sandbox.client node_id; genesis ← get_block_at_level reason c 0 false;
  massert (jtruth genesis);;
  (if caboose =? 0 then mret ()
   else for_ (range 1 caboose) (fun i =>
     c ← Sandbox.client node_id; get_block_at_level reason c i true;; mret ()));;
  for_ (range (savepoint + 1) head) (fun i =>
    c ← Sandbox.client node_id; get_block_header_at_level c i;; mret ()).
End Nodes.
