(* ===== verification/UtilsFacts.v ===== *)
(** * Properties of the test utilities

    The attempts of [retry] and their sharing between calls, the round trip of
    signatures between hexadecimal and base 58, the log checks and the walk along the
    chain. *)

From Stdlib Require Import ZArith Lia.
From stdpp Require Import base tactics list strings numbers.
From S2P Require Import Prelude PyStr PyExc PyRe PyDict PyFloat PyJson PyTime.
From S2P Require Import PyIO B58Prefix ClientOutput Daemons Client ClientCommands ClientFacts Constants Sandbox Utils.

Local Open Scope Z_scope.
Local Open Scope py_scope.

(** ** retry *)

Section Retry.
Context {S : Type} {B : Budgets S}.

(** A check that does not touch the state: it is a function of the trace. *)
Definition stateless (f : trace -> res bool * trace) : M S bool :=
  fun s t => let '(r, t') := f t in (r, s, t').

(** What is printed and slept between two attempts. *)
Definition pause (timeout : num) : trace :=
  [EPrint ($"*** Will retry after " +:+ str_num timeout +:+ $" seconds..."); ESleep (num_float timeout)].

(** [k] attempts in a row fail; [t'] is the trace before the next one. *)
Inductive fails (f : trace -> res bool * trace) (timeout : num) : nat -> trace -> trace -> Prop :=
| fails_none t : fails f timeout 0 t t
| fails_more k t t1 t' : f t = (Ok false, t1) -> fails f timeout k (t1 ++ pause timeout) t' ->
    fails f timeout (Datatypes.S k) t t'.

Definition given_up : event := EPrint $"*** Failed after too many retries".

(** [a] attempts are left to the function, the others have what they had. *)
Definition leaves (name : str) (a : Z) (s s' : S) : Prop :=
  attempts name s' = a /\ forall name', name' <> name -> attempts name' s' = attempts name' s.

(** How a call with [n] attempts left ends. *)
Definition retry_outcome (f : trace -> res bool * trace) (name : str) (timeout : num) (n : nat)
    (s : S) (t : trace) (r : res bool * S * trace) : Prop :=
  match r with
  | (Ok true, s', t') => exists k t1, (k <= n)%nat /\ fails f timeout k t t1 /\ f t1 = (Ok true, t') /\
      leaves name (Z.of_nat (n - k)) s s'
  | (Ok false, s', t') => exists t1 t2, fails f timeout n t t1 /\ f t1 = (Ok false, t2) /\
      t' = t2 ++ [given_up] /\ leaves name 0 s s'
  | (Raise e, s', t') => exists k t1, (k <= n)%nat /\ fails f timeout k t t1 /\ f t1 = (Raise e, t') /\
      leaves name (Z.of_nat (n - k)) s s'
  end.

Lemma leaves_set name a b s s' : leaves name a (set_attempts name b s) s' -> leaves name a s s'.
Proof.
  intros [? H]. split; [done|]. intros n Hn. rewrite H by done. by apply attempts_set_ne.
Qed.

Lemma leaves_same name n s : attempts name s = n -> leaves name n s s.
Proof. by split. Qed.

Lemma retry_outcome_more f name timeout n s t t1 r :
  f t = (Ok false, t1) ->
  retry_outcome f name timeout n (set_attempts name (Z.of_nat n) s) (t1 ++ pause timeout) r ->
  retry_outcome f name timeout (Datatypes.S n) s t r.
Proof.
  intros Hf H. unfold retry_outcome in *. destruct r as [[[[]|e] s'] t'].
  - destruct H as (k & t2 & ? & ? & ? & H%leaves_set). exists (Datatypes.S k), t2.
    split_and!; [lia| by econstructor|done|done].
  - destruct H as (t2 & t3 & ? & ? & ? & H%leaves_set). exists t2, t3.
    split_and!; [by econstructor|done|done|done].
  - destruct H as (k & t2 & ? & ? & ? & H%leaves_set). exists (Datatypes.S k), t2.
    split_and!; [lia| by econstructor|done|done].
Qed.

(** An attempt that succeeds or raises ends the call. *)
Lemma retry_outcome_now f name timeout n s t r t' :
  attempts name s = Z.of_nat n -> f t = (r, t') -> r <> Ok false ->
  retry_outcome f name timeout n s t (r, s, t').
Proof.
  intros Hn Hf Hr. assert (Hl : leaves name (Z.of_nat (n - 0)) s s).
  { apply leaves_same. rewrite Hn. f_equal. lia. }
  destruct r as [[]|e]; [|done|]; exists 0%nat, t; (split_and!; [lia|constructor|done|done]).
Qed.

(** One round of the loop. *)
Lemma retry_loop_round fuel name timeout f s t :
  retry_loop (Datatypes.S fuel) name timeout (stateless f) s t =
  match f t with
  | (Ok true, t') => (Ok true, s, t')
  | (Ok false, t') =>
      if attempts name s =? 0 then (Ok false, s, t' ++ [given_up])
      else retry_loop fuel name timeout (stateless f) (set_attempts name (attempts name s - 1) s) (t' ++ pause timeout)
  | (Raise e, t') => (Raise e, s, t')
  end.
Proof.
  cbn [retry_loop]. unfold mbind at 1, M_bind at 1.
  change (stateless f s t) with (let '(r, t') := f t in (r, s, t')).
  destruct (f t) as [[[]|e] t']; [done| |done]. unfold get, mbind at 1, M_bind at 1.
  destruct (attempts name s =? 0); [done|]. unfold print_, sleep, modify, emit, mbind, M_bind.
  by rewrite <- app_assoc.
Qed.

Lemma retry_loop_spec f name timeout n : forall s t, attempts name s = Z.of_nat n ->
  retry_outcome f name timeout n s t (retry_loop (Datatypes.S n) name timeout (stateless f) s t).
Proof.
  induction n as [|n IH]; intros s t Hn; rewrite retry_loop_round, Hn;
    destruct (f t) as [[[]|e] t'] eqn:E; try (by eapply retry_outcome_now).
  - exists t, t'. split_and!; [constructor|done|done|by apply leaves_same].
  - destruct (Z.eqb_spec (Z.of_nat (Datatypes.S n)) 0); [lia|].
    apply (retry_outcome_more _ _ _ _ _ _ t' _ E).
    replace (Z.of_nat (Datatypes.S n) - 1) with (Z.of_nat n) by lia. apply IH. by rewrite attempts_set.
Qed.

(** C27. A call of a retried check with [n] attempts left always ends.  It returns
    True at the first attempt, of at most [n]+1, that succeeds, and False after
    [n]+1 attempts that fail: one more than the docstring of retry allows, which
    calls [n] the maximal number of attempts.  The counter is shared by all calls: each failed
    attempt is taken from the later calls, and after a call that returned False
    every later call of the same function makes one attempt only. *)
Theorem retry_shares_attempts f name timeout (s : S) t :
  0 <= attempts name s ->
  retry_outcome f name timeout (Z.to_nat (attempts name s)) s t (retry name timeout (stateless f) s t) /\
  forall s' t', retry name timeout (stateless f) s t = (Ok false, s', t') ->
    forall g, retry name timeout (stateless g) s' t' =
      (let '(r, t2) := g t' in (r, s', match r with Ok false => t2 ++ [given_up] | _ => t2 end)).
Proof.
  intros Hn.
  assert (H : retry_outcome f name timeout (Z.to_nat (attempts name s)) s t (retry name timeout (stateless f) s t)).
  { unfold retry, get. unfold mbind, M_bind. apply retry_loop_spec. lia. }
  split; [done|]. intros s' t' E g. rewrite E in H. destruct H as (_ & _ & _ & _ & _ & H0 & _).
  unfold retry, get. unfold mbind at 1, M_bind at 1. rewrite H0. cbn [Z.to_nat].
  rewrite retry_loop_round, H0. by destruct (g t') as [[[]|e] t2].
Qed.
End Retry.


Lemma retry_shares_attempts_witness :
  let never t := (Ok false, t) in
  let once t := (Ok (negb (bool_decide (t = []))), t ++ [EPoll 1]) in
  let d := [($"check_level", 1)] in
  exists s' t', retry $"check_level" (NInt 2) (stateless never) d [] = (Ok false, s', t') /\
    retry $"check_level" (NInt 2) (stateless never) s' [] = (Ok false, s', [given_up]) /\
    retry $"check_level" (NInt 2) (stateless once) s' t' = (let '(r, t2) := once t' in
      (r, s', match r with Ok false => t2 ++ [given_up] | _ => t2 end)).
Proof.
  intros never once d. eexists _, _. split; [vm_compute; reflexivity|]. split; [vm_compute; reflexivity|].
  refine (proj2 (retry_shares_attempts never $"check_level" (NInt 2) d [] _) _ _ _ once).
  - vm_compute. discriminate.
  - vm_compute. reflexivity.
Defined.

(** ** Signatures *)

(** What the packages document: base 58 is the positional text of the bytes and
    decoding is its inverse; a SHA-256 digest has 32 bytes. *)
Class CryptoSpec (cr : Crypto) : Prop := {
  b58encode_text bs : Forall is_byte bs -> b58encode bs = b58_text bs;
  b58decode_text bs : Forall is_byte bs -> b58decode (map Z.to_N (b58_text bs)) = Ok bs;
  sha256_length bs : length (sha256 bs) = 32%nat;
  sha256_bytes bs : Forall is_byte (sha256 bs) }.

Lemma b58_char_ascii d : is_digit 58 d -> 0 <= b58_char d < 128.
Proof.
  intros [? ?]. unfold b58_char. destruct (ALPHABET !! Z.to_nat d) as [c|] eqn:E; [|lia].
  assert (HA : Forall (fun c => (c < 128)%N) ALPHABET).
  { refine (bool_decide_unpack _ _). vm_compute. exact I. }
  rewrite Forall_lookup in HA. specialize (HA _ _ E). cbn in HA. lia.
Qed.

Lemma b58_text_ascii bs : Forall (fun b => 0 <= b < 128) (b58_text bs).
Proof.
  unfold b58_text. apply Forall_app. split; [by apply Forall_repeat|].
  apply Forall_map. eapply List.Forall_impl; [|apply (digits_digit 58); lia].
  intros d Hd. by apply b58_char_ascii.
Qed.

Lemma decode_ascii_ok bs : Forall (fun b => 0 <= b < 128) bs -> decode_ascii bs = Ok (map Z.to_N bs).
Proof.
  intros H. unfold decode_ascii. replace (forallb _ bs) with true; [done|]. symmetry.
  apply forallb_forall. intros b Hb. rewrite List.Forall_forall in H. specialize (H b Hb). lia.
Qed.

Lemma startswith_map_to_N p bs : Forall (fun b => 0 <= b) bs ->
  startswith (map Z.of_N p) bs = true -> startswith p (map Z.to_N bs) = true.
Proof.
  intros Hb [r ->]%startswith_spec. rewrite map_app, map_map.
  rewrite (map_ext _ id) by apply N2Z.id. rewrite map_id. apply startswith_app.
Qed.

(** Every signature of 64 bytes, with a checksum, is in the interval of "edsig". *)
Lemma edsig_text bs ck : Forall is_byte bs -> length bs = 64%nat -> Forall is_byte ck -> length ck = 4%nat ->
  startswith (encode $"edsig") (b58_text ((edsig_prefix ++ bs) ++ ck)) = true /\
  length (b58_text ((edsig_prefix ++ bs) ++ ck)) = 99%nat.
Proof.
  intros Hb Hl Hk Hlk.
  destruct (text_in_interval $"edsig" 94 ((edsig_prefix ++ bs) ++ ck)) as [H1 H2].
  - split; [refine (bool_decide_unpack _ _); vm_compute; exact I|vm_compute; discriminate].
  - lia.
  - done.
  - rewrite <- app_assoc, undigits_app, length_app, Hl, Hlk.
    pose proof (undigits_bound 256 (bs ++ ck) ltac:(lia) (proj2 (Forall_app _ _ _) (conj Hb Hk))) as Hu.
    rewrite length_app, Hl, Hlk in Hu. revert Hu. generalize (undigits 256 (bs ++ ck)). intros u Hu.
    change (64 + 4)%nat with 68%nat in *.
    assert (b58dec $"edsig" * 58 ^ 94 <= undigits 256 edsig_prefix * 256 ^ Z.of_nat 68) by (vm_compute; discriminate).
    assert ((undigits 256 edsig_prefix + 1) * 256 ^ Z.of_nat 68 <= (b58dec $"edsig" + 1) * 58 ^ 94)
      by (vm_compute; discriminate).
    lia.
  - split; [done|]. change (length $"edsig") with 5%nat in H2. lia.
Qed.

Section Signatures.
Context {cr : Crypto} {cs : CryptoSpec cr}.

Definition checksum (bs : bytes) : bytes := take 4 (sha256 (sha256 (edsig_prefix ++ bs))).

Lemma checksum_ok bs : length (checksum bs) = 4%nat /\ Forall is_byte (checksum bs).
Proof.
  unfold checksum. rewrite length_take, sha256_length. split; [done|]. apply Forall_take, sha256_bytes.
Qed.

Lemma hex_sig_to_b58_ok bs : Forall is_byte bs ->
  hex_sig_to_b58 (hex bs) = Ok (map Z.to_N (b58_text ((edsig_prefix ++ bs) ++ checksum bs))).
Proof.
  intros Hb. unfold hex_sig_to_b58, bytes_fromhex. rewrite fromhex_hex by done. cbn [or_raise mbind res_bind].
  assert (E : forall l : bytes, length l = 32%nat -> slice (Some 0) (Some 4) l = take 4 l).
  { intros l Hl. unfold slice, clamp_index. rewrite Hl. done. }
  rewrite E by apply sha256_length. fold (checksum bs). rewrite b58encode_text.
  - apply decode_ascii_ok, b58_text_ascii.
  - rewrite !Forall_app. split; [split; [|done]|apply checksum_ok].
    unfold edsig_prefix, is_byte. repeat constructor; lia.
Qed.

(** C12. A signature of 64 bytes written in hexadecimal is translated to a text of
    99 characters that starts with "edsig", and translating it back gives the
    hexadecimal text. *)
Theorem signature_roundtrip bs :
  Forall is_byte bs -> length bs = 64%nat ->
  exists b58_sig, hex_sig_to_b58 (hex bs) = Ok b58_sig /\ b58_sig_to_hex b58_sig = Ok (hex bs) /\
    startswith $"edsig" b58_sig = true /\ length b58_sig = 99%nat.
Proof.
  intros Hb Hl. destruct (checksum_ok bs) as [Hk1 Hk2]. eexists. split; [by apply hex_sig_to_b58_ok|].
  destruct (edsig_text bs (checksum bs) Hb Hl Hk2 Hk1) as [H1 H2]. split; [|split].
  - unfold b58_sig_to_hex. rewrite b58decode_text.
    + cbn [mbind res_bind]. rewrite !hex_app, <- app_assoc. f_equal. apply (slice_strip_ends (hex edsig_prefix) (hex bs) (hex (checksum bs)) 10 8); rewrite ?length_hex, ?Hk1; done.
    + rewrite !Forall_app. split; [split; [|done]|done]. unfold edsig_prefix, is_byte. repeat constructor; lia.
  - apply startswith_map_to_N; [|done]. eapply List.Forall_impl; [|apply b58_text_ascii]. cbn. lia.
  - by rewrite length_map.
Qed.
End Signatures.

(** A decoder of base 58, and a digest of the right size. *)
Definition toy_b58decode (s : str) : res bytes :=
  let bs := map Z.of_N s in
  let ds := map (fun c => find_char (Z.to_N c) ALPHABET) (drop_while (Z.eqb 49) bs) in
  Ok (repeat 0 (length (take_while (Z.eqb 49) bs)) ++ digits 256 (undigits 58 ds)).

Definition toy_crypto : Crypto :=
  {| b58encode := b58_text; b58decode := toy_b58decode; sha256 _ := repeat 7 32;
     blake2b_32 _ := repeat 7 32; ed25519_sign _ _ := Ok (repeat 7 64) |}.

Lemma find_b58_char d : is_digit 58 d -> find_char (Z.to_N (b58_char d)) ALPHABET = d.
Proof.
  intros [? ?].
  assert (HA : forallb (fun k => find_char (Z.to_N (b58_char (Z.of_nat k))) ALPHABET =? Z.of_nat k) (seq 0 58) = true)
    by (vm_compute; reflexivity).
  rewrite forallb_forall in HA. specialize (HA (Z.to_nat d)).
  rewrite Z2Nat.id in HA by done. apply Z.eqb_eq, HA, in_seq. lia.
Qed.

Lemma take_drop_repeat x k l : hd (x + 1) l <> x ->
  take_while (Z.eqb x) (repeat x k ++ l) = repeat x k /\ drop_while (Z.eqb x) (repeat x k ++ l) = l.
Proof.
  intros H. induction k as [|k [IH1 IH2]]; cbn [repeat app take_while drop_while].
  - destruct l as [|y l]; [done|]. cbn in *. destruct (Z.eqb_spec x y); [congruence|done].
  - rewrite Z.eqb_refl. by rewrite IH1, IH2.
Qed.

(** Bytes are some zeros and a list that does not start with zero. *)
Lemma split_zeros (bs : bytes) : exists r, bs = repeat 0 (leading_zeros bs) ++ r /\ no_leading_zero r.
Proof.
  induction bs as [|b bs (r & IH & Hr)]; [by exists []|]. unfold leading_zeros in *. cbn [take_while].
  destruct (Z.eqb_spec 0 b) as [<-|Hb].
  - exists r. cbn. by rewrite <- IH.
  - exists (b :: bs). split; [done|]. unfold no_leading_zero. cbn. congruence.
Qed.

Lemma toy_b58decode_text bs : Forall is_byte bs -> toy_b58decode (map Z.to_N (b58_text bs)) = Ok bs.
Proof.
  intros Hb. unfold toy_b58decode. rewrite map_map.
  rewrite (map_ext_in _ id), map_id.
  2: { intros c Hc. pose proof (b58_text_ascii bs) as H. rewrite List.Forall_forall in H.
       specialize (H c Hc). unfold id. lia. }
  destruct (split_zeros bs) as (r & Hr & Hz). unfold b58_text.
  assert (Hv : undigits 256 bs = undigits 256 r).
  { rewrite Hr, undigits_app, undigits_repeat_zero. lia. }
  assert (Hbr : Forall is_byte r) by (rewrite Hr in Hb; by apply Forall_app in Hb as [_ ?]).
  assert (H0 : 0 <= undigits 256 r) by (apply undigits_bound; [lia|done]).
  rewrite Hv. set (n := undigits 256 r) in *.
  pose proof (digits_digit 58 n ltac:(lia)) as Hd. pose proof (digits_no_leading_zero 58 n ltac:(lia) H0) as Hn.
  destruct (take_drop_repeat 49 (leading_zeros bs) (map b58_char (digits 58 n))) as [-> ->].
  { destruct (digits 58 n) as [|d l]; cbn; [lia|]. unfold no_leading_zero in Hn. cbn in Hn.
    inversion Hd; subst. rewrite <- b58_char_zero. intros E. apply b58_char_inj in E; [done|done|].
    unfold is_digit. lia. }
  rewrite repeat_length, map_map. rewrite (map_ext_in _ id), map_id.
  2: { intros d Hin. rewrite List.Forall_forall in Hd. by apply find_b58_char, Hd. }
  rewrite undigits_digits by lia. rewrite Hr at 2. do 2 f_equal.
  apply (undigits_inj 256); [lia|by apply digits_digit|done|by apply digits_no_leading_zero|done|].
  by rewrite undigits_digits by lia.
Qed.

#[export] Instance toy_crypto_spec : CryptoSpec toy_crypto.
Proof.
  constructor.
  - done.
  - intros bs Hb. by apply toy_b58decode_text.
  - done.
  - intros bs. apply Forall_repeat. unfold is_byte. lia.
Qed.

Lemma signature_roundtrip_witness :
  exists b58_sig, hex_sig_to_b58 (cr := toy_crypto) (hex (repeat 9 64)) = Ok b58_sig /\
    b58_sig_to_hex (cr := toy_crypto) b58_sig = Ok (hex (repeat 9 64)) /\
    startswith $"edsig" b58_sig = true /\ length b58_sig = 99%nat.
Proof.
  apply (@signature_roundtrip toy_crypto toy_crypto_spec (repeat 9 64)).
  - apply Forall_repeat. unfold is_byte. lia.
  - reflexivity.
Defined.

(** ** Logs *)

Section Logs.
Context {S : Type} {o : OS}.

(** The texts of the logs, as long as they can be read. *)
Definition readable (logs texts : list str) : Prop :=
  Forall2 (fun file text => forall t, os_read t file = Ok text) logs texts.

Definition matching (pattern : regex) (text : str) : list str := List.filter (found pattern) (file_lines text).

Lemma first_match_spec pattern file lines (s : S) : forall t, exists t',
  first_match pattern file lines s t = (Ok (forallb (fun l => negb (found pattern l)) lines), s, t').
Proof.
  induction lines as [|line lines IH]; intros t; cbn [first_match forallb]; [by eauto|].
  destruct (found pattern line); [|by apply IH]. m_run. by eauto.
Qed.

Lemma count_matches_spec pattern file lines (s : S) : forall n t, exists t',
  count_matches pattern file lines n s t = (Ok (n + Z.of_nat (length (List.filter (found pattern) lines))), s, t').
Proof.
  induction lines as [|line lines IH]; intros n t; cbn [count_matches List.filter].
  - exists t. by rewrite Z.add_0_r.
  - destruct (found pattern line); [|by apply IH]. unfold print_, emit, mbind, M_bind.
    match goal with |- context [count_matches _ _ _ ?n s ?t] => destruct (IH n t) as (t' & ->) end.
    exists t'. cbn [length]. do 3 f_equal. lia.
Qed.

Lemma check_logs_counts_loop_spec pattern logs texts (s : S) : readable logs texts -> forall n t, exists t',
  check_logs_counts_loop logs pattern n s t
  = (Ok (n + Z.of_nat (length (flat_map (matching pattern) texts))), s, t').
Proof.
  intros H. induction H as [|file text logs texts Hr _ IH]; intros n t; cbn [check_logs_counts_loop flat_map].
  - exists t. by rewrite Z.add_0_r.
  - unfold read_file. unfold mbind at 1, M_bind at 1. rewrite Hr. unfold mbind, M_bind.
    destruct (count_matches_spec pattern file (file_lines text) s n t) as (t1 & ->).
    match goal with |- context [check_logs_counts_loop _ _ ?n s ?t] => destruct (IH n t) as (t' & ->) end.
    exists t'. rewrite length_app. do 3 f_equal. unfold matching. lia.
Qed.

Lemma check_logs_spec pattern logs texts (s : S) : readable logs texts -> forall t, exists b t',
  check_logs logs pattern s t = (Ok b, s, t') /\ (b = true <-> flat_map (matching pattern) texts = []).
Proof.
  intros H. induction H as [|file text logs texts Hr _ IH]; intros t; cbn [check_logs flat_map].
  - by exists true, t.
  - unfold read_file. unfold mbind at 1, M_bind at 1. rewrite Hr. unfold mbind, M_bind.
    destruct (first_match_spec pattern file (file_lines text) s t) as (t1 & ->).
    assert (Hm : forallb (fun l => negb (found pattern l)) (file_lines text) = true <-> matching pattern text = []).
    { unfold matching. induction (file_lines text) as [|l ls IHl]; cbn; [done|].
      destruct (found pattern l); cbn; [done|]. by rewrite IHl. }
    destruct (forallb _ (file_lines text)).
    + destruct (IH t1) as (b & t' & -> & Hb). exists b, t'. split; [done|]. by rewrite (proj1 Hm).
    + exists false, t1. split; [done|]. split; [done|]. intros [H0 _]%app_eq_nil. by apply Hm in H0.
Qed.

(** For logs that can be read, check_logs_counts returns the number of lines
    of all logs that match, and check_logs returns whether there is none. *)
Theorem check_logs_exact pattern logs texts (s : S) t :
  readable logs texts ->
  (exists b, (check_logs logs pattern s t).1 = (Ok b, s) /\
     (b = true <-> flat_map (matching pattern) texts = [])) /\
  (check_logs_counts logs pattern s t).1 = (Ok (Z.of_nat (length (flat_map (matching pattern) texts))), s).
Proof.
  intros H. split.
  - destruct (check_logs_spec pattern logs texts s H t) as (b & t' & -> & Hb). by exists b.
  - unfold check_logs_counts. by destruct (check_logs_counts_loop_spec pattern logs texts s H 0 t) as (t' & ->).
Qed.
End Logs.

(** A system with a log of two lines. *)
Definition log_os : OS :=
  {| os_isfile _ _ := true; os_isdir _ _ := true; os_environ _ := [];
     os_run _ _ _ _ := Raise OSError; os_spawn _ _ _ _ := Raise OSError;
     os_poll _ _ := None; os_wait _ _ _ := None; os_mkdtemp _ _ := Raise OSError;
     os_tempfile _ := Raise OSError; os_rmtree _ _ := Raise OSError;
     os_read _ _ := Ok (join [nl] [$"ok"; $"Error: bad"; []]); os_write _ _ _ := Raise OSError;
     os_http _ _ _ _ := Raise OSError; os_utcnow _ := 0; os_getcwd _ := $"/";
     os_listdir _ _ := Raise OSError; os_exec _ _ _ _ := Raise OSError |}.

Lemma check_logs_exact_witness :
  (check_logs_counts (o := log_os) [$"a.log"; $"b.log"] (rlit $"Error") () []).1 = (Ok 2, ()).
Proof.
  refine (proj2 (@check_logs_exact () log_os (rlit $"Error") [$"a.log"; $"b.log"]
    [join [nl] [$"ok"; $"Error: bad"; []]; join [nl] [$"ok"; $"Error: bad"; []]] () [] _)).
  repeat constructor.
Defined.

(** ** The chain *)

Section Chain.
Context {C : Type} {R : Runner C} {S : Type} {o : OS} {U : UCD}.
Context (client : C).

(** The node answers with this block for this identifier. *)
Definition serves (cur : str) (block : json) : Prop :=
  forall (s : S) t, (Client.rpc client $"get" ($"/chains/main/blocks/" +:+ cur) None None s t).1 = (Ok block, s).

(** The blocks from [cur] down to the genesis, highest first. *)
Inductive linked : str -> nat -> list json -> Prop :=
| linked_genesis cur block header pred :
    serves cur block -> jkey $"header" block = Ok header -> jkey $"predecessor" header = Ok pred ->
    jkey $"level" header = Ok (JInt 0) -> linked cur 0 [block]
| linked_next cur block header pred n l :
    serves cur block -> jkey $"header" block = Ok header -> jkey $"predecessor" header = Ok (JStr pred) ->
    jkey $"level" header = Ok (JInt (Z.of_nat (Datatypes.S n))) -> linked pred n l ->
    linked cur (Datatypes.S n) (block :: l).

Lemma all_blocks_loop_spec cur n l : linked cur n l -> forall fuel acc (s : S) t, (n < fuel)%nat ->
  (all_blocks_loop fuel client cur acc s t).1 = (Ok (Some (acc ++ l)), s).
Proof.
  induction 1 as [cur b h p Hs Hh Hp Hl|cur b h p n l Hs Hh Hp Hl _ IH]; intros [|fuel] acc s t Hf;
    try lia; cbn [all_blocks_loop]; unfold mbind, M_bind; specialize (Hs s t);
    destruct (Client.rpc client _ _ _ _ s t) as [[r s'] t']; cbn in Hs; simplify_eq; unfold lift;
    rewrite Hh; cbn beta iota; rewrite Hp; cbn beta iota; rewrite Hl; cbn beta iota.
  - done.
  - replace (jeqb (JInt (Z.of_nat (Datatypes.S n))) (JInt 0)) with false by done.
    cbn [jformat]. rewrite IH by lia. by rewrite <- app_assoc.
Qed.

(** C31. If the node serves a chain whose blocks name their predecessors and count
    their levels down to 0, all_blocks returns, with more fuel than the level of
    the head, exactly its blocks from the genesis to the head. *)
Theorem all_blocks_chain n l fuel (s : S) t :
  linked $"head" n l -> (n < fuel)%nat ->
  (all_blocks fuel client s t).1 = (Ok (Some (rev l)), s) /\ length l = Datatypes.S n.
Proof.
  intros Hl Hf. split.
  - unfold all_blocks. unfold mbind, M_bind. pose proof (all_blocks_loop_spec _ _ _ Hl fuel [] s t Hf) as H.
    destruct (all_blocks_loop _ _ _ _ s t) as [[r s'] t']. cbn in H. by simplify_eq.
  - induction Hl; cbn; [done|]. f_equal. apply IHHl. lia.
Qed.
End Chain.

(** A node with two blocks. *)
Definition block_text (level pred : str) : str :=
  dq ($"{'header': {'level': " +:+ level +:+ $", 'predecessor': '" +:+ pred +:+ $"'}}").

Definition two_blocks_os : OS :=
  {| os_isfile _ _ := true; os_isdir _ _ := true; os_environ _ := [];
     os_run _ cmd _ _ := Ok (ProcResult (encode (
       if bool_decide (List.last cmd [] = $"/chains/main/blocks/head")
       then block_text $"1" $"BLgen" else block_text $"0" $"BLgen")) [] 0);
     os_spawn _ _ _ _ := Raise OSError;
     os_poll _ _ := None; os_wait _ _ _ := None; os_mkdtemp _ _ := Raise OSError;
     os_tempfile _ := Raise OSError; os_rmtree _ _ := Raise OSError;
     os_read _ _ := Raise OSError; os_write _ _ _ := Raise OSError;
     os_http _ _ _ _ := Raise OSError; os_utcnow _ := 0; os_getcwd _ := $"/";
     os_listdir _ _ := Raise OSError; os_exec _ _ _ _ := Raise OSError |}.

Definition sample_block (level : Z) : json :=
  JDict [($"header", JDict [($"level", JInt level); ($"predecessor", JStr $"BLgen")])].

Lemma all_blocks_chain_witness :
  (all_blocks (o := two_blocks_os) 2 sample_client () []).1
  = (Ok (Some [sample_block 0; sample_block 1]), ()).
Proof.
  refine (proj1 (@all_blocks_chain _ _ () two_blocks_os sample_client 1
    [sample_block 1; sample_block 0] 2 () [] _ _)).
  - eapply linked_next; [|reflexivity|reflexivity|reflexivity|].
    + intros s t. vm_compute. reflexivity.
    + eapply linked_genesis; [|reflexivity|reflexivity|reflexivity].
      intros s t. vm_compute. reflexivity.
  - lia.
Defined.

(** ** Availability of blocks *)

Lemma elem_of_range lo hi i : i ∈ range lo hi <-> lo <= i < hi.
Proof.
  unfold range. rewrite list_elem_of_fmap. split.
  - intros (k & -> & Hk). rewrite elem_of_seq in Hk. lia.
  - intros H. exists (Z.to_nat (i - lo)). rewrite elem_of_seq. lia.
Qed.
