(* ===== verification/Availability.v ===== *)
(** * The availability of blocks (tools/utils.py)

    The two checks of tests on the history mode of a node ask for blocks, headers
    and metadata level by level.  For a node whose answers do not change, the
    theorems say which answers each check accepts. *)

From Stdlib Require Import ZArith Lia.
From stdpp Require Import base tactics list strings numbers.
From S2P Require Import Prelude PyStr PyExc PyRe PyDict PyFloat PyJson PyTime.
From S2P Require Import PyIO ClientOutput Daemons Client ClientCommands ClientFacts Sandbox Utils UtilsFacts.

Local Open Scope Z_scope.
Local Open Scope py_scope.

Section Availability.
Context {C : Type} {R : Runner C} {o : OS} {U : UCD} (reason : Z -> str).

(** The node answers each request the same way at any time. *)
Context (answer : str -> res bytes).
Context (answer_spec : forall t url, os_http t $"GET" url None = answer url).

(** The value of an RPC, or the exception of the call. *)
Definition fetch (c : C) (path : str) : res json :=
  body ← answer (endpoint (client_of c) +:+ path);
  text ← decode_utf8 body;
  loads text.

Lemma rpc_raw_fetch {S} (c : C) path (s : S) t : (rpc_raw c $"get" path None s t).1 = (fetch c path, s).
Proof using answer_spec.
  unfold rpc_raw, fetch. m_run. change (upper_ascii $"get") with $"GET". rewrite answer_spec.
  destruct (answer _) as [body|e]; [|done]. cbn [res_bind].
  destruct (decode_utf8 body) as [text|e]; done.
Qed.

Definition block_path (i : Z) : str := $"/chains/main/blocks/" +:+ str_int i.
Definition header_path (i : Z) : str := $"/chains/main/blocks/" +:+ str_int i +:+ $"/header".
Definition metadata_path (i : Z) : str := $"/chains/main/blocks/" +:+ str_int i +:+ $"/metadata".

(** The node refuses the metadata of a block in the expected way: status 500 and
    a list of errors whose first is metadata_not_found. *)
Definition metadata_pruned (c : C) (i : Z) : Prop :=
  exists status content errors e,
    fetch c (metadata_path i) = Raise (HTTPError status content) /\
    str_http_error reason status = $"HTTP Error 500: Internal Server Error" /\
    loads content = Ok errors /\ jindex 0 errors = Ok e /\
    exists id, jkey $"id" e = Ok id /\ jeqb id (JStr $"store.metadata_not_found") = true.

(** A computation with a fixed result that leaves the state alone. *)
Definition gives {S A} (m : M S A) (s : S) (r : res A) : Prop := forall t, (m s t).1 = (r, s).

Lemma gives_bind {S A B} (m : M S A) (f : A -> M S B) s r r' :
  gives m s r -> (forall a, r = Ok a -> gives (f a) s r') -> (forall e, r = Raise e -> r' = Raise e) ->
  gives (m ≫= f) s r'.
Proof.
  intros Hm Hf He t. specialize (Hm t). unfold mbind, M_bind. destruct (m s t) as [[r1 s1] t1].
  cbn in Hm. simplify_eq. destruct r as [a|e]; [by apply Hf|]. by rewrite (He e).
Qed.

Lemma gives_ret {S A} (a : A) (s : S) : gives (mret a) s (Ok a).
Proof. done. Qed.

(** A loop succeeds exactly if its body does on every element. *)
Lemma for_gives {S A} (l : list A) (f : A -> M S ()) (r : A -> res ()) s :
  (forall a, gives (f a) s (r a)) ->
  exists x, gives (for_ l f) s x /\ (x = Ok () <-> forall a, a ∈ l -> r a = Ok ()).
Proof.
  intros Hf. induction l as [|a l (x & Hx & IH)].
  - exists (Ok ()). split; [done|]. split; [|done]. intros _ a Ha. by apply elem_of_nil in Ha.
  - cbn [for_]. exists (match r a with Ok _ => x | Raise e => Raise e end). split.
    + eapply gives_bind; [apply Hf| |]; intros y ->; done.
    + destruct (r a) as [[]|e] eqn:E.
      * rewrite IH. split; [|intros H b Hb; apply H, elem_of_cons; by right].
        intros H b [->|Hb]%elem_of_cons; [done|by apply H].
      * split; [done|]. intros H. rewrite <- E. apply H, elem_of_cons. by left.
Qed.

Definition meta_match (status : Z) (content : str) : res () :=
  _ ← assert_ (bool_decide (str_http_error reason status = $"HTTP Error 500: Internal Server Error"));
  id ← (errors ← loads content; e ← jindex 0 errors; jkey $"id" e);
  assert_ (jeqb id (JStr $"store.metadata_not_found")).

(** The outcome of a request whose metadata should be pruned. *)
Definition refused (c : C) (i : Z) : res () :=
  match fetch c (metadata_path i) with
  | Ok _ => Raise AssertionError
  | Raise (HTTPError status content) => meta_match status content
  | Raise e => if is_Exception e then Raise AssertionError else Raise e
  end.

Lemma metadata_matcher_gives {S} status content (s : S) :
  gives (metadata_matcher reason status content) s (meta_match status content).
Proof.
  intros t. unfold metadata_matcher, meta_match. m_run.
  destruct (bool_decide _); [|done]. unfold res_bind. destruct (loads content) as [es|]; [|done].
  destruct (jindex 0 es) as [e|]; [|done]. destruct (jkey $"id" e) as [id|]; [|done].
  by destruct (jeqb id _).
Qed.

Lemma refused_gives {S} (c : C) i (s : S) :
  gives (get_block_metadata_at_level reason c i true;; mret ()) s (refused c i).
Proof using answer_spec.
  intros t. unfold get_block_metadata_at_level, assert_request_failure. cbn [negb].
  unfold mbind, M_bind, try_except. fold (metadata_path i).
  pose proof (rpc_raw_fetch c (metadata_path i) s t) as H. unfold refused.
  destruct (rpc_raw c _ (metadata_path i) None s t) as [[r s'] t']. cbn in H. simplify_eq.
  destruct (fetch c (metadata_path i)) as [j|e]; [done|].
  destruct e; cbn [is_Exception]; try done.
  match goal with |- context [metadata_matcher reason ?a ?b s ?t] =>
    pose proof (metadata_matcher_gives a b s t) as H; destruct (metadata_matcher reason a b s t) as [[r s'] t2] end.
  cbn in H. simplify_eq. by destruct (meta_match _ _) as [[]|].
Qed.

Lemma refused_iff c i : refused c i = Ok () <-> metadata_pruned c i.
Proof.
  unfold refused, metadata_pruned, meta_match. split.
  - destruct (fetch c (metadata_path i)) as [j|e]; [done|].
    destruct e; cbn [is_Exception]; try done. intros H.
    apply bind_ok in H as ([] & H0%assert_ok & H). apply bool_decide_eq_true in H0. res_inv. by eauto 12.
  - intros (status & content & errors & e & -> & Hs & Hl & Hi & id & Hid & Hj).
    rewrite bool_decide_eq_true_2 by done. unfold mbind, res_bind, assert_.
    rewrite Hl; cbn beta iota. rewrite Hi; cbn beta iota. rewrite Hid; cbn beta iota. by rewrite Hj.
Qed.

Lemma client_gives (s : Sandbox C) node_id c : dget node_id (clients s) = Some c ->
  gives (Sandbox.client node_id) s (Ok c).
Proof. intros H t. unfold Sandbox.client. m_run. by rewrite H. Qed.

Definition void (r : res json) : res () := match r with Ok _ => Ok () | Raise e => Raise e end.

(** What is asked about a level below the savepoint. *)
Definition pruned_level (c : C) (i : Z) : res () :=
  match fetch c (header_path i) with Ok _ => refused c i | Raise e => Raise e end.

Definition genesis_ok (c : C) : res () :=
  match fetch c (block_path 0) with Ok g => assert_ (jtruth g) | Raise e => Raise e end.

Lemma pruned_level_gives (s : Sandbox C) node_id c i : dget node_id (clients s) = Some c ->
  gives (c ← Sandbox.client node_id; get_block_header_at_level c i;;
         c ← Sandbox.client node_id; get_block_metadata_at_level reason c i true;; mret ()) s (pruned_level c i).
Proof using answer_spec.
  intros Hc. pose proof (client_gives s node_id c Hc) as Hg. unfold pruned_level.
  eapply gives_bind; [exact Hg| |done]. intros ? [= <-].
  eapply (gives_bind _ _ s (fetch c (header_path i))); [intros t; apply rpc_raw_fetch| |by intros e ->]. intros j ->.
  eapply gives_bind; [exact Hg| |done]. intros ? [= <-]. apply refused_gives.
Qed.

Lemma metadata_gives (s : Sandbox C) node_id c i : dget node_id (clients s) = Some c ->
  gives (c ← Sandbox.client node_id; get_block_metadata_at_level reason c i false;; mret ()) s
    (void (fetch c (metadata_path i))).
Proof using answer_spec.
  intros Hc. eapply gives_bind; [by apply (client_gives s node_id c)| |done]. intros ? [= <-].
  eapply (gives_bind _ _ s (fetch c (metadata_path i))); [intros t; apply rpc_raw_fetch| |by intros e ->]. by intros j ->.
Qed.

Lemma genesis_iff c : genesis_ok c = Ok () <-> exists g, fetch c (block_path 0) = Ok g /\ jtruth g = true.
Proof. unfold genesis_ok. destruct (fetch c (block_path 0)) as [g|e]; [rewrite assert_ok|]; naive_solver. Qed.

Lemma void_iff (r : res json) : void r = Ok () <-> exists j, r = Ok j.
Proof. destruct r; naive_solver. Qed.

(** Both checks start with the genesis. *)
Lemma genesis_then (s : Sandbox C) node_id c (k : M (Sandbox C) ()) r : dget node_id (clients s) = Some c ->
  gives k s r ->
  gives (c ← Sandbox.client node_id; genesis ← get_block_at_level reason c 0 false; massert (jtruth genesis);; k) s
    (_ ← genesis_ok c; r).
Proof using answer_spec.
  intros Hc Hk. unfold genesis_ok. eapply gives_bind; [by apply (client_gives s node_id c)| |done]. intros ? [= <-].
  eapply (gives_bind _ _ s (fetch c (block_path 0))); [intros t'; apply rpc_raw_fetch| |by intros e ->].
  intros g ->. destruct (jtruth g); [|done]. cbn [assert_ mbind res_bind].
  eapply gives_bind; [done| |done]. intros [] _. exact Hk.
Qed.

(** C37. For a node whose answers do not change, the check of a full node ends
    normally exactly if the genesis is served, every level from 1 up to the
    savepoint, which is excluded, has its header and its metadata are refused
    with metadata_not_found, and every level from the savepoint to the head has
    its metadata. *)
Theorem full_node_availability_exact (s : Sandbox C) t node_id c savepoint head :
  dget node_id (clients s) = Some c ->
  (full_node_blocks_availability reason node_id savepoint head s t).1.1 = Ok () <->
  (exists g, fetch c (block_path 0) = Ok g /\ jtruth g = true) /\
  (forall i, 1 <= i < savepoint -> (exists h, fetch c (header_path i) = Ok h) /\ metadata_pruned c i) /\
  (forall i, savepoint <= i <= head -> exists m, fetch c (metadata_path i) = Ok m).
Proof using answer_spec.
  intros Hc.
  destruct (for_gives (range 1 savepoint) _ _ s (fun i => pruned_level_gives s node_id c i Hc)) as (r1 & G1 & H1).
  destruct (for_gives (range savepoint (head + 1)) _ _ s (fun i => metadata_gives s node_id c i Hc)) as (r2 & G2 & H2).
  assert (G : gives (full_node_blocks_availability reason node_id savepoint head) s
    (_ ← genesis_ok c; _ ← r1; r2)).
  { apply genesis_then; [done|]. eapply gives_bind; [exact G1| |by intros e ->]. intros [] ->. exact G2. }
  rewrite (G t). cbn [fst].
  assert (E1 : r1 = Ok () <-> forall i, 1 <= i < savepoint ->
    (exists h, fetch c (header_path i) = Ok h) /\ metadata_pruned c i).
  { rewrite H1. setoid_rewrite elem_of_range. unfold pruned_level.
    split; intros H i Hi; specialize (H i Hi); destruct (fetch c (header_path i));
      rewrite ?refused_iff in *; naive_solver. }
  assert (E2 : r2 = Ok () <-> forall i, savepoint <= i <= head -> exists m, fetch c (metadata_path i) = Ok m).
  { rewrite H2. setoid_rewrite elem_of_range.
    split; intros H i Hi; specialize (H i ltac:(lia)); destruct (fetch c (metadata_path i)); naive_solver. }
  rewrite <- genesis_iff, <- E1, <- E2. destruct (genesis_ok c) as [[]|], r1 as [[]|], r2 as [[]|]; naive_solver.
Qed.
(** *** A rolling node *)

(** The node does not know the block, and says so with status 404. *)
Definition block_unknown (c : C) (i : Z) : Prop :=
  exists status content, fetch c (block_path i) = Raise (HTTPError status content) /\
    str_http_error reason status = $"HTTP Error 404: Not Found".

Definition unknown (c : C) (i : Z) : res () :=
  match fetch c (block_path i) with
  | Ok _ => Raise AssertionError
  | Raise (HTTPError status content) =>
      assert_ (bool_decide (str_http_error reason status = $"HTTP Error 404: Not Found"))
  | Raise e => if is_Exception e then Raise AssertionError else Raise e
  end.

Lemma unknown_iff c i : unknown c i = Ok () <-> block_unknown c i.
Proof.
  unfold unknown, block_unknown. destruct (fetch c (block_path i)) as [j|e]; [naive_solver|].
  destruct e; cbn [is_Exception]; try (split; [done|by intros (? & ? & ? & _)]).
  rewrite assert_ok, bool_decide_eq_true. naive_solver.
Qed.

Lemma unknown_gives {S} (c : C) i (s : S) : gives (get_block_at_level reason c i true;; mret ()) s (unknown c i).
Proof using answer_spec.
  intros t. unfold get_block_at_level, assert_request_failure, not_found_matcher, massert, lift. cbn [negb].
  unfold mbind, M_bind, try_except. fold (block_path i).
  pose proof (rpc_raw_fetch c (block_path i) s t) as H. unfold unknown.
  destruct (rpc_raw c _ (block_path i) None s t) as [[r s'] t']. cbn in H. simplify_eq.
  destruct (fetch c (block_path i)) as [j|e]; [done|]. destruct e; cbn [is_Exception]; try done.
  by destruct (bool_decide _).
Qed.

Lemma unknown_level_gives (s : Sandbox C) node_id c i : dget node_id (clients s) = Some c ->
  gives (c ← Sandbox.client node_id; get_block_at_level reason c i true;; mret ()) s (unknown c i).
Proof using answer_spec.
  intros Hc. eapply gives_bind; [by apply (client_gives s node_id c)| |done]. intros ? [= <-]. apply unknown_gives.
Qed.

Lemma header_gives (s : Sandbox C) node_id c i : dget node_id (clients s) = Some c ->
  gives (c ← Sandbox.client node_id; get_block_header_at_level c i;; mret ()) s (void (fetch c (header_path i))).
Proof using answer_spec.
  intros Hc. eapply gives_bind; [by apply (client_gives s node_id c)| |done]. intros ? [= <-].
  eapply (gives_bind _ _ s (fetch c (header_path i))); [intros t; apply rpc_raw_fetch| |by intros e ->]. by intros j ->.
Qed.

(** C38. For a node whose answers do not change, the check of a rolling node ends
    normally exactly if the genesis is served, the blocks from 1 up to the caboose,
    which is excluded, are unknown, and the headers strictly between the savepoint
    and the head are served: what the node has between caboose and savepoint, and
    every metadata, is not looked at. *)
Theorem rolling_node_availability_exact (s : Sandbox C) t node_id c savepoint caboose head :
  dget node_id (clients s) = Some c ->
  (rolling_node_blocks_availability reason node_id savepoint caboose head s t).1.1 = Ok () <->
  (exists g, fetch c (block_path 0) = Ok g /\ jtruth g = true) /\
  (forall i, 1 <= i < caboose -> block_unknown c i) /\
  (forall i, savepoint < i < head -> exists h, fetch c (header_path i) = Ok h).
Proof using answer_spec.
  intros Hc.
  destruct (for_gives (range 1 caboose) _ _ s (fun i => unknown_level_gives s node_id c i Hc)) as (r1 & G1 & H1).
  destruct (for_gives (range (savepoint + 1) head) _ _ s (fun i => header_gives s node_id c i Hc)) as (r2 & G2 & H2).
  assert (G0 : gives (if caboose =? 0 then mret () else for_ (range 1 caboose) (fun i =>
      c ← Sandbox.client node_id; get_block_at_level reason c i true;; mret ())) s r1).
  { destruct (Z.eqb_spec caboose 0) as [->|]; [|exact G1]. intros t1. exact (G1 t1). }
  assert (G : gives (rolling_node_blocks_availability reason node_id savepoint caboose head) s
    (_ ← genesis_ok c; _ ← r1; r2)).
  { apply genesis_then; [done|]. eapply gives_bind; [exact G0| |by intros e ->]. intros [] ->. exact G2. }
  rewrite (G t). cbn [fst]. rewrite <- genesis_iff.
  setoid_rewrite <- unknown_iff. setoid_rewrite <- void_iff. setoid_rewrite elem_of_range in H1.
  setoid_rewrite elem_of_range in H2. rewrite <- H1.
  assert (E2 : r2 = Ok () <-> forall i, savepoint < i < head -> void (fetch c (header_path i)) = Ok ()).
  { rewrite H2. split; intros H i Hi; apply H; lia. }
  rewrite <- E2. destruct (genesis_ok c) as [[]|], r1 as [[]|], r2 as [[]|]; naive_solver.
Qed.
End Availability.

(** A node with savepoint and head 2, whose level 1 is pruned. *)
Definition sample_answer (url : str) : res bytes :=
  if bool_decide (url = $"http://127.0.0.1:8732/chains/main/blocks/1/metadata")
  then Raise (HTTPError 500 (dq $"[{'id': 'store.metadata_not_found'}]"))
  else Ok (encode (dq $"{'hash': 'BL'}")).

Definition sample_reason (status : Z) : str :=
  if status =? 500 then $"Internal Server Error" else $"Not Found".

Definition full_node_os : OS :=
  {| os_isfile _ _ := true; os_isdir _ _ := true; os_environ _ := [];
     os_run _ _ _ _ := Raise OSError; os_spawn _ _ _ _ := Raise OSError;
     os_poll _ _ := None; os_wait _ _ _ := None; os_mkdtemp _ _ := Raise OSError;
     os_tempfile _ := Raise OSError; os_rmtree _ _ := Raise OSError;
     os_read _ _ := Raise OSError; os_write _ _ _ := Raise OSError;
     os_http _ _ url _ := sample_answer url; os_utcnow _ := 0; os_getcwd _ := $"/";
     os_listdir _ _ := Raise OSError; os_exec _ _ _ _ := Raise OSError |}.

Definition one_client : Sandbox Client :=
  MkSandbox $"/bin" None [] 18730 19730 45 false [] [(0, sample_client)] [] [] [] [] 0 [].

Lemma full_node_availability_exact_witness :
  (full_node_blocks_availability (o := full_node_os) sample_reason 0 2 2 one_client []).1.1 = Ok ().
Proof.
  refine (proj2 (@full_node_availability_exact _ _ full_node_os sample_reason sample_answer (fun _ _ => eq_refl)
    one_client [] 0 sample_client 2 2 eq_refl) _).
  split; [|split].
  - eexists. split; vm_compute; reflexivity.
  - intros i Hi. replace i with 1 by lia. split; [eexists; vm_compute; reflexivity|].
    pose (e := JDict [($"id", JStr $"store.metadata_not_found")]).
    exists 500, (dq $"[{'id': 'store.metadata_not_found'}]"), (JList [e]), e.
    split; [vm_compute; reflexivity|]. split; [vm_compute; reflexivity|]. split; [vm_compute; reflexivity|].
    split; [vm_compute; reflexivity|]. exists (JStr $"store.metadata_not_found"). split; vm_compute; reflexivity.
  - intros i Hi. replace i with 2 by lia. eexists. vm_compute. reflexivity.
Defined.

(** A node with caboose 2 and savepoint 3, whose head is 5: it does not know block
    1. *)
Definition rolling_answer (url : str) : res bytes :=
  if bool_decide (url = $"http://127.0.0.1:8732/chains/main/blocks/1") then Raise (HTTPError 404 [])
  else Ok (encode (dq $"{'hash': 'BL'}")).

Definition rolling_os : OS :=
  {| os_isfile _ _ := true; os_isdir _ _ := true; os_environ _ := [];
     os_run _ _ _ _ := Raise OSError; os_spawn _ _ _ _ := Raise OSError;
     os_poll _ _ := None; os_wait _ _ _ := None; os_mkdtemp _ _ := Raise OSError;
     os_tempfile _ := Raise OSError; os_rmtree _ _ := Raise OSError;
     os_read _ _ := Raise OSError; os_write _ _ _ := Raise OSError;
     os_http _ _ url _ := rolling_answer url; os_utcnow _ := 0; os_getcwd _ := $"/";
     os_listdir _ _ := Raise OSError; os_exec _ _ _ _ := Raise OSError |}.

Lemma rolling_node_availability_exact_witness :
  (rolling_node_blocks_availability (o := rolling_os) sample_reason 0 3 2 5 one_client []).1.1 = Ok ().
Proof.
  refine (proj2 (@rolling_node_availability_exact _ _ rolling_os sample_reason rolling_answer (fun _ _ => eq_refl)
    one_client [] 0 sample_client 3 2 5 eq_refl) _).
  split; [|split].
  - eexists. split; vm_compute; reflexivity.
  - intros i Hi. replace i with 1 by lia. exists 404, []. split; vm_compute; reflexivity.
  - intros i Hi. replace i with 4 by lia. eexists. vm_compute. reflexivity.
Defined.
