(* ===== verification/ScrubFacts.v ===== *)
(** * What scrubbing removes (tools/utils.py: client_output_converter)

    The converter of regression tests replaces hashes, addresses and dates by fixed
    texts, one pattern after the other.  Here: a replaced text decomposes into gaps
    and matches; a replacement in brackets leaves no match of its pattern; and later
    replacements bring none back. *)

From Stdlib Require Import ZArith Lia ZifyBool.
From stdpp Require Import base tactics list strings numbers.
From S2P Require Import Prelude PyStr PyExc PyRe PyDict PyFloat PyJson PyTime PyIO Utils.

Local Open Scope Z_scope.
Local Open Scope py_scope.

(** ** The pieces of a replaced text *)

(** [r] matches nowhere at the start of [t], whatever is before it in the text. *)
Definition no_match (r : regex) (t : str) : Prop := exists b, forall s', ~ den r (St b t []) s'.

(** [pieces r repl a res]: [res] is [a] with its matches replaced, from left to
    right; no match starts in a gap. *)
Inductive pieces (r : regex) (repl : str) : str -> str -> Prop :=
| pieces_end a : (forall w t, a = w ++ t -> no_match r t) -> pieces r repl a a
| pieces_step g m a res s s' :
    den r s s' -> after s = m ++ a -> after s' = a ->
    (forall g1 g2, g = g1 ++ g2 -> g2 <> [] -> no_match r (g2 ++ m ++ a)) ->
    pieces r repl a res -> pieces r repl (g ++ m ++ a) (g ++ repl ++ res).

Lemma sub_loop_pieces r repl : nullable r = false -> forall fuel b a, (length a < fuel)%nat ->
  pieces r repl a (sub_loop fuel r (fun _ => repl) false b a).
Proof.
  intros Hn. induction fuel as [|n IH]; intros b a Hf; [lia|]. cbn [sub_loop].
  destruct (search_at r false b a) as [m|] eqn:E.
  - apply search_at_Some in E as (w & t & -> & Hs & D & Hmin).
    pose proof (den_first r _ _ D) as [[_ H]|(c & t' & _ & _ & Hlt)]; [congruence|].
    assert (progress (m_start m) (m_end m) = true) as -> by (unfold progress; by apply Nat.ltb_lt).
    pose proof (den_consumes r _ _ D) as (u & Hu & _). rewrite Hs in Hu, Hlt |- *. cbn [after] in *.
    rewrite length_app. replace (length w + length t - length t)%nat with (length w) by lia.
    rewrite take_app_length. rewrite Hu at 1.
    apply (pieces_step r repl w u (after (m_end m)) _ (m_start m) (m_end m)); [done|by rewrite Hs|done| |].
    + intros g1 g2 -> Hg. exists (rev g1 ++ b). apply (Hmin g1).
      * by rewrite Hu, <- app_assoc.
      * rewrite length_app. destruct g2; [done|]. cbn. lia.
    + apply IH. rewrite length_app in Hf. lia.
  - apply pieces_end. intros w t Hw. exists (rev w ++ b). by apply (search_at_None r b a E).
Qed.

Lemma re_sub_pieces r repl s : nullable r = false -> pieces r repl s (re_sub r repl s).
Proof. intros Hn. apply sub_loop_pieces; [done|lia]. Qed.

(** ** Patterns of fixed length *)

(** The class of every character of a pattern without choices. *)
Fixpoint classes (r : regex) : option (list (N -> bool)) :=
  match r with
  | REps => Some []
  | RChar p => Some [p]
  | RSeq r1 r2 => p1 ← classes r1; p2 ← classes r2; Some (p1 ++ p2)
  | _ => None
  end.

Abbreviation fits ps w := (Forall2 (fun p c => p c = true) ps w).

Lemma classes_den r : forall ps, classes r = Some ps -> forall s s', den r s s' ->
  exists w, after s = w ++ after s' /\ fits ps w.
Proof.
  induction r as [|p|r1 IH1 r2 IH2|r1 IH1 r2 IH2|g r IH|i r IH| | | |r IH]; intros ps; cbn; try done.
  - intros [= <-] s s' ->. by exists [].
  - intros [= <-] s s' (c & t & E & Hc & ->). exists [c]. auto.
  - destruct (classes r1) as [p1|]; [|done]. destruct (classes r2) as [p2|]; [|done].
    intros [= <-] s s' (s1 & (w1 & E1 & F1)%(IH1 _ eq_refl) & (w2 & E2 & F2)%(IH2 _ eq_refl)).
    exists (w1 ++ w2). rewrite E1, E2, app_assoc. split; [done|by apply Forall2_app].
Qed.

Lemma den_classes r : forall ps, classes r = Some ps -> forall s w t, after s = w ++ t -> fits ps w ->
  exists s', den r s s' /\ after s' = t.
Proof.
  induction r as [|p|r1 IH1 r2 IH2|r1 IH1 r2 IH2|g r IH|i r IH| | | |r IH]; intros ps; cbn; try done.
  - intros [= <-] s w t E F. inversion F; subst. by exists s.
  - intros [= <-] s w t E F. inversion F as [|? c ? w' Hc F']; subst. inversion F'; subst.
    exists (advance c t s). split; [by exists c, t|done].
  - destruct (classes r1) as [p1|]; [|done]. destruct (classes r2) as [p2|]; [|done].
    intros [= <-] s w t E (w1 & w2 & F1 & F2 & ->)%Forall2_app_inv_l. rewrite <- app_assoc in E.
    destruct (IH1 _ eq_refl s w1 (w2 ++ t) E F1) as (s1 & D1 & E1).
    destruct (IH2 _ eq_refl s1 w2 t E1 F2) as (s2 & D2 & E2). exists s2. split; [by exists s1|done].
Qed.

(** A text contains one that fits. *)
Definition infix (w s : str) : Prop := exists a b, s = a ++ w ++ b.
Definition contains_fit (ps : list (N -> bool)) (s : str) : Prop := exists w, infix w s /\ fits ps w.

Lemma occurs_fit r ps s : classes r = Some ps -> occurs r s <-> contains_fit ps s.
Proof.
  intros Hr. split.
  - intros (b & a & s' & -> & D). apply (classes_den r ps Hr) in D as (w & E & F). cbn in E. subst a.
    exists w. split; [by exists (rev b), (after s')|done].
  - intros (w & (a & b & ->) & F).
    destruct (den_classes r ps Hr (St (rev a) (w ++ b) []) w b eq_refl F) as (s' & D & _).
    exists (rev a), (w ++ b), s'. by rewrite rev_involutive.
Qed.

Lemma no_match_fit r ps t w : classes r = Some ps -> no_match r (w ++ t) -> ~ fits ps w.
Proof.
  intros Hr (b & H) F. destruct (den_classes r ps Hr (St b (w ++ t) []) w t eq_refl F) as (s' & D & _).
  by apply H in D.
Qed.

Lemma infix_app w a s b : infix w s -> infix w (a ++ s ++ b).
Proof. intros (x & y & ->). exists (a ++ x), (y ++ b). by rewrite <- !app_assoc. Qed.

(** A stretch without the character [c] is on one side of it. *)
Lemma infix_split w x c y : c ∉ w -> infix w (x ++ c :: y) -> infix w x \/ infix w y.
Proof.
  intros Hc (a & b & E). apply app_eq_app in E as (l & [[-> E]|[-> E]]).
  - destruct l as [|d l].
    + cbn in E. destruct w as [|e w]; cbn in E.
      * left. exists a, []. by rewrite !app_nil_r.
      * injection E as <- _. by destruct Hc; apply elem_of_cons; left.
    + apply app_eq_app in E as (k & [[E1 E2]|[-> E2]]).
      * destruct k as [|e k].
        -- rewrite app_nil_r in E1. subst w. left. exists a, []. by rewrite app_nil_r.
        -- injection E2 as <- _. destruct Hc. rewrite E1. apply elem_of_app. right. apply elem_of_cons. by left.
      * left. by exists a, k.
  - destruct l as [|d l]; cbn in E.
    + destruct w as [|e w]; [left; exists x, []; by rewrite !app_nil_r|]. injection E as <- _.
      by destruct Hc; apply elem_of_cons; left.
    + injection E as <- E. right. by exists l, b.
Qed.

(** ** A replacement removes its pattern *)

Definition avoids (c : N) (ps : list (N -> bool)) : Prop := Forall (fun p => p c = false) ps.

Lemma avoids_fit c ps w : avoids c ps -> fits ps w -> c ∉ w.
Proof.
  intros Ha F. induction F as [|p d ps w Hp F IH]; [apply not_elem_of_nil|].
  inversion Ha; subst. rewrite not_elem_of_cons. split; [congruence|by apply IH].
Qed.

(** The replacement is set off by two characters the pattern does not accept. *)
Lemma sub_removes r ps c body d a res :
  classes r = Some ps -> ps <> [] -> avoids c ps -> avoids d ps -> ~ contains_fit ps body ->
  pieces r (c :: body ++ [d]) a res -> ~ contains_fit ps res.
Proof.
  intros Hr Hne Hc Hd Hbody P. induction P as [a Hno|g m a res s s' D E E' Hgap P IH].
  - intros (w & (x & y & ->) & F). by apply (no_match_fit r ps y w Hr (Hno x (w ++ y) eq_refl)).
  - intros (w & Hin & F). cbn [app] in Hin. apply infix_split in Hin as [Hin|Hin]; [| |by eapply avoids_fit].
    + destruct Hin as (x & y & ->). apply (no_match_fit r ps (y ++ m ++ a) w Hr); [|done].
      rewrite app_assoc. apply (Hgap x); [done|]. intros H%app_eq_nil. destruct H as [-> _].
      by inversion F; subst.
    + rewrite <- app_assoc in Hin. apply infix_split in Hin as [Hin|Hin]; [| |by eapply avoids_fit].
      * apply Hbody. by exists w.
      * apply IH. by exists w.
Qed.

(** ** A replacement adds no other match *)

(** Every match starts with [x]. *)
Definition opens (x : str) (r : regex) : Prop := forall s s', den r s s' -> exists v, after s = x ++ v ++ after s'.

Lemma opens_nil r : opens [] r.
Proof. intros s s' (w & E & _)%den_consumes. by exists w. Qed.

Lemma opens_lit x y r : opens x (RSeq (rlit (x ++ y)) r).
Proof.
  intros s s' (s1 & E1%den_rlit_app & (v & E2 & _)%den_consumes). exists (y ++ v).
  by rewrite E1, E2, <- !app_assoc.
Qed.

Lemma sub_adds_none r ps x c body d a res :
  opens x r -> avoids c ps -> avoids d ps -> ~ contains_fit ps body ->
  pieces r (x ++ c :: body ++ [d]) a res -> ~ contains_fit ps a -> ~ contains_fit ps res.
Proof.
  intros Hx Hc Hd Hbody P. induction P as [a Hno|g m a res s s' D E E' Hgap P IH]; [done|].
  intros Ha (w & Hin & F). apply Hx in D as (v & Ev). rewrite E, E' in Ev.
  assert (Em : m = x ++ v) by (rewrite app_assoc in Ev; by apply app_inv_tail in Ev). subst m.
  replace (g ++ (x ++ c :: body ++ [d]) ++ res) with ((g ++ x) ++ c :: (body ++ d :: res)) in Hin
    by (rewrite <- !app_assoc; cbn; by rewrite <- app_assoc).
  apply infix_split in Hin as [Hin|Hin]; [| |by eapply avoids_fit].
  - apply Ha. exists w. split; [|done]. apply (infix_app w [] _ (v ++ a)) in Hin. by rewrite <- !app_assoc in Hin |- *.
  - apply infix_split in Hin as [Hin|Hin]; [| |by eapply avoids_fit].
    + apply Hbody. by exists w.
    + apply IH; [|by exists w]. intros (w' & (y & z & ->) & F'). apply Ha. exists w'. split; [|done].
      exists (g ++ (x ++ v) ++ y), z. by rewrite <- !app_assoc.
Qed.

Lemma short_no_fit ps s : (length s < length ps)%nat -> ~ contains_fit ps s.
Proof.
  intros Hl (w & (a & b & ->) & F). apply Forall2_length in F. rewrite !length_app in Hl. lia.
Qed.

(** ** The converter *)

Section Converter.
Context {U : UCD}.

(** A pattern of word characters, long enough that no replacement contains it. *)
Definition word_pattern (ps : list (N -> bool)) : Prop :=
  (27 <= length ps)%nat /\ Forall (fun p => forall c, p c = true -> is_word c = true) ps.

Lemma word_avoids ps c : word_pattern ps -> is_word c = false -> avoids c ps.
Proof.
  intros [_ H] Hc. eapply List.Forall_impl, H. intros p Hp. destruct (p c) eqn:E; [|done].
  apply Hp in E. congruence.
Qed.

(** A replacement [x c body d] with non-word characters [c] and [d]. *)
Lemma step_adds_none r ps x c body d repl a :
  repl = x ++ c :: body ++ [d] -> nullable r = false -> opens x r -> word_pattern ps ->
  is_word c = false -> is_word d = false -> (length body < 27)%nat ->
  ~ contains_fit ps a -> ~ contains_fit ps (re_sub r repl a).
Proof.
  intros -> Hn Hx Hps Hc Hd Hl Ha. pose proof (re_sub_pieces r (x ++ c :: body ++ [d]) a Hn) as P.
  apply (sub_adds_none r ps x c body d a); [done|by apply word_avoids|by apply word_avoids| |exact P|done].
  apply short_no_fit. destruct Hps. lia.
Qed.

Lemma step_removes r ps c body d repl a :
  repl = c :: body ++ [d] -> nullable r = false -> classes r = Some ps -> word_pattern ps ->
  is_word c = false -> is_word d = false -> (length body < 27)%nat -> ~ contains_fit ps (re_sub r repl a).
Proof.
  intros -> Hn Hr Hps Hc Hd Hl. eapply (sub_removes r ps c body d a); [done| |by apply word_avoids|by apply word_avoids| |by apply re_sub_pieces].
  - intros ->. destruct Hps as [H _]. cbn in H. lia.
  - apply short_no_fit. destruct Hps. lia.
Qed.

(** The patterns of the hashes, and the classes of their characters. *)
Definition any_word (n : nat) : list (N -> bool) := replicate n is_word.
Definition spelled (x : str) : list (N -> bool) := map N.eqb x.

Definition block_hash : list (N -> bool) := any_word 51.
Definition tz_address : list (N -> bool) := spelled $"tz" ++ any_word 34.
Definition kt_address : list (N -> bool) := spelled $"KT" ++ any_word 34.

Lemma any_word_words n : Forall (fun p => forall c, p c = true -> is_word c = true) (any_word n).
Proof. by apply Forall_replicate. Qed.

Lemma spelled_words x : Forall (fun c => is_word c = true) x ->
  Forall (fun p => forall c, p c = true -> is_word c = true) (spelled x).
Proof. induction 1 as [|c x Hc _ IH]; [constructor|]. constructor; [by intros d <-%N.eqb_eq|done]. Qed.

Lemma hash_patterns ps : ps ∈ [block_hash; tz_address; kt_address] -> word_pattern ps.
Proof.
  rewrite !elem_of_cons, elem_of_nil. intros [->|[->|[->|[]]]]; (split; [vm_compute; lia|]).
  - apply any_word_words.
  - apply Forall_app. split; [by apply spelled_words; repeat constructor|apply any_word_words].
  - apply Forall_app. split; [by apply spelled_words; repeat constructor|apply any_word_words].
Qed.

(** A replacement that brings no word pattern into a text. *)
Definition tidy (rule : regex * str) : Prop :=
  exists x c body d, rule.2 = x ++ c :: body ++ [d] /\ nullable rule.1 = false /\ opens x rule.1
    /\ is_word c = false /\ is_word d = false /\ (length body < 27)%nat.

Lemma suball_adds_none ps l : word_pattern ps -> Forall tidy l -> forall s,
  ~ contains_fit ps s -> ~ contains_fit ps (suball l s).
Proof.
  intros Hps Hl. induction Hl as [|[r repl] l (x & c & body & d & E & H1 & H2 & H3 & H4 & H5) Hl IH]; intros s Hs; [done|].
  apply IH. by apply (step_adds_none r ps x c body d).
Qed.

(** A list of replacements one of which removes the pattern. *)
Lemma suball_removes ps l l1 r c body d l2 s :
  l = l1 ++ (r, c :: body ++ [d]) :: l2 -> classes r = Some ps -> word_pattern ps -> nullable r = false -> is_word c = false -> is_word d = false ->
  (length body < 27)%nat -> Forall tidy l2 ->
  ~ contains_fit ps (suball l s).
Proof.
  intros -> Hr Hps Hn Hc Hd Hl Hl2. unfold suball. rewrite fold_left_app. cbn [fold_left].
  apply (suball_adds_none ps l2 Hps Hl2). by apply (step_removes r ps c body d).
Qed.

(** Shows the form of a replacement; that its matches start with [x] is left. *)
Ltac tidy_rule x c body d :=
  exists x, c, body, d; split_and!; try reflexivity; [|vm_compute; lia].

Lemma hashes_tidy : Forall tidy (drop 3 scrub_hashes).
Proof.
  repeat (apply List.Forall_cons || apply List.Forall_nil).
  - tidy_rule (@nil N) 91%N $"CONTRACT_HASH" 93%N. apply opens_nil.
  - tidy_rule $"fees" 40%N $"[CONTRACT_HASH],[CTR]" 41%N. exact (opens_lit $"fees" $"([CONTRACT_HASH]," _).
Qed.

Lemma receipt_tidy : Forall tidy scrub_receipt.
Proof.
  repeat (apply List.Forall_cons || apply List.Forall_nil).
  - tidy_rule $"Injecting" 32%N $"block" 32%N. exact (opens_lit $"Injecting" $" block " _).
  - tidy_rule $"Operation" 32%N $"hash is '[OPERATION_HASH]" 39%N. exact (opens_lit $"Operation" $" hash is '" _).
  - tidy_rule $"wait" 32%N $"for [OPERATION_HASH" 93%N. exact (opens_lit $"wait" $" for " _).
  - tidy_rule (@nil N) 45%N $"-branch [BRANCH_HASH" 93%N. apply opens_nil.
  - tidy_rule (@nil N) 91%N $"CONTRACT_HASH" 93%N. apply opens_nil.
  - tidy_rule $"To" 58%N $" [CONTRACT_HASH] .." 46%N. exact (opens_lit $"To" $": KT" _).
  - tidy_rule $"Injected" 32%N $"block [BLOCK_HASH" 93%N. exact (opens_lit $"Injected" $" block " _).
  - tidy_rule $"Expected" 32%N $"counter: [EXPECTED_COUNTER" 93%N. exact (opens_lit $"Expected" $" counter: " _).
Qed.

Lemma timestamp_tidy : tidy (timestamp_pattern, $"[TIMESTAMP]").
Proof. tidy_rule (@nil N) 91%N $"TIMESTAMP" 93%N. apply opens_nil. Qed.

(** Each kind of hash is gone after its step. *)
Lemma block_hash_removed s : word_pattern block_hash -> ~ contains_fit block_hash (suball scrub_hashes s).
Proof.
  intros Hps.
  apply (suball_removes block_hash _ (take 2 scrub_hashes) (rrep 51 rw) 91%N $"BLOCK_HASH" 93%N (drop 3 scrub_hashes));
    [vm_compute; reflexivity|reflexivity|exact Hps|reflexivity|reflexivity|vm_compute; reflexivity|vm_compute; lia|].
  exact hashes_tidy.
Qed.

Lemma tz_address_removed s : word_pattern tz_address -> ~ contains_fit tz_address (suball scrub_hashes s).
Proof.
  intros Hps.
  apply (suball_removes tz_address _ (take 3 scrub_hashes) (rseqs [rlit $"tz"; rrep 34 rw]) 91%N $"CONTRACT_HASH" 93%N
    (drop 1 (drop 3 scrub_hashes)));
    [vm_compute; reflexivity|vm_compute; reflexivity|exact Hps|reflexivity|reflexivity|vm_compute; reflexivity|vm_compute; lia|].
  apply Forall_drop, hashes_tidy.
Qed.

Lemma kt_address_removed s : word_pattern kt_address -> ~ contains_fit kt_address (suball scrub_receipt s).
Proof.
  intros Hps.
  apply (suball_removes kt_address _ (take 4 scrub_receipt) (rseqs [rlit $"KT"; rrep 34 rw]) 91%N $"CONTRACT_HASH" 93%N
    (drop 5 scrub_receipt));
    [vm_compute; reflexivity|vm_compute; reflexivity|exact Hps|reflexivity|reflexivity|vm_compute; reflexivity|vm_compute; lia|].
  apply Forall_drop, receipt_tidy.
Qed.

Lemma timestamp_adds_none ps s : word_pattern ps ->
  ~ contains_fit ps s -> ~ contains_fit ps (re_sub timestamp_pattern $"[TIMESTAMP]" s).
Proof.
  intros Hps Hs. destruct timestamp_tidy as (x & c & body & d & E & H1 & H2 & H3 & H4 & H5). cbn [fst snd] in *.
  by apply (step_adds_none _ ps x c body d).
Qed.

(** And stays away. *)
Lemma converter_removes ps s : ps ∈ [block_hash; tz_address; kt_address] ->
  ~ contains_fit ps (client_output_converter s).
Proof.
  intros Hin. pose proof (hash_patterns ps Hin) as Hps. unfold client_output_converter.
  apply timestamp_adds_none; [done|]. rewrite !elem_of_cons, elem_of_nil in Hin. destruct Hin as [->|[->|[->|[]]]].
  - apply suball_adds_none; [done|apply receipt_tidy|]. by apply block_hash_removed.
  - apply suball_adds_none; [done|apply receipt_tidy|]. by apply tz_address_removed.
  - by apply kt_address_removed.
Qed.

(** C18. Whatever a client printed, its scrubbed output contains no run of 51 word
    characters, and so no hash of a block or an operation, no signature and no key,
    no address of an account or a contract and no date: each pattern is gone after
    its step, and no later replacement brings it back. *)
Theorem scrubbed_output_clean s :
  let out := client_output_converter s in
  ~ occurs (rrep 51 rw) out /\ ~ occurs (rseqs [rlit $"tz"; rrep 34 rw]) out
  /\ ~ occurs (rseqs [rlit $"KT"; rrep 34 rw]) out /\ ~ occurs timestamp_pattern out.
Proof.
  intros out. split_and!.
  - rewrite (occurs_fit _ block_hash) by reflexivity. apply converter_removes. rewrite !elem_of_cons. auto.
  - rewrite (occurs_fit _ tz_address) by reflexivity. apply converter_removes. rewrite !elem_of_cons. auto.
  - rewrite (occurs_fit _ kt_address) by reflexivity. apply converter_removes. rewrite !elem_of_cons. auto.
  - destruct (classes timestamp_pattern) as [ps|] eqn:E; [|done]. rewrite (occurs_fit _ ps) by done.
    injection E as <-. eapply (sub_removes timestamp_pattern _ 91%N $"TIMESTAMP" 93%N); try done;
      [by repeat constructor..|by apply short_no_fit; vm_compute; lia|].
    by apply re_sub_pieces.
Qed.

End Converter.
