(* ===== verification/Protocol.v ===== *)
(** * The protocol modules of the tests (tests_python/tests_alpha/protocol.py, and
      those of tests_012 and tests_011; contract_paths.py)

    Each test suite has a module that names its protocol.  The parameters of a
    protocol are one object that all tests share; [get_parameters] hands out
    copies of it, so the heap of objects is the state.  [depth] is the recursion
    limit of the interpreter. *)

From Stdlib Require Import ZArith Lia.
From stdpp Require Import base tactics list strings numbers.
From S2P Require Import Prelude PyStr PyExc PyRe PyDict PyFloat PyJson PyTime TimeFacts.
From S2P Require Import PyIO ClientOutput Daemons Client ClientCommands ClientFacts Constants Sandbox Utils PyHeap.

Local Open Scope Z_scope.
Local Open Scope py_scope.

(** ** The constants of a suite *)

Record suite := Suite {
  HASH : str;
  DAEMON : str;
  FOLDER : str;
  PREV_HASH : option str;
  PREV_DAEMON : option str;
  contracts_dir : str }.

Definition tests_alpha : suite :=
  Suite ALPHA ALPHA_DAEMON ALPHA_FOLDER (Some ITHACA) (Some ITHACA_DAEMON) $"contracts_alpha".
Definition tests_012 : suite :=
  Suite ITHACA ITHACA_DAEMON ITHACA_FOLDER (Some HANGZHOU) (Some HANGZHOU_DAEMON) $"contracts_012".
Definition tests_011 : suite :=
  Suite HANGZHOU HANGZHOU_DAEMON HANGZHOU_FOLDER None None $"contracts_011".

(** contract_paths.py *)
Definition CONTRACT_PATH (p : suite) (TEZOS_HOME : str) : str :=
  path_join TEZOS_HOME [$"tests_python"; contracts_dir p].
Definition ATTIC_CONTRACT_PATH p home : str := path_join (CONTRACT_PATH p home) [$"attic"].
Definition MACROS_CONTRACT_PATH p home : str := path_join (CONTRACT_PATH p home) [$"macros"].
Definition ILLTYPED_CONTRACT_PATH p home : str := path_join (CONTRACT_PATH p home) [$"ill_typed"].
Definition LEGACY_CONTRACT_PATH p home : str := path_join (CONTRACT_PATH p home) [$"legacy"].
Definition OPCODES_CONTRACT_PATH p home : str := path_join (CONTRACT_PATH p home) [$"opcodes"].
Definition MINI_SCENARIOS_CONTRACT_PATH p home : str := path_join (CONTRACT_PATH p home) [$"mini_scenarios"].

Definition suite_contracts {S} {o : OS} (p : suite) (home : str) (directories : option (list str)) : M S (list str) :=
  all_contracts (CONTRACT_PATH p home) directories.
Definition all_legacy_contracts {S} {o : OS} (p : suite) (home : str) : M S (list str) :=
  suite_contracts p home (Some [$"legacy"]).

(** ** Parameters as shared objects *)

Inductive Protocol := CURRENT | PREV.

Section Parameters.
Context (depth : nat).
Abbreviation HM := (M heap).

(** [copy.deepcopy(v)] *)
Definition deepcopy_object (v : hval) : HM hval := fun h t =>
  match deepcopy depth v (Copying h []) with
  | Some (v', s) => (Ok v', c_heap s, t)
  | None => (Raise RecursionError, h, t)
  end.

(** [dict(v)]: a new dictionary with the entries of another one. *)
Definition dict_object (v : hval) : HM hval := fun h t =>
  match v with
  | HRef r =>
      match h !! r with
      | Some (ODict d) => (Ok (HRef (length h)), h ++ [ODict d], t)
      | _ => (Raise TypeError, h, t)
      end
  | _ => (Raise TypeError, h, t)
  end.

(** [v[k] = x] *)
Definition set_item (v : hval) (k : str) (x : hval) : HM () := fun h t =>
  match v with
  | HRef r =>
      match h !! r with
      | Some (ODict d) => (Ok (), <[r := ODict (dset k x d)]> h, t)
      | _ => (Raise TypeError, h, t)
      end
  | _ => (Raise TypeError, h, t)
  end.

(** The top level of the module: a copy with two entries changed. *)
Definition tenderbake_parameters (PARAMETERS : hval) : HM hval :=
  p ← deepcopy_object PARAMETERS;
  set_item p $"consensus_threshold" (HInt 45);;
  set_item p $"consensus_committee_size" (HInt 67);;
  mret p.

Definition get_parameters (PARAMETERS PREV_PARAMETERS : hval) (protocol : Protocol) : HM hval :=
  d ← dict_object (match protocol with CURRENT => PARAMETERS | PREV => PREV_PARAMETERS end);
  deepcopy_object d.

End Parameters.

(** ** Activation *)

Section Activate.
Context {C : Type} {R : Runner C} {S : Type} {o : OS} {U : UCD}.

(** The default of [proto] is the protocol of the suite, that of the parameters
    its own parameters. *)
Definition activate (PARAMETERS : json) (client : C) (parameters : option json) (p : suite)
    (timestamp : option str) (activate_in_the_past : bool) : M S () :=
  activate_protocol PARAMETERS client (HASH p) (Some (default PARAMETERS parameters)) timestamp
    activate_in_the_past.

End Activate.

(** ** The time of the next block *)

(** [date + timedelta(seconds=delta)]: dates are in the years 1 to 9999. *)
Definition date_add (secs delta : Z) : res Z :=
  if (-719162 * 86400 <=? secs + delta) && (secs + delta <? 2932897 * 86400) then Ok (secs + delta)
  else Raise OverflowError.

Section Now.
Context {C : Type} {R : Runner C} {S : Type} {o : OS} {U : UCD}.

Definition get_now (client : C) : M S str :=
  timestamp_date ← get_block_timestamp client None $"main" $"head~1";
  constants ← Client.rpc client $"get" $"/chains/main/blocks/head/context/constants" None None;
  lift (m ← jkey $"minimal_block_delay" constants;
        delta ← int_of_json m;
        now_date ← date_add timestamp_date delta;
        Ok (iso_utc now_date)).

End Now.

(** ** Copies are fresh *)

Section Fresh.
Context (depth : nat).

(** What is read in a heap is read in one that has these cells unchanged. *)
Lemma read_extends n h h' v j : (forall l, (l < length h)%nat -> h' !! l = h !! l) ->
  read_in n everywhere h v = Some j -> read_in n everywhere h' v = Some j.
Proof.
  intros Hh Hr.
  apply (read_weaken n n (fun l => (l <? length h)%nat) everywhere h h'); [lia| |].
  - intros l Hl%Nat.ltb_lt. auto.
  - revert v j Hr. induction n as [|n IH]; intros v j Hr; [by destruct v|]. destruct v as [| | | | |r]; [done..|].
    apply read_ref in Hr as (_ & k & x & js & [= <-] & Hx & Hm & ->). cbn [read_in].
    pose proof (lookup_lt_Some _ _ _ Hx) as Hlt. apply Nat.ltb_lt in Hlt as ->. rewrite Hx. cbn [mbind option_bind].
    by rewrite (mapM_read_weaken _ _ _ _ IH Hm).
Qed.

(** The state and result of [deepcopy_object]. *)
Lemma deepcopy_object_copies h v j t : read_in depth everywhere h v = Some j ->
  exists v' h', deepcopy_object depth v h t = (Ok v', h', t)
    /\ reads (fun l => (length h <=? l)%nat) h' v' j /\ forall l, (l < length h)%nat -> h' !! l = h !! l.
Proof.
  intros Hr. unfold deepcopy_object.
  destruct (deepcopy_copies h depth v j Hr) as (v' & h' & m & -> & Hv & Hold). by exists v', h'.
Qed.

(** C21. get_parameters gives a fresh copy of the parameters of the protocol asked
    for: it reads as the original, the original and every other older object are
    unchanged, and whatever is later assigned to an object that can be reached
    from the copy, the original still reads the same. *)
Theorem get_parameters_fresh params prev protocol h t j :
  let source := match protocol with CURRENT => params | PREV => prev end in
  read_in depth everywhere h source = Some j -> (exists d, j = JDict d) ->
  exists copy h', get_parameters depth params prev protocol h t = (Ok copy, h', t)
    /\ reads everywhere h' copy j
    /\ (forall l, (l < length h)%nat -> h' !! l = h !! l)
    /\ (forall l x, reach h' copy l -> read_in depth everywhere (<[l := x]> h') source = Some j).
Proof.
  intros source Hr [d ->]. unfold get_parameters. fold source. unfold mbind, M_bind.
  destruct source as [| | | | |r] eqn:Hs; try (by destruct depth).
  apply read_ref in Hr as Hr'. destruct Hr' as (_ & k & x & js & Ek & Hx & Hm & Hj).
  destruct x as [|e]; [done|]. cbn [dict_object]. rewrite Hx.
  set (h1 := h ++ [ODict e]).
  assert (H1 : forall l, (l < length h)%nat -> h1 !! l = h !! l) by (intros; by apply lookup_app_l).
  assert (Hd : read_in depth everywhere h1 (HRef (length h)) = Some (JDict d)).
  { assert (H0 : h1 !! length h = Some (ODict e)) by (unfold h1; by rewrite lookup_app_r, Nat.sub_diag).
    rewrite Ek. cbn [read_in everywhere]. rewrite H0. cbn [mbind option_bind]. rewrite (mapM_read_weaken (read_in k everywhere h) _ _ js); [by rewrite Hj| |done].
    intros v j. by apply read_extends. }
  destruct (deepcopy_object_copies h1 _ _ t Hd) as (v' & h' & -> & Hv & Hold).
  assert (Hall : forall l, (l < length h)%nat -> h' !! l = h !! l).
  { intros l Hl. rewrite Hold, H1; [done|done|]. unfold h1. rewrite length_app. lia. }
  exists v', h'. split; [done|]. split; [by eapply reads_weaken; [|exact Hv]|]. split; [done|].
  intros l x Hl. eapply read_extends; [|exact Hr]. intros q Hq.
  apply (reads_reach _ _ _ _ Hl) in Hv. apply Nat.leb_le in Hv. unfold h1 in Hv. rewrite length_app in Hv.
  rewrite list_lookup_insert_ne by (cbn in Hv; lia). auto.
Qed.

End Fresh.

(** Parameters with a nested list, shared under two keys. *)
Definition sample_heap : heap :=
  [OList [HStr $"100"; HInt 2]; ODict [($"bootstrap_accounts", HRef 0); ($"rewards", HRef 0); ($"delay", HStr $"15")]].

Definition sample_params : json :=
  JDict [($"bootstrap_accounts", JList [JStr $"100"; JInt 2]); ($"rewards", JList [JStr $"100"; JInt 2]);
         ($"delay", JStr $"15")].

Lemma get_parameters_fresh_witness :
  exists copy h', get_parameters 10 (HRef 1) HNull CURRENT sample_heap [] = (Ok copy, h', [])
    /\ reads everywhere h' copy sample_params
    /\ (forall l, (l < length sample_heap)%nat -> h' !! l = sample_heap !! l)
    /\ (forall l x, reach h' copy l -> read_in 10 everywhere (<[l := x]> h') (HRef 1) = Some sample_params).
Proof.
  apply (get_parameters_fresh 10 (HRef 1) HNull CURRENT sample_heap []).
  - vm_compute. reflexivity.
  - eexists. reflexivity.
Defined.

(** The two keys still share their list in the copy. *)
Example get_parameters_sharing :
  get_parameters 10 (HRef 1) HNull CURRENT sample_heap []
  = (Ok (HRef 3), sample_heap ++
       [ODict [($"bootstrap_accounts", HRef 0); ($"rewards", HRef 0); ($"delay", HStr $"15")];
        ODict [($"bootstrap_accounts", HRef 4); ($"rewards", HRef 4); ($"delay", HStr $"15")];
        OList [HStr $"100"; HInt 2]], []).
Proof. vm_compute. reflexivity. Qed.

Section NowFacts.
Context {C : Type} {R : Runner C} {S : Type} {o : OS} {U : UCD}.

(** get_now returns the time of the block before the head plus the minimal
    delay between blocks, as a text from which the same time is read back. *)
Theorem get_now_reads (client : C) (s s1 s2 : S) (t t1 t2 : trace) header constants ts delay :
  Client.rpc client $"get" $"/chains/main/blocks/head~1/header/shell" None None s t = (Ok header, s1, t1) ->
  jkey $"timestamp" header = Ok (JStr (iso_utc ts)) ->
  Client.rpc client $"get" $"/chains/main/blocks/head/context/constants" None None s1 t1 = (Ok constants, s2, t2) ->
  jkey $"minimal_block_delay" constants = Ok (JStr (str_int delay)) ->
  -353920 * 86400 <= ts < 2932531 * 86400 -> -353920 * 86400 <= ts + delay < 2932531 * 86400 ->
  exists now, get_now client s t = (Ok now, s2, t2) /\ strptime_iso now = Ok (ts + delay).
Proof.
  intros H1 Hts H2 Hd Hr Hr'. exists (iso_utc (ts + delay)). split; [|by apply strptime_iso_utc].
  unfold get_now, get_block_timestamp. rewrite bool_decide_eq_true_2 by (left).
  cbn [massert assert_ lift]. unfold mbind, M_bind, massert, lift. cbn [assert_].
  change ($"/chains/" +:+ $"main" +:+ $"/blocks/" +:+ $"head~1" +:+ $"/header/shell")
    with $"/chains/main/blocks/head~1/header/shell".
  rewrite H1, Hts. cbn [res_bind mbind]. rewrite strptime_iso_utc by done. rewrite H2, Hd.
  cbn [res_bind mbind int_of_json]. rewrite parse_int_str_int. cbn [or_raise res_bind mbind].
  unfold date_add. rewrite (proj2 (Z.leb_le _ _)), (proj2 (Z.ltb_lt _ _)) by lia. done.
Qed.
End NowFacts.

(** A node that answers every request with the same object. *)
Definition now_answer : str :=
  map (fun c => if (c =? 39)%N then dquote else c)
    $"{'timestamp': '2022-02-28T23:59:50Z', 'minimal_block_delay': '15'}".

Definition now_object : json :=
  JDict [($"timestamp", JStr $"2022-02-28T23:59:50Z"); ($"minimal_block_delay", JStr $"15")].

Definition now_trace : trace :=
  (Client.rpc (o := answering now_answer 0) sample_client $"get" $"/chains/main/blocks/head~1/header/shell" None None () []).2.

Definition now_trace' : trace :=
  (Client.rpc (o := answering now_answer 0) sample_client $"get" $"/chains/main/blocks/head/context/constants" None None ()
     now_trace).2.

Lemma get_now_reads_witness :
  exists now, get_now (o := answering now_answer 0) (U := ascii_only_ucd) sample_client () [] = (Ok now, (), now_trace')
  /\ strptime_iso (U := ascii_only_ucd) now = Ok (1646092790 + 15).
Proof.
  apply (get_now_reads (o := answering now_answer 0) (U := ascii_only_ucd) sample_client () () () [] now_trace
    now_trace' now_object now_object 1646092790 15); [| | | |lia|lia]; vm_compute; reflexivity.
Defined.
