(* ===== verification/Bls.v ===== *)
(** * BLS12-381 helpers (tests_python/tools/bls12_381.py)

    Static classes around the py_ecc package, with the hexadecimal form of field
    elements and points that the node uses.  The package is a parameter: the class
    [PyEcc] holds what the file uses of it and [PyEccSpec] what its documentation
    says about field elements and projective coordinates. *)

From Stdlib Require Import ZArith Lia.
From stdpp Require Import base tactics list strings numbers.
From S2P Require Import Prelude PyStr PyExc.

Local Open Scope Z_scope.
Local Open Scope py_scope.

(** ** Integers and bytes *)

(** The [k] low bytes of an integer, the most significant first. *)
Fixpoint be_bytes (k : nat) (n : Z) : bytes :=
  match k with
  | O => []
  | S k => be_bytes k (n / 256) ++ [n mod 256]
  end.

(** [n.to_bytes(k, byteorder='big')], and with 'little' *)
Definition to_bytes_big (k : nat) (n : Z) : res bytes :=
  if (0 <=? n) && (n <? 256 ^ Z.of_nat k) then Ok (be_bytes k n) else Raise OverflowError.
Definition to_bytes_little (k : nat) (n : Z) : res bytes :=
  bs ← to_bytes_big k n; Ok (rev bs).

(** [int.from_bytes(bs, byteorder='big')] *)
Definition from_bytes_big (bs : bytes) : Z := undigits 256 bs.

Definition fromhex_or_raise (s : str) : res bytes := or_raise ValueError (fromhex s).

(** ** The package *)

Class PyEcc := {
  FQ : Type;
  FQ_of : Z -> FQ;
  FQ_n : FQ -> Z;
  FQ2 : Type;
  FQ2_of : Z -> Z -> FQ2;
  FQ2_coeffs : FQ2 -> Z * Z;
  FQ12 : Type;
  FQ12_one : FQ12;
  FQ12_mul : FQ12 -> FQ12 -> FQ12;
  FQ12_eqb : FQ12 -> FQ12 -> bool;
  POW_2_382 : Z;
  field_modulus : Z;
  Z1 : FQ * FQ * FQ;
  ecc_G1 : FQ * FQ * FQ;
  add1 : FQ * FQ * FQ -> FQ * FQ * FQ -> FQ * FQ * FQ;
  multiply1 : FQ * FQ * FQ -> Z -> FQ * FQ * FQ;
  neg1 : FQ * FQ * FQ -> FQ * FQ * FQ;
  eq1 : FQ * FQ * FQ -> FQ * FQ * FQ -> bool;
  is_on_curve1 : FQ * FQ * FQ -> bool;
  is_inf1 : FQ * FQ * FQ -> bool;
  normalize1 : FQ * FQ * FQ -> FQ * FQ;
  Z2 : FQ2 * FQ2 * FQ2;
  ecc_G2 : FQ2 * FQ2 * FQ2;
  add2 : FQ2 * FQ2 * FQ2 -> FQ2 * FQ2 * FQ2 -> FQ2 * FQ2 * FQ2;
  multiply2 : FQ2 * FQ2 * FQ2 -> Z -> FQ2 * FQ2 * FQ2;
  neg2 : FQ2 * FQ2 * FQ2 -> FQ2 * FQ2 * FQ2;
  eq2 : FQ2 * FQ2 * FQ2 -> FQ2 * FQ2 * FQ2 -> bool;
  is_on_curve2 : FQ2 * FQ2 * FQ2 -> bool;
  is_inf2 : FQ2 * FQ2 * FQ2 -> bool;
  normalize2 : FQ2 * FQ2 * FQ2 -> FQ2 * FQ2;
  pairing : FQ2 * FQ2 * FQ2 -> FQ * FQ * FQ -> FQ12 }.


(** The generator of random numbers the tests pass: its [randint]. *)
Abbreviation generator := (Z -> Z -> Z).

Module Fr.
Definition modulus : Z := 0x73EDA753299D7D483339D80809A1D80553BDA402FFFE5BFEFFFFFFFF00000001.
Definition zero : Z := 0.
Definition one : Z := 1.
Definition add (xxx yyy : Z) : Z := (xxx + yyy) mod modulus.
Definition mul (xxx yyy : Z) : Z := (xxx * yyy) mod modulus.
Definition neg (xxx : Z) : Z := (- xxx) mod modulus.
Definition to_hex (point : Z) : res str := bs ← to_bytes_little 32 point; Ok ($"0x" +:+ hex bs).
(** Both bounds of [randint] are included. *)
Definition random (gen : generator) : Z := gen 0 modulus.
End Fr.

Module G1.
Section S.
Context {ecc : PyEcc}.
Definition G1Point : Type := FQ * FQ * FQ.
Definition zero : G1Point := Z1.
Definition one : G1Point := ecc_G1.
Definition add (xxx yyy : G1Point) : G1Point := add1 xxx yyy.
Definition mul (xxx : G1Point) (nnn : Z) : G1Point := multiply1 xxx nnn.
Definition neg (xxx : G1Point) : G1Point := neg1 xxx.
Definition equal (xxx yyy : G1Point) : bool := eq1 xxx yyy.
Definition is_on_curve (xxx : G1Point) : bool := is_on_curve1 xxx.

Definition to_hex (g1_point : G1Point) : res str :=
  let '(xxx, yyy) :=
    if is_inf1 g1_point then (POW_2_382, 0)
    else let '(xxx_pt, yyy_pt) := normalize1 g1_point in (FQ_n xxx_pt, FQ_n yyy_pt) in
  xxx_bytes ← to_bytes_big 48 xxx;
  yyy_bytes ← to_bytes_big 48 yyy;
  Ok ($"0x" +:+ hex (xxx_bytes ++ yyy_bytes)).

Definition of_hex (hexstr : str) : res G1Point :=
  xxx_bytes ← fromhex_or_raise (slice (Some 2) (Some 98) hexstr);
  yyy_bytes ← fromhex_or_raise (slice (Some 98) None hexstr);
  Ok (FQ_of (from_bytes_big xxx_bytes), FQ_of (from_bytes_big yyy_bytes), FQ_of 1).

Definition random (gen : generator) : res G1Point :=
  let g1_point := mul one (Fr.random gen) in
  _ ← assert_ (is_on_curve g1_point);
  Ok g1_point.
End S.
End G1.

Module G2.
Section S.
Context {ecc : PyEcc}.
Definition G2Point : Type := FQ2 * FQ2 * FQ2.
Definition zero : G2Point := Z2.
Definition one : G2Point := ecc_G2.
Definition add (xxx yyy : G2Point) : G2Point := add2 xxx yyy.
Definition mul (xxx : G2Point) (nnn : Z) : G2Point := multiply2 xxx nnn.
Definition neg (xxx : G2Point) : G2Point := neg2 xxx.
Definition equal (xxx yyy : G2Point) : bool := eq2 xxx yyy.
Definition is_on_curve (xxx : G2Point) : bool := is_on_curve2 xxx.

Definition to_hex (g2_point : G2Point) : res str :=
  let '(x_re, x_im, y_re, y_im) :=
    if is_inf2 g2_point then (0, POW_2_382, 0, 0)
    else
      let '(xxx, yyy) := normalize2 g2_point in
      let '(x_re, x_im) := FQ2_coeffs xxx in
      let '(y_re, y_im) := FQ2_coeffs yyy in
      (x_re, x_im, y_re, y_im) in
  x_re_bytes ← to_bytes_big 48 x_re;
  x_im_bytes ← to_bytes_big 48 x_im;
  y_re_bytes ← to_bytes_big 48 y_re;
  y_im_bytes ← to_bytes_big 48 y_im;
  let x_bytes := x_im_bytes ++ x_re_bytes in
  let y_bytes := y_im_bytes ++ y_re_bytes in
  Ok ($"0x" +:+ hex (x_bytes ++ y_bytes)).

Definition of_hex (hexstr : str) : res G2Point :=
  x_bytes ← fromhex_or_raise (slice (Some 2) (Some 194) hexstr);
  y_bytes ← fromhex_or_raise (slice (Some 194) None hexstr);
  let x_im_bytes := slice (Some 0) (Some 48) x_bytes in
  let x_re_bytes := slice (Some 48) None x_bytes in
  let y_im_bytes := slice (Some 0) (Some 48) y_bytes in
  let y_re_bytes := slice (Some 48) None y_bytes in
  Ok (FQ2_of (from_bytes_big x_re_bytes) (from_bytes_big x_im_bytes),
      FQ2_of (from_bytes_big y_re_bytes) (from_bytes_big y_im_bytes), FQ2_of 1 0).

Definition random (gen : generator) : res G2Point :=
  let g2_point := mul one (Fr.random gen) in
  _ ← assert_ (is_on_curve g2_point);
  Ok g2_point.
End S.
End G2.

Definition pairing_check {ecc : PyEcc} (points : list (G1.G1Point * G2.G2Point)) : bool :=
  let prod := fold_left (fun prod '(g1_point, g2_point) => FQ12_mul prod (pairing g2_point g1_point))
                points FQ12_one in
  FQ12_eqb FQ12_one prod.

(** ** What the package documents *)

(** Field elements are kept modulo the field modulus; a point is in projective
    coordinates, at infinity exactly if its last coordinate is zero, and
    normalising a point whose last coordinate is one gives its first two. *)
Class PyEccSpec (ecc : PyEcc) : Prop := {
  modulus_range : 1 < field_modulus < 2 ^ 381;
  FQ_n_of n : FQ_n (FQ_of n) = n mod field_modulus;
  FQ2_coeffs_of a b : FQ2_coeffs (FQ2_of a b) = (a mod field_modulus, b mod field_modulus);
  is_inf1_z x y z : is_inf1 (x, y, z) = (FQ_n z =? 0);
  is_inf2_z x y z : is_inf2 (x, y, z) = ((FQ2_coeffs z).1 =? 0) && ((FQ2_coeffs z).2 =? 0);
  normalize1_one x y : normalize1 (x, y, FQ_of 1) = (x, y);
  normalize2_one x y : normalize2 (x, y, FQ2_of 1 0) = (x, y);
  POW_2_382_value : POW_2_382 = 2 ^ 382;
  Z1_inf : is_inf1 Z1 = true }.

(** ** Lemmas *)

Lemma be_bytes_length k : forall n, length (be_bytes k n) = k.
Proof. induction k as [|k IH]; intros n; cbn; [done|]. rewrite length_app, IH. cbn. lia. Qed.

Lemma be_bytes_bytes k : forall n, Forall is_byte (be_bytes k n).
Proof.
  induction k as [|k IH]; intros n; cbn; [constructor|]. apply Forall_app. split; [done|].
  constructor; [|constructor]. unfold is_byte. apply Z.mod_pos_bound. lia.
Qed.

Lemma undigits_be_bytes k : forall n, undigits 256 (be_bytes k n) = n mod 256 ^ Z.of_nat k.
Proof.
  induction k as [|k IH]; intros n; [by rewrite Z.mod_1_r|]. cbn [be_bytes]. rewrite undigits_snoc, IH.
  rewrite Nat2Z.inj_succ, Z.pow_succ_r by lia. rewrite Z.rem_mul_r by lia. lia.
Qed.

Lemma to_bytes_big_ok k n : 0 <= n < 256 ^ Z.of_nat k -> to_bytes_big k n = Ok (be_bytes k n).
Proof.
  intros H. unfold to_bytes_big. destruct (Z.leb_spec 0 n); [|lia].
  by destruct (Z.ltb_spec n (256 ^ Z.of_nat k)); [|lia].
Qed.

Lemma from_to_bytes k n : 0 <= n < 256 ^ Z.of_nat k -> from_bytes_big (be_bytes k n) = n.
Proof. intros H. unfold from_bytes_big. rewrite undigits_be_bytes. by apply Z.mod_small. Qed.

Lemma fits_48 n : 0 <= n < 2 ^ 383 -> 0 <= n < 256 ^ Z.of_nat 48.
Proof. intros H. assert (2 ^ 383 < 256 ^ Z.of_nat 48) by (vm_compute; reflexivity). lia. Qed.

Section Facts.
Context {ecc : PyEcc} {es : PyEccSpec ecc}.

(** The text of two halves is cut where it was joined. *)
Lemma of_hex_halves a b n : Forall is_byte a -> Forall is_byte b -> length a = n ->
  fromhex_or_raise (slice (Some 2) (Some (2 + 2 * Z.of_nat n)) ($"0x" +:+ hex (a ++ b))) = Ok a /\
  fromhex_or_raise (slice (Some (2 + 2 * Z.of_nat n)) None ($"0x" +:+ hex (a ++ b))) = Ok b.
Proof.
  intros Ha Hb <-. unfold fromhex_or_raise. rewrite hex_app. split.
  - rewrite (slice_middle $"0x" (hex a) (hex b));
      [by rewrite fromhex_hex| |]; rewrite ?length_hex; change (length $"0x") with 2%nat; lia.
  - rewrite (app_assoc $"0x"), slice_from_app; [by rewrite fromhex_hex|].
    rewrite length_app, length_hex. change (length $"0x") with 2%nat. lia.
Qed.

Definition reduced (n : Z) : Prop := 0 <= n < field_modulus.

Lemma reduced_fits n : reduced n -> n mod field_modulus = n /\ 0 <= n < 256 ^ Z.of_nat 48.
Proof.
  intros H. pose proof modulus_range as Hm. unfold reduced in H. split; [by apply Z.mod_small|].
  apply fits_48. assert (2 ^ 381 < 2 ^ 383) by (vm_compute; reflexivity). lia.
Qed.

Lemma G1_to_hex x y : reduced x -> reduced y ->
  G1.to_hex (FQ_of x, FQ_of y, FQ_of 1) = Ok ($"0x" +:+ hex (be_bytes 48 x ++ be_bytes 48 y)).
Proof.
  intros Hx Hy. destruct (reduced_fits x Hx) as [Ex Bx], (reduced_fits y Hy) as [Ey By].
  unfold G1.to_hex. rewrite is_inf1_z, FQ_n_of, Z.mod_1_l by apply modulus_range.
  rewrite normalize1_one, !FQ_n_of, Ex, Ey. cbn [Z.eqb]. by rewrite !to_bytes_big_ok.
Qed.

Lemma G1_of_hex x y : 0 <= x < 256 ^ Z.of_nat 48 -> 0 <= y < 256 ^ Z.of_nat 48 ->
  G1.of_hex ($"0x" +:+ hex (be_bytes 48 x ++ be_bytes 48 y)) = Ok (FQ_of x, FQ_of y, FQ_of 1).
Proof.
  intros Hx Hy. unfold G1.of_hex.
  destruct (of_hex_halves (be_bytes 48 x) (be_bytes 48 y) 48) as [H1 H2];
    [apply be_bytes_bytes|apply be_bytes_bytes|apply be_bytes_length|].
  change (2 + 2 * Z.of_nat 48) with 98 in *. rewrite H1, H2. cbn [mbind res_bind].
  by rewrite !from_to_bytes.
Qed.

Lemma G2_to_hex x_re x_im y_re y_im : reduced x_re -> reduced x_im -> reduced y_re -> reduced y_im ->
  G2.to_hex (FQ2_of x_re x_im, FQ2_of y_re y_im, FQ2_of 1 0)
  = Ok ($"0x" +:+ hex ((be_bytes 48 x_im ++ be_bytes 48 x_re) ++ be_bytes 48 y_im ++ be_bytes 48 y_re)).
Proof.
  intros H1 H2 H3 H4. destruct (reduced_fits _ H1) as [E1 B1], (reduced_fits _ H2) as [E2 B2],
    (reduced_fits _ H3) as [E3 B3], (reduced_fits _ H4) as [E4 B4].
  unfold G2.to_hex. rewrite is_inf2_z, FQ2_coeffs_of, Z.mod_1_l by apply modulus_range.
  cbn [fst snd Z.eqb andb]. rewrite normalize2_one, !FQ2_coeffs_of, E1, E2, E3, E4.
  by rewrite !to_bytes_big_ok.
Qed.

Lemma G2_of_hex x_re x_im y_re y_im : reduced x_re -> reduced x_im -> reduced y_re -> reduced y_im ->
  G2.of_hex ($"0x" +:+ hex ((be_bytes 48 x_im ++ be_bytes 48 x_re) ++ be_bytes 48 y_im ++ be_bytes 48 y_re))
  = Ok (FQ2_of x_re x_im, FQ2_of y_re y_im, FQ2_of 1 0).
Proof.
  intros H1 H2 H3 H4. destruct (reduced_fits _ H1) as [_ B1], (reduced_fits _ H2) as [_ B2],
    (reduced_fits _ H3) as [_ B3], (reduced_fits _ H4) as [_ B4]. unfold G2.of_hex.
  destruct (of_hex_halves (be_bytes 48 x_im ++ be_bytes 48 x_re) (be_bytes 48 y_im ++ be_bytes 48 y_re) 96) as [Ha Hb];
    [apply Forall_app; split; apply be_bytes_bytes|apply Forall_app; split; apply be_bytes_bytes|
     by rewrite length_app, !be_bytes_length|].
  change (2 + 2 * Z.of_nat 96) with 194 in *. rewrite Ha, Hb. cbn [mbind res_bind].
  assert (Hs : forall a b, slice (Some 0) (Some 48) (be_bytes 48 a ++ be_bytes 48 b) = be_bytes 48 a /\
                           slice (Some 48) None (be_bytes 48 a ++ be_bytes 48 b) = be_bytes 48 b).
  { intros a b. split.
    - apply (slice_middle [] (be_bytes 48 a) (be_bytes 48 b)); [done|by rewrite be_bytes_length].
    - apply slice_from_app. by rewrite be_bytes_length. }
  destruct (Hs x_im x_re) as [-> ->], (Hs y_im y_re) as [-> ->]. by rewrite !from_to_bytes.
Qed.

(** C25. The hexadecimal form of an affine point of G1, and of G2 with the
    imaginary parts first, is read back to the same point; the form of the point
    at infinity of G1 is read back to a point that is not at infinity. *)
Theorem point_hex_roundtrip x_re x_im y_re y_im :
  reduced x_re -> reduced x_im -> reduced y_re -> reduced y_im ->
  (G1.to_hex (FQ_of x_re, FQ_of y_re, FQ_of 1) ≫= G1.of_hex) = Ok (FQ_of x_re, FQ_of y_re, FQ_of 1) /\
  (G2.to_hex (FQ2_of x_re x_im, FQ2_of y_re y_im, FQ2_of 1 0) ≫= G2.of_hex)
    = Ok (FQ2_of x_re x_im, FQ2_of y_re y_im, FQ2_of 1 0) /\
  exists p, (G1.to_hex G1.zero ≫= G1.of_hex) = Ok p /\ is_inf1 p = false.
Proof.
  intros H1 H2 H3 H4. split; [|split].
  - rewrite G1_to_hex by done. cbn [mbind res_bind]. apply G1_of_hex; by apply reduced_fits.
  - rewrite G2_to_hex by done. cbn [mbind res_bind]. by apply G2_of_hex.
  - assert (B0 : 0 <= 0 < 256 ^ Z.of_nat 48) by (vm_compute; split; [discriminate|reflexivity]).
    assert (B1 : 0 <= 2 ^ 382 < 256 ^ Z.of_nat 48) by (vm_compute; split; [discriminate|reflexivity]).
    exists (FQ_of (2 ^ 382), FQ_of 0, FQ_of 1). split.
    + unfold G1.to_hex, G1.zero. rewrite Z1_inf, POW_2_382_value. rewrite !to_bytes_big_ok by done.
      cbn [mbind res_bind]. by apply G1_of_hex.
    + rewrite is_inf1_z, FQ_n_of, Z.mod_1_l by apply modulus_range. done.
Qed.
End Facts.

(** A package over the integers modulo 7, with trivial curve operations. *)
Definition toy_ecc : PyEcc :=
  {| FQ := Z; FQ_of n := n mod 7; FQ_n n := n; FQ2 := Z * Z; FQ2_of a b := (a mod 7, b mod 7);
     FQ2_coeffs c := c; FQ12 := Z; FQ12_one := 1; FQ12_mul := Z.mul; FQ12_eqb := Z.eqb;
     POW_2_382 := 2 ^ 382; field_modulus := 7; Z1 := (1, 1, 0); ecc_G1 := (1, 2, 1);
     add1 p _ := p; multiply1 p _ := p; neg1 p := p; eq1 _ _ := true; is_on_curve1 _ := true;
     is_inf1 p := p.2 =? 0; normalize1 p := p.1; Z2 := ((1, 0), (1, 0), (0, 0));
     ecc_G2 := ((1, 0), (2, 0), (1, 0)); add2 p _ := p; multiply2 p _ := p; neg2 p := p; eq2 _ _ := true;
     is_on_curve2 _ := true; is_inf2 p := (p.2.1 =? 0) && (p.2.2 =? 0); normalize2 p := p.1;
     pairing _ _ := 1 |}.

#[export] Instance toy_ecc_spec : PyEccSpec toy_ecc.
Proof. constructor; try done; try (intros; reflexivity). Qed.

Lemma point_hex_roundtrip_witness :
  (G1.to_hex (ecc := toy_ecc) (3, 5, 1) ≫= G1.of_hex (ecc := toy_ecc)) = Ok (3, 5, 1).
Proof.
  refine (proj1 (@point_hex_roundtrip toy_ecc toy_ecc_spec 3 0 5 0 _ _ _ _));
    split; vm_compute; first [discriminate | reflexivity].
Defined.
