(* ===== verification/RunScripts.v ===== *)
(** * Scripts that run a network (tests_python/scripts/run_testnet.py,
      scripts/run_node_baker.py)

    Both scripts build a sandbox, activate a protocol, add bakers and then read
    the head for ever; the last loop is modelled with the number of rounds after
    which the script is interrupted.  The parameters of the protocol, which
    constants reads from the source tree, and TEZOS_HOME are arguments. *)

From Stdlib Require Import ZArith Lia.
From stdpp Require Import base tactics list strings numbers.
From S2P Require Import Prelude PyStr PyExc PyRe PyDict PyFloat PyJson PyTime.
From S2P Require Import PyIO ClientOutput Daemons Client ClientCommands ClientFacts Constants Sandbox Utils UtilsFacts Protocol ArgParse.

Local Open Scope Z_scope.
Local Open Scope py_scope.

(** The keys of the accounts, in three parts. *)
Definition BOOTSTRAP_KEYS_1 : list (str * str) :=
  [($"bootstrap1", $"unencrypted:edsk4K663GCFQwpP9A8KmB1apLti9QdymaLSfDpZJYxF6FU7RDxTf7");
   ($"bootstrap2", $"unencrypted:edsk3TQC5LiubMxjRHPtG9C6nm36naBc48HRyCutpg7EvKEjbDXWwg");
   ($"bootstrap3", $"unencrypted:edsk4R5vSo6TcJDKzHyEpBN4J43Zoq5hqgRxZR6CfxavprMVLsx3XH");
   ($"bootstrap4", $"unencrypted:edsk2ofibH3K3t9aMZkabhNYSx84K8tSpDt8WDKrAZvcRS6PEsEbZx");
   ($"bootstrap5", $"unencrypted:edsk3hqvSQqWqcT9qcEoKDCajFxPhD3Kis2NNsdbjKZHpe5PyBZp2E");
   ($"bootstrap6", $"unencrypted:edsk3XyGzQCT9k55Yp1TVBEvXnfW8mfBVp63LmT4J7TTerS1QFtmbm");
   ($"bootstrap7", $"unencrypted:edsk4X5cGKWGTGjoaQiAKSgr686F6aQoiaqizRiGZJkt31zjkfxveH");
   ($"bootstrap8", $"unencrypted:edsk4UEfVoTEwHaZ29WgR9jU2WuzKksYDSQkMokpBHRMNtRuczamjg");
   ($"bootstrap9", $"unencrypted:edsk37M9nY8GwNjfBVHp4ATEfNcRB6NqU3yhB4Lsh5EMgowfzL6v5R");
   ($"bootstrap10", $"unencrypted:edsk3koctiTD89vDaWmJWUwCdKfcWkNCgQrHGQpfdDBdheQRBweRvf");
   ($"bootstrap11", $"unencrypted:edsk3zp6hca1iDEwYe7gjF4rJfAsxmgq8bCS3hmce8LxaKzH6AcCJx");
   ($"bootstrap12", $"unencrypted:edsk4cWrRPMewAnQPPgMsQKtypjYc1iUFkB55J8yLtQRFYp6tYPMBi");
   ($"bootstrap13", $"unencrypted:edsk2vzWWn2ZHqfnecJD2sRjPCe351qXgDSJoRiBsnDALzA3Hp7gy4");
   ($"bootstrap14", $"unencrypted:edsk2jTnjJBD7XqXLj7zmfkfJ7fcp5SSn67spQRUe5nkSMQ6mFfzFQ");
   ($"bootstrap15", $"unencrypted:edsk3LT9AUuuhRRQ7DBEiB8qLD1DFZmnYANATxnaMiZU2kUW4WX5dT");
   ($"bootstrap16", $"unencrypted:edsk3yGpeunWHVojExQid55fAWHL9GN9R1bV1W9GsgmrkfjS2PkCDY");
   ($"bootstrap17", $"unencrypted:edsk3jnsvuFPkRAXLVB67fJWLSrk7pFjL1dw7xK8jQrGR5hpQnid9X");
   ($"bootstrap18", $"unencrypted:edsk4Nt3os53mSjqBdeFLFTRxX4L1oRLp1GMacesQzwSUgbzvs8swy");
   ($"bootstrap19", $"unencrypted:edsk3kHrZT1GW759Fq8qRKdv8fpf2DhvCqnhLhjSAHJ4bsD7ajTqQ9");
   ($"bootstrap20", $"unencrypted:edsk2pxjeZzoWx5noS3Cg5sVgcnGb2YYji6bGjwFhonZYYHbujSaDP");
   ($"bootstrap21", $"unencrypted:edsk4YQfPpKmUYvbenAdrcLqWCA56tgjZmVAv8E3Er3t18gDe9nKrJ");
   ($"bootstrap22", $"unencrypted:edsk3BJASkPA6bvSwvu8n4JH8Hd4s4m7S6njejGkE4L86hMVzkTqA1");
   ($"bootstrap23", $"unencrypted:edsk3bTfXmJnbeFov2BdSzTfLq92m4m7qnsVtxFMu4nP3tdXchqLP7");
   ($"bootstrap24", $"unencrypted:edsk3Co7CigtiCHZHe5w81GtfFZVJx97FjWBkEHpe8SXSAkLeTnthh");
   ($"bootstrap25", $"unencrypted:edsk3Yk8RAm9SnDRmkV1Bw2YSAaE29ZGCsf6siXR4pS1RvX6XRb15o");
   ($"bootstrap26", $"unencrypted:edsk3eG4Mb7bfdxwkD1yHxCQMqWSEJULwnqMJchza493dCMY6xe9XZ");
   ($"bootstrap27", $"unencrypted:edsk3d1R7mkh5ioRiDC97dWSUNMd379hj3ezrGs8Rdnm6eZx8iAq4L");
   ($"bootstrap28", $"unencrypted:edsk3gRsMw3rARu8tTdSdfL93uVDkeg9YoNV32vCmm6Kx5u36zgGQX");
   ($"bootstrap29", $"unencrypted:edsk3u8EayRjqEPuhb4J88SzBePieHZR4h7iHcYZXkU3jMges3XN8n");
   ($"bootstrap30", $"unencrypted:edsk4HnaFh65N2fSwi3wHB4BqXUm4haLMNCe4TiWkVqwzm4kuLeQZH");
   ($"bootstrap31", $"unencrypted:edsk3b1iWD1J3fiQKm4WCK1LvqrRiDxwjsfczCwiQK7vWFGaT6RzbL");
   ($"bootstrap32", $"unencrypted:edsk3yQXEuyKCAwBsojSsYudcUB4PqEPEyw4pyjVTXNgiiS3PKZyiL");
   ($"bootstrap33", $"unencrypted:edsk3aTbg7Qka2G2MrBcPv8kivhjpUX1phiZHBnkTsZE8kWd14yo4x");
   ($"bootstrap34", $"unencrypted:edsk3p9cRQ1EDWXdzCwwSGDGCQ4VK4fr1PAcxcYTzN1spYAEwsiBLX")].

Definition BOOTSTRAP_KEYS_2 : list (str * str) :=
  [($"bootstrap35", $"unencrypted:edsk3t15XnxHBzbitxnSQZoc3HEYm45iAgHQWSd31UrQxY2twbAT7C");
   ($"bootstrap36", $"unencrypted:edsk496KFUos2tL8qgPjbwmyFtosJ7oF9C7b5J3snRiZuEeP2cetis");
   ($"bootstrap37", $"unencrypted:edsk2fvvnkEJYd1ZkVxUQDSKXixSiRMBwXCz9HRHRdhcsUii6EBvdg");
   ($"bootstrap38", $"unencrypted:edsk3ekA9BmGMCCCnV5pd3tvmQETd43B4CyzsgsFPUyHKdaZiwDAPk");
   ($"bootstrap39", $"unencrypted:edsk2phuUApj9ggF8yfaCAU6eL8yFs7WyS12auy1qyvNYjDGyevKc5");
   ($"bootstrap40", $"unencrypted:edsk35nQxhJ7jj7Fp5mFLReJWmeoWMoapCYXG3tFS9ynRqT5QiD1p7");
   ($"bootstrap41", $"unencrypted:edsk3tLjUDNutzrS4JNnhm5MVavFkixuFCZJgUJCRHFfSUdPBp88pY");
   ($"bootstrap42", $"unencrypted:edsk49ZwCsFc5u9f4q1FCHCzqnHnA2wQo8EfN6z3qCFj358vHXRAzK");
   ($"bootstrap43", $"unencrypted:edsk3Gmf2uaXpfTrVrCcHcGBmvenX2UmWuAKuEdFy8sg9kgZyKCxv7");
   ($"bootstrap44", $"unencrypted:edsk4RRLgSdwQyBhCHKEMDJsM5MGaEdpLURqwyyhg34Ez6tuzdje1f");
   ($"bootstrap45", $"unencrypted:edsk3zgorCTqzceNyrcgcEKSCSuxo97NiLJakzX6RBmfCBqF5v9KZh");
   ($"bootstrap46", $"unencrypted:edsk43WzdjDukBGt1wmx8wDEhwCiicUit5vT5hhbWGmKqmq1HZrFoJ");
   ($"bootstrap47", $"unencrypted:edsk3FTeK3uWfeenLpvdpopbYswW8HcTSBcLAu6jA65pNhGbjr2kdz");
   ($"bootstrap48", $"unencrypted:edsk2zSv9QxyZKZMyBmPWDtF1puFUrQTtVUqbpryjLfhFQrjzQxWTp");
   ($"bootstrap49", $"unencrypted:edsk3LsymG5cohGRvnheztubWgZ5Y6SjSVjBwAELNFByA2zKAEtDYw");
   ($"bootstrap50", $"unencrypted:edsk36tF1LdVJVwikbzPF5dPVm1Nj9NLA1zK9qnWMCbpWjcyhe9cgr");
   ($"bootstrap51", $"unencrypted:edsk3hB4hMcGSMthz24CYUxwNeCZaATLkT2bShsHtj5YcexN6pvxNx");
   ($"bootstrap52", $"unencrypted:edsk4HFCzvavH3m3aJ9pUCQAyAe3HdFpMAepx1KRumPtYo7PsVjMNu");
   ($"bootstrap53", $"unencrypted:edsk3XRDMyfLFsUHfqq6A4FG4D1akM4dZan4oQeVuFgNjm1w2WcC2v");
   ($"bootstrap54", $"unencrypted:edsk3RinEQ7SrvUrYtj6hpDyEKdTaZYbt77b2LHLtVrRDnPCiGveVn");
   ($"bootstrap55", $"unencrypted:edsk46KNd7H1HdFjMrjdphConYNrejn8B18Dyfb2Y1WqRNittBQvdv");
   ($"bootstrap56", $"unencrypted:edsk3fp6cAsLbXidNHnuZ9wMX1ViK9ncXUEjPvu1WP4DXKsXwrDA2H");
   ($"bootstrap57", $"unencrypted:edsk4Q21mB7NKn9Kd9cHaPUFLo6qq1BMVXBoe64mn1StCCff8iW3HK");
   ($"bootstrap58", $"unencrypted:edsk2qz6LeFB558sJLDzgyhgrRMzvEiJKFiCLDsxXLekXLtrmP6YCT");
   ($"bootstrap59", $"unencrypted:edsk32dVUUmWXFB2GeYY6ufDGJqqYzvpSs1TmdDuuAMbdRgxgsePWK");
   ($"bootstrap60", $"unencrypted:edsk4KgbLFCuQzq6XqA5khWE9JDJtMvm7R5ijMJR7DV8JJKwVZV2DE");
   ($"bootstrap61", $"unencrypted:edsk4XiewdSWTf8qfV8m5e8jTsu1v6e3p5uuAm3yjkZcz9QkVk7BF4");
   ($"bootstrap62", $"unencrypted:edsk3kxZt9ix9pQpC436d8AoNhfSDCqnMVvDhp8efeEiwWe7xVEc84");
   ($"bootstrap63", $"unencrypted:edsk3PKUeiG4zFveJDFFUfX564eeV9LD4FCLmNP3C9hWpdGaJX6GiM");
   ($"bootstrap64", $"unencrypted:edsk3y8FtXJbc2GzUXirn3ZQhJPEargPckHwrCseyUachRps1vX8Go");
   ($"bootstrap65", $"unencrypted:edsk4DRKcrDx38tTeL2WYSGnENwoVdeoU7DedrSUL89GeSobsfjVxQ");
   ($"bootstrap66", $"unencrypted:edsk31xEsCpdFban4vZCupk9XMvc5jgEHD1oZshWMQ9rcZjB687P67");
   ($"bootstrap67", $"unencrypted:edsk4A3WX8WjyrPEWKKk9miZ4AD44499p83FpWpmftPAjPa6oGVAF3");
   ($"bootstrap68", $"unencrypted:edsk4GSVoVwsbivkYTTnQiq2dCrdFmaQsoXiHgRnYZvhNhHdbirmG9")].

Definition BOOTSTRAP_KEYS_3 : list (str * str) :=
  [($"bootstrap69", $"unencrypted:edsk43AXSQAsv1mMmCujV8b5xZdXyeKaLNV3BismoWhRGFoYoG7E7D");
   ($"bootstrap70", $"unencrypted:edsk4LmTCHCHTq9ejF1XoCgcXMzKVhcvvrto9SW4wpL3aNxvM92mRo");
   ($"bootstrap71", $"unencrypted:edsk3RaXQohk3ytaccf4ovvacQzGFuxhqDj1XPM8VucGmzom3tQ5Ao");
   ($"bootstrap72", $"unencrypted:edsk43WCHdyQVbvrCSf4jH3wrGthKmk4d9AscPVYr6JddfWBpgj3S2");
   ($"bootstrap73", $"unencrypted:edsk3fdWsZVELiLE92nJD4XBHeUJCKecLy4cmtpyreT33VBUM8pqhJ");
   ($"bootstrap74", $"unencrypted:edsk37XA3rRkYL1SHkGuaMWsXXtKCJmcWgTFraz8TrUNQre9s9s9nh");
   ($"bootstrap75", $"unencrypted:edsk35mupp2njv9xbjLKN9jmAeUoZwvbVkfzkTuinjpMwyVuQVv3kE");
   ($"bootstrap76", $"unencrypted:edsk4AborPRpuR36GCmCzcZzGJn8HxU8SbfsQ1fcb3grR6NaUBAVWC");
   ($"bootstrap77", $"unencrypted:edsk3Ew2RYFFw2X6roHtioieKaPoW3DjoruGH53jaNSoaX6emGMzWt");
   ($"bootstrap78", $"unencrypted:edsk2yTsm39smYfYG5xarLT6U7pHry1aqm6Q3rYfbYLs3Y6LoJbTuU");
   ($"bootstrap79", $"unencrypted:edsk3W1nnD39CxtPTH1opNK297YN9ymGbHifg732oKfJQY9tE4ao1V");
   ($"bootstrap80", $"unencrypted:edsk47UY9j65f3SqrBTy1pzbAxhj8RFVSy22nev6FtefiksFvfKwBh");
   ($"bootstrap81", $"unencrypted:edsk3caYottvwZk6RfaZUe5qaMuknHJGeAZWBbDfwnH8wWwLnbpyj4");
   ($"bootstrap82", $"unencrypted:edsk2gYSqge2obXUpUKgtuoPcbJSqzxcMoc1NXRvWhtNm3N4t1g1cX");
   ($"bootstrap83", $"unencrypted:edsk4LtDdcBJnJjs8p51h4J3W9s3XRkSvLvvVHriGdqJucrRZkprrH");
   ($"bootstrap84", $"unencrypted:edsk4LTGr15vS9zwuVszH3VP3JJUxGShdnWFyPvQAWo4qKk6jwVPSQ");
   ($"bootstrap85", $"unencrypted:edsk3Ue2qpscNaQz9dX65jU6Rpnu3uR6kv7Ka1iQtwyY53mQQKNKmC");
   ($"bootstrap86", $"unencrypted:edsk3Xe437dhiaNxQJbQHxkaN59PLijnr4vB5Twd4iKiTXR2C3YByP");
   ($"bootstrap87", $"unencrypted:edsk2sNKLcSWM6qx82PCMhrUmggMdsepupqmve66uHiwCZ1v4b4CWY");
   ($"bootstrap88", $"unencrypted:edsk2kbo1PxmNQAJZYPKCs8PJoWD66rzDukCRDaK3ZXEVNc6Ytixrv");
   ($"bootstrap89", $"unencrypted:edsk3b2MQQ2y1wejsAXk7tVH1JiAPdpyveiSapeHJiDQtZaxAyEEns");
   ($"bootstrap90", $"unencrypted:edsk34uJZesZn7a9KTZi5gGitp5ZjAX8L3Fi94txZr6gvjbs9hx8pr");
   ($"bootstrap91", $"unencrypted:edsk31oFoMdGJU15RGnogkTV5wM8sURkuhz1ASxXo35YykA9AGh9vK");
   ($"bootstrap92", $"unencrypted:edsk3pJVD6aTjDuaEBd84etSDHERFnk5yNEacxqUYVWcASiukFufyR");
   ($"bootstrap93", $"unencrypted:edsk4NMSS2CixsRmrbFY8KUn1XAeXHhCnQFbCdQb9Dfkw7Ew1yHTbt");
   ($"bootstrap94", $"unencrypted:edsk3jF6vVJry3jL4RVHXvGN88ahi9cTgv6LLo7SoUywgCRkm6MmCX");
   ($"bootstrap95", $"unencrypted:edsk4KrsynXVeAzcr3PP6d95FtGdcwaHmK1CTZtcwz7DFhLQXJBW2e");
   ($"bootstrap96", $"unencrypted:edsk2tmfb4bgB6DMzevo1H7r8aqQAPurUY6dv93JBuSkQW6QzyAQio");
   ($"bootstrap97", $"unencrypted:edsk3Xf1gv4k4YsUfsw9BoBgh4BdbouJqv3BvAmns1A2sPEPFeAVbJ");
   ($"bootstrap98", $"unencrypted:edsk4JkYQJ5X1BGCRnEeGo7EfunriNpfK4tFj1LsLonrguUTyWMZMN");
   ($"bootstrap99", $"unencrypted:edsk3yKcPeV8MWP7G2ZBpShcLL8JZH8k9Y8qsywuKk7MUh5RzctkXP");
   ($"bootstrap100", $"unencrypted:edsk4R7i4PiNU4baYSzCVzcVeZvYNHAGwzBaHpZUdzuRXE74pchtvN")].

Definition BOOTSTRAP_KEYS : list (str * str) := BOOTSTRAP_KEYS_1 ++ BOOTSTRAP_KEYS_2 ++ BOOTSTRAP_KEYS_3.

Definition identity_secret (name : str) : str :=
  default [] (d ← dget name IDENTITIES; dget $"secret" d).

Definition KEYS : list (str * str) := BOOTSTRAP_KEYS ++ [($"activator", identity_secret $"activator")].

Definition NUM_ACCOUNTS : Z := Z.of_nat (length KEYS) - 1.

Definition account_name (i : Z) : str := $"bootstrap" +:+ str_int i.

Definition accounts (node num_nodes : Z) : res (list str) :=
  if num_nodes =? 0 then Raise ZeroDivisionError
  else
    let quotient := NUM_ACCOUNTS / num_nodes in
    let start := node * quotient + 1 in
    let end_ := (node + 1) * quotient + 1 in
    Ok (map account_name (range start end_)).

Section Network.
Context {o : OS} {U : UCD}.
Abbreviation SM := (M (Sandbox Client)).

(** [d[k] = v] on a decoded dictionary *)
Definition jset (k : str) (v : json) (j : json) : res json :=
  match j with JDict d => Ok (JDict (dset k v d)) | _ => Raise TypeError end.

Definition TENDERBAKE_PARAMETERS (PARAMETERS : json) : res json :=
  p ← jset $"consensus_threshold" (JInt 45) PARAMETERS;
  jset $"consensus_committee_size" (JInt 67) p.

(** The two delays, which are text in the parameters. *)
Definition with_round_duration (round_duration : Z) (parameters : json) : res json :=
  p ← jset $"minimal_block_delay" (JStr (str_int round_duration)) parameters;
  jset $"delay_increment_per_round" (JStr (str_int round_duration)) p.

(** [sandbox.add_node] with its default arguments but these two *)
Definition add_default_node (i : Z) (config_client : bool) : SM () :=
  add_node i None None (Some NODE_PARAMS) None true config_client None None false [] None None Client_factory.

(** [while 1], interrupted after some rounds *)
Fixpoint watch_head (rounds : nat) (round_duration : Z) (client : SM Client) : SM () :=
  match rounds with
  | O => mret ()
  | Datatypes.S n =>
      c ← client;
      get_head c;;
      sleep (float_of_Z round_duration);;
      watch_head n round_duration client
  end.

Definition testnet_body (rounds : nat) (ALPHA_PARAMETERS : json) (round_duration num_nodes : Z) : SM () :=
  for_ (range 0 num_nodes) (fun i =>
    add_default_node i false;;
    for_ KEYS (fun '(account, key) =>
      c ← client i; import_secret_key c account key None;; mret ()));;
  parameters ← lift (p ← TENDERBAKE_PARAMETERS ALPHA_PARAMETERS; with_round_duration round_duration p);
  c ← client 0;
  activate ALPHA_PARAMETERS c (Some parameters) tests_alpha None false;;
  for_ (range 0 num_nodes) (fun i =>
    group ← lift (accounts i num_nodes);
    add_baker i group ALPHA_DAEMON None (Some TENDERBAKE_BAKER_LOG_LEVELS) [] None);;
  watch_head rounds round_duration (client 0).

Definition run_testnet_scenario (rounds : nat) (TEZOS_HOME : str) (ALPHA_PARAMETERS : json)
    (round_duration num_nodes : Z) (log_dir : option str) : M () () :=
  sandbox ← Sandbox_init TEZOS_HOME IDENTITIES 18730 19730 45 log_dir false;
  on_new sandbox (with_sandbox (testnet_body rounds ALPHA_PARAMETERS round_duration num_nodes));;
  mret ().

Definition testnet_parser : parser :=
  ArgumentParser
    [Opt [$"--round-duration"] $"round_duration" (Store TStr) (VStr $"5");
     Opt [$"--num-nodes"] $"num_nodes" (Store TStr) (VStr $"1");
     Opt [$"--log-dir"] $"log_dir" (Store TStr) VNone] [] None.

(** [not (log_dir is None or os.path.isdir(log_dir))] is asserted not to hold. *)
Definition check_log_dir (log_dir : value) : M () () :=
  match log_dir with
  | VNone => mret ()
  | VStr d => f ← isdir d; massert f
  | _ => raise TypeError
  end.

Definition optional_text (v : value) : option str := match v with VStr s => Some s | _ => None end.

Definition run_testnet_with (rounds : nat) (TEZOS_HOME : str) (ALPHA_PARAMETERS : json)
    (round_duration num_nodes log_dir : value) : M () () :=
  check_log_dir log_dir;;
  r ← lift (int_value round_duration);
  n ← lift (int_value num_nodes);
  run_testnet_scenario rounds TEZOS_HOME ALPHA_PARAMETERS r n (optional_text log_dir).

Definition run_testnet_main {msg : Messages} (rounds : nat) (TEZOS_HOME : str) (ALPHA_PARAMETERS : json)
    (argv : list str) : M () () :=
  args ← parse_args testnet_parser argv;
  log_dir ← lift (attr $"log_dir" args);
  round_duration ← lift (attr $"round_duration" args);
  num_nodes ← lift (attr $"num_nodes" args);
  run_testnet_with rounds TEZOS_HOME ALPHA_PARAMETERS round_duration num_nodes log_dir.

(** ** run_node_baker.py *)

(** originate is called with one argument too many. *)
Definition node_baker_body (rounds : nat) (ALPHA_PARAMETERS : json) (contract : option str) (storage : str)
    (round_duration : Z) (proto_hash proto_daemon : str) : SM () :=
  parameters ← lift (with_round_duration round_duration ALPHA_PARAMETERS);
  add_default_node 1 true;;
  c ← client 1;
  activate_protocol ALPHA_PARAMETERS c proto_hash (Some parameters) None false;;
  add_baker 1 (map account_name (range 1 6)) proto_daemon None None [] None;;
  c ← client 1;
  match contract with
  | Some (_ :: _) => raise TypeError
  | _ => mret ()
  end;;
  watch_head rounds round_duration (mret c).

Definition run_node_baker_scenario (rounds : nat) (TEZOS_HOME : str) (ALPHA_PARAMETERS : json)
    (contract storage : option str) (round_duration : Z) (proto : option str) : M () () :=
  let proto := default $"alpha" proto in
  massert (bool_decide (proto = $"alpha"));;
  match contract with
  | Some (c :: r) => f ← isfile (c :: r); massert f
  | _ => mret ()
  end;;
  let storage := default $"unit" storage in
  sandbox ← Sandbox_init TEZOS_HOME IDENTITIES 18730 19730 45 None false;
  on_new sandbox (with_sandbox
    (node_baker_body rounds ALPHA_PARAMETERS contract storage round_duration ALPHA ALPHA_DAEMON));;
  mret ().

Definition node_baker_parser : parser :=
  ArgumentParser
    [Opt [$"--time-between-blocks"] $"time_between_blocks" (Store TStr) (VStr $"2");
     Opt [$"--contract"] $"contract" (Store TStr) VNone;
     Opt [$"--storage"] $"storage" (Store TStr) VNone;
     Opt [$"--proto"] $"proto" (Store TStr) VNone] [] None.

(** An empty list of contracts counts as none; as a protocol it cannot be looked up
    in a set. *)
Definition run_node_baker_with (rounds : nat) (TEZOS_HOME : str) (ALPHA_PARAMETERS : json)
    (contract storage time_between_blocks proto : value) : M () () :=
  r ← lift (int_value time_between_blocks);
  match proto with
  | VList _ => raise TypeError
  | _ => run_node_baker_scenario rounds TEZOS_HOME ALPHA_PARAMETERS (optional_text contract)
           (optional_text storage) r (optional_text proto)
  end.

Definition run_node_baker_main {msg : Messages} (rounds : nat) (TEZOS_HOME : str) (ALPHA_PARAMETERS : json)
    (argv : list str) : M () () :=
  args ← parse_args node_baker_parser argv;
  contract ← lift (attr $"contract" args);
  storage ← lift (attr $"storage" args);
  time_between_blocks ← lift (attr $"time_between_blocks" args);
  proto ← lift (attr $"proto" args);
  run_node_baker_with rounds TEZOS_HOME ALPHA_PARAMETERS contract storage time_between_blocks proto.
End Network.

(** ** The groups of accounts *)

Lemma NUM_ACCOUNTS_value : NUM_ACCOUNTS = 100.
Proof. vm_compute. reflexivity. Qed.

Lemma length_range lo hi : length (range lo hi) = Z.to_nat (hi - lo).
Proof. unfold range. by rewrite length_map, length_seq. Qed.

Lemma account_name_inj i j : account_name i = account_name j -> i = j.
Proof. unfold account_name. intros H%app_inv_head. by apply str_int_inj. Qed.

Lemma elem_of_accounts i lo hi : account_name i ∈ map account_name (range lo hi) <-> lo <= i < hi.
Proof.
  rewrite list_elem_of_fmap. split.
  - intros (j & E & Hj). apply account_name_inj in E as ->. by apply elem_of_range.
  - intros H. exists i. split; [done|]. by apply elem_of_range.
Qed.

(** C36. With [num_nodes] bakers, each gets a group of 100 / num_nodes accounts,
    rounded down, and an account is in the group of exactly one baker, if its
    number is at most num_nodes times that size, and of none otherwise: unless
    num_nodes divides 100 the last accounts have no baker. *)
Theorem accounts_split num_nodes :
  0 < num_nodes ->
  let quotient := 100 / num_nodes in
  (forall node, 0 <= node < num_nodes ->
     exists group, accounts node num_nodes = Ok group /\ length group = Z.to_nat quotient) /\
  (forall i, 1 <= i <= num_nodes * quotient ->
     exists node, 0 <= node < num_nodes /\
       forall node', (exists group, accounts node' num_nodes = Ok group /\ account_name i ∈ group) <-> node' = node) /\
  (forall i node, num_nodes * quotient < i -> 0 <= node < num_nodes ->
     exists group, accounts node num_nodes = Ok group /\ account_name i ∉ group).
Proof.
  intros Hn. cbv zeta. unfold accounts. rewrite NUM_ACCOUNTS_value.
  destruct (Z.eqb_spec num_nodes 0); [lia|]. set (q := 100 / num_nodes).
  assert (0 <= q) by (apply Z.div_pos; lia). split; [|split].
  - intros node Hnode. eexists. split; [done|]. rewrite length_map, length_range. f_equal. lia.
  - intros i Hi. assert (0 < q) by nia.
    pose proof (Z.div_mod (i - 1) q ltac:(lia)) as Hd. pose proof (Z.mod_pos_bound (i - 1) q ltac:(lia)) as Hm.
    exists ((i - 1) / q). split.
    + split; [apply Z.div_pos; lia|]. apply Z.div_lt_upper_bound; lia.
    + intros node'. split.
      * intros (g & [= <-] & Hg). apply elem_of_accounts in Hg. nia.
      * intros ->. eexists. split; [done|]. apply elem_of_accounts. nia.
  - intros i node Hi Hnode. eexists. split; [done|]. rewrite elem_of_accounts. nia.
Qed.

Lemma accounts_split_witness :
  exists group, accounts 2 3 = Ok group /\ account_name 100 ∉ group.
Proof.
  refine (proj2 (proj2 (accounts_split 3 _)) 100 2 _ _).
  - lia.
  - vm_compute. reflexivity.
  - lia.
Defined.
