(* ===== verification/Fixtures.v ===== *)
(** * Hooks and fixtures of the tests (tests_python/conftest.py,
      tests_python/tests_*/conftest.py)

    Two hooks implement incremental tests: after the first failure in a class the
    rest of its tests is not run.  The fixtures are generators: the code before
    [yield] runs before the tests that use the fixture, the code after it when they
    are done, whatever their outcome.  A fixture is modelled by these two parts;
    [during] runs them around the tests, the way pytest does. *)

From Stdlib Require Import ZArith Lia.
From stdpp Require Import base tactics list gmap strings numbers relations.
From S2P Require Import Prelude PyStr PyExc PyRe PyDict PyFloat PyJson PyTime.
From S2P Require Import PyIO ClientOutput Daemons Client ClientCommands ClientFacts Constants Sandbox SandboxFacts.
From S2P Require Import SandboxStops.
From S2P Require Import Utils UtilsFacts Protocol RunScripts.

Local Open Scope Z_scope.
Local Open Scope py_scope.

(** ** Incremental tests *)

(** A collected test: its parent is the class that holds it. *)
Record item := Item { item_name : str; parent : nat; keywords : list str; fixturenames : list str }.

(** The attribute [_previousfailed] of the parents. *)
Abbreviation failures := (gmap nat item).

Definition pytest_runtest_makereport (item : item) (excinfo : option exc) (st : failures) : failures :=
  if bool_decide ($"incremental" ∈ keywords item) then
    match excinfo with
    | Some _ => <[parent item := item]> st
    | None => st
    end
  else st.

Definition pytest_runtest_setup (item : item) (st : failures) : res () :=
  if bool_decide ($"incremental" ∈ keywords item) then
    match st !! parent item with
    | Some previousfailed => Raise (XFailed ($"previous test failed (" +:+ item_name previousfailed +:+ $")"))
    | None => Ok ()
    end
  else Ok ().

Definition add_marker (marker : str) (i : item) : item :=
  Item (item_name i) (parent i) (keywords i ++ [marker]) (fixturenames i).

Definition pytest_collection_modifyitems (items : list item) : list item :=
  map (fun i => if bool_decide ($"regtest" ∈ fixturenames i) then add_marker $"regression" i else i) items.

(** *** The runner *)

(** What a test would do in the phases pytest runs it in: the exception of its
    skip and xfail marks, of its fixtures, of its body and of the end of its
    fixtures. *)
Record outcome := Outcome {
  marks : option exc;
  fixtures : option exc;
  body : option exc;
  finish : option exc }.

(** What pytest reports: the body is run when the setup passed. *)
Record report := Report { r_setup : option exc; r_call : option (option exc); r_teardown : option exc }.

(** The package pytest: the protocol of one test and the session, with the
    functions a conftest registers for the setup and for the reports. *)
Class Pytest := {
  runtestprotocol : (item -> failures -> res ()) -> (item -> option exc -> failures -> failures) ->
    item -> outcome -> failures -> report * failures;
  run_session : (item -> failures -> res ()) -> (item -> option exc -> failures -> failures) ->
    list (item * outcome) -> failures -> list report * failures }.

(** Its documentation: the tests run one after the other; each in the phases
    setup, call (if the setup passed) and teardown, with a report after each; the
    setup looks at the marks first, then calls the function of the conftest, then
    sets up the fixtures. *)
Class PytestSpec (P : Pytest) : Prop := {
  session_nil setup makereport st : run_session setup makereport [] st = ([], st);
  session_cons setup makereport i o tests st :
    run_session setup makereport ((i, o) :: tests) st =
    let '(r, st1) := runtestprotocol setup makereport i o st in
    let '(rs, st2) := run_session setup makereport tests st1 in (r :: rs, st2);
  protocol_setup_failed setup makereport i o st e :
    (marks o = Some e \/ marks o = None /\ setup i st = Raise e \/
     marks o = None /\ setup i st = Ok () /\ fixtures o = Some e) ->
    runtestprotocol setup makereport i o st
    = (Report (Some e) None (finish o), makereport i (finish o) (makereport i (Some e) st));
  protocol_setup_passed setup makereport i o st :
    marks o = None -> setup i st = Ok () -> fixtures o = None ->
    runtestprotocol setup makereport i o st
    = (Report None (Some (body o)) (finish o),
       makereport i (finish o) (makereport i (body o) (makereport i None st))) }.

(** ** The specification of incremental tests *)

Definition incremental (i : item) : bool := bool_decide ($"incremental" ∈ keywords i).

Definition raised (o : option exc) : bool := match o with Some _ => true | None => false end.

(** Any exception counts, that of [pytest.skip] included. *)
Definition failed (o : outcome) : bool :=
  raised (marks o) || raised (fixtures o) || raised (body o) || raised (finish o).

(** The incremental tests of a class among the tests run so far. *)
Definition siblings (p : nat) (before : list (item * outcome)) : list (item * outcome) :=
  List.filter (fun x => incremental x.1 && (parent x.1 =? p)%nat) before.

(** The test a report names: the last of the class, once one of them failed. *)
Definition blamed (p : nat) (before : list (item * outcome)) : option item :=
  if existsb (fun x => failed x.2) (siblings p before) then fst <$> last (siblings p before) else None.

Definition expected_report (before : list (item * outcome)) (i : item) (o : outcome) : report :=
  match marks o, (if incremental i then blamed (parent i) before else None) with
  | Some e, _ => Report (Some e) None (finish o)
  | None, Some j => Report (Some (XFailed ($"previous test failed (" +:+ item_name j +:+ $")"))) None (finish o)
  | None, None =>
      match fixtures o with
      | Some e => Report (Some e) None (finish o)
      | None => Report None (Some (body o)) (finish o)
      end
  end.

(** The hooks remember, for every class, the test a report would name. *)
Definition remembers (before : list (item * outcome)) (st : failures) : Prop :=
  forall p, st !! p = blamed p before.

Lemma siblings_snoc p before i o :
  siblings p (before ++ [(i, o)]) =
  siblings p before ++ (if incremental i && (parent i =? p)%nat then [(i, o)] else []).
Proof. unfold siblings. rewrite List.filter_app. cbn. by destruct (_ && _). Qed.

Lemma blamed_other p before i o :
  incremental i && (parent i =? p)%nat = false -> blamed p (before ++ [(i, o)]) = blamed p before.
Proof. intros H. unfold blamed. by rewrite siblings_snoc, H, app_nil_r. Qed.

Lemma blamed_sibling before i o : incremental i = true ->
  blamed (parent i) (before ++ [(i, o)]) =
  if existsb (fun x => failed x.2) (siblings (parent i) before) || failed o then Some i else None.
Proof.
  intros H. unfold blamed. rewrite siblings_snoc, H, Nat.eqb_refl. cbn [andb].
  rewrite existsb_app, last_snoc. cbn [existsb snd]. by rewrite orb_false_r.
Qed.

Lemma blamed_some p before :
  existsb (fun x => failed x.2) (siblings p before) = true -> exists j, blamed p before = Some j.
Proof.
  intros H. unfold blamed. rewrite H. destruct (siblings p before) as [|x l] using rev_ind; [done|].
  rewrite last_snoc. by exists x.1.
Qed.

Lemma makereport_lookup i e st p :
  pytest_runtest_makereport i e st !! p =
  if incremental i && (parent i =? p)%nat && raised e then Some i else st !! p.
Proof.
  unfold pytest_runtest_makereport, incremental. case_bool_decide; [|done]. cbn [andb].
  destruct e; cbn [raised]; [|by rewrite andb_false_r]. rewrite andb_true_r.
  destruct (Nat.eqb_spec (parent i) p) as [->|]; [apply lookup_insert_eq|by apply lookup_insert_ne].
Qed.

Section Session_reports.
Context {P : Pytest} {PS : PytestSpec P}.

Abbreviation protocol := (runtestprotocol pytest_runtest_setup pytest_runtest_makereport).
Abbreviation run_tests := (run_session pytest_runtest_setup pytest_runtest_makereport).

Lemma setup_hook before i st : remembers before st ->
  pytest_runtest_setup i st =
  match (if incremental i then blamed (parent i) before else None) with
  | Some j => Raise (XFailed ($"previous test failed (" +:+ item_name j +:+ $")"))
  | None => Ok ()
  end.
Proof.
  intros Hst. unfold pytest_runtest_setup. fold (incremental i). rewrite Hst. by destruct (incremental i).
Qed.

(** A test whose setup failed. *)
Lemma remembers_failed before i o st e : remembers before st ->
  (failed o = true \/ exists j, (if incremental i then blamed (parent i) before else None) = Some j) ->
  remembers (before ++ [(i, o)])
    (pytest_runtest_makereport i (finish o) (pytest_runtest_makereport i (Some e) st)).
Proof.
  intros Hst Hf p. rewrite !makereport_lookup. destruct (incremental i && (parent i =? p)%nat) eqn:E.
  - apply andb_prop in E as [Ei <-%Nat.eqb_eq]. rewrite blamed_sibling by done.
    assert (H : existsb (fun x => failed x.2) (siblings (parent i) before) || failed o = true).
    { destruct Hf as [->|[j Hj]]; [by rewrite orb_true_r|]. rewrite Ei in Hj. unfold blamed in Hj. by destruct (existsb _ _). }
    rewrite H. by destruct (finish o).
  - rewrite blamed_other by done. apply Hst.
Qed.

(** A test that was run. *)
Lemma remembers_run before i o st : remembers before st ->
  (if incremental i then blamed (parent i) before else None) = None -> marks o = None -> fixtures o = None ->
  remembers (before ++ [(i, o)])
    (pytest_runtest_makereport i (finish o) (pytest_runtest_makereport i (body o)
       (pytest_runtest_makereport i None st))).
Proof.
  intros Hst Hb Hm Hf p. rewrite !makereport_lookup. destruct (incremental i && (parent i =? p)%nat) eqn:E.
  - apply andb_prop in E as [Ei <-%Nat.eqb_eq]. rewrite blamed_sibling by done. rewrite Ei in Hb.
    rewrite Hst, Hb. destruct (existsb _ _) eqn:Ex; [destruct (blamed_some _ _ Ex); congruence|].
    unfold failed. rewrite Hm, Hf. by destruct (body o), (finish o).
  - rewrite blamed_other by done. apply Hst.
Qed.

Lemma run_step before i o st : remembers before st ->
  (protocol i o st).1 = expected_report before i o /\ remembers (before ++ [(i, o)]) (protocol i o st).2.
Proof.
  intros Hst. pose proof (setup_hook before i st Hst) as Hsetup. unfold expected_report.
  destruct (marks o) as [e|] eqn:Em.
  { rewrite (protocol_setup_failed _ _ i o st e) by auto. split; [done|]. apply remembers_failed; [done|].
    left. unfold failed. by rewrite Em. }
  destruct (if incremental i then blamed (parent i) before else None) as [j|] eqn:Eb.
  { rewrite (protocol_setup_failed _ _ i o st _ (or_intror (or_introl (conj Em Hsetup)))). split; [done|].
    apply remembers_failed; [done|]. right. by exists j. }
  destruct (fixtures o) as [e|] eqn:Ef.
  { rewrite (protocol_setup_failed _ _ i o st e) by auto. split; [done|]. apply remembers_failed; [done|].
    left. unfold failed. by rewrite Ef, orb_true_r. }
  rewrite protocol_setup_passed by done. split; [done|]. by apply remembers_run.
Qed.

Lemma run_session_spec tests before st : remembers before st ->
  forall k i o, tests !! k = Some (i, o) ->
  (run_tests tests st).1 !! k = Some (expected_report (before ++ take k tests) i o).
Proof.
  revert before st. induction tests as [|[i0 o0] tests IH]; intros before st Hst k i o Hk; [done|].
  rewrite session_cons. destruct (run_step before i0 o0 st Hst) as [H1 H2].
  destruct (protocol i0 o0 st) as [r st1]. cbn in H1, H2.
  specialize (IH _ st1 H2). destruct (run_tests tests st1) as [rs st2]. cbn in *.
  destruct k as [|k]; cbn in *.
  - injection Hk as -> ->. by rewrite app_nil_r, H1.
  - transitivity (rs !! k); [done|]. by rewrite (IH k i o Hk), <- app_assoc.
Qed.

(** C13. With any runner that behaves as pytest is documented to, every test of a
    session is reported as incremental testing means it.  A test whose skip or xfail
    marks raise reports that.  Of the others, a test without the mark [incremental]
    is run; an incremental test is run when no earlier incremental test of its class
    raised in its marks, fixtures, body or teardown, and otherwise is reported as an
    expected failure that names the incremental test of the class that came just
    before it, without running its fixtures or its body.  A test that is run reports
    the exception of its fixtures, if they raise, or else the result of its body. *)
Theorem incremental_reports tests k i o :
  tests !! k = Some (i, o) ->
  (run_tests tests ∅).1 !! k = Some (expected_report (take k tests) i o).
Proof.
  intros Hk. apply (run_session_spec tests [] ∅); [|done]. intros p. apply lookup_empty.
Qed.
End Session_reports.

(** A runner with the documented behaviour *)
Definition sample_protocol (setup : item -> failures -> res ())
    (makereport : item -> option exc -> failures -> failures) (i : item) (o : outcome) (st : failures) :
    report * failures :=
  let e1 := match marks o with
            | Some e => Some e
            | None => match setup i st with Raise e => Some e | Ok _ => fixtures o end
            end in
  let st := makereport i e1 st in
  match e1 with
  | Some _ => (Report e1 None (finish o), makereport i (finish o) st)
  | None => (Report None (Some (body o)) (finish o), makereport i (finish o) (makereport i (body o) st))
  end.

Fixpoint sample_session setup makereport (tests : list (item * outcome)) (st : failures) :
    list report * failures :=
  match tests with
  | [] => ([], st)
  | (i, o) :: rest =>
      let '(r, st1) := sample_protocol setup makereport i o st in
      let '(rs, st2) := sample_session setup makereport rest st1 in
      (r :: rs, st2)
  end.

Definition sample_pytest : Pytest :=
  {| runtestprotocol := sample_protocol; run_session := sample_session |}.

Lemma sample_pytest_spec : PytestSpec sample_pytest.
Proof.
  split; [done|done| |]; intros setup mk i o st; cbn; unfold sample_protocol.
  - intros e [->|[[-> ->]|[-> [-> ->]]]]; done.
  - by intros -> -> ->.
Qed.

(** A class of three tests, the first of which is skipped, and a test of another
    class. *)
Definition sample_item (name : str) (p : nat) : item := Item name p [$"incremental"] [].
Definition passes : outcome := Outcome None None None None.
Definition skips : outcome := Outcome None None (Some (Skipped [])) None.
Definition sample_tests : list (item * outcome) :=
  [(sample_item $"test_a" 1, skips); (sample_item $"test_x" 2, passes); (sample_item $"test_b" 1, passes);
   (sample_item $"test_c" 1, passes)].

Lemma incremental_reports_witness :
  let run := run_session (Pytest := sample_pytest) pytest_runtest_setup pytest_runtest_makereport in
  (run sample_tests ∅).1 !! 3%nat = Some (Report (Some (XFailed $"previous test failed (test_b)")) None None)
  /\ (run sample_tests ∅).1 !! 1%nat = Some (Report None (Some None) None).
Proof.
  split.
  - exact (incremental_reports (P := sample_pytest) (PS := sample_pytest_spec)
      sample_tests 3 (sample_item $"test_c" 1) passes eq_refl).
  - exact (incremental_reports (P := sample_pytest) (PS := sample_pytest_spec)
      sample_tests 1 (sample_item $"test_x" 2) passes eq_refl).
Defined.

(** ** Fixtures *)

(** The two parts of a generator fixture, around its [yield]. *)
Record fixture (S A : Type) := Fixture { before_yield : M S A; after_yield : A -> M S () }.
Arguments Fixture {S A}.
Arguments before_yield {S A}.
Arguments after_yield {S A}.

(** pytest reports the exception of a test and goes on. *)
Definition settled {S A} (m : M S A) : M S () := fun s t =>
  match m s t with (_, s', t') => (Ok (), s', t') end.

(** The fixture around the tests that use it; what goes wrong after the [yield] is
    an error of the teardown. *)
Definition during {S A} (f : fixture S A) (tests : A -> M S ()) : M S () :=
  a ← before_yield f;
  settled (tests a);;
  after_yield f a.

Section Session.
Context {o : OS} {U : UCD}.

Definition sanity_check {S} (log_dir : option str) : M S () :=
  match log_dir with
  | None => mret ()
  | Some d => f ← isdir d; if (f : bool) then mret () else raise (PytestExit (d +:+ $" doesn't exist"))
  end.

(** The dictionary the tests of a class share starts empty. *)
Definition session {S} : fixture S (list (str * json)) := Fixture (mret []) (fun _ => mret ()).

Definition alive_or_fail {C} {R : Runner C} : M (Sandbox C) () := b ← are_daemons_alive; massert b.

(** The sandbox is the state of the tests of the class; its [with] statement ends
    after the assertion. *)
Definition sandbox {C} {R : Runner C} (TEZOS_HOME : str) (log_dir : option str) (singleprocess : bool)
    (tests : M (Sandbox C) ()) : M () () :=
  sandbox ← Sandbox_init TEZOS_HOME IDENTITIES 18730 19730 45 log_dir singleprocess;
  on_new sandbox (with_sandbox (settled tests;; alive_or_fail));;
  mret ().

Definition _wrap_path {S} (TEZOS_HOME binary : str) : M S str :=
  let res := path_join TEZOS_HOME [binary] in
  f ← isfile res; massert f;;
  mret res.

Definition nodeless_client {S} (TEZOS_HOME : str) : fixture S Client :=
  Fixture
    (client_path ← _wrap_path TEZOS_HOME CLIENT;
     client_admin_path ← _wrap_path TEZOS_HOME CLIENT_ADMIN;
     Client_init client_path client_admin_path None None None None None true None)
    Client_cleanup.

Definition encrypted_account_with_tez {C} {R : Runner C} {S} (client : C) : M S () :=
  import_secret_key client $"encrypted_account"
    $"encrypted:edesk1n2uGpPtVaeyhWkZzTEcaPRzkQHrqkw5pk8VkZvp3rM5KSc3mYNH5cJEuNcfB91B3G3JakKzfLQSmrgF4ht"
    (Some $"password");;
  transfer client (NInt 100) $"bootstrap1" $"encrypted_account" (Some [$"--burn-cap"; $"1.0"]) [] None;;
  bake client $"bootstrap1" None;;
  mret ().

End Session.

(** ** The life of a sandbox *)

Section Lifecycle.
Context {C : Type} {R : Runner C} {RS : RunnerSpec C} {o : OS} {U : UCD}.


End Lifecycle.

(** A test that starts a node and then fails. *)
Definition sample_test : M (Sandbox Client) () :=
  register_node (o := calm_os) 0 None None None None true None [] None;;
  on_node 0 (exec_op (o := calm_os) ORun);;
  raise AssertionError.

Definition sample_start : Sandbox Client :=
  MkSandbox $"/bin" None IDENTITIES 18730 19730 45 false [] [] [] [] [] [] 0 [].


(** ** Converters of the regression tests *)

(** The functions applied to recorded output: that of the package, those of utils,
    and the closures of [client_regtest_custom_scrubber], one per test. *)
Inductive converter :=
| std_conversion
| always_output
| client_output
| scrubber (test : nat).

#[export] Instance converter_eq_dec : EqDecision converter.
Proof. solve_decision. Defined.

(** The package pytest_regtest: its set of registered converters. *)
Class Regtest := {
  registered : Type;
  is_registered : registered -> converter -> bool;
  register_converter_pre : converter -> registered -> registered;
  deregister_converter_pre : converter -> registered -> registered }.

Class RegtestSpec (P : Regtest) : Prop := {
  register_spec c d r :
    is_registered (register_converter_pre c r) d = bool_decide (c = d) || is_registered r d;
  deregister_spec c d r :
    is_registered (deregister_converter_pre c r) d = negb (bool_decide (c = d)) && is_registered r d }.

Section Converters.
Context {P : Regtest} {RP : RegtestSpec P}.

(** The regression client is the one the sandbox registered for node 1. *)
Abbreviation TM := (M (Sandbox ClientRegression * registered)).

Definition register (c : converter) : TM () := modify (fun s => (s.1, register_converter_pre c s.2)).
Definition deregister (c : converter) : TM () := modify (fun s => (s.1, deregister_converter_pre c s.2)).

Definition client_regtest (regtest : Z) : fixture (Sandbox ClientRegression * registered) Z :=
  Fixture
    (deregister std_conversion;;
     s ← get;
     client_regtest_bis ← lift (or_raise KeyError (dget 1 (clients s.1)));
     modify (fun s => (set_clients (dset 1 (set_regtest client_regtest_bis (Some regtest)) (clients s.1)) s.1, s.2));;
     register always_output;;
     mret 1)
    (fun _ => deregister always_output).

Definition client_regtest_scrubbed (client : Z) : fixture (Sandbox ClientRegression * registered) Z :=
  Fixture (register client_output;; mret client) (fun _ => deregister client_output).

Definition client_regtest_custom_scrubber (test : nat) (client : Z) :
    fixture (Sandbox ClientRegression * registered) Z :=
  Fixture (register (scrubber test);; mret client) (fun _ => deregister (scrubber test)).

(** A test with [client_regtest_scrubbed]: the fixture it depends on is set up
    before it and ends after it. *)
Definition scrubbed_test (regtest : Z) (test : Z -> TM ()) : TM () :=
  during (client_regtest regtest) (fun c => during (client_regtest_scrubbed c) test).

Definition registry_kept {A} (m : TM A) : Prop := forall s t, (m s t).1.2.2 = s.2.

(** A scrubbed regression test sees its own recorder in the client, runs with
    the two converters of the framework and without that of the package, and leaves
    the registered converters as they were, except that of the package, which is not
    registered again for the tests that follow. *)
Theorem scrubbed_converters regtest (test : Z -> TM ()) s0 r0 c t :
  dget 1 (clients s0) = Some c -> (forall n, registry_kept (test n)) ->
  is_registered r0 always_output = false -> is_registered r0 client_output = false ->
  let r1 := register_converter_pre client_output (register_converter_pre always_output
              (deregister_converter_pre std_conversion r0)) in
  let s1 := set_clients (dset 1 (set_regtest c (Some regtest)) (clients s0)) s0 in
  is_registered r1 always_output = true /\ is_registered r1 client_output = true
  /\ is_registered r1 std_conversion = false
  /\ exists r2, scrubbed_test regtest test (s0, r0) t
       = (Ok (), ((test 1 (s1, r1) t).1.2.1, r2), (test 1 (s1, r1) t).2)
     /\ forall d, is_registered r2 d = negb (bool_decide (d = std_conversion)) && is_registered r0 d.
Proof.
  intros Hc Hkeep H1 H2 r1 s1. unfold r1. rewrite !register_spec, !deregister_spec. split_and!; [done..|].
  exists (deregister_converter_pre always_output (deregister_converter_pre client_output r1)). split.
  - unfold scrubbed_test, during, settled, client_regtest, client_regtest_scrubbed, register, deregister.
    m_run. cbn [before_yield after_yield fst snd]. rewrite Hc. fold s1. cbn [fst snd]. fold r1.
    specialize (Hkeep 1 (s1, r1) t). destruct (test 1 (s1, r1) t) as [[x [s2 r2]] t2]. cbn in *. by rewrite Hkeep.
  - intros d. unfold r1. rewrite !deregister_spec, !register_spec, deregister_spec.
    destruct d; cbn; rewrite ?H1, ?H2; done.
Qed.

End Converters.

(** The registered functions as a list without repetition. *)
Definition list_regtest : Regtest :=
  {| registered := list converter;
     is_registered r c := bool_decide (c ∈ r);
     register_converter_pre c r := if bool_decide (c ∈ r) then r else r ++ [c];
     deregister_converter_pre c r := List.filter (fun d => negb (bool_decide (c = d))) r |}.

Lemma list_regtest_spec : RegtestSpec list_regtest.
Proof.
  split; intros c d r; cbn.
  - apply eq_bool_prop_intro. rewrite orb_True, !bool_decide_spec.
    case_bool_decide; [|rewrite elem_of_app, list_elem_of_singleton]; naive_solver.
  - apply eq_bool_prop_intro. rewrite andb_True, negb_True, !bool_decide_spec.
    rewrite list_elem_of_In, filter_In, <- list_elem_of_In. rewrite negb_true_iff, bool_decide_eq_false. naive_solver.
Qed.

Definition regression_client : ClientRegression :=
  MkRegression (MkClient None true false $"/tmp/client" [] [] None $"http://localhost:18731") None.

Definition regression_sandbox : Sandbox ClientRegression :=
  MkSandbox $"/bin" None [] 18730 19730 45 false [] [(1, regression_client)] [] [] [] [] 0 [].

Lemma scrubbed_converters_witness :
  exists r2, scrubbed_test (P := list_regtest) 7 (fun _ => raise AssertionError)
      (regression_sandbox, [std_conversion; scrubber 3]) []
    = (Ok (), (set_clients [(1, set_regtest regression_client (Some 7))] regression_sandbox, r2), [])
    /\ is_registered (Regtest := list_regtest) r2 std_conversion = false.
Proof.
  destruct (scrubbed_converters (P := list_regtest) (RP := list_regtest_spec) 7 (fun _ => raise AssertionError)
    regression_sandbox [std_conversion; scrubber 3] regression_client [] eq_refl (fun _ _ _ => eq_refl)
    eq_refl eq_refl) as (_ & _ & _ & r2 & E & H).
  exists r2. split; [exact E|]. rewrite H. reflexivity.
Defined.

(** ** Clients with a node *)

Section Clients.
Context {o : OS} {U : UCD}.

(** The parameters the fixtures activate: those of a copy made by
    [get_parameters], with some entries changed, and the default ones in the suite
    of protocol 011, which has no [get_parameters]. *)
Definition threshold_parameters (p : suite) (PARAMETERS : json) : res (option json) :=
  if bool_decide (PREV_HASH p = None) then Ok None
  else j ← jset $"consensus_threshold" (JInt 0) PARAMETERS; Ok (Some j).

Definition clients_parameters (p : suite) (PARAMETERS : json) : res (option json) :=
  if bool_decide (PREV_HASH p = None) then Ok None
  else
    j ← jset $"consensus_threshold" (JInt 0) PARAMETERS;
    j ← jset $"minimal_block_delay" (JStr $"1") j;
    j ← jset $"delay_increment_per_round" (JStr $"1") j;
    Ok (Some j).

Definition client (p : suite) (PARAMETERS : json) : fixture (Sandbox Client) Client :=
  Fixture
    (add_default_node 0 true;;
     client ← Sandbox.client 0;
     parameters ← lift (threshold_parameters p PARAMETERS);
     activate PARAMETERS client parameters p None true;;
     mret client)
    (fun _ => mret ()).

Definition reg_client_factory {S} (client_path admin_client_path : str) (mode endpoint : option str) :
    M S ClientRegression :=
  ClientRegression_init client_path admin_client_path None None None None
    (Some (default $"http://127.0.0.1:8732" endpoint)) mode true.

Definition client_regtest_bis (p : suite) (PARAMETERS : json) : fixture (Sandbox ClientRegression) ClientRegression :=
  Fixture
    (add_node 1 None None (Some NODE_PARAMS) None true true None None false [] None None reg_client_factory;;
     client ← Sandbox.client 1;
     parameters ← lift (threshold_parameters p PARAMETERS);
     activate PARAMETERS client parameters p None true;;
     mret client)
    (fun _ => mret ()).

(** The sandbox beside the counters of [utils.retry], which outlive it. *)
Abbreviation RS := (Sandbox Client * list (str * Z))%type.

#[local] Instance pair_budgets : Budgets RS.
Proof.
  refine {| attempts n s := attempts n s.2; set_attempts n a s := (s.1, set_attempts n a s.2) |};
    intros; cbn [fst snd]; [apply (attempts_set (S := list (str * Z)))|by apply (attempts_set_ne (S := list (str * Z)))].
Defined.

Definition on_sandbox {A} (m : M (Sandbox Client) A) : M RS A :=
  zoom (fun s => Some s.1) (fun x s => (x, s.2)) m.

Definition clients (p : suite) (PARAMETERS : json) (param : option Z) : fixture RS (list Client) :=
  Fixture
    (num_nodes ← lift (or_raise AssertionError param);
     for_ (Utils.range 0 num_nodes) (fun i => on_sandbox (add_default_node i true));;
     parameters ← lift (clients_parameters p PARAMETERS);
     c ← on_sandbox (Sandbox.client 0);
     activate PARAMETERS c parameters p None true;;
     s ← get;
     let clients := all_clients s.1 in
     for_ clients (fun client => ok ← check_protocol client (HASH p) None; massert ok);;
     mret clients)
    (fun _ => mret ()).

(** [sandbox.create_client(base_dir=base_dir, mode=mode)] *)
Definition create_client_in (dir : str) (mode : option str) : M (Sandbox Client) Client :=
  create_client [] mode (fun path admin_path mode endpoint =>
    Client_init path admin_path None (Some dir) None None (Some (default $"http://127.0.0.1:8732" endpoint)) true mode)
    None.

(** The temporary directory is deleted when the [with] statement ends, after the
    [yield] or with an exception before it. *)
Definition mockup_client (p : suite) : fixture (Sandbox Client) Client :=
  Fixture
    (dir ← mkdtemp $"tezos-client.";
     try_except
       (unmanaged_client ← create_client_in dir None;
        r ← create_mockup unmanaged_client (HASH p) true None None;
        massert (match CreateMockup_create_mockup_result r with Some OK => true | _ => false end);;
        create_client_in dir (Some $"mockup"))
       (fun e => Some (rmtree dir;; raise e)))
    (fun client => rmtree (base_dir client)).

End Clients.
