(* ===== verification/FixtureFacts.v ===== *)
(** * What the fixture [clients] gives its tests

    The fixture adds a number of nodes, activates a protocol and checks that every
    client follows it.  Here: the list it yields has one client per node, in the
    order of the numbers, and each talks to its own node. *)

From Stdlib Require Import ZArith Lia.
From stdpp Require Import base tactics list strings numbers.
From S2P Require Import Prelude PyStr PyExc PyRe PyDict PyFloat PyJson PyTime.
From S2P Require Import PyIO ClientOutput Daemons Client ClientCommands ClientFacts Constants Sandbox SandboxFacts.
From S2P Require Import SandboxClients Utils UtilsFacts Protocol RunScripts Fixtures.

Local Open Scope Z_scope.
Local Open Scope py_scope.

Abbreviation sandbox := (Sandbox Client).
Abbreviation RS := (Sandbox Client * list (str * Z))%type.

#[local] Existing Instance pair_budgets.

(** ** Adding nodes in a row *)

(** A loop over [range(n)] that takes the state from each stage to the next. *)
Lemma triple_range {S} (Q : Z -> S -> Prop) (E : S -> Prop) (f : Z -> M S ()) n :
  (forall i, 0 <= i -> triple (Q i) (f i) (fun _ => Q (i + 1)) E) ->
  triple (Q 0) (for_ (Utils.range 0 n) f) (fun _ => Q (Z.max 0 n)) E.
Proof.
  intros Hf. unfold Utils.range. rewrite Z.sub_0_r. replace (Z.max 0 n) with (0 + Z.of_nat (Z.to_nat n)) by lia.
  change (Q 0) with (Q (Z.of_nat 0)) at 1. change (0 + Z.of_nat (Z.to_nat n)) with (Z.of_nat 0 + Z.of_nat (Z.to_nat n)).
  generalize 0%nat as a. induction (Z.to_nat n) as [|m IH]; intros a; cbn [seq map for_].
  - intros s t Hs. cbn. by rewrite Z.add_0_r.
  - eapply triple_bind; [apply Hf; lia|]. intros ?. rewrite Z.add_0_l.
    replace (Z.of_nat a + 1) with (Z.of_nat (Datatypes.S a)) by lia.
    replace (Z.of_nat a + Z.of_nat (Datatypes.S m)) with (Z.of_nat (Datatypes.S a) + Z.of_nat m) by lia. apply IH.
Qed.

(** What follows a reading of the state starts in the state that was read. *)
Lemma read_then {S B} (P E : S -> Prop) (f : S -> M S B) Q :
  (forall self, P self -> triple (fun s => s = self) (f self) Q E) -> triple P (get ≫= f) Q E.
Proof. intros H s t HP. exact (H s HP s t eq_refl). Qed.

Section Keys.
Context {o : OS} {U : UCD}.

Definition keys_are (l : list Z) (s : sandbox) : Prop := dkeys (Sandbox.clients s) = l.

Lemma keys_untouched {A} l (m : M sandbox A) : untouched m -> triple (keys_are l) m (fun _ => keys_are l) (fun _ => True).
Proof.
  intros Hm s t Hs. destruct (Hm s t) as [_ Hc]. destruct (m s t) as [[[a|e] s'] t']; [|done].
  cbn in Hc. unfold keys_are. by rewrite Hc.
Qed.

Lemma register_client_keys l i port tls br mode :
  triple (keys_are l) (register_client i port tls br mode Client_factory) (fun _ => keys_are (l ++ [i])) (fun _ => True).
Proof.
  unfold register_client. apply get_then. intros self Hk. apply assert_then; [done|]. intros Hm.
  apply keeps_then; [apply instanciate_keeps; intros; apply Client_factory_keeps|done|]. intros c.
  eapply (modify_then _ (keys_are (l ++ [i]))); [|by intros s t Hs]. intros s Hs.
  change (dkeys (dset i c (Sandbox.clients s)) = l ++ [i]).
  rewrite dkeys_dset, Hs, decide_False; [done|]. rewrite <- Hk. intros Hin%dmem_keys. by rewrite Hin in Hm.
Qed.

Lemma add_node_keys l i dir peers params ll pr cc tls snap rec br cfg mode :
  triple (keys_are l) (add_node i dir peers params ll pr cc tls snap rec br cfg mode Client_factory)
    (fun _ => keys_are (l ++ [i])) (fun _ => True).
Proof.
  unfold add_node. eapply triple_bind; [apply keys_untouched, untouched_register_node|]. intros ref.
  eapply triple_bind; [apply keys_untouched, untouched_init_node|]. intros ?.
  eapply triple_bind; [apply keys_untouched, untouched_on_node|]. intros ?.
  eapply triple_bind; [apply keys_untouched, untouched_on_node|]. intros port.
  eapply triple_bind; [apply register_client_keys|]. intros c. apply keys_untouched, untouched_init_client.
Qed.
End Keys.

(** ** The fixture *)

Section Clients.
Context {o : OS} {U : UCD} (base : Z) (bin : str).

(** The numbers 0 to k-1 have clients, in this order, each with its port. *)
Definition stage (k : Z) (s : RS) : Prop :=
  reach base bin s.1 /\ dkeys (Sandbox.clients s.1) = Utils.range 0 k.

Lemma range_snoc k : 0 <= k -> Utils.range 0 (k + 1) = Utils.range 0 k ++ [k].
Proof.
  intros Hk. unfold Utils.range. replace (Z.to_nat (k + 1 - 0)) with (Z.to_nat (k - 0) + 1)%nat by lia.
  rewrite seq_app, map_app. cbn. do 2 f_equal. lia.
Qed.

Lemma triple_on_sandbox {A} (P : sandbox -> Prop) (m : M sandbox A) Q E :
  triple P m Q E -> triple (fun s : RS => P s.1) (on_sandbox m) (fun a s => Q a s.1) (fun s => E s.1).
Proof.
  intros Hm [s b] t Hs. specialize (Hm s t Hs). unfold on_sandbox, zoom. cbn [fst snd].
  by destruct (m s t) as [[[a|e] s'] t'].
Qed.

Lemma add_stage k : 0 <= k ->
  triple (stage k) (on_sandbox (add_default_node k true)) (fun _ => stage (k + 1)) (fun _ => True).
Proof.
  intros Hk.
  assert (H := triple_and _ _ _ _ _ _ _
    (add_node_reach base bin k None None (Some NODE_PARAMS) None true true None None false [] None None (or_introl eq_refl))
    (add_node_keys (Utils.range 0 k) k None None (Some NODE_PARAMS) None true true None None false [] None None)).
  apply triple_on_sandbox in H. eapply triple_conseq; [exact H|by intros s Hs| |done].
  intros ? s [H1 H2]. split; [done|]. unfold keys_are in H2. by rewrite range_snoc.
Qed.

(** The sandbox is left alone; the counters of [retry] may change. *)
Definition inner {A} (m : M RS A) : Prop := forall s t, (m s t).1.2.1 = s.1.

Lemma inner_bind {A B} (m : M RS A) (f : A -> M RS B) : inner m -> (forall a, inner (f a)) -> inner (m ≫= f).
Proof.
  intros Hm Hf s t. unfold mbind, M_bind. specialize (Hm s t). destruct (m s t) as [[[a|e] s'] t']; [|done].
  cbn in Hm. rewrite <- Hm. apply Hf.
Qed.

Lemma inner_keeps {A} (m : M RS A) : keeps m -> inner m.
Proof. intros Hm s t. by rewrite (Hm s t). Qed.

Lemma inner_for {A} (l : list A) (f : A -> M RS ()) : (forall a, inner (f a)) -> inner (for_ l f).
Proof. intros Hf. induction l as [|a l IH]; [by intros s t|]. by apply inner_bind. Qed.

Lemma inner_retry name timeout (func : M RS bool) : inner func -> inner (retry (B := pair_budgets) name timeout func).
Proof.
  intros Hf. unfold retry. apply inner_bind; [by intros s t|]. intros s0.
  generalize (Datatypes.S (Z.to_nat (attempts name s0))) as k. clear s0.
  induction k as [|k IH]; cbn [retry_loop]; [by intros s t|]. apply inner_bind; [done|]. intros [].
  - by intros s t.
  - apply inner_bind; [by intros s t|]. intros s0. case_match; [by intros s t|].
    apply inner_bind; [by intros s t|]. intros _. apply inner_bind; [by intros s t|]. intros ?.
    apply inner_bind; [by intros s t|done].
Qed.

Lemma rpc_keeps {S} (c : Client) verb path data params : keeps (S := S) (Client.rpc c verb path data params).
Proof. intros s t. apply rpc_state. Qed.

Lemma inner_check_protocol (c : Client) proto : inner (check_protocol (B := pair_budgets) c proto None).
Proof.
  unfold check_protocol. apply inner_retry, inner_bind; [apply inner_keeps, rpc_keeps|]. intros j. by intros s t.
Qed.

Lemma activate_keeps {S} PARAMETERS (c : Client) params p ts past : keeps (S := S) (activate PARAMETERS c params p ts past).
Proof.
  unfold activate, Utils.activate_protocol, activate_protocol_json, ClientCommands.activate_protocol.
  apply keeps_bind; [|by intros x s t]. apply keeps_bind; [solve_keeps|]. intros name.
  apply keeps_bind; [solve_keeps|]. intros _. apply keeps_bind; [solve_keeps|]. intros b.
  apply keeps_bind; [solve_keeps|]. intros _. apply keeps_bind; [solve_keeps|]. intros ts'.
  apply keeps_bind; [apply run_keeps|]. intros out. by intros s t.
Qed.

Lemma stage_inner {A} k (m : M RS A) : inner m -> triple (stage k) m (fun _ => stage k) (fun _ => True).
Proof.
  intros Hm s t Hs. specialize (Hm s t). destruct (m s t) as [[[a|e] s'] t']; [|done].
  cbn in Hm. unfold stage. by rewrite Hm.
Qed.

(** The checks of the clients leave the clients and their order. *)
Lemma triple_inner {A} k (m : M RS A) self : inner m -> stage k self ->
  triple (fun s => s = self) m (fun _ s => stage k s /\ all_clients self.1 = all_clients s.1) (fun _ => True).
Proof.
  intros Hm Hs s t ->. specialize (Hm self t). destruct (m self t) as [[[a|e] s'] t']; [|done].
  cbn in Hm. unfold stage. by rewrite Hm.
Qed.

Lemma yielded_clients k (s : sandbox) : 0 <= k -> reach base bin s -> dkeys (Sandbox.clients s) = Utils.range 0 k ->
  length (all_clients s) = Z.to_nat k /\
  forall i c, all_clients s !! i = Some c ->
    reaches (base + Z.of_nat i) c /\ dget (Z.of_nat i) (Sandbox.clients s) = Some c.
Proof.
  intros Hk (_ & Hw & Hr) Hd. unfold all_clients, dvalues. split.
  - rewrite length_map, <- (length_map fst). change (map fst ?d) with (dkeys d). rewrite Hd, length_range. lia.
  - intros i c Hi. rewrite list_lookup_fmap in Hi. destruct (Sandbox.clients s !! i) as [[j d]|] eqn:E; [|done].
    cbn in Hi. simplify_eq. assert (j = Z.of_nat i) as ->.
    { assert (Hj : dkeys (Sandbox.clients s) !! i = Some j) by (unfold dkeys; by rewrite list_lookup_fmap, E).
      rewrite Hd in Hj. unfold Utils.range in Hj. rewrite list_lookup_fmap in Hj.
      destruct (seq 0 _ !! i) as [x|] eqn:Ex; [|done]. apply lookup_seq in Ex as [-> _]. cbn in Hj. injection Hj as <-. lia. }
    assert (dget (Z.of_nat i) (Sandbox.clients s) = Some c).
    { apply elem_of_dget; [done|]. by apply list_elem_of_lookup_2 in E. }
    split; [by apply Hr|done].
Qed.

End Clients.

Section Yield.
Context {o : OS} {U : UCD} (base : Z).

(** C14. If the setup of the fixture [clients] for [n] nodes on an empty sandbox
    succeeds, the tests get exactly one client per node, in the order of the
    numbers: the client at position [i] is registered for node [i] and talks to
    the RPC port of that node. *)
Theorem clients_fixture_yields (p : suite) (PARAMETERS : json) (n : Z) (s : sandbox) (budgets : list (str * Z))
    (t t' : trace) (cl : list Client) (s' : RS) :
  rpc_base s = base -> Sandbox.clients s = [] -> 0 <= n ->
  before_yield (clients p PARAMETERS (Some n)) (s, budgets) t = (Ok cl, s', t') ->
  length cl = Z.to_nat n /\
  forall i c, cl !! i = Some c ->
    reaches (base + Z.of_nat i) c /\ dget (Z.of_nat i) (Sandbox.clients s'.1) = Some c.
Proof.
  intros Hb Hc Hn E.
  pose (bin := binaries_path s).
  assert (H : triple (stage base bin 0) (before_yield (clients p PARAMETERS (Some n)))
    (fun cl s => stage base bin n s /\ cl = all_clients s.1) (fun _ => True)).
  { unfold clients, before_yield. apply lift_then; [done|]. intros num [= <-].
    eapply (triple_bind _ _ _ (fun _ => stage base bin n)).
    { pose proof (triple_range (stage base bin) (fun _ => True) _ n (add_stage base bin)) as Hr. by rewrite (Z.max_r 0 n Hn) in Hr. }
    intros _. apply lift_then; [done|]. intros parameters _.
    eapply triple_bind; [apply stage_inner; intros x t1; unfold on_sandbox, zoom; cbn; unfold Sandbox.client; m_run;
      by destruct (dget 0 _)|]. intros c0.
    eapply triple_bind; [apply stage_inner, inner_keeps, activate_keeps|]. intros ?.
    apply read_then. intros self Hself.
    eapply triple_bind; [apply (triple_inner base bin n); [|exact Hself]|].
    { apply inner_for. intros c1. apply inner_bind; [apply inner_check_protocol|]. intros b. apply inner_keeps. solve_keeps. }
    intros ? s1 t1 [H1 H2]. by split. }
  specialize (H (s, budgets) t). rewrite E in H. destruct H as [[Hr Hd] ->].
  { unfold stage. cbn [fst]. rewrite Hc. split; [|done]. split_and!; [unfold fixed; by rewrite Hb|rewrite Hc; apply wf_nil|by rewrite Hc]. }
  by apply (yielded_clients base bin).
Qed.
End Yield.

(** ** Two nodes whose programs answer *)

(** Blocks have the protocol of the suite, activations are injected, and whatever
    else is asked is answered by an empty object. *)
Definition answer_to (cmd : list str) : str :=
  if bool_decide ($"activate" ∈ cmd) then $"Injected BLockGenesis" +:+ [nl]
  else dumps (JDict [($"next_protocol", JStr (HASH tests_011))]).

Definition node_os : OS :=
  {| os_isfile _ _ := true; os_isdir _ _ := true; os_environ _ := [];
     os_run _ cmd _ _ := Ok (ProcResult (encode (answer_to cmd)) [] 0);
     os_spawn t _ _ _ := Ok (Z.of_nat (length t)); os_poll _ _ := None; os_wait _ _ _ := Some 0;
     os_mkdtemp t p := Ok (p +:+ str_int (Z.of_nat (length t)));
     os_tempfile _ := Ok $"/tmp/params"; os_rmtree _ _ := Ok ();
     os_read _ _ := Ok $"{}"; os_write _ _ _ := Ok ();
     os_http _ _ _ _ := Raise OSError; os_utcnow _ := 0; os_getcwd _ := $"/";
     os_listdir _ _ := Ok []; os_exec _ _ _ _ := Ok 0 |}.

Definition empty_sandbox : Sandbox Client :=
  MkSandbox $"/bin" None [] 18730 19730 45 false [] [] [] [] [] [] 0 [].

Lemma clients_fixture_yields_witness :
  exists (cl : list Client) (s' : Sandbox Client * list (str * Z)) t',
    before_yield (clients (o := node_os) (U := ascii_only_ucd) tests_011 (JDict []) (Some 2)) (empty_sandbox, []) []
      = (Ok cl, s', t')
    /\ map endpoint cl = [$"http://localhost:18730"; $"http://localhost:18731"]
    /\ forall i c, cl !! i = Some c ->
         reaches (18730 + Z.of_nat i) c /\ dget (Z.of_nat i) (Sandbox.clients s'.1) = Some c.
Proof.
  pose (r := before_yield (clients (o := node_os) (U := ascii_only_ucd) tests_011 (JDict []) (Some 2))
    (empty_sandbox, []) []).
  pose (cl := match r.1.1 with Ok l => l | Raise _ => [] end).
  assert (E : before_yield (clients (o := node_os) (U := ascii_only_ucd) tests_011 (JDict []) (Some 2))
    (empty_sandbox, []) [] = (Ok cl, r.1.2, r.2)) by (vm_compute; reflexivity).
  exists cl, r.1.2, r.2. split; [exact E|]. split; [vm_compute; reflexivity|].
  exact (proj2 (clients_fixture_yields (o := node_os) (U := ascii_only_ucd) 18730 tests_011 (JDict []) 2
    empty_sandbox [] [] r.2 cl r.1.2 eq_refl eq_refl ltac:(lia) E)).
Defined.
