(* ===== verification/SessionOptions.v ===== *)
(** * The options of a test session (tests_python/conftest.py,
      tests_python/pytest_plugins/job_selection.py)

    The plugin and conftest.py declare options, which pytest reads from its command
    line and configuration files; hooks and fixtures ask for them by name.  The
    values pytest has found are an argument here, in the form argparse gives them;
    the value of [--job], a match object, is one of its own. *)

From Stdlib Require Import ZArith Lia.
From stdpp Require Import base tactics list strings numbers.
From S2P Require Import Prelude PyStr PyExc PyRe PyDict PyFloat PyJson PyIO ArgParse JobSelection.
From S2P Require Import ClientOutput Daemons Client ClientCommands Sandbox RunScripts Fixtures.

Local Open Scope Z_scope.
Local Open Scope py_scope.

(** [pytest_addoption] of the plugin, behind [--job] *)
Definition plugin_options : list optional :=
  [Opt [$"--prev-junit-xml"] $"prev_junit_xml" (Store TStr) VNone;
   Opt [$"--jobs-dry-run"] $"jobs_dry_run" StoreTrue (VBool false)].

(** [pytest_addoption] of conftest.py *)
Definition conftest_options : list optional :=
  [Opt [$"--log-dir"] $"log_dir" (Store TStr) VNone;
   Opt [$"--singleprocess"] $"singleprocess" StoreTrue (VBool false)].

Definition session_options : list optional := plugin_options ++ conftest_options.

(** [config.getoption(name)]: the name is a destination or one of the flags. *)
Definition getoption (name : str) (option : list (str * value)) : res value :=
  attr (match List.find (fun o => bool_decide (name ∈ flags o)) session_options with
        | Some o => odest o
        | None => name
        end) option.

Section Session.
Context {o : OS} {U : UCD}.

(** *** The hook of the plugin *)

Section Plugin.
Context (mangle_test_address : str -> list str) (et_parse : trace -> str -> res Element)
        (element_repr : Element -> str) {Item : Type} (nodeid : Item -> str).

(** The hook with the values it asks for *)
Definition plugin_modifyitems (job_config : option mobj) (options : list (str * value)) : M (list Item) () :=
  prev_junit_xml ← lift (getoption $"--prev-junit-xml" options);
  dry_run ← lift (getoption $"--jobs-dry-run" options);
  JobSelection.pytest_collection_modifyitems mangle_test_address et_parse element_repr nodeid
    job_config (optional_text prev_junit_xml) (bool_decide (dry_run = VBool true)).
End Plugin.

(** *** The hooks and fixtures of conftest.py *)

Definition sanity_check {S} (options : list (str * value)) : M S () :=
  log_dir ← lift (getoption $"--log-dir" options); Fixtures.sanity_check (optional_text log_dir).

Definition log_dir {S} (options : list (str * value)) : fixture S (option str) :=
  Fixture (optional_text <$> lift (getoption $"--log-dir" options)) (fun _ => mret ()).

Definition singleprocess {S} (options : list (str * value)) : fixture S bool :=
  Fixture (v ← lift (getoption $"--singleprocess" options); mret (bool_decide (v = VBool true))) (fun _ => mret ()).

(** A class of tests that asks for the sandbox: the fixtures it depends on are set
    up first. *)
Definition sandbox_tests {C} {R : Runner C} (TEZOS_HOME : str) (options : list (str * value))
    (tests : M (Sandbox C) ()) : M () () :=
  d ← before_yield (log_dir options);
  b ← before_yield (singleprocess options);
  Fixtures.sandbox TEZOS_HOME d b tests.

(** *** What no option means *)

Definition no_options : list (str * value) := map (fun o => (odest o, odefault o)) session_options.

Lemma getoption_default op n : op ∈ session_options -> n ∈ flags op -> getoption n no_options = Ok (odefault op).
Proof.
  intros Hop Hn. unfold session_options, plugin_options, conftest_options in Hop. cbn in Hop.
  repeat (apply elem_of_cons in Hop as [->|Hop]; [cbn in Hn; apply list_elem_of_singleton in Hn as ->; vm_compute; reflexivity|]).
  by apply not_elem_of_nil in Hop.
Qed.
End Session.

(** Without options all tests are run, none is deselected; the log directory is
    [None] and [singleprocess] is false, as the comments of the fixture [sandbox]
    say. *)
Lemma session_without_options {o : OS} {U : UCD} mangle et_parse element_repr {Item} (nodeid : Item -> str)
    {C} {R : Runner C} home (items : list Item) (tests : M (Sandbox C) ()) t :
  plugin_modifyitems mangle et_parse element_repr nodeid None no_options items t = (Ok (), items, t) /\
  sandbox_tests home no_options tests () t = Fixtures.sandbox home None false tests () t.
Proof. split; reflexivity. Qed.
