(* ===== verification/Examples.v ===== *)
(** * The examples of the framework (tests_python/examples)

    Three scripts show how tests are written: a transfer between two nodes
    (example.py), an operation forged, signed and injected through RPCs
    (forge_transfer.py), a block baked for a demo protocol (proto_demo_noops.py).
    They run on the sandbox of [Sandbox] with the functions of [Utils]. *)

From Stdlib Require Import ZArith Lia.
From stdpp Require Import base tactics list strings numbers.
From Stdlib Require Import SpecFloat ZifyBool.
From S2P Require Import Prelude PyStr PyExc PyRe PyDict PyFloat PyJson PyTime.
From S2P Require Import PyIO ClientOutput Daemons Client ClientCommands ClientFacts Constants Sandbox.
From S2P Require Import Utils UtilsFacts Protocol RunScripts.

Local Open Scope Z_scope.
Local Open Scope py_scope.

(** ** The header of a block of the demo protocol *)

(** [f'{n:#06x}']: at least four hexadecimal digits behind 0x *)
Definition format_06x (n : Z) : str :=
  let ds := map hex_char (if n =? 0 then [0] else digits 16 n) in
  $"0x" +:+ replicate (4 - length ds) 48%N +:+ ds.

(** [bytes(string, 'utf-8')] *)
Definition bytes_utf8 (s : str) : res bytes :=
  if forallb valid_cp s then Ok (encode s) else Raise ValueError.

Definition forge_block_header_data (protocol_data : list (str * str)) : res str :=
  assert_ ((length protocol_data =? 1)%nat && dmem $"block_header_data" protocol_data);;
  string ← or_raise KeyError (dget $"block_header_data" protocol_data);
  let tag := $"0000" in
  let padded_hex_len := slice (Some 2) None (format_06x (Z.of_nat (length string))) in
  bs ← bytes_utf8 string;
  Ok (tag +:+ padded_hex_len +:+ hex bs).

Section Scripts.
Context {o : OS} {U : UCD}.
Abbreviation SM := (M (Sandbox Client)).

Definition PROTO_DEMO : str := PROTO_DEMO_NOOPS.
Definition PARAMS : list str := [$"-p"; PROTO_GENESIS].

Definition demo_body : SM () :=
  add_default_node 0 true;;
  client ← client 0;
  protocols ← list_protocols client;
  massert (bool_decide (PROTO_DEMO ∈ protocols));;
  activate_protocol_json client PROTO_DEMO (JDict []) $"1" $"activator" None None;;
  head ← Client.rpc client $"get" $"/chains/main/blocks/head/" None (Some PARAMS);
  lift (h ← jkey $"header" head; l ← jkey $"level" h; assert_ (jeqb l (JInt 1)));;
  lift (p ← jkey $"protocol" head; assert_ (jeqb p (JStr PROTO_GENESIS)));;
  sleep (float_of_Z 1);;
  let message := $"hello world" in
  let data := JDict [($"protocol_data", JDict [($"protocol", JStr PROTO_DEMO); ($"block_header_data", JStr message)]);
                     ($"operations", JList [])] in
  block ← Client.rpc client $"post" $"/chains/main/blocks/head/helpers/preapply/block" (Some data) (Some PARAMS);
  encoded ← lift (forge_block_header_data [($"block_header_data", message)]);
  shell_header ← lift (h ← jkey $"shell_header" block; jset $"protocol_data" (JStr encoded) h);
  encoded ← Client.rpc client $"post" $"/chains/main/blocks/head/helpers/forge_block_header" (Some shell_header) (Some PARAMS);
  inject ← lift (b ← jkey $"block" encoded; Ok (JDict [($"data", b); ($"operations", JList [])]));
  Client.rpc client $"post" $"/injection/block" (Some inject) (Some PARAMS);;
  head ← Client.rpc client $"get" $"/chains/main/blocks/head/" None (Some PARAMS);
  lift (h ← jkey $"header" head; l ← jkey $"level" h; assert_ (jeqb l (JInt 2))).

Definition demo_main (TEZOS_HOME : str) : M () () :=
  sandbox ← Sandbox_init TEZOS_HOME IDENTITIES 18730 19730 45 (Some $"tmp") false;
  on_new sandbox (with_sandbox demo_body);;
  mret ().

(** ** example.py *)

Definition example_body (ALPHA_PARAMETERS : json) : SM () :=
  add_default_node 0 true;;
  c ← client 0;
  activate_alpha ALPHA_PARAMETERS c None None false;;
  add_default_node 1 true;;
  add_baker 0 [$"bootstrap5"] ALPHA_DAEMON None None [] None;;
  sleep (float_of_Z 20);;
  c ← client 0;
  receipt ← transfer c (NInt 500) $"bootstrap1" $"bootstrap3" None [] None;
  let transfer_hash := TransferResult_operation_hash receipt in
  c ← client 1;
  wait_for_inclusion c transfer_hash None (Some 2) None;;
  mret ().

Definition example_scenario (TEZOS_HOME : str) (ALPHA_PARAMETERS : json) : M () () :=
  sandbox ← Sandbox_init TEZOS_HOME IDENTITIES 18730 19730 45 None false;
  on_new sandbox (with_sandbox (example_body ALPHA_PARAMETERS));;
  mret ().
End Scripts.

(** ** forge_transfer.py *)

Definition SENDER : str := $"bootstrap1".
Definition RECEIVER : str := $"bootstrap2".

(** [constants.IDENTITIES[name][field]], for names and fields that are there *)
Definition identity_field (name field : str) : str := default [] (d ← dget name IDENTITIES; dget field d).

Definition SENDER_ID : str := identity_field $"bootstrap1" $"identity".
Definition RECEIVER_ID : str := identity_field $"bootstrap2" $"identity".
Definition SENDER_SK : str :=
  slice (Some (Z.of_nat (length $"unencrypted:"))) None (identity_field $"bootstrap1" $"secret").

(** [math.ceil] *)
Definition ceil (x : float) : res Z :=
  match x with
  | S754_finite s m e =>
      let '(num, den) := frac m e in
      Ok (- ((if s then num else - num) / den))
  | S754_zero _ => Ok 0
  | S754_infinity _ => Raise OverflowError
  | S754_nan => Raise ValueError
  end.

(** [float(j)] *)
Definition float_of_json {U : UCD} (j : json) : res float :=
  match j with
  | JStr s => or_raise ValueError (parse_float s)
  | JInt n => Ok (float_of_Z n)
  | JBool b => Ok (float_of_Z (if b then 1 else 0))
  | JFloat x => Ok x
  | _ => Raise TypeError
  end.

(** The operation, whose dictionary the script updates: gas and storage limits and
    fee, and the entries added at the end. *)
Definition operation_json (head_hash counter : json) (fee gas_limit storage_limit : str)
    (more : list (str * json)) : json :=
  JDict ([($"branch", head_hash);
          ($"contents", JList [JDict
            [($"kind", JStr $"transaction"); ($"source", JStr SENDER_ID); ($"fee", JStr fee);
             ($"counter", counter); ($"gas_limit", JStr gas_limit); ($"storage_limit", JStr storage_limit);
             ($"amount", JStr $"1000"); ($"destination", JStr RECEIVER_ID)]])] ++ more).

Definition dummy_sig : str :=
  $"edsigtkpiSSschcaCt9pUVrpNPf7TTcgvgDEDD6NCEHMy8NNQJCGnMfLZzYoQj74yLjo9wx6MPVV29CvVzgi7qEcEUok3k7AuMg".

(** [res['contents'][0]['metadata']['operation_result'][field]] *)
Definition operation_result (field : str) (res : json) : PyExc.res json :=
  c ← jkey $"contents" res; c ← jindex 0 c; m ← jkey $"metadata" c; r ← jkey $"operation_result" m; jkey field r.

(** The gas limit from the two figures of the simulation, which must agree. *)
Definition safer_gas_limit {U : UCD} (res : json) : PyExc.res Z :=
  gas_limit ← operation_result $"consumed_gas" res;
  milligas_limit ← operation_result $"consumed_milligas" res;
  x ← float_of_json milligas_limit;
  gas_from_milligas ← ceil (fdiv x (float_of_Z 1000));
  g ← int_of_json gas_limit;
  assert_ (g + 100 =? gas_from_milligas + 100);;
  Ok (g + 100).

(** The signature of a forged operation, in both encodings. *)
Definition sign_forged {cr : Crypto} (operation_hex_string : str) : res (str * str) :=
  op ← bytes_fromhex operation_hex_string;
  let watermarked_operation := 3 :: op in
  sender_sk_hex ← b58_key_to_hex SENDER_SK;
  sender_sk_bin ← bytes_fromhex sender_sk_hex;
  sig_hex ← sign watermarked_operation sender_sk_bin;
  sig_b58 ← hex_sig_to_b58 sig_hex;
  Ok (sig_hex, sig_b58).

Section Forge.
Context {o : OS} {U : UCD} {cr : Crypto} {Response : Type}.
(** requests: the calls, and the decoding of a response. *)
Context (requests_call : trace -> str -> str -> option json -> option (list (str * str)) -> res Response)
  (response_json : Response -> res json).
Abbreviation SM := (M (Sandbox Client)).

(** [utils.rpc('localhost', port, verb, path, data).json()] *)
Definition rpc_json (port : Z) (verb path : str) (data : option json) : SM json :=
  r ← Utils.rpc requests_call $"localhost" port verb path data None;
  lift (response_json r).

(** [isinstance(j, str)], for [+] with another text *)
Definition text_of_json (j : json) : res str := match j with JStr s => Ok s | _ => Raise TypeError end.

(** [run_json] refers to the operation, so the signature added after it was built
    is part of what is sent. *)
Definition forge_body (ALPHA_PARAMETERS : json) : SM () :=
  add_default_node 0 true;;
  c ← client 0;
  activate_alpha ALPHA_PARAMETERS c None None false;;
  n ← node 0;
  port ← node_rpc_port n;
  chain_id ← rpc_json port $"get" $"/chains/main/chain_id" None;
  let counter_path := $"/chains/main/blocks/head/context/contracts/" +:+ SENDER_ID +:+ $"/counter" in
  counter ← rpc_json port $"get" counter_path None;
  head_hash ← rpc_json port $"get" $"/chains/main/blocks/head/hash" None;
  counter ← lift (n ← int_of_json counter; Ok (JStr (str_int (n + 1))));
  let operation := operation_json head_hash counter in
  let run_json := JDict [($"operation", operation $"0" $"1040000" $"60000" [($"signature", JStr dummy_sig)]);
                         ($"chain_id", chain_id)] in
  res ← rpc_json port $"post" $"/chains/main/blocks/head/helpers/scripts/run_operation" (Some run_json);
  safer_gas_limit ← lift (safer_gas_limit res);
  let operation := operation $"1300" (str_int safer_gas_limit) $"0" in
  operation_hex_string ← rpc_json port $"post" $"/chains/main/blocks/head/helpers/forge/operations" (Some (operation []));
  operation_hex_string ← lift (text_of_json operation_hex_string);
  '(sig_hex, sig_b58) ← lift (sign_forged operation_hex_string);
  let operation_json_list := JList [operation [($"signature", JStr sig_b58); ($"protocol", JStr ALPHA)]] in
  preapply_res ← rpc_json port $"post" $"/chains/main/blocks/head/helpers/preapply/operations" (Some operation_json_list);
  preapply_status ← lift (r ← jindex 0 preapply_res; operation_result $"status" r);
  massert (jeqb preapply_status (JStr $"applied"));;
  let signed_op := operation_hex_string +:+ sig_hex in
  op_hash ← rpc_json port $"post" $"injection/operation" (Some (JStr signed_op));
  mempool ← rpc_json port $"get" $"/chains/main/mempool/pending_operations" None;
  lift (l ← jkey $"applied" mempool; e ← jindex 0 l; h ← jkey $"hash" e; assert_ (jeqb op_hash h)).

Definition forge_scenario (TEZOS_HOME : str) (ALPHA_PARAMETERS : json) : M () () :=
  sandbox ← Sandbox_init TEZOS_HOME IDENTITIES 18730 19730 45 None false;
  on_new sandbox (with_sandbox (forge_body ALPHA_PARAMETERS));;
  mret ().
End Forge.

(** ** The header is what the protocol reads *)

(** The encoding of strings of the node's data-encoding library: the number of
    bytes in four bytes, big-endian, then the bytes. *)
Definition read_string (bs : bytes) : option bytes :=
  let body := drop 4 bs in
  if (4 <=? length bs)%nat && (undigits 256 (take 4 bs) =? Z.of_nat (length body)) then Some body else None.

Lemma pad4_digits n ds : 0 <= n < 16 ^ 4 -> Forall (is_digit 16) ds -> (length ds <= 4)%nat -> undigits 16 ds = n ->
  replicate (4 - length ds) 0 ++ ds = [n / 256 / 16; n / 256 mod 16; n mod 256 / 16; n mod 256 mod 16].
Proof.
  intros Hn Hd Hl Hv. apply (undigits_inj_length 16); [lia| | | |].
  - apply Forall_app. split; [|done]. apply Forall_replicate. unfold is_digit. lia.
  - unfold is_digit. repeat constructor; Z.div_mod_to_equations; lia.
  - rewrite length_app, length_replicate. cbn. lia.
  - rewrite undigits_app.
    assert (forall k, undigits 16 (replicate k 0) = 0) as ->.
    { intros k. induction k as [|k IH]; [done|]. cbn [replicate]. rewrite undigits_cons, IH. lia. }
    rewrite Hv. unfold undigits. cbn [fold_left]. Z.div_mod_to_equations. lia.
Qed.

(** The length field of up to four digits is two bytes. *)
Lemma padded_len n : 0 <= n < 65536 -> slice (Some 2) None (format_06x n) = hex [n / 256; n mod 256].
Proof.
  intros Hn. unfold format_06x. set (ds := if n =? 0 then [0] else digits 16 n).
  assert (Hds : Forall (is_digit 16) ds /\ (length ds <= 4)%nat /\ undigits 16 ds = n).
  { unfold ds. destruct (Z.eqb_spec n 0) as [->|].
    - split_and!; [by repeat constructor|cbn; lia|done].
    - split_and!; [by apply digits_digit|by apply (digits_length_le 16 n 4)|apply undigits_digits; lia]. }
  destruct Hds as (H1 & H2 & H3). rewrite length_map.
  assert (E : replicate (4 - length ds) 48%N +:+ map hex_char ds
    = map hex_char (replicate (4 - length ds) 0 ++ ds)).
  { rewrite map_app. f_equal. generalize (4 - length ds)%nat. intros k. induction k as [|k IH]; [done|]. cbn. by rewrite IH. }
  rewrite E, (pad4_digits n ds Hn H1 H2 H3). reflexivity.
Qed.

Lemma encode_cp_bytes c : valid_cp c = true -> Forall is_byte (utf8_encode_cp c).
Proof.
  intros H. assert (Hc : (c < 1114112)%N) by (unfold valid_cp in H; lia). unfold utf8_encode_cp.
  repeat case_match; repeat (apply List.Forall_cons || apply List.Forall_nil);
    unfold is_byte; zify; Z.to_euclidean_division_equations; lia.
Qed.

Lemma encode_bytes s : forallb valid_cp s = true -> Forall is_byte (encode s).
Proof.
  induction s as [|c s IH]; [constructor|]. cbn. intros [Hc Hs]%andb_prop.
  apply Forall_app. split; [by apply encode_cp_bytes|by apply IH].
Qed.

Definition ascii (c : N) : bool := (c <? 128)%N.

Lemma length_encode s : (length s <= length (encode s))%nat /\ (length s =? length (encode s))%nat = forallb ascii s.
Proof.
  assert (Hc : forall c, (1 <= length (utf8_encode_cp c))%nat /\ (1 =? length (utf8_encode_cp c))%nat = ascii c).
  { intros c. unfold utf8_encode_cp, ascii. repeat case_match; cbn; split; lia. }
  induction s as [|c s [IH1 IH2]]; [done|]. destruct (Hc c) as [H1 H2].
  cbn [forallb encode flat_map]. fold (encode s). rewrite <- IH2, <- H2, length_app. cbn [length]. split; [lia|].
  lia.
Qed.

(** The header data of a text of fewer than 65536 characters are the encoding
    of strings that the protocol reads iff the text is ASCII: then the protocol reads
    the text back; otherwise the length, which counts characters, is too small for
    the bytes and the data are not an encoding of any string. *)
Theorem header_data_read s :
  forallb valid_cp s = true -> Z.of_nat (length s) < 65536 ->
  exists h bs, forge_block_header_data [($"block_header_data", s)] = Ok h /\ fromhex h = Some bs
    /\ read_string bs = if forallb ascii s then Some (encode s) else None.
Proof.
  intros Hs Hlen. set (n := Z.of_nat (length s)).
  exists (hex ([0; 0; n / 256; n mod 256] ++ encode s)), ([0; 0; n / 256; n mod 256] ++ encode s). split_and!.
  - unfold forge_block_header_data. change (dget _ _) with (Some s). cbn -[encode slice].
    unfold bytes_utf8. rewrite Hs. fold n. rewrite padded_len by lia. reflexivity.
  - apply fromhex_hex, Forall_app. split; [|by apply encode_bytes].
    unfold is_byte. repeat constructor; Z.div_mod_to_equations; lia.
  - unfold read_string. cbn [app take drop length Nat.leb andb].
    destruct (length_encode s) as [_ <-]. unfold undigits. cbn [fold_left]. rewrite drop_0, take_0. cbn [fold_left].
    match goal with |- context [(?v =? Z.of_nat (length (encode s)))] =>
      replace v with n by (unfold n; Z.div_mod_to_equations; lia) end.
    unfold n. replace (Z.of_nat (length s) =? _) with (length s =? length (encode s))%nat by lia.
    by destruct (_ =? _)%nat.
Qed.

Lemma header_data_read_witness :
  (exists bs, forge_block_header_data [($"block_header_data", $"hello world")] = Ok $"0000000b68656c6c6f20776f726c64"
     /\ fromhex $"0000000b68656c6c6f20776f726c64" = Some bs /\ read_string bs = Some (encode $"hello world"))
  /\ exists h bs, forge_block_header_data [($"block_header_data", [233%N])] = Ok h /\ fromhex h = Some bs
     /\ read_string bs = None.
Proof.
  split.
  - destruct (header_data_read $"hello world" eq_refl) as (h & bs & E & H & Hr); [vm_compute; reflexivity|].
    exists bs. assert (Eh : Ok h = Ok $"0000000b68656c6c6f20776f726c64") by (rewrite <- E; vm_compute; reflexivity).
    injection Eh as ->. exact (conj E (conj H Hr)).
  - exact (header_data_read [233%N] eq_refl eq_refl).
Defined.

(** From 65536 characters on, the length field has more than four digits. *)
Example long_header : format_06x 65536 = $"0x10000".
Proof. vm_compute. reflexivity. Qed.
