(* ===== verification/JobsReports.v ===== *)
(** * The report fetcher (tests_python/scripts/jobs_fetch_reports.py)

    The script collects the JUnit reports of the pytest jobs of a pipeline and
    merges them into the report the job-selection plugin reads.  Parameters: the
    answer to a URL (its body and its link header), the XML parser and printer,
    and the reason phrases of HTTP.  The theorems: all pages of the listing are
    collected, and the merged report gives the plugin the timings of all
    reports. *)

From Stdlib Require Import ZArith Lia.
From stdpp Require Import base tactics list sets strings numbers.
From S2P Require Import Prelude PyStr PyExc PyRe PyDict PyFloat PyJson PyTime PyIO ArgParse JobSelection Utils.

Local Open Scope Z_scope.
Local Open Scope py_scope.

(** [urllib.parse.quote_plus] *)
Definition upper_hex (d : Z) : N := if d <? 10 then Z.to_N (48 + d) else Z.to_N (55 + d).
Definition unreserved (c : N) : bool := ascii_alnum c || existsb (N.eqb c) $"_.-~".
Definition quote_plus (s : str) : str :=
  flat_map (fun c =>
    if (c =? 32)%N then $"+"
    else if unreserved c then [c]
    else flat_map (fun b => [37%N; upper_hex (b / 16); upper_hex (b mod 16)]) (utf8_encode_cp c)) s.

(** The bracketed URL of the link whose rel is "next". *)
Definition next_link_re : regex :=
  rseqs [ch 60; RGroup 1 (rstar (RChar (fun c => negb (c =? 62)%N))); rlit (dq $">; rel='next'")].

Section Fetcher.
Context {S : Type} {o : OS} {U : UCD}.
Context (urlopen : trace -> str -> res (bytes * option str)).
Context (reason : Z -> str).

(** [with urllib.request.urlopen(url) as request]: the body and the link header. *)
Definition open_url (url : str) : M S (bytes * option str) :=
  request (EHttp $"GET" url None) (fun t => urlopen t url).

Definition endpoint : str := $"https://gitlab.com/api/v4/".

Definition job_entry (job : json) : res (json * json) :=
  id ← jkey $"id" job; name ← jkey $"name" job; Ok (id, name).

(** The URL after this page, if its header names one. *)
Definition next_link (link : option str) : option str :=
  m ← re_search next_link_re (default [] link); group 1 m.

(** The [while next_url] loop; the number of pages is not bounded by the
    script, [None] when the fuel runs out. *)
Fixpoint pages_loop (fuel : nat) (next_url : option str) (jobs : list (json * json)) :
    M S (option (list (json * json))) :=
  match next_url with
  | None | Some [] => mret (Some jobs)
  | Some url =>
      match fuel with
      | O => mret None
      | Datatypes.S fuel =>
          '(body, link) ← open_url url;
          l ← lift (text ← decode_utf8 body; data ← loads text; items ← jiter data; mapM_res job_entry items);
          match next_link link with
          | Some next => pages_loop fuel (Some next) (jobs ++ l)
          | None => print_ $"No next link, terminating";; pages_loop fuel None (jobs ++ l)
          end
      end
  end.

Definition exit_on_http_error {A} (message : str) (m : M S A) : M S A :=
  try_except m (fun e =>
    match e with
    | HTTPError status _ => Some (print_ (message +:+ str_http_error reason status);; raise (SystemExit 1))
    | _ => None
    end).

Definition jobs_url (project_id : str) (pipeline_id : str) : str :=
  endpoint +:+ $"projects/" +:+ quote_plus project_id +:+ $"/pipelines/" +:+ pipeline_id +:+
  $"/jobs" +:+ $"?per_page=200".

Definition gitlab_api_project_pipeline_jobs (fuel : nat) (project_id : str) (pipeline_id : str) :
    M S (option (list (json * json))) :=
  exit_on_http_error
    ($"Could not fetch jobs of pipeline " +:+ pipeline_id +:+ $" in " +:+ project_id +:+ $": ")
    (pages_loop fuel (Some (jobs_url project_id pipeline_id)) []).

Definition gitlab_api_project_pipeline_job_artifact (project_id : str) (job_id : json) (artifact_path : str) :
    M S bytes :=
  let artifact_path_quoted := join $"/" (map quote_plus (split_on 47 artifact_path)) in
  let path := $"projects/" +:+ quote_plus project_id +:+ $"/jobs/" +:+ jformat job_id +:+
              $"/artifacts/" +:+ artifact_path_quoted in
  exit_on_http_error
    ($"Could not fetch artifact " +:+ artifact_path +:+ $" in job " +:+ jformat job_id +:+ $" in " +:+
     project_id +:+ $": ")
    (r ← open_url (endpoint +:+ path); mret r.1).

(** The test cases of the reports, in their order. *)
Fixpoint all_testcases (junit_reports : list Element) : res (list Element) :=
  match junit_reports with
  | [] => Ok []
  | junit_report :: r =>
      match elt_find $"testsuite" junit_report with
      | None => Raise AssertionError
      | Some testsuite => rest ← all_testcases r; Ok (elt_findall $"testcase" testsuite ++ rest)
      end
  end.

Definition merge_junit_reports (junit_reports : list Element) : res (Z * Element) :=
  testcases ← all_testcases junit_reports;
  let nb_testcases := Z.of_nat (length testcases) in
  Ok (nb_testcases,
      Elt $"testsuites" [] [Elt $"testsuite" [($"tests", str_int nb_testcases)] testcases]).

Context (et_fromstring : str -> res Element) (et_tostring : Element -> str).

(** ['integration:pytest (\d+)/(\d+)'] *)
Definition integration_job_re : regex :=
  rseqs [rlit $"integration:pytest "; RGroup 1 (rplus rd); ch 47; RGroup 2 (rplus rd)].

Fixpoint fetch_reports (project_id : str) (jobs : list (json * json)) : M S (list Element) :=
  match jobs with
  | [] => mret []
  | (id, name) :: rest =>
      match name with
      | JStr name =>
          match m ← re_match integration_job_re name; i ← group 1 m; n ← group 2 m; Some (i, n) with
          | None => fetch_reports project_id rest
          | Some (ci_node_index, ci_node_total) =>
              let artifact_path := $"tests_python/reports/" +:+ $"report_" +:+ ci_node_index +:+ $"_" +:+
                                   ci_node_total +:+ $".xml" in
              body ← gitlab_api_project_pipeline_job_artifact project_id id artifact_path;
              junit_report_str ← lift (decode_utf8 body);
              print_ ($"Job " +:+ jformat id +:+ $" (" +:+ name +:+ $"): " +:+ $"Fetched " +:+ artifact_path);;
              report ← lift (et_fromstring junit_report_str);
              reports ← fetch_reports project_id rest;
              mret (report :: reports)
          end
      | _ => raise TypeError
      end
  end.

(** [merged_report.write(file)]: to the file opened for writing, or the standard
    output. *)
Definition write_report (merged_report_output_file : value) (report : Element) : M S () :=
  match merged_report_output_file with
  | VFile (Some f) => write_file f $"w" (et_tostring report)
  | VFile None => emit (EPrintEnd (et_tostring report))
  | _ => raise TypeError
  end.

(** [file.name] *)
Definition file_name (merged_report_output_file : value) : str :=
  match merged_report_output_file with VFile (Some f) => f | _ => $"<stdout>" end.

Definition fetch_and_merge_reports (fuel : nat) (project_id : str) (pipeline_id : str)
    (merged_report_output_file : value) :
    M S (option ()) :=
  jobs ← gitlab_api_project_pipeline_jobs fuel project_id pipeline_id;
  match jobs with
  | None => mret None
  | Some jobs =>
      junit_reports ← fetch_reports project_id jobs;
      if bool_decide (length junit_reports = 0%nat) then
        print_ ($"Found no jobs in pipeline " +:+ pipeline_id +:+ $" of project " +:+ project_id +:+
                $" matching /integration:pytest (\d+)/(\d+)/");;
        raise (SystemExit 1)
      else
        '(nb_testcases, merged_junit_report) ← lift (merge_junit_reports junit_reports);
        write_report merged_report_output_file merged_junit_report;;
        print_ ($"Wrote merged report with " +:+ str_int nb_testcases +:+ $" testcases " +:+ $"to " +:+
                file_name merged_report_output_file);;
        mret (Some ())
  end.

Definition reports_parser : parser :=
  ArgumentParser [] [Pos $"project_id" TStr; Pos $"pipeline_id" TInt; Pos $"merged_report_output_file" TFileW] None.

(** [main]: the ids are only used through [str], which gives "[]" for an empty list. *)
Definition reports_main {msg : Messages} (fuel : nat) (argv : list str) : M S (option ()) :=
  args ← parse_args reports_parser argv;
  project_id ← lift (attr $"project_id" args);
  pipeline_id ← lift (attr $"pipeline_id" args);
  out ← lift (attr $"merged_report_output_file" args);
  fetch_and_merge_reports fuel (str_value project_id) (str_value pipeline_id) out.
End Fetcher.

(** ** The link header *)

(** The header that lists links, each with its relation. *)
Definition link_value (l : str * str) : str := 60%N :: l.1 ++ dq $">; rel='" ++ l.2 ++ [dquote].
Definition link_header (links : list (str * str)) : str := join $", " (map link_value links).

(** URLs hold no angle brackets, relations neither quotes nor brackets. *)
Definition wf_link (l : str * str) : Prop :=
  (60%N ∉ l.1) /\ (62%N ∉ l.1) /\ (60%N ∉ l.2) /\ (34%N ∉ l.2).

(** The URL of the first link to the next page *)
Definition next_of (links : list (str * str)) : option str :=
  fst <$> List.find (fun l => bool_decide (l.2 = $"next")) links.

(** A text is cut in one way at the first occurrence of a character. *)
Lemma first_cut (c : N) (u1 v1 u2 v2 : str) :
  c ∉ u1 -> c ∉ u2 -> u1 ++ c :: v1 = u2 ++ c :: v2 -> u1 = u2 /\ v1 = v2.
Proof.
  revert u2. induction u1 as [|a u1 IH]; intros [|b u2] H1 H2 E; cbn in E; simplify_eq; [done|set_solver..|].
  destruct (IH u2) as [-> ->]; [set_solver..|done|done].
Qed.

Lemma no_char_Forall (c : N) w : c ∉ w -> Forall (fun x => negb (x =? c)%N = true) w.
Proof.
  intros H. apply Forall_forall. intros x Hx. apply negb_true_iff, N.eqb_neq. intros ->.
  by apply H, list_elem_of_In.
Qed.

Lemma search_plain w b a : 60%N ∉ w -> search_at next_link_re false b (w ++ a) = search_at next_link_re false (rev w ++ b) a.
Proof.
  revert b. induction w as [|c w IH]; intros b Hw; [done|]. cbn [app search_at].
  assert (Hm : match_here false next_link_re (St b (c :: w ++ a) []) = None).
  { unfold match_here, next_link_re. cbn [rseqs mt ch after]. rewrite (proj2 (N.eqb_neq 60 c)) by set_solver. done. }
  rewrite Hm, IH by set_solver. cbn [rev]. by rewrite <- app_assoc.
Qed.

Lemma match_link_next url b a : 62%N ∉ url -> exists m,
  match_here false next_link_re (St b (link_value (url, $"next") ++ a) []) = Some m /\ assoc_nat 1 (caps m) = Some url.
Proof.
  intros Hu. unfold link_value, next_link_re. cbn [fst snd]. set (tail := dq $">; rel='next'" ++ a).
  assert (E : (60%N :: url ++ dq $">; rel='" ++ $"next" ++ [dquote]) ++ a = 60%N :: url ++ tail)
    by (unfold tail; cbn [app]; by rewrite <- !app_assoc).
  rewrite E. pose (s1 := St (60%N :: b) (url ++ tail) []).
  pose (s2 := capture 1 s1 (skip url tail s1)).
  exists (skip (dq $">; rel='next'") a s2). split.
  - unfold match_here. cbn [rseqs mt ch after]. change (60 =? 60)%N with true. cbv iota. fold s1.
    apply (mt_star_run (fun c => negb (c =? 62)%N) s1 url tail); [done|by apply no_char_Forall|done|].
    by rewrite (mt_rlit (dq $">; rel='next'") s2 a).
  - unfold s2, skip, capture. cbn [caps assoc_nat Nat.eqb]. f_equal. by apply between_consumes.
Qed.

Lemma match_link_other url rel b a : 62%N ∉ url -> 34%N ∉ rel -> rel <> $"next" ->
  match_here false next_link_re (St b (link_value (url, rel) ++ a) []) = None.
Proof.
  intros Hu Hr Hn. unfold match_here. destruct (mt _ _ _) as [x|] eqn:E; [|done]. exfalso.
  apply mt_sound in E as (s' & D & _). unfold next_link_re in D. cbn [rseqs den] in D.
  destruct D as (s1 & (c & t & E1 & Hc%N.eqb_eq & ->) & s2 & (s3 & D & ->) & Dl).
  apply den_star_class in D as (w & Ew & Hw & _). apply den_rlit_app in Dl. cbn [after capture advance] in Ew, Dl.
  unfold link_value in E1. cbn [fst snd after] in E1. rewrite Ew, Dl in E1.
  assert (Hw' : 62%N ∉ w).
  { intros Hin. apply list_elem_of_In in Hin. by apply (proj1 (List.Forall_forall _ _) Hw) in Hin. }
  cbn in E1. rewrite <- !app_assoc in E1. injection E1 as _ E1.
  apply first_cut in E1 as [_ E1]; [|done|done]. cbn in E1. injection E1 as E1.
  change (rel ++ 34%N :: a = $"next" ++ 34%N :: after s') in E1.
  apply first_cut in E1 as [-> _]; [done|done|]. apply (bool_decide_unpack (34%N ∉ $"next")). vm_compute. exact I.
Qed.

Lemma link_value_plain l : wf_link l -> exists w, link_value l = 60%N :: w /\ 60%N ∉ w.
Proof.
  intros (H1 & _ & H3 & _). eexists. split; [reflexivity|]. rewrite !elem_of_app. intros [H|[H|[H|H]]]; [done| |done|].
  - revert H. apply (bool_decide_unpack (60%N ∉ dq $">; rel='")). vm_compute. exact I.
  - revert H. apply (bool_decide_unpack (60%N ∉ [dquote])). vm_compute. exact I.
Qed.

(** One link of the header: it is the one found, or the search goes on behind it. *)
Lemma search_link l b a : wf_link l ->
  (m ← search_at next_link_re false b (link_value l ++ a); group 1 m)
  = if bool_decide (l.2 = $"next") then Some l.1
    else m ← search_at next_link_re false (rev (link_value l) ++ b) a; group 1 m.
Proof.
  intros Hl. pose proof Hl as (_ & Hu & _ & Hr). destruct l as [url rel]. cbn [fst snd] in *.
  case_bool_decide as Hn.
  - subst rel. destruct (match_link_next url b a Hu) as (m & Hm & Hg).
    destruct (link_value_plain (url, $"next") Hl) as (w & Ew & _). rewrite Ew in Hm |- *.
    cbn [app search_at]. cbn [app] in Hm. rewrite Hm. exact Hg.
  - pose proof (match_link_other url rel b a Hu Hr Hn) as Hm.
    destruct (link_value_plain (url, rel) Hl) as (w & Ew & Hw). rewrite Ew in Hm |- *.
    cbn [app search_at]. cbn [app] in Hm. rewrite Hm, search_plain by done.
    cbn [rev]. by rewrite <- app_assoc.
Qed.

Lemma search_links links : Forall wf_link links -> forall b,
  (m ← search_at next_link_re false b (flat_map (fun x => $", " ++ link_value x) links); group 1 m) = next_of links.
Proof.
  induction 1 as [|l links Hl _ IH]; intros b; [done|]. cbn [flat_map]. rewrite <- app_assoc, search_plain by set_solver.
  rewrite search_link by done. unfold next_of. cbn [List.find]. by case_bool_decide.
Qed.

Lemma link_header_cons l links :
  link_header (l :: links) = link_value l ++ flat_map (fun x => $", " ++ link_value x) links.
Proof.
  unfold link_header. revert l. induction links as [|x links IH]; intros l; cbn [map join flat_map] in *.
  - by rewrite app_nil_r.
  - specialize (IH x). cbn [map join] in IH. rewrite IH. by rewrite <- app_assoc.
Qed.

Lemma next_link_header links : Forall wf_link links -> next_link (Some (link_header links)) = next_of links.
Proof.
  intros Hl. unfold next_link, re_search. cbn [default].
  destruct Hl as [|l links Hl Hls]; [done|].
  rewrite link_header_cons. unfold id. rewrite search_link by done. rewrite search_links by done.
  unfold next_of. cbn [List.find]. by case_bool_decide.
Qed.

(** ** All pages are collected *)

Section Pages.
Context {S : Type} (urlopen : trace -> str -> res (bytes * option str)) (reason : Z -> str).

(** At any time the URL answers with a JSON array of objects that have these ids
    and names, and with this link to the next page: its header is a list of links,
    of which the first that leads to the next page counts, or is missing. *)
Definition page (url : str) (items : list (json * json)) (next : option str) : Prop :=
  url <> [] /\ exists body header text data links,
    (forall t, urlopen t url = Ok (body, header)) /\
    decode_utf8 body = Ok text /\ loads text = Ok (JList data) /\
    Forall2 (fun job e => exists d, job = JDict d /\ dget $"id" d = Some e.1 /\ dget $"name" d = Some e.2)
      data items /\
    (header = None /\ links = [] \/ header = Some (link_header links)) /\ Forall wf_link links /\
    next = next_of links.

Inductive listing : str -> list (list (json * json)) -> Prop :=
| last_page url items : page url items None -> listing url [items]
| next_page url items next rest :
    page url items (Some next) -> listing next rest -> listing url (items :: rest).

Lemma job_entries data items :
  Forall2 (fun job e => exists d, job = JDict d /\ dget $"id" d = Some e.1 /\ dget $"name" d = Some e.2) data items ->
  mapM_res job_entry data = Ok items.
Proof.
  induction 1 as [|job [id name] data items (d & -> & Hi & Hn) _ IH]; [done|]. cbn [fst snd] in *. cbn [mapM_res].
  assert (E : job_entry (JDict d) = Ok (id, name)).
  { unfold job_entry. change (jkey ?k (JDict d)) with (or_raise KeyError (dget k d)). by rewrite Hi, Hn. }
  by rewrite E, IH.
Qed.

Lemma pages_loop_step fuel url items next jobs (s : S) t : page url items next -> exists t',
  pages_loop urlopen (Datatypes.S fuel) (Some url) jobs s t = pages_loop urlopen fuel next (jobs ++ items) s t'.
Proof.
  intros (Hne & body & header & text & data & links & Hu & Hd & Hl & Hm%job_entries & Hh & Hw & ->).
  cbn [pages_loop]. destruct url as [|c url]; [done|]. unfold open_url, request, lift, mbind at 1, M_bind at 1.
  rewrite Hu. cbn beta iota. unfold mbind at 1, M_bind at 1. unfold mbind, res_bind.
  rewrite Hd; cbn beta iota. rewrite Hl; cbn beta iota. cbn [jiter]. rewrite Hm; cbn beta iota.
  assert (Hn : next_link header = next_of links) by (destruct Hh as [[-> ->]| ->]; [done|by apply next_link_header]).
  rewrite Hn. destruct (next_of links) as [next|]; eexists; reflexivity.
Qed.

Lemma pages_loop_all url ps : listing url ps -> forall fuel jobs (s : S) t, (length ps <= fuel)%nat ->
  (pages_loop urlopen fuel (Some url) jobs s t).1 = (Ok (Some (jobs ++ concat ps)), s).
Proof.
  induction 1 as [url items H|url items next rest H _ IH]; intros [|fuel] jobs s t Hf; cbn in Hf; try lia;
    destruct (pages_loop_step fuel url items _ jobs s t H) as (t' & ->).
  - cbn [concat]. rewrite app_nil_r. by destruct fuel.
  - cbn [concat]. rewrite IH by lia. by rewrite app_assoc.
Qed.

(** C30. If the listing of the jobs is a chain of pages that ends, each an array of
    objects with an id and a name whose link header names the next page if there is
    one, the fetcher follows it to its end and returns the ids and names of the jobs
    of all pages in their order. *)
Theorem pipeline_jobs_all_pages fuel project_id pipeline_id ps (s : S) t :
  listing (jobs_url project_id pipeline_id) ps -> (length ps <= fuel)%nat ->
  (gitlab_api_project_pipeline_jobs urlopen reason fuel project_id pipeline_id s t).1 = (Ok (Some (concat ps)), s).
Proof.
  intros Hl Hf. unfold gitlab_api_project_pipeline_jobs, exit_on_http_error, try_except.
  pose proof (pages_loop_all _ _ Hl fuel [] s t Hf) as H.
  destruct (pages_loop urlopen fuel _ [] s t) as [[r s'] t']. cbn in H. by simplify_eq.
Qed.
End Pages.

(** ** The merged report *)

Section Merged.
Context {U : UCD} (element_repr : Element -> str).

(** The running time a test case counts with; [None] if it has no class. *)
Definition case_time (testcase : Element) : option (str * option float) :=
  classname ← elt_get $"classname" testcase;
  Some (classname, match elt_get $"time" testcase with
                   | None => Some DEFAULT_TEST_TIME
                   | Some x => parse_float x
                   end).

(** The times of a class, in the order of the report. *)
Definition class_times (c : str) (cases : list Element) : list float :=
  omap (fun testcase =>
    match case_time testcase with
    | Some (c', Some x) => if bool_decide (c' = c) then Some x else None
    | _ => None
    end) cases.

Definition timed (testcase : Element) : Prop :=
  match case_time testcase with Some (_, None) => False | _ => True end.

Definition total (d : option float) (l : list float) : option float :=
  match l with [] => d | _ => Some (fold_left fadd l (default (float_of_Z 0) d)) end.

Lemma total_cons d x l : total (Some (fadd (default (float_of_Z 0) d) x)) l = total d (x :: l).
Proof. by destruct l. Qed.

Lemma class_times_app c l1 l2 : class_times c (l1 ++ l2) = class_times c l1 ++ class_times c l2.
Proof. apply omap_app. Qed.

Lemma dset_old_time c c0 x (timings : list (str * float)) :
  let timings' := if dmem c0 timings then timings else dset c0 (float_of_Z 0) timings in
  dget c (dset c0 (fadd (default (float_of_Z 0) (dget c0 timings')) x) timings') =
  if bool_decide (c0 = c) then Some (fadd (default (float_of_Z 0) (dget c0 timings)) x) else dget c timings.
Proof.
  cbv zeta. rewrite dget_dset. case_bool_decide as Hc.
  - subst. rewrite decide_True by done. do 2 f_equal. unfold dmem.
    destruct (dget c timings) as [y|] eqn:E; [by rewrite ?E|]. by rewrite dget_dset_eq.
  - rewrite decide_False by congruence. unfold dmem. destruct (dget c0 timings); [done|].
    by rewrite dget_dset_ne by congruence.
Qed.

Lemma group_loop_times {S} cases : Forall timed cases -> forall timings (s : S) t, exists timings' t',
  group_loop element_repr timings cases s t = (Ok timings', s, t') /\
  forall c, dget c timings' = total (dget c timings) (class_times c cases).
Proof.
  induction 1 as [|testcase cases Ht _ IH]; intros timings s t; cbn [group_loop].
  { eexists _, _. split; [reflexivity|]. done. }
  unfold timed, case_time in Ht. destruct (elt_get $"classname" testcase) as [c0|] eqn:Ec.
  - assert (exists x, match elt_get $"time" testcase with None => Some DEFAULT_TEST_TIME | Some y => parse_float y end
              = Some x) as [x Hx].
    { destruct (elt_get $"time" testcase) as [y|]; [|by eexists]. cbn in Ht.
      destruct (parse_float y); [by eexists|done]. }
    assert (Hm : match elt_get $"time" testcase with
                 | None => mret DEFAULT_TEST_TIME
                 | Some time_attr => lift (or_raise ValueError (parse_float time_attr))
                 end s t = (Ok x, s, t)).
    { destruct (elt_get $"time" testcase); [unfold lift; by rewrite Hx|]. by injection Hx as ->. }
    unfold mbind, M_bind. rewrite Hm. cbv zeta.
    match goal with |- context [group_loop _ ?d cases s t] => destruct (IH d s t) as (d' & t' & -> & Hd) end.
    exists d', t'. split; [done|]. intros c. rewrite Hd, dset_old_time.
    assert (Hc : class_times c (testcase :: cases) =
      if bool_decide (c0 = c) then x :: class_times c cases else class_times c cases).
    { assert (Hct : case_time testcase = Some (c0, Some x)).
      { unfold case_time. rewrite Ec. cbn [mbind option_bind]. by rewrite Hx. }
      unfold class_times. cbn [omap list_omap]. rewrite Hct. by destruct (bool_decide (c0 = c)). }
    rewrite Hc. case_bool_decide as E; [subst; apply total_cons|done].
  - unfold print_, emit, mbind, M_bind.
    match goal with |- context [group_loop _ ?d cases s ?t] => destruct (IH d s t) as (d' & t' & -> & Hd) end.
    exists d', t'. split; [done|]. intros c. rewrite Hd. unfold class_times. cbn [omap list_omap].
    replace (case_time testcase) with (@None (str * option float)); [done|]. unfold case_time. by rewrite Ec.
Qed.

Lemma findall_tag t e x : x ∈ elt_findall t e -> elt_tag x = t.
Proof. destruct e. cbn. rewrite list_elem_of_filter. by intros [? _]. Qed.

Lemma filter_all {A} (P : A -> Prop) `{forall x, Decision (P x)} (l : list A) : (forall x, x ∈ l -> P x) -> filter P l = l.
Proof.
  induction l as [|x l IH]; intros H0; [done|]. rewrite filter_cons_True by (apply H0, elem_of_cons; by left).
  f_equal. apply IH. intros y Hy. apply H0, elem_of_cons. by right.
Qed.

(** The test cases the plugin reads in a report. *)
Definition report_cases (report : Element) : list Element :=
  match elt_find $"testsuite" report with Some suite => elt_findall $"testcase" suite | None => [] end.

Lemma all_testcases_ok reports : Forall (fun r => is_Some (elt_find $"testsuite" r)) reports ->
  all_testcases reports = Ok (concat (map report_cases reports)).
Proof.
  induction 1 as [|r rs [suite Hr] _ IH]; [done|]. cbn [all_testcases map concat]. unfold report_cases at 1.
  by rewrite Hr, IH.
Qed.

Lemma report_cases_tag reports x : x ∈ concat (map report_cases reports) -> elt_tag x = $"testcase".
Proof.
  rewrite list_elem_of_In, in_concat. intros (l & (r & <- & _)%in_map_iff & Hx). apply list_elem_of_In in Hx.
  unfold report_cases in Hx. destruct (elt_find _ r); [by eapply findall_tag|by apply elem_of_nil in Hx].
Qed.

(** C20. Merging reports that each have a test suite succeeds, counts their test
    cases, and the plugin reads from the merged report, for each class, the sum of
    the times the class has in all the reports, in their order; it never
    fails if the times are numbers. *)
Theorem merged_report_timings {S} reports (s : S) t :
  Forall (fun r => is_Some (elt_find $"testsuite" r)) reports ->
  Forall timed (concat (map report_cases reports)) ->
  exists merged timings, merge_junit_reports reports = Ok (Z.of_nat (length (concat (map report_cases reports))), merged) /\
    (group_prev_timings element_repr merged s t).1 = (Ok timings, s) /\
    forall c, dget c timings = total None (concat (map (fun r => class_times c (report_cases r)) reports)).
Proof.
  intros Hs Ht. unfold merge_junit_reports. rewrite all_testcases_ok by done. cbn [mbind res_bind].
  set (cases := concat (map report_cases reports)) in *.
  destruct (group_loop_times cases Ht [] s t) as (timings & t' & Hg & Hd).
  eexists _, timings. split; [reflexivity|]. split.
  - unfold group_prev_timings, elt_find, elt_findall at 1. cbn [filter list_filter elt_tag].
    rewrite decide_True by done. cbn [head elt_findall].
    rewrite filter_all by apply report_cases_tag. by rewrite Hg.
  - intros c. rewrite Hd. f_equal. unfold cases. clear. induction reports as [|r rs IH]; [done|].
    cbn [map concat]. by rewrite class_times_app, IH.
Qed.
End Merged.

(** ** Concrete runs *)

(** Two pages of jobs. *)
Definition page2_url : str := $"https://gitlab.com/page2".

Definition two_pages (t : trace) (url : str) : res (bytes * option str) :=
  if bool_decide (url = page2_url) then Ok (encode (dq $"[{'id': 2, 'name': 'b'}]"), None)
  else Ok (encode (dq $"[{'id': 1, 'name': 'a'}]"), Some (dq ($"<" +:+ page2_url +:+ $">; rel='next'"))).

Lemma pipeline_jobs_all_pages_witness :
  (gitlab_api_project_pipeline_jobs two_pages (fun _ => []) 2 $"tezos/tezos" $"7" () []).1
  = (Ok (Some [(JInt 1, JStr $"a"); (JInt 2, JStr $"b")]), ()).
Proof.
  refine (@pipeline_jobs_all_pages () two_pages (fun _ => []) 2 $"tezos/tezos" $"7"
    [[(JInt 1, JStr $"a")]; [(JInt 2, JStr $"b")]] () [] _ _).
  - eapply (next_page _ _ _ page2_url); [|eapply last_page].
    + split; [done|]. eexists _, _, _, _, [(page2_url, $"next")]. split; [intros t; vm_compute; reflexivity|].
      split; [vm_compute; reflexivity|]. split; [vm_compute; reflexivity|].
      split; [constructor; [eexists; split_and!; reflexivity|constructor]|].
      split; [right; vm_compute; reflexivity|]. split; [|reflexivity].
      constructor; [|constructor]. apply (bool_decide_unpack _). vm_compute. exact I.
    + split; [done|]. eexists _, _, _, _, []. split; [intros t; vm_compute; reflexivity|].
      split; [vm_compute; reflexivity|]. split; [vm_compute; reflexivity|].
      split; [constructor; [eexists; split_and!; reflexivity|constructor]|].
      split; [left; done|]. split; [constructor|reflexivity].
  - cbn. lia.
Defined.

(** Two reports with test cases of one class. *)
Definition sample_report (time : str) : Element :=
  Elt $"testsuites" [] [Elt $"testsuite" [] [Elt $"testcase" [($"classname", $"A"); ($"time", time)] []]].

Lemma merged_report_timings_witness :
  exists merged timings, merge_junit_reports [sample_report $"1.5"; sample_report $"2.5"] = Ok (2, merged) /\
    (group_prev_timings (U := ascii_only_ucd) (fun _ => []) merged () []).1 = (Ok timings, ()) /\
    dget $"A" timings = Some (float_of_Z 4).
Proof.
  destruct (@merged_report_timings ascii_only_ucd (fun _ => []) () [sample_report $"1.5"; sample_report $"2.5"] () [])
    as (merged & timings & H1 & H2 & H3).
  - repeat constructor; eexists; reflexivity.
  - change (concat _) with [Elt $"testcase" [($"classname", $"A"); ($"time", $"1.5")] [];
                            Elt $"testcase" [($"classname", $"A"); ($"time", $"2.5")] []].
    repeat constructor.
  - exists merged, timings. split; [exact H1|]. split; [exact H2|]. rewrite (H3 $"A"). vm_compute. reflexivity.
Defined.
