(* ===== verification/CommandLines.v ===== *)
(** * The command lines of the scripts

    The parsers of run_testnet.py, run_node_baker.py, check_proto_xrefs.py,
    jobs_fetch_reports.py and ocamldot.py are declared beside the scripts; here is
    what is true of all of them, and what each script does with its line. *)

From Stdlib Require Import ZArith Lia.
From stdpp Require Import base tactics list strings numbers.
From S2P Require Import Prelude PyStr PyExc PyRe PyDict PyFloat PyJson PyTime PyIO ArgParse ArgFacts ArgLines.
From S2P Require Import JobSelection DocsScripts PackageRoles OcamlDot RunScripts JobsReports.

Local Open Scope Z_scope.
Local Open Scope py_scope.

Definition script_parsers : list parser :=
  [testnet_parser; node_baker_parser; xrefs_parser; reports_parser; ocamldot_parser].

Lemma script_parsers_wf p : p ∈ script_parsers -> wf_parser p.
Proof.
  intros Hp. assert (H : forallb (fun p => bool_decide (NoDup (dkeys (kinds p)))) script_parsers = true)
    by (vm_compute; reflexivity).
  rewrite forallb_forall in H. unfold wf_parser, wf_dict. eapply bool_decide_eq_true, H. by apply list_elem_of_In.
Qed.

(** ** Lines of options in any order *)

Section Lines.
Context {o : OS} {U : UCD} {msg : Messages}.

Definition value_or (d : str) (p : parser) (l : list item) : value :=
  match given d l with Some v => v | None => default VNone (dget d (defaults p)) end.

Lemma parsed_attr {S} p l (s : S) t :
  text_parser p = true -> wf_flags p = true -> rest p = None ->
  positionals_of l = positionals p -> Forall (item_ok p) l ->
  exists d, parse_args p (line l) s t = (Ok d, s, t) /\
    forall n, n ∈ dkeys (defaults p) -> attr n d = Ok (value_or n p l).
Proof.
  intros Ht Hw Hr Hp Hl. destruct (parse_args_texts p Ht l s t Hw Hr Hp Hl) as (d & E & Hd).
  exists d. split; [done|]. intros n Hn. unfold attr, value_or. rewrite Hd.
  destruct (given n l); [done|]. by destruct (dget_is_Some n (defaults p) Hn) as [v ->].
Qed.

(** C17. The scripts read their options in any order, in both spellings and repeated
    at will, the last one counting: run_testnet.py and run_node_baker.py run with
    the values given and the documented defaults for the others, and
    check_proto_xrefs.py checks the directory that is given before, between or
    behind its switches. *)
Theorem scripts_read_lines (rounds : nat) (TEZOS_HOME : str) (ALPHA_PARAMETERS : json) (l : list item) (t : trace) :
  (positionals_of l = [] -> Forall (item_ok testnet_parser) l ->
     run_testnet_main rounds TEZOS_HOME ALPHA_PARAMETERS (line l) () t
     = run_testnet_with rounds TEZOS_HOME ALPHA_PARAMETERS
         (default (VStr $"5") (given $"round_duration" l)) (default (VStr $"1") (given $"num_nodes" l))
         (default VNone (given $"log_dir" l)) () t) /\
  (positionals_of l = [] -> Forall (item_ok node_baker_parser) l ->
     run_node_baker_main rounds TEZOS_HOME ALPHA_PARAMETERS (line l) () t
     = run_node_baker_with rounds TEZOS_HOME ALPHA_PARAMETERS
         (default VNone (given $"contract" l)) (default VNone (given $"storage" l))
         (default (VStr $"2") (given $"time_between_blocks" l)) (default VNone (given $"proto" l)) () t) /\
  (forall d, positionals_of l = positionals xrefs_parser -> Forall (item_ok xrefs_parser) l ->
     given $"proto_dir" l = Some (VStr d) ->
     check_proto_xrefs_main (line l) () t
     = check_proto_xrefs (MkArgs d (bool_decide (given $"labels" l = Some (VBool true)))) help_text () t).
Proof.
  split_and!.
  - intros Hp Hl. destruct (parsed_attr testnet_parser l () t eq_refl eq_refl eq_refl Hp Hl) as (d & E & Hd).
    unfold run_testnet_main. unfold mbind at 1, M_bind at 1. rewrite E.
    rewrite !Hd by (apply dmem_keys; reflexivity). unfold value_or.
    by destruct (given $"round_duration" l), (given $"num_nodes" l), (given $"log_dir" l).
  - intros Hp Hl. destruct (parsed_attr node_baker_parser l () t eq_refl eq_refl eq_refl Hp Hl) as (d & E & Hd).
    unfold run_node_baker_main. unfold mbind at 1, M_bind at 1. rewrite E.
    rewrite !Hd by (apply dmem_keys; reflexivity). unfold value_or.
    by destruct (given $"contract" l), (given $"storage" l), (given $"time_between_blocks" l), (given $"proto" l).
  - intros dir Hp Hl Hdir.
    destruct (parsed_attr xrefs_parser l () t eq_refl eq_refl eq_refl Hp Hl) as (d & E & Hd).
    unfold check_proto_xrefs_main. unfold mbind at 1, M_bind at 1. rewrite E.
    rewrite !Hd by (apply dmem_keys; reflexivity). unfold value_or. rewrite Hdir.
    destruct (given $"labels" l) as [v|]; [|reflexivity].
    assert (bool_decide (v = VBool true) = bool_decide (Some v = Some (VBool true))) as <-
      by (apply bool_decide_ext; split; [congruence|by intros [= ->]]).
    reflexivity.
Qed.
End Lines.

(** ** The report is emptied first *)

Section Reports.
Context {S : Type} {o : OS} {U : UCD} {msg : Messages}.
Context (urlopen : trace -> str -> res (bytes * option str)) (reason : Z -> str).
Context (et_fromstring : str -> res Element) (et_tostring : Element -> str).

Lemma reports_line project pipeline out n (s : S) t :
  plain reports_parser project -> plain reports_parser pipeline -> plain reports_parser out ->
  out <> $"-" -> parse_int pipeline = Some n -> os_write t out $"w" = Ok () ->
  parse_args reports_parser [project; pipeline; out] s t
  = (Ok [($"project_id", VStr project); ($"pipeline_id", VInt n);
         ($"merged_report_output_file", VFile (Some out))], s, t ++ [EWrite out $"w" []]).
Proof.
  intros H1 H2 H3 Hout Hn Hw.
  pose (q1 := Pos $"project_id" TStr). pose (q2 := Pos $"pipeline_id" TInt).
  pose (q3 := Pos $"merged_report_output_file" TFileW).
  assert (Hl : Forall (item_ok reports_parser) [IPos q1 project; IPos q2 pipeline; IPos q3 out])
    by (constructor; [done|constructor; [done|constructor; [done|constructor]]]).
  change [project; pipeline; out] with (line [IPos q1 project; IPos q2 pipeline; IPos q3 out]).
  rewrite (parse_args_items reports_parser [IPos q1 project; IPos q2 pipeline; IPos q3 out] s t
             eq_refl eq_refl eq_refl Hl).
  cbn [apply_items apply_item]. unfold _get_value. cbn [ptype q1 q2 q3]. rewrite Hn, bool_decide_eq_false_2 by done.
  unfold try_except, write_file, request. unfold mbind, M_bind, mret, M_ret. rewrite Hw. reflexivity.
Qed.

Lemma lift_ok {A B} (r : res A) (a : A) (f : A -> M S B) s t : r = Ok a -> (x ← lift r; f x) s t = f a s t.
Proof. by intros ->. Qed.

Lemma endpoint_nonempty : exists c r, JobsReports.endpoint = c :: r.
Proof. vm_compute. eauto. Qed.

#[local] Opaque lit.

Lemma url_nonempty project pipeline : exists c r, jobs_url project pipeline = c :: r.
Proof. unfold jobs_url. destruct endpoint_nonempty as (c & r & ->). cbn [app]. eauto. Qed.

Lemma first_page_refused fuel project pipeline status body (s : S) t :
  urlopen t (jobs_url project pipeline) = Raise (HTTPError status body) ->
  pages_loop urlopen (Datatypes.S fuel) (Some (jobs_url project pipeline)) [] s t
  = (Raise (HTTPError status body), s, t ++ [EHttp $"GET" (jobs_url project pipeline) None]).
Proof.
  destruct (url_nonempty project pipeline) as (c & r & ->). intros Hu. cbn [pages_loop].
  unfold open_url, request. unfold mbind at 1, M_bind at 1. by rewrite Hu.
Qed.

(** C34. jobs_fetch_reports.py opens the file of the merged report while it reads its
    command line, which empties it: if GitLab then refuses the listing of the jobs,
    the script has lost the previous report, the only thing it ever writes. *)
Theorem failed_fetch_empties_report fuel project pipeline out n status body (s : S) t :
  plain reports_parser project -> plain reports_parser pipeline -> plain reports_parser out ->
  out <> $"-" -> parse_int pipeline = Some n -> os_write t out $"w" = Ok () ->
  let url := jobs_url project (str_int n) in
  urlopen (t ++ [EWrite out $"w" []]) url = Raise (HTTPError status body) ->
  exists message,
    reports_main urlopen reason et_fromstring et_tostring (Datatypes.S fuel) [project; pipeline; out] s t
    = (Raise (SystemExit 1), s, t ++ [EWrite out $"w" []; EHttp $"GET" url None; EPrint message]).
Proof.
  intros H1 H2 H3 Hout Hn Hw url Hu. subst url. eexists. unfold reports_main.
  rewrite (bind_same _ (fun s t => (Ok [($"project_id", VStr project); ($"pipeline_id", VInt n);
    ($"merged_report_output_file", VFile (Some out))], s, t ++ [EWrite out $"w" []])) _ s t)
    by (by apply reports_line).
  unfold mbind at 1, M_bind at 1.
  rewrite (lift_ok _ (VStr project)) by done. rewrite (lift_ok _ (VInt n)) by done.
  rewrite (lift_ok _ (VFile (Some out))) by done. cbn [str_value].
  unfold fetch_and_merge_reports, gitlab_api_project_pipeline_jobs, exit_on_http_error.
  unfold try_except. unfold mbind at 1, M_bind at 1.
  rewrite first_page_refused with (status := status) (body := body) by done.
  cbn beta iota. m_run. rewrite <- !app_assoc. reflexivity.
Qed.
#[local] Transparent lit.
End Reports.

(** ** The values a script gets *)

Section Typed.
Context {o : OS} {U : UCD} {msg : Messages}.

(** A text, or the empty list that a command line with an argument ending in "--"
    can leave in its place. *)
Definition text_or_blank (argv : list str) (v : value) : Prop :=
  (exists x, v = VStr x) \/ (v = VList [] /\ ends_dashed argv).

(** A script reads its command line with a parser: if the line is refused, that is
    all it does; if it is accepted, the script goes on as [Q] says. *)
Definition reads_line {A} (p : parser) (argv : list str) (main : M () A) (Q : M () A -> Prop) : Prop :=
  forall s t,
    match parse_args p argv s t with
    | (Ok _, s', t') => exists body, Q body /\ main s t = body s' t'
    | (Raise e, s', t') => main s t = (Raise e, s', t')
    end.

Lemma reads_typed {A} p argv (f : namespace -> M () A) (Q : M () A -> Prop) :
  p ∈ script_parsers ->
  (forall args, (forall name k, dget name (kinds p) = Some k ->
                   exists v, attr name args = Ok v /\ dest_ok (ends_dashed argv) k v) ->
     exists body, Q body /\ forall s t, f args s t = body s t) ->
  reads_line p argv (args ← parse_args p argv; f args) Q.
Proof.
  intros Hp Hf s t. unfold mbind, M_bind. destruct (parse_args p argv s t) as [[[args|e] s'] t'] eqn:E; [|done].
  destruct (Hf args) as (body & HQ & Hb); [|by exists body].
  apply (parse_args_typed p argv (script_parsers_wf p Hp)) in E as [_ Hd].
  intros name k Hn. destruct (Hd name k Hn) as (v & Hv & Hok). exists v. unfold attr. by rewrite Hv.
Qed.

Lemma option_text argv flags d dflt v :
  (dflt = VNone \/ exists x, dflt = VStr x) ->
  dest_ok (ends_dashed argv) (KOption (Opt flags d (Store TStr) dflt)) v ->
  (v = VNone /\ dflt = VNone) \/ text_or_blank argv v.
Proof.
  cbn. unfold text_or_blank. intros [->|[x ->]] [->|[H|H]]; eauto; destruct v; try done; eauto.
Qed.

(** The value of one more attribute. *)
Ltac attribute H name :=
  let v := fresh "v" in let E := fresh "E" in let Hv := fresh "Hv" in
  destruct (H name _ eq_refl) as (v & E & Hv).

Lemma testnet_typed rounds TEZOS_HOME ALPHA_PARAMETERS argv :
  reads_line testnet_parser argv (run_testnet_main rounds TEZOS_HOME ALPHA_PARAMETERS argv) (fun body =>
    exists round_duration num_nodes log_dir,
      text_or_blank argv round_duration /\ text_or_blank argv num_nodes /\
      (log_dir = VNone \/ text_or_blank argv log_dir) /\
      body = run_testnet_with rounds TEZOS_HOME ALPHA_PARAMETERS round_duration num_nodes log_dir).
Proof.
  apply reads_typed; [left|]. intros args H.
  attribute H $"log_dir". attribute H $"round_duration". attribute H $"num_nodes".
  apply option_text in Hv as [[-> _]|Hv]; [| |by left]; apply option_text in Hv0 as [[_ [=]]|Hv0]; eauto;
    apply option_text in Hv1 as [[_ [=]]|Hv1]; eauto; rewrite E, E0, E1; eexists; (split; [|reflexivity]); eauto 10.
Qed.

Lemma node_baker_typed rounds TEZOS_HOME ALPHA_PARAMETERS argv :
  reads_line node_baker_parser argv (run_node_baker_main rounds TEZOS_HOME ALPHA_PARAMETERS argv) (fun body =>
    exists contract storage time_between_blocks proto,
      (contract = VNone \/ text_or_blank argv contract) /\ (storage = VNone \/ text_or_blank argv storage) /\
      text_or_blank argv time_between_blocks /\ (proto = VNone \/ text_or_blank argv proto) /\
      body = run_node_baker_with rounds TEZOS_HOME ALPHA_PARAMETERS contract storage time_between_blocks proto).
Proof.
  apply reads_typed; [right; left|]. intros args H.
  attribute H $"contract". attribute H $"storage". attribute H $"time_between_blocks". attribute H $"proto".
  apply option_text in Hv1 as [[_ [=]]|Hv1]; eauto.
  rewrite E, E0, E1, E2. eexists. split; [|reflexivity]. exists v, v0, v1, v2.
  apply option_text in Hv as [[? _]|?], Hv0 as [[? _]|?], Hv2 as [[? _]|?]; auto 10.
Qed.

Lemma xrefs_typed argv :
  reads_line xrefs_parser argv (check_proto_xrefs_main argv) (fun body =>
    exists proto_dir labels, text_or_blank argv proto_dir /\
      body = match proto_dir with VStr d => check_proto_xrefs (MkArgs d labels) help_text | _ => raise TypeError end).
Proof.
  apply reads_typed; [right; right; left|]. intros args H.
  attribute H $"proto_dir". attribute H $"labels". rewrite E, E0. eexists. split; [|reflexivity].
  exists v, (bool_decide (v0 = VBool true)). split; [|done]. cbn in Hv. unfold text_or_blank.
  destruct Hv as [Hv|Hv]; [|auto]. destruct v; try done. eauto.
Qed.

Lemma ocamldot_typed {fs : FS} (order : forall V, list (str * V) -> list (str * V)) argv :
  reads_line ocamldot_parser argv (ocamldot_command order argv) (fun body =>
    exists inputdirs, body = OcamlDot.main order inputdirs).
Proof.
  apply reads_typed; [by do 4 right; left|]. intros args H. attribute H $"inputdirs". destruct Hv as [l ->].
  rewrite E. eexists. split; [|reflexivity]. by exists l.
Qed.

Context (urlopen : trace -> str -> res (bytes * option str)) (reason : Z -> str).
Context (et_fromstring : str -> res Element) (et_tostring : Element -> str).

Lemma reports_typed fuel argv :
  reads_line reports_parser argv (reports_main urlopen reason et_fromstring et_tostring fuel argv) (fun body =>
    exists project_id pipeline_id out, text_or_blank argv project_id /\
      ((exists n, pipeline_id = VInt n) \/ (pipeline_id = VList [] /\ ends_dashed argv)) /\
      ((exists name, out = VFile name) \/ (out = VList [] /\ ends_dashed argv)) /\
      body = fetch_and_merge_reports urlopen reason et_fromstring et_tostring fuel
               (str_value project_id) (str_value pipeline_id) out).
Proof.
  apply reads_typed; [by do 3 right; left|]. intros args H.
  attribute H $"project_id". attribute H $"pipeline_id". attribute H $"merged_report_output_file".
  rewrite E, E0, E1. eexists. split; [|reflexivity]. exists v, v0, v1. unfold text_or_blank.
  split_and!; [destruct Hv as [Hv|Hv]|destruct Hv0 as [Hv0|Hv0]|destruct Hv1 as [Hv1|Hv1]|done]; auto.
  - destruct v; try done. eauto.
  - destruct v0; try done. eauto.
  - destruct v1; try done. eauto.
Qed.

(** *** The flags *)

(** A word that does not start with a dash *)
Definition bare (a : str) : Prop := startswith $"-" a = false.

Lemma bare_plain p a : bare a -> plain p a.
Proof.
  unfold bare, plain. intros H. split; [by intros ->|]. destruct a as [|c a]; [done|]. cbn in *.
  unfold bool_decide, decide in H. destruct (N.eqb_spec c 45) as [->|]; [|done]. done.
Qed.

(** A line of texts gives the values it spells, and the defaults for the others. *)
Lemma line_values {A} p l (f : namespace -> M () A) (body : M () A) :
  text_parser p = true -> wf_flags p = true -> rest p = None ->
  positionals_of l = positionals p -> Forall (item_ok p) l ->
  (forall args, (forall n, n ∈ dkeys (defaults p) -> attr n args = Ok (value_or n p l)) ->
     forall s t, f args s t = body s t) ->
  forall s t, (args ← parse_args p (line l); f args) s t = body s t.
Proof.
  intros Ht Hw Hr Hp Hl Hf s t. destruct (parsed_attr p l s t Ht Hw Hr Hp Hl) as (d & E & Hd).
  unfold mbind, M_bind. rewrite E. by apply Hf.
Qed.

Ltac known H := rewrite !H by (apply dmem_keys; reflexivity).

Ltac items := repeat (apply Forall_cons; [split_and!; [reflexivity|reflexivity|by apply bare_plain]|]); constructor.

Lemma testnet_line rounds TEZOS_HOME ALPHA_PARAMETERS r n d s t :
  bare r -> bare n -> bare d ->
  run_testnet_main rounds TEZOS_HOME ALPHA_PARAMETERS
    [$"--round-duration"; r; $"--num-nodes"; n; $"--log-dir"; d] s t
  = run_testnet_with rounds TEZOS_HOME ALPHA_PARAMETERS (VStr r) (VStr n) (VStr d) s t.
Proof.
  intros Hr Hn Hd. revert s t.
  apply (line_values testnet_parser
    [IFlag (Opt [$"--round-duration"] $"round_duration" (Store TStr) (VStr $"5")) $"--round-duration" r;
     IFlag (Opt [$"--num-nodes"] $"num_nodes" (Store TStr) (VStr $"1")) $"--num-nodes" n;
     IFlag (Opt [$"--log-dir"] $"log_dir" (Store TStr) VNone) $"--log-dir" d]);
    [reflexivity..|items|]. intros args H s t. by known H.
Qed.

Lemma testnet_defaults rounds TEZOS_HOME ALPHA_PARAMETERS s t :
  run_testnet_main rounds TEZOS_HOME ALPHA_PARAMETERS [] s t
  = run_testnet_with rounds TEZOS_HOME ALPHA_PARAMETERS (VStr $"5") (VStr $"1") VNone s t.
Proof. revert s t. apply (line_values testnet_parser []); [reflexivity..|constructor|]. intros args H s t. by known H. Qed.

Lemma node_baker_line rounds TEZOS_HOME ALPHA_PARAMETERS b c st p s t :
  bare b -> bare c -> bare st -> bare p ->
  run_node_baker_main rounds TEZOS_HOME ALPHA_PARAMETERS
    [$"--time-between-blocks"; b; $"--contract"; c; $"--storage"; st; $"--proto"; p] s t
  = run_node_baker_with rounds TEZOS_HOME ALPHA_PARAMETERS (VStr c) (VStr st) (VStr b) (VStr p) s t.
Proof.
  intros Hb Hc Hst Hp. revert s t.
  apply (line_values node_baker_parser
    [IFlag (Opt [$"--time-between-blocks"] $"time_between_blocks" (Store TStr) (VStr $"2")) $"--time-between-blocks" b;
     IFlag (Opt [$"--contract"] $"contract" (Store TStr) VNone) $"--contract" c;
     IFlag (Opt [$"--storage"] $"storage" (Store TStr) VNone) $"--storage" st;
     IFlag (Opt [$"--proto"] $"proto" (Store TStr) VNone) $"--proto" p]);
    [reflexivity..|items|]. intros args H s t. by known H.
Qed.

Lemma node_baker_defaults rounds TEZOS_HOME ALPHA_PARAMETERS s t :
  run_node_baker_main rounds TEZOS_HOME ALPHA_PARAMETERS [] s t
  = run_node_baker_with rounds TEZOS_HOME ALPHA_PARAMETERS VNone VNone (VStr $"2") VNone s t.
Proof. revert s t. apply (line_values node_baker_parser []); [reflexivity..|constructor|]. intros args H s t. by known H. Qed.

Lemma xrefs_line (sw : option str) d s t :
  bare d -> from_option (fun f => f ∈ [$"-l"; $"--labels"]) True sw ->
  check_proto_xrefs_main (option_list sw ++ [d]) s t
  = check_proto_xrefs (MkArgs d (bool_decide (is_Some sw))) help_text s t.
Proof.
  intros Hd Hf. revert s t. pose (labels := Opt [$"-l"; $"--labels"] $"labels" StoreTrue (VBool false)).
  assert (Hq : forall l, Forall (item_ok xrefs_parser) l -> Forall (item_ok xrefs_parser) (l ++ [IPos (Pos $"proto_dir" TStr) d])).
  { intros l Hl. apply Forall_app. split; [done|]. constructor; [by apply bare_plain|constructor]. }
  destruct sw as [f|]; cbn in Hf.
  - repeat (apply elem_of_cons in Hf as [->|Hf]); [| |by apply elem_of_nil in Hf].
    + apply (line_values xrefs_parser ([ISwitch labels $"-l"] ++ [IPos (Pos $"proto_dir" TStr) d])); [reflexivity..| |].
      { apply Hq. by repeat constructor. } intros args H s t. by known H.
    + apply (line_values xrefs_parser ([ISwitch labels $"--labels"] ++ [IPos (Pos $"proto_dir" TStr) d])); [reflexivity..| |].
      { apply Hq. by repeat constructor. } intros args H s t. by known H.
  - apply (line_values xrefs_parser ([] ++ [IPos (Pos $"proto_dir" TStr) d])); [reflexivity..|by apply Hq|].
    intros args H s t. by known H.
Qed.

Lemma classify_bare p l : Forall bare l -> classify p l = inr (map TArg l).
Proof.
  induction 1 as [|a l Ha Hl IH]; [done|]. cbn [classify map].
  destruct (bare_plain p a Ha) as [H1 H2]. rewrite bool_decide_eq_false_2 by done. by rewrite H2, IH.
Qed.

Lemma match_rest_bare l : match_rest (map TArg l) = (l, []).
Proof. induction l as [|a l IH]; [done|]. cbn. by rewrite IH. Qed.

Lemma remove_dashes_bare l : Forall bare l -> remove_dashes l = l.
Proof.
  induction 1 as [|a l Ha Hl IH]; [done|]. cbn. case_bool_decide as E; [by rewrite E in Ha|]. by rewrite IH.
Qed.

Lemma ocamldot_line {fs : FS} (order : forall V, list (str * V) -> list (str * V)) l s t :
  Forall bare l -> ocamldot_command order l s t = OcamlDot.main order l s t.
Proof.
  intros Hl. unfold ocamldot_command, mbind at 1, M_bind at 1, parse_args. rewrite classify_bare by done.
  assert (Hn : existsb is_opt (map TArg l) = false) by (by induction l as [|a l' IH]; [|inversion Hl; apply IH]).
  cbn [parse_loop]. rewrite Hn. cbn [negb].
  unfold mbind at 1, M_bind at 1, mret at 1, M_ret at 1, consume_positionals. cbn.
  rewrite match_rest_bare. cbn. by rewrite remove_dashes_bare.
Qed.

Lemma reports_run fuel project pipeline out n (s : ()) t :
  bare project -> bare pipeline -> bare out -> parse_int pipeline = Some n -> os_write t out $"w" = Ok () ->
  reports_main urlopen reason et_fromstring et_tostring fuel [project; pipeline; out] s t
  = fetch_and_merge_reports urlopen reason et_fromstring et_tostring fuel
      project (str_int n) (VFile (Some out)) s (t ++ [EWrite out $"w" []]).
Proof.
  intros H1 H2 H3 Hn Hw. assert (out <> $"-") as H4 by (by intros ->).
  unfold reports_main, mbind at 1, M_bind at 1. rewrite (reports_line project pipeline out n s t) by (done || by apply bare_plain).
  reflexivity.
Qed.

(** C9. Whatever the command line of one of the five scripts that parse theirs is: a
    refused line is all the script does; on an accepted one it goes on with values
    of the types it expects, texts, a number for the pipeline, an open file for the
    report, a truth value for the labels, a list of directories, and None only for
    options that were left out; the only exception is an empty list in the place of
    a value, which needs an argument that ends in "--".  Without options
    run_testnet.py and run_node_baker.py use the documented defaults; the words
    after the documented options, and the positional arguments, are the values the
    scripts go on with, each in its place. *)
Theorem script_arguments_typed {fs : FS} (order : forall V, list (str * V) -> list (str * V))
    (rounds fuel : nat) (TEZOS_HOME : str) (ALPHA_PARAMETERS : json) (argv : list str) :
  let testnet := run_testnet_main rounds TEZOS_HOME ALPHA_PARAMETERS in
  let run_testnet := run_testnet_with rounds TEZOS_HOME ALPHA_PARAMETERS in
  let node_baker := run_node_baker_main rounds TEZOS_HOME ALPHA_PARAMETERS in
  let run_node_baker := run_node_baker_with rounds TEZOS_HOME ALPHA_PARAMETERS in
  let reports := reports_main urlopen reason et_fromstring et_tostring fuel in
  let fetch := fetch_and_merge_reports urlopen reason et_fromstring et_tostring fuel in
  let text := text_or_blank argv in
  let blank := fun v => v = VList [] /\ ends_dashed argv in
  (reads_line testnet_parser argv (testnet argv) (fun body => exists rd nn ld,
     text rd /\ text nn /\ (ld = VNone \/ text ld) /\ body = run_testnet rd nn ld)
   /\ reads_line node_baker_parser argv (node_baker argv) (fun body => exists c st tb p,
     (c = VNone \/ text c) /\ (st = VNone \/ text st) /\ text tb /\ (p = VNone \/ text p) /\
     body = run_node_baker c st tb p)
   /\ reads_line xrefs_parser argv (check_proto_xrefs_main argv) (fun body => exists dir labels, text dir /\
     body = match dir with VStr d => check_proto_xrefs (MkArgs d labels) help_text | _ => raise TypeError end)
   /\ reads_line reports_parser argv (reports argv) (fun body => exists project pipeline out,
     text project /\ ((exists n, pipeline = VInt n) \/ blank pipeline) /\
     ((exists name, out = VFile name) \/ blank out) /\ body = fetch (str_value project) (str_value pipeline) out)
   /\ reads_line ocamldot_parser argv (ocamldot_command order argv) (fun body =>
     exists inputdirs, body = OcamlDot.main order inputdirs))
  /\ (forall s t, testnet [] s t = run_testnet (VStr $"5") (VStr $"1") VNone s t
      /\ node_baker [] s t = run_node_baker VNone VNone (VStr $"2") VNone s t)
  /\ (forall l s t, Forall bare l -> ocamldot_command order l s t = OcamlDot.main order l s t)
  /\ (forall w x y z s t, bare w -> bare x -> bare y -> bare z ->
       testnet [$"--round-duration"; w; $"--num-nodes"; x; $"--log-dir"; y] s t
         = run_testnet (VStr w) (VStr x) (VStr y) s t
       /\ node_baker [$"--time-between-blocks"; w; $"--contract"; x; $"--storage"; y; $"--proto"; z] s t
         = run_node_baker (VStr x) (VStr y) (VStr w) (VStr z) s t
       /\ check_proto_xrefs_main [w] s t = check_proto_xrefs (MkArgs w false) help_text s t
       /\ check_proto_xrefs_main [$"-l"; w] s t = check_proto_xrefs (MkArgs w true) help_text s t
       /\ check_proto_xrefs_main [$"--labels"; w] s t = check_proto_xrefs (MkArgs w true) help_text s t
       /\ forall n, parse_int x = Some n -> os_write t y $"w" = Ok () ->
            reports [w; x; y] s t = fetch w (str_int n) (VFile (Some y)) s (t ++ [EWrite y $"w" []])).
Proof.
  intros. split_and!; [by apply testnet_typed|by apply node_baker_typed|apply xrefs_typed|by apply reports_typed
    |apply ocamldot_typed|intros s t; split; [apply testnet_defaults|apply node_baker_defaults]
    |intros l s t Hl; by apply ocamldot_line|].
  intros w x y z s t Hw Hx Hy Hz. split_and!.
  - by apply testnet_line.
  - by apply node_baker_line.
  - by apply (xrefs_line None).
  - apply (xrefs_line (Some $"-l")); [done|left].
  - apply (xrefs_line (Some $"--labels")); [done|by right; left].
  - intros n Hn Hf. by apply reports_run.
Qed.

End Typed.

(** ** Concrete lines *)

#[local] Instance plain_messages : Messages := {| help_text := []; error_text _ := [] |}.

(** A system where files can be written. *)
Definition writable : OS :=
  {| os_isfile _ _ := false; os_isdir _ _ := false; os_environ _ := [];
     os_run _ _ _ _ := Raise OSError; os_spawn _ _ _ _ := Raise OSError;
     os_poll _ _ := None; os_wait _ _ _ := None; os_mkdtemp _ _ := Raise OSError;
     os_tempfile _ := Raise OSError; os_rmtree _ _ := Raise OSError;
     os_read _ _ := Raise OSError; os_write _ _ _ := Ok ();
     os_http _ _ _ _ := Raise OSError; os_utcnow _ := 0; os_getcwd _ := $"/";
     os_listdir _ _ := Raise OSError; os_exec _ _ _ _ := Raise OSError |}.

Definition nodes_option : optional := Opt [$"--num-nodes"] $"num_nodes" (Store TStr) (VStr $"1").
Definition round_option : optional := Opt [$"--round-duration"] $"round_duration" (Store TStr) (VStr $"5").

(** Abbreviated flags, and a line of the fetcher where the file can be written. *)
Lemma script_arguments_typed_witness :
  (exists rd nn ld, text_or_blank [$"--num=3"] rd /\ text_or_blank [$"--num=3"] nn /\
     (ld = VNone \/ text_or_blank [$"--num=3"] ld) /\
     run_testnet_main (o := writable) (U := ascii_only_ucd) 0 [] (JDict []) [$"--num=3"] () []
     = run_testnet_with (o := writable) (U := ascii_only_ucd) 0 [] (JDict []) rd nn ld () [])
  /\ reports_main (o := writable) (U := ascii_only_ucd)
       (fun _ _ => Raise OSError) (fun _ => []) (fun _ => Raise ValueError) (fun _ => [])
       1 [$"tezos/tezos"; $"7"; $"report.xml"] () []
     = fetch_and_merge_reports (o := writable) (U := ascii_only_ucd)
       (fun _ _ => Raise OSError) (fun _ => []) (fun _ => Raise ValueError) (fun _ => [])
       1 $"tezos/tezos" (str_int 7) (VFile (Some $"report.xml")) () [EWrite $"report.xml" $"w" []].
Proof.
  destruct (@script_arguments_typed writable ascii_only_ucd _ (fun _ _ => Raise OSError) (fun _ => [])
    (fun _ => Raise ValueError) (fun _ => []) (Build_FS (fun _ _ => []) (fun _ _ => false)) (fun _ l => l) 0 1 [] (JDict []) [$"--num=3"])
    as ((H & _) & _ & _ & Hl).
  split.
  - specialize (H () []). destruct (parse_args (o := writable) (U := ascii_only_ucd) testnet_parser [$"--num=3"] () []) as [[[d|e] s'] t'] eqn:E;
      vm_compute in E; simplify_eq. destruct H as (body & (rd & nn & ld & H1 & H2 & H3 & ->) & Hrun).
    exists rd, nn, ld. by split_and!.
  - by apply (Hl $"tezos/tezos" $"7" $"report.xml" [] () []).
Defined.

Lemma scripts_read_lines_witness :
  run_testnet_main (o := no_os) (U := ascii_only_ucd) 0 [] (JDict []) [$"--num-nodes=3"; $"--round-duration"; $"7"] () []
  = run_testnet_with (o := no_os) (U := ascii_only_ucd) 0 [] (JDict []) (VStr $"7") (VStr $"3") VNone () [].
Proof.
  refine (proj1 (@scripts_read_lines no_os ascii_only_ucd _ 0 [] (JDict [])
    [IEq nodes_option $"--num-nodes" $"3"; IFlag round_option $"--round-duration" $"7"] []) _ _).
  - reflexivity.
  - repeat constructor; vm_compute; done.
Defined.

Lemma failed_fetch_empties_report_witness :
  exists message,
    reports_main (o := writable) (U := ascii_only_ucd)
      (fun _ _ => Raise (HTTPError 404 [])) (fun _ => []) (fun _ => Raise ValueError) (fun _ => [])
      1 [$"tezos/tezos"; $"7"; $"report.xml"] () []
    = (Raise (SystemExit 1), (), [EWrite $"report.xml" $"w" []; EHttp $"GET" (jobs_url $"tezos/tezos" $"7") None;
                                  EPrint message]).
Proof.
  refine (@failed_fetch_empties_report () writable ascii_only_ucd _ (fun _ _ => Raise (HTTPError 404 []))
    (fun _ => []) (fun _ => Raise ValueError) (fun _ => []) 0 $"tezos/tezos" $"7" $"report.xml" 7 404 [] () [] _ _ _ _ _ _ _).
  all: try (split; [done|vm_compute; reflexivity]).
  all: vm_compute; try reflexivity. discriminate.
Defined.
